(** * Raw pixel codec of the ITS/MFT ALPIDE readout: RawPixelReader.h

    Shallow embedding of [o2::itsmft::RawPixelReader] (encoder
    [digits2raw] / [fillRULinks] / [flushSuperPages], decoder
    [cacheLinksData] / [findNextRDH] / [decodeRUData] /
    [decodeAlpideData] / [getNextChipData]) and the properties of its
    framing, lane accounting and caching.

    Integers of the source are kept as [Z]; a field of [w] bits is
    truncated with [Z.land _ (Z.ones w)] where the source stores into it.
    Byte buffers are lists of [Z] in [0, 256). *)

From Stdlib Require Import ZArith Lia List Bool.
From stdpp Require Import base list.

Open Scope Z_scope.

(** ** Constants of RawPixelReader.h *)

Definition MaxLinksPerRU : Z := 3.
Definition MaxCablesPerRU : Z := 28.
Definition MaxChipsPerRU : Z := 196.
Definition MaxGBTPacketBytes : Z := 8 * 1024.
Definition NCRUPagesPerSuperpage : Z := 256.

(** Modelled from the spec: ITSMFTReconstruction/GBTWord.h is not among the
    sources; the spec gives the GBT word width as 10 bytes (compact) or 16
    bytes (padded to 128 bits). *)
Definition GBTWordLength : Z := 10.
Definition GBTPaddedWordLength : Z := 16.

(** ** Little-endian memory *)

Definition byteAt (mem : list Z) (off : Z) : Z :=
  if off <? 0 then 0 else default 0 (mem !! Z.to_nat off).

(** [n] bytes of [mem] from offset [off]; memory outside [mem] reads as 0. *)
Definition peek (mem : list Z) (off : Z) (n : nat) : list Z :=
  let lead := Nat.min n (Z.to_nat (- off)) in
  let body := take (n - lead) (drop (Z.to_nat off) mem) in
  replicate lead 0 ++ body ++ replicate (n - lead - length body) 0.

Fixpoint leZ (bs : list Z) : Z :=
  match bs with
  | [] => 0
  | b :: bs' => b + 256 * leZ bs'
  end.

Fixpoint leBytes (n : nat) (v : Z) : list Z :=
  match n with
  | O => []
  | S n' => Z.land v 255 :: leBytes n' (Z.shiftr v 8)
  end.

Definition bits (w lo n : Z) : Z := Z.land (Z.shiftr w lo) (Z.ones n).

Definition trunc (n v : Z) : Z := Z.land v (Z.ones n).

(** Overwrite [bs] into [mem] starting at position [pos]; a position outside
    the list is left alone (the source would write out of bounds there). *)
Fixpoint poke (mem : list Z) (pos : nat) (bs : list Z) : list Z :=
  match bs with
  | [] => mem
  | b :: bs' => poke (<[pos := b]> mem) (S pos) bs'
  end.

(** ** PayLoadCont *)

(** Modelled from the spec: ITSMFTReconstruction/PayLoadCont.h is not among
    the sources. Following the spec's design note it is an owned byte buffer
    ([pl_buf], the bytes between the buffer's begin and end) with a read
    cursor ([pl_ptr], an offset from the begin); append, clear, cursor moves
    and "move unused to head" are the operations RawPixelReader.h calls. *)
Record PayLoadCont := mkPL { pl_buf : list Z; pl_ptr : Z }.

Module PL.
Definition empty : PayLoadCont := mkPL [] 0.
Definition clear (c : PayLoadCont) : PayLoadCont := empty.
Definition getSize (c : PayLoadCont) : Z := Z.of_nat (length (pl_buf c)).
Definition getUnusedSize (c : PayLoadCont) : Z :=
  if pl_ptr c <? getSize c then getSize c - pl_ptr c else 0.
Definition isEmpty (c : PayLoadCont) : bool := getSize c <=? pl_ptr c.
Definition add (c : PayLoadCont) (bs : list Z) : PayLoadCont :=
  mkPL (pl_buf c ++ bs) (pl_ptr c).
Definition fill (c : PayLoadCont) (v : Z) (n : Z) : PayLoadCont :=
  mkPL (pl_buf c ++ replicate (Z.to_nat n) v) (pl_ptr c).
Definition setPtr (c : PayLoadCont) (p : Z) : PayLoadCont := mkPL (pl_buf c) p.
Definition getPtr (c : PayLoadCont) : Z := pl_ptr c.
Definition moveUnusedToHead (c : PayLoadCont) : PayLoadCont :=
  mkPL (drop (Z.to_nat (pl_ptr c)) (pl_buf c)) 0.
(** [current(h)]: the byte under the cursor, if any. *)
Definition current (c : PayLoadCont) : option Z :=
  if isEmpty c then None else Some (byteAt (pl_buf c) (pl_ptr c)).
(** The unread bytes. *)
Definition unused (c : PayLoadCont) : list Z :=
  drop (Z.to_nat (pl_ptr c)) (pl_buf c).
End PL.

(** ** RAWDataHeader *)

(** Modelled from the spec: Headers/RAWDataHeader.h is not among the sources.
    The record has the fields RawPixelReader.h reads and writes (those the
    spec lists, and the reserved must-be-zero fields of [isRDHHeuristic]);
    the layout is the 64-byte little-endian one of eight 64-bit words. *)
Record RDH := mkRDH {
  version : Z; headerSize : Z; blockLength : Z; feeId : Z; priority : Z; zero0 : Z;
  offsetToNext : Z; memorySize : Z; linkID : Z; packetCounter : Z; cruID : Z; zero1 : Z;
  triggerOrbit : Z; heartbeatOrbit : Z;
  triggerBC : Z; zero41 : Z; heartbeatBC : Z; zero42 : Z; triggerType : Z;
  word5 : Z;
  detectorField : Z; par : Z; stop : Z; pageCnt : Z; zero6 : Z
}.

Definition sizeofRDH : Z := 64.

(** The default-constructed header: version 4, header size 64, dummy block
    length, everything else zero. *)
Definition rdhDefault : RDH :=
  mkRDH 4 sizeofRDH 0xffff 0 0 0  0 0 0 0 0 0  0 0  0 0 0 0 0  0  0 0 0 0 0.

Definition readRDH (mem : list Z) (off : Z) : RDH :=
  let w0 := leZ (peek mem off 8) in
  let w1 := leZ (peek mem (off + 8) 8) in
  let w2 := leZ (peek mem (off + 16) 8) in
  let w4 := leZ (peek mem (off + 32) 8) in
  let w5 := leZ (peek mem (off + 40) 8) in
  let w6 := leZ (peek mem (off + 48) 8) in
  {| version := bits w0 0 8; headerSize := bits w0 8 8; blockLength := bits w0 16 16;
     feeId := bits w0 32 16; priority := bits w0 48 8; zero0 := bits w0 56 8;
     offsetToNext := bits w1 0 16; memorySize := bits w1 16 16; linkID := bits w1 32 8;
     packetCounter := bits w1 40 8; cruID := bits w1 48 12; zero1 := bits w1 60 4;
     triggerOrbit := bits w2 0 32; heartbeatOrbit := bits w2 32 32;
     triggerBC := bits w4 0 12; zero41 := bits w4 12 4; heartbeatBC := bits w4 16 12;
     zero42 := bits w4 28 4; triggerType := bits w4 32 32;
     word5 := w5;
     detectorField := bits w6 0 16; par := bits w6 16 16; stop := bits w6 32 8;
     pageCnt := bits w6 40 16; zero6 := bits w6 56 8 |}.

Definition field (v lo n : Z) : Z := Z.shiftl (trunc n v) lo.

Definition writeRDH (h : RDH) : list Z :=
  leBytes 8 (field (version h) 0 8 + field (headerSize h) 8 8 + field (blockLength h) 16 16
             + field (feeId h) 32 16 + field (priority h) 48 8 + field (zero0 h) 56 8)
  ++ leBytes 8 (field (offsetToNext h) 0 16 + field (memorySize h) 16 16
                + field (linkID h) 32 8 + field (packetCounter h) 40 8
                + field (cruID h) 48 12 + field (zero1 h) 60 4)
  ++ leBytes 8 (field (triggerOrbit h) 0 32 + field (heartbeatOrbit h) 32 32)
  ++ leBytes 8 0
  ++ leBytes 8 (field (triggerBC h) 0 12 + field (zero41 h) 12 4 + field (heartbeatBC h) 16 12
                + field (zero42 h) 28 4 + field (triggerType h) 32 32)
  ++ leBytes 8 (word5 h)
  ++ leBytes 8 (field (detectorField h) 0 16 + field (par h) 16 16 + field (stop h) 32 8
                + field (pageCnt h) 40 16 + field (zero6 h) 56 8)
  ++ leBytes 8 0.

(** Byte offset of [offsetToNext] inside the header. *)
Definition offsetToNext_pos : nat := 8.

(** Field updates, as record copies. *)
Definition set_offsetToNext (v : Z) (h : RDH) : RDH :=
  mkRDH (version h) (headerSize h) (blockLength h) (feeId h) (priority h) (zero0 h)
        (trunc 16 v) (memorySize h) (linkID h) (packetCounter h) (cruID h) (zero1 h)
        (triggerOrbit h) (heartbeatOrbit h)
        (triggerBC h) (zero41 h) (heartbeatBC h) (zero42 h) (triggerType h)
        (word5 h) (detectorField h) (par h) (stop h) (pageCnt h) (zero6 h).
Definition set_memorySize (v : Z) (h : RDH) : RDH :=
  mkRDH (version h) (headerSize h) (blockLength h) (feeId h) (priority h) (zero0 h)
        (offsetToNext h) (trunc 16 v) (linkID h) (packetCounter h) (cruID h) (zero1 h)
        (triggerOrbit h) (heartbeatOrbit h)
        (triggerBC h) (zero41 h) (heartbeatBC h) (zero42 h) (triggerType h)
        (word5 h) (detectorField h) (par h) (stop h) (pageCnt h) (zero6 h).
Definition set_feeId_link (fee lnk : Z) (h : RDH) : RDH :=
  mkRDH (version h) (headerSize h) (blockLength h) (trunc 16 fee) (priority h) (zero0 h)
        (offsetToNext h) (memorySize h) (trunc 8 lnk) (packetCounter h) (cruID h) (zero1 h)
        (triggerOrbit h) (heartbeatOrbit h)
        (triggerBC h) (zero41 h) (heartbeatBC h) (zero42 h) (triggerType h)
        (word5 h) (detectorField h) (par h) (stop h) (pageCnt h) (zero6 h).
Definition set_page (cnt stp : Z) (h : RDH) : RDH :=
  mkRDH (version h) (headerSize h) (blockLength h) (feeId h) (priority h) (zero0 h)
        (offsetToNext h) (memorySize h) (linkID h) (packetCounter h) (cruID h) (zero1 h)
        (triggerOrbit h) (heartbeatOrbit h)
        (triggerBC h) (zero41 h) (heartbeatBC h) (zero42 h) (triggerType h)
        (word5 h) (detectorField h) (par h) (trunc 8 stp) (trunc 16 cnt) (zero6 h).

(** [isRDHHeuristic]: heuristic check if this is indeed an RDH. The pointer
    is never null where the reader calls it. *)
Definition isRDHHeuristic (rdh : RDH) : bool :=
  if (negb (headerSize rdh =? sizeofRDH)) || negb (zero0 rdh =? 0) || negb (zero1 rdh =? 0)
     || negb (zero41 rdh =? 0) || negb (zero42 rdh =? 0) || negb (word5 rdh =? 0)
     || negb (zero6 rdh =? 0)
  then false else true.

(** [isSameRUandTrigger]: check if [rdhNew] is just a continuation of the
    data described by [rdhOld]. *)
Definition isSameRUandTrigger (rdhOld rdhNew : RDH) : bool :=
  if (pageCnt rdhNew =? 0) || negb (feeId rdhNew =? feeId rdhOld)
     || negb (triggerOrbit rdhNew =? triggerOrbit rdhOld)
     || negb (triggerBC rdhNew =? triggerBC rdhOld)
     || negb (heartbeatOrbit rdhNew =? heartbeatOrbit rdhOld)
     || negb (heartbeatBC rdhNew =? heartbeatBC rdhOld)
     || (Z.land (triggerType rdhNew) (triggerType rdhOld) =? 0)
  then false else true.

(** ** Trigger bits *)

(** Modelled from the spec: DetectorsBase/Triggers.h is not among the
    sources. The spec speaks of "the SOT bit" of [triggerType]; [PhT] is the
    physics-trigger bit the encoder stamps. Both are single bits of the
    32-bit trigger word. *)
Module trigger.
Definition PhT : Z := Z.shiftl 1 4.
Definition SOT : Z := Z.shiftl 1 7.
End trigger.

(** ** GBT words *)

(** Modelled from the spec: ITSMFTReconstruction/GBTWord.h is not among the
    sources. A GBT word is 80 bits, optionally padded to 128; byte 9 is the
    word's flag (data header, data trailer, or the cable flag of a data word
    whose bytes 0..8 are cable payload). The header carries the packet id
    and the active-lane mask, the trailer the lane-stop mask, the
    lane-timeout mask and the packet state. *)
Module GBT.
Definition FlagDataHeader : Z := 0xe0.
Definition FlagDataTrailer : Z := 0xf0.
Definition PacketDone : Z := 0.
Definition NStatesDefined : Z := 5.
Definition MaxStateCombinations : Z := Z.shiftl 1 NStatesDefined.

(** In-memory image ([mData8], 16 bytes) of a data header. *)
Definition header (packetID lanes : Z) : list Z :=
  leBytes 8 (field packetID 0 16 + field lanes 16 28) ++ [0; FlagDataHeader] ++ [0;0;0;0;0;0].
(** In-memory image of a data trailer. *)
Definition trailer (lanesStop lanesTimeout packetState : Z) : list Z :=
  leBytes 8 (field lanesStop 0 28 + field lanesTimeout 32 28)
  ++ [trunc 8 packetState; FlagDataTrailer] ++ [0;0;0;0;0;0].

Definition isDataHeader (mem : list Z) (off : Z) : bool := byteAt mem (off + 9) =? FlagDataHeader.
Definition isDataTrailer (mem : list Z) (off : Z) : bool := byteAt mem (off + 9) =? FlagDataTrailer.
Definition getPacketID (mem : list Z) (off : Z) : Z := bits (leZ (peek mem off 8)) 0 16.
Definition getLanes (mem : list Z) (off : Z) : Z := bits (leZ (peek mem off 8)) 16 28.
Definition getLanesStop (mem : list Z) (off : Z) : Z := bits (leZ (peek mem off 8)) 0 28.
Definition getLanesTimeout (mem : list Z) (off : Z) : Z := bits (leZ (peek mem off 8)) 32 28.
Definition getPacketState (mem : list Z) (off : Z) : Z := byteAt mem (off + 8).
Definition getCableID (mem : list Z) (off : Z) : Z := Z.land (byteAt mem (off + 9)) 0x1f.
End GBT.

(** ** Decoding statistics *)

Inductive DecErrors :=
  | ErrPageCounterDiscontinuity | ErrRDHvsGBTHPageCnt | ErrMissingGBTHeader
  | ErrMissingGBTTrailer | ErrNonZeroPageAfterStop | ErrUnstoppedLanes
  | ErrDataForStoppedLane | ErrNoDataForActiveLane | ErrIBChipLaneMismatch
  | ErrCableDataHeadWrong.

Definition errIdx (e : DecErrors) : nat :=
  match e with
  | ErrPageCounterDiscontinuity => 0 | ErrRDHvsGBTHPageCnt => 1 | ErrMissingGBTHeader => 2
  | ErrMissingGBTTrailer => 3 | ErrNonZeroPageAfterStop => 4 | ErrUnstoppedLanes => 5
  | ErrDataForStoppedLane => 6 | ErrNoDataForActiveLane => 7 | ErrIBChipLaneMismatch => 8
  | ErrCableDataHeadWrong => 9
  end%nat.

Definition NErrorsDefined : nat := 10.

Record RUDecodingStat := mkRUStat {
  lanesActive : Z;      (* lanes declared by the payload header *)
  lanesStop : Z;        (* lanes received stop in the payload trailer *)
  lanesTimeOut : Z;     (* lanes received timeout *)
  lanesWithData : Z;    (* lanes with data transmitted *)
  nPackets : Z;
  errorCounts : list Z;
  packetStates : list Z
}.

Definition ruStatInit : RUDecodingStat :=
  mkRUStat 0 0 0 0 0 (replicate NErrorsDefined 0)
           (replicate (Z.to_nat GBT.MaxStateCombinations) 0).

Definition errCount (e : DecErrors) (s : RUDecodingStat) : Z :=
  default 0 (errorCounts s !! errIdx e).

(** [errorCounts[e]++] *)
Definition incErr (e : DecErrors) (s : RUDecodingStat) : RUDecodingStat :=
  mkRUStat (lanesActive s) (lanesStop s) (lanesTimeOut s) (lanesWithData s) (nPackets s)
           (alter (fun c => c + 1) (errIdx e) (errorCounts s)) (packetStates s).

Definition set_laneMasks (act stp tmo wd : Z) (s : RUDecodingStat) : RUDecodingStat :=
  mkRUStat act stp tmo wd (nPackets s) (errorCounts s) (packetStates s).

Definition incPackets (s : RUDecodingStat) : RUDecodingStat :=
  mkRUStat (lanesActive s) (lanesStop s) (lanesTimeOut s) (lanesWithData s)
           (trunc 32 (nPackets s + 1)) (errorCounts s) (packetStates s).

(** [packetStates[st]++]. The array has [MaxStateCombinations] slots and
    the index, a byte of the trailer, is not checked: outside the array
    the write has no defined result. *)
Definition incPacketState (st : Z) (s : RUDecodingStat) : option RUDecodingStat :=
  if (0 <=? st) && (st <? GBT.MaxStateCombinations) then
    Some (mkRUStat (lanesActive s) (lanesStop s) (lanesTimeOut s) (lanesWithData s) (nPackets s)
                   (errorCounts s) (alter (fun c => c + 1) (Z.to_nat st) (packetStates s)))
  else None.

Record RawDecodingStat := mkRawStat {
  nPagesProcessed : Z; nRUsProcessed : Z; nBytesProcessed : Z;
  nNonEmptyChips : Z; nHitsDecoded : Z
}.

(** ** Pixel data *)

Record InteractionRecord := mkIR { orbit : Z; bc : Z }.

(** Modelled from the spec: ITSMFTReconstruction/PixelData.h and the Digit
    class are not among the sources; the spec's ChipPixelData is
    [{ chipId, ir, triggerMask, hits: [(row, col)] }]. *)
Record PixelData := mkPix { row : Z; col : Z }.
Record Digit := mkDigit { chipIndex : Z; d_row : Z; d_col : Z }.
Record ChipPixelData := mkChip {
  chipID : Z; cp_ir : InteractionRecord; cp_trigger : Z; pixels : list PixelData
}.
Definition chipDefault : ChipPixelData := mkChip 0 (mkIR 0 0) 0 [].
Definition chip_clear (c : ChipPixelData) : ChipPixelData :=
  mkChip (chipID c) (cp_ir c) (cp_trigger c) [].
Definition chip_setID (i : Z) (c : ChipPixelData) : ChipPixelData :=
  mkChip i (cp_ir c) (cp_trigger c) (pixels c).
Definition chip_addPixel (p : PixelData) (c : ChipPixelData) : ChipPixelData :=
  mkChip (chipID c) (cp_ir c) (cp_trigger c) (pixels c ++ [p]).
Definition chip_setIR (ir : InteractionRecord) (c : ChipPixelData) : ChipPixelData :=
  mkChip (chipID c) ir (cp_trigger c) (pixels c).
Definition chip_setTrigger (t : Z) (c : ChipPixelData) : ChipPixelData :=
  mkChip (chipID c) (cp_ir c) t (pixels c).

(** ** Per-RU containers *)

(** Modelled from the spec: ITSMFTReconstruction/RUInfo.h is not among the
    sources; these are the fields of RUInfo that RawPixelReader.h reads. *)
Module RUInfo.
Record t := mk { idSW : Z; idHW : Z; ruType : Z; nCables : Z }.
End RUInfo.

(** support for the GBT single link data *)
Record RULink := mkLink {
  data : PayLoadCont;   (* data buffer per link *)
  lastPageSize : Z;     (* size of last added page = offset from the end to get to the RDH *)
  nTriggers : Z;        (* number of triggers loaded (the last one might be incomplete) *)
  lanes : Z             (* lanes served by this link *)
}.
Definition linkDefault : RULink := mkLink PL.empty 0 0 0.

Record RUDecodeData := mkRU {
  cableData : list PayLoadCont;       (* cable data in compressed ALPIDE format *)
  cableHWID : list Z;                 (* HW ID of the cable in the slot of cableData *)
  chipsData : list ChipPixelData;     (* fully decoded data *)
  links : list (option RULink);       (* data + counters for links of this RU *)
  statistics : RUDecodingStat;
  nCables : Z;                        (* total number of cables decoded for single trigger *)
  nChipsFired : Z;                    (* number of chips with data or with errors *)
  lastChipChecked : Z;                (* last chips checked among nChipsFired *)
  ruInfo : option RUInfo.t
}.

Definition ruDefault : RUDecodeData :=
  mkRU (replicate (Z.to_nat MaxCablesPerRU) PL.empty)
       (replicate (Z.to_nat MaxCablesPerRU) 0)
       (replicate (Z.to_nat MaxChipsPerRU) chipDefault)
       (replicate (Z.to_nat MaxLinksPerRU) None)
       ruStatInit 0 0 0 None.

(** Field updates of the containers, as record copies. *)
Definition set_data (v : PayLoadCont) (r : RULink) : RULink :=
  mkLink v (lastPageSize r) (nTriggers r) (lanes r).
Definition set_lastPageSize (v : Z) (r : RULink) : RULink :=
  mkLink (data r) v (nTriggers r) (lanes r).
Definition set_nTriggers (v : Z) (r : RULink) : RULink :=
  mkLink (data r) (lastPageSize r) v (lanes r).
Definition set_lanes (v : Z) (r : RULink) : RULink :=
  mkLink (data r) (lastPageSize r) (nTriggers r) v.
Definition set_cableData (v : list PayLoadCont) (r : RUDecodeData) : RUDecodeData :=
  mkRU v (cableHWID r) (chipsData r) (links r) (statistics r) (nCables r) (nChipsFired r) (lastChipChecked r) (ruInfo r).
Definition set_cableHWID (v : list Z) (r : RUDecodeData) : RUDecodeData :=
  mkRU (cableData r) v (chipsData r) (links r) (statistics r) (nCables r) (nChipsFired r) (lastChipChecked r) (ruInfo r).
Definition set_chipsData (v : list ChipPixelData) (r : RUDecodeData) : RUDecodeData :=
  mkRU (cableData r) (cableHWID r) v (links r) (statistics r) (nCables r) (nChipsFired r) (lastChipChecked r) (ruInfo r).
Definition set_links (v : list (option RULink)) (r : RUDecodeData) : RUDecodeData :=
  mkRU (cableData r) (cableHWID r) (chipsData r) v (statistics r) (nCables r) (nChipsFired r) (lastChipChecked r) (ruInfo r).
Definition set_statistics (v : RUDecodingStat) (r : RUDecodeData) : RUDecodeData :=
  mkRU (cableData r) (cableHWID r) (chipsData r) (links r) v (nCables r) (nChipsFired r) (lastChipChecked r) (ruInfo r).
Definition set_nCables (v : Z) (r : RUDecodeData) : RUDecodeData :=
  mkRU (cableData r) (cableHWID r) (chipsData r) (links r) (statistics r) v (nChipsFired r) (lastChipChecked r) (ruInfo r).
Definition set_nChipsFired (v : Z) (r : RUDecodeData) : RUDecodeData :=
  mkRU (cableData r) (cableHWID r) (chipsData r) (links r) (statistics r) (nCables r) v (lastChipChecked r) (ruInfo r).
Definition set_lastChipChecked (v : Z) (r : RUDecodeData) : RUDecodeData :=
  mkRU (cableData r) (cableHWID r) (chipsData r) (links r) (statistics r) (nCables r) (nChipsFired r) v (ruInfo r).
Definition set_ruInfo (v : option RUInfo.t) (r : RUDecodeData) : RUDecodeData :=
  mkRU (cableData r) (cableHWID r) (chipsData r) (links r) (statistics r) (nCables r) (nChipsFired r) (lastChipChecked r) v.
Definition set_nPagesProcessed (v : Z) (r : RawDecodingStat) : RawDecodingStat :=
  mkRawStat v (nRUsProcessed r) (nBytesProcessed r) (nNonEmptyChips r) (nHitsDecoded r).
Definition set_nRUsProcessed (v : Z) (r : RawDecodingStat) : RawDecodingStat :=
  mkRawStat (nPagesProcessed r) v (nBytesProcessed r) (nNonEmptyChips r) (nHitsDecoded r).
Definition set_nBytesProcessed (v : Z) (r : RawDecodingStat) : RawDecodingStat :=
  mkRawStat (nPagesProcessed r) (nRUsProcessed r) v (nNonEmptyChips r) (nHitsDecoded r).
Definition set_nNonEmptyChips (v : Z) (r : RawDecodingStat) : RawDecodingStat :=
  mkRawStat (nPagesProcessed r) (nRUsProcessed r) (nBytesProcessed r) v (nHitsDecoded r).
Definition set_nHitsDecoded (v : Z) (r : RawDecodingStat) : RawDecodingStat :=
  mkRawStat (nPagesProcessed r) (nRUsProcessed r) (nBytesProcessed r) (nNonEmptyChips r) v.

(** ** The reader *)

Record RawPixelReader := mkReader {
  mCurRUDecodeID : Z;                (* index of currently processed RUDecode container *)
  mRawBuffer : PayLoadCont;          (* buffer for binary raw data file IO *)
  mRUDecodeVec : list RUDecodeData;  (* decoding buffers for all active RUs *)
  mRUEntry : list Z;                 (* entry of the RU with given SW ID in mRUDecodeVec *)
  mNRUs : Z;                         (* total number of RUs seen *)
  mNLinks : Z;                       (* total number of GBT links seen *)
  mMinTriggersToCache : Z;           (* min number of triggers to cache per link *)
  mMinTriggersCached : Z;            (* actual minimum (among links) number of triggers cached *)
  mDecodingStat : RawDecodingStat;   (* global decoding statistics *)
  mPadding128 : bool;                (* is payload padded to 128 bits *)
  mImposeMaxPage : bool;             (* standard CRU data comes in 8KB pages *)
  mGBTWordSize : Z;                  (* bytes of the GBT word, with optional padding *)
  mInteractionRecord : InteractionRecord;
  mInteractionRecordHB : InteractionRecord;
  mTrigger : Z
}.

Definition set_mCurRUDecodeID (v : Z) (r : RawPixelReader) : RawPixelReader :=
  mkReader v (mRawBuffer r) (mRUDecodeVec r) (mRUEntry r) (mNRUs r) (mNLinks r) (mMinTriggersToCache r) (mMinTriggersCached r) (mDecodingStat r) (mPadding128 r) (mImposeMaxPage r) (mGBTWordSize r) (mInteractionRecord r) (mInteractionRecordHB r) (mTrigger r).
Definition set_mRawBuffer (v : PayLoadCont) (r : RawPixelReader) : RawPixelReader :=
  mkReader (mCurRUDecodeID r) v (mRUDecodeVec r) (mRUEntry r) (mNRUs r) (mNLinks r) (mMinTriggersToCache r) (mMinTriggersCached r) (mDecodingStat r) (mPadding128 r) (mImposeMaxPage r) (mGBTWordSize r) (mInteractionRecord r) (mInteractionRecordHB r) (mTrigger r).
Definition set_mRUDecodeVec (v : list RUDecodeData) (r : RawPixelReader) : RawPixelReader :=
  mkReader (mCurRUDecodeID r) (mRawBuffer r) v (mRUEntry r) (mNRUs r) (mNLinks r) (mMinTriggersToCache r) (mMinTriggersCached r) (mDecodingStat r) (mPadding128 r) (mImposeMaxPage r) (mGBTWordSize r) (mInteractionRecord r) (mInteractionRecordHB r) (mTrigger r).
Definition set_mRUEntry (v : list Z) (r : RawPixelReader) : RawPixelReader :=
  mkReader (mCurRUDecodeID r) (mRawBuffer r) (mRUDecodeVec r) v (mNRUs r) (mNLinks r) (mMinTriggersToCache r) (mMinTriggersCached r) (mDecodingStat r) (mPadding128 r) (mImposeMaxPage r) (mGBTWordSize r) (mInteractionRecord r) (mInteractionRecordHB r) (mTrigger r).
Definition set_mNRUs (v : Z) (r : RawPixelReader) : RawPixelReader :=
  mkReader (mCurRUDecodeID r) (mRawBuffer r) (mRUDecodeVec r) (mRUEntry r) v (mNLinks r) (mMinTriggersToCache r) (mMinTriggersCached r) (mDecodingStat r) (mPadding128 r) (mImposeMaxPage r) (mGBTWordSize r) (mInteractionRecord r) (mInteractionRecordHB r) (mTrigger r).
Definition set_mNLinks (v : Z) (r : RawPixelReader) : RawPixelReader :=
  mkReader (mCurRUDecodeID r) (mRawBuffer r) (mRUDecodeVec r) (mRUEntry r) (mNRUs r) v (mMinTriggersToCache r) (mMinTriggersCached r) (mDecodingStat r) (mPadding128 r) (mImposeMaxPage r) (mGBTWordSize r) (mInteractionRecord r) (mInteractionRecordHB r) (mTrigger r).
Definition set_mMinTriggersToCache (v : Z) (r : RawPixelReader) : RawPixelReader :=
  mkReader (mCurRUDecodeID r) (mRawBuffer r) (mRUDecodeVec r) (mRUEntry r) (mNRUs r) (mNLinks r) v (mMinTriggersCached r) (mDecodingStat r) (mPadding128 r) (mImposeMaxPage r) (mGBTWordSize r) (mInteractionRecord r) (mInteractionRecordHB r) (mTrigger r).
Definition set_mMinTriggersCached (v : Z) (r : RawPixelReader) : RawPixelReader :=
  mkReader (mCurRUDecodeID r) (mRawBuffer r) (mRUDecodeVec r) (mRUEntry r) (mNRUs r) (mNLinks r) (mMinTriggersToCache r) v (mDecodingStat r) (mPadding128 r) (mImposeMaxPage r) (mGBTWordSize r) (mInteractionRecord r) (mInteractionRecordHB r) (mTrigger r).
Definition set_mDecodingStat (v : RawDecodingStat) (r : RawPixelReader) : RawPixelReader :=
  mkReader (mCurRUDecodeID r) (mRawBuffer r) (mRUDecodeVec r) (mRUEntry r) (mNRUs r) (mNLinks r) (mMinTriggersToCache r) (mMinTriggersCached r) v (mPadding128 r) (mImposeMaxPage r) (mGBTWordSize r) (mInteractionRecord r) (mInteractionRecordHB r) (mTrigger r).
Definition set_mPadding128 (v : bool) (r : RawPixelReader) : RawPixelReader :=
  mkReader (mCurRUDecodeID r) (mRawBuffer r) (mRUDecodeVec r) (mRUEntry r) (mNRUs r) (mNLinks r) (mMinTriggersToCache r) (mMinTriggersCached r) (mDecodingStat r) v (mImposeMaxPage r) (mGBTWordSize r) (mInteractionRecord r) (mInteractionRecordHB r) (mTrigger r).
Definition set_mImposeMaxPage (v : bool) (r : RawPixelReader) : RawPixelReader :=
  mkReader (mCurRUDecodeID r) (mRawBuffer r) (mRUDecodeVec r) (mRUEntry r) (mNRUs r) (mNLinks r) (mMinTriggersToCache r) (mMinTriggersCached r) (mDecodingStat r) (mPadding128 r) v (mGBTWordSize r) (mInteractionRecord r) (mInteractionRecordHB r) (mTrigger r).
Definition set_mGBTWordSize (v : Z) (r : RawPixelReader) : RawPixelReader :=
  mkReader (mCurRUDecodeID r) (mRawBuffer r) (mRUDecodeVec r) (mRUEntry r) (mNRUs r) (mNLinks r) (mMinTriggersToCache r) (mMinTriggersCached r) (mDecodingStat r) (mPadding128 r) (mImposeMaxPage r) v (mInteractionRecord r) (mInteractionRecordHB r) (mTrigger r).
Definition set_mInteractionRecord (v : InteractionRecord) (r : RawPixelReader) : RawPixelReader :=
  mkReader (mCurRUDecodeID r) (mRawBuffer r) (mRUDecodeVec r) (mRUEntry r) (mNRUs r) (mNLinks r) (mMinTriggersToCache r) (mMinTriggersCached r) (mDecodingStat r) (mPadding128 r) (mImposeMaxPage r) (mGBTWordSize r) v (mInteractionRecordHB r) (mTrigger r).
Definition set_mInteractionRecordHB (v : InteractionRecord) (r : RawPixelReader) : RawPixelReader :=
  mkReader (mCurRUDecodeID r) (mRawBuffer r) (mRUDecodeVec r) (mRUEntry r) (mNRUs r) (mNLinks r) (mMinTriggersToCache r) (mMinTriggersCached r) (mDecodingStat r) (mPadding128 r) (mImposeMaxPage r) (mGBTWordSize r) (mInteractionRecord r) v (mTrigger r).
Definition set_mTrigger (v : Z) (r : RawPixelReader) : RawPixelReader :=
  mkReader (mCurRUDecodeID r) (mRawBuffer r) (mRUDecodeVec r) (mRUEntry r) (mNRUs r) (mNLinks r) (mMinTriggersToCache r) (mMinTriggersCached r) (mDecodingStat r) (mPadding128 r) (mImposeMaxPage r) (mGBTWordSize r) (mInteractionRecord r) (mInteractionRecordHB r) v.

(** 32-bit [int] of the source. *)
Definition INT_MAX : Z := 2147483647.

(** ** Setters of the reader *)

(** [setPadding128]: impose padding model for GBT words. *)
Definition setPadding128 (v : bool) (rd : RawPixelReader) : RawPixelReader :=
  set_mGBTWordSize (if v then GBTPaddedWordLength else GBTWordLength) (set_mPadding128 v rd).

(** [setMinTriggersToCache]: set min number of triggers to cache per frame. *)
Definition setMinTriggersToCache (n : Z) (rd : RawPixelReader) : RawPixelReader :=
  set_mMinTriggersToCache
    (if NCRUPagesPerSuperpage <? n then n else NCRUPagesPerSuperpage + 1) rd.

Definition getMinTriggersToCache (rd : RawPixelReader) : Z := mMinTriggersToCache rd.

(** [imposeMaxPage]: CRU pages are of max size of 8KB. *)
Definition imposeMaxPage (v : bool) (rd : RawPixelReader) : RawPixelReader :=
  set_mImposeMaxPage v rd.

(** ** Chip mapping and ALPIDE coder interfaces *)

Record ChipOnRUInfo := mkChOnRU {
  id : Z; cableSW : Z; cableHW : Z; chipOnModuleHW : Z
}.
Record ChipInfo := mkChipInfo { ru : Z; chOnRU : ChipOnRUInfo }.

(** Modelled from the spec: the [Mapping] template parameter
    (ChipMappingITS.h, ChipMappingMFT.h) is not among the sources; these are
    the operations of the spec's chip-mapping component that
    RawPixelReader.h calls. *)
Class Mapping := {
  getNRUs : Z;
  FEEId2RUSW : Z -> Z;
  RUSW2FEEId : Z -> Z -> Z;
  getRUInfoSW : Z -> RUInfo.t;
  cableHW2SW : Z -> Z -> Z;
  getGlobalChipID : Z -> Z -> RUInfo.t -> Z;
  getChipInfoSW : Z -> ChipInfo;
  getChipOnRUInfo : Z -> Z -> ChipOnRUInfo;
  getNChipsOnRUType : Z -> Z;
  getCablesOnRUType : Z -> Z;
  getGBTHeaderRUType : Z -> Z -> Z;
  getRUDetectorField : Z
}.

(** Modelled from the spec: ITSMFTReconstruction/AlpideCoder.h is not among
    the sources. [encodeChip] and [addEmptyChip] give the bytes appended to
    the cable buffer; [decodeChip] reads one chip record at the cursor of the
    cable buffer and returns the number of bytes consumed, 0 when the buffer
    is exhausted, negative on a malformed record. *)
Class Coder := {
  encodeChip : ChipPixelData -> Z -> Z -> list Z;
  addEmptyChip : Z -> Z -> list Z;
  decodeChip : ChipPixelData -> PayLoadCont -> Z * ChipPixelData * PayLoadCont;
  isChipHeaderOrEmpty : Z -> bool
}.

(** The reader as constructed: no known RUs, default settings. *)
Definition readerInit `{Mapping} : RawPixelReader :=
  mkReader (-1) PL.empty
           (replicate (Z.to_nat getNRUs) ruDefault)
           (replicate (Z.to_nat getNRUs) (-1))
           0 0 (NCRUPagesPerSuperpage + 10) 0
           (mkRawStat 0 0 0 0 0) true true GBTPaddedWordLength
           (mkIR 0 0) (mkIR 0 0) 0.

(** Array access with a [Z] index; [None] outside the array. *)
Definition idx {A} (l : list A) (i : Z) : option A :=
  if i <? 0 then None else l !! Z.to_nat i.
Definition inRange (i n : Z) : bool := (0 <=? i) && (i <? n).

(** ** Decoding *)

(** [loadInput] on an input stream in the failed state, where
    [if (!mIOFile) return 0;] leaves at once: the raw buffer holds the whole
    input and nothing is appended. This is the state of the reader's
    stream after a read attempt without a file, or past the end of the
    file. A stream that was never opened is not failed yet: its first
    [loadInput] moves the unused bytes of the buffer to its head, reads
    nothing and leaves the stream failed; that one call is not modelled. *)
Definition loadInput (buffer : PayLoadCont) : Z * PayLoadCont := (0, buffer).

(** [findNextRDH]: keep reading GBT words until RDH is found. [None] is only
    returned when the fuel runs out. *)
Fixpoint findNextRDH_loop (fuel : nat) (buffer : PayLoadCont) (ptr : Z)
  : option (bool * PayLoadCont) :=
  match fuel with
  | O => None
  | S fuel' =>
    if PL.isEmpty buffer
    then (* loadInput returns 0: break *) Some (false, buffer)
    else
      let ptr := ptr + GBTPaddedWordLength in
      let buffer := PL.setPtr buffer ptr in
      if negb (PL.isEmpty buffer) then
        if isRDHHeuristic (readRDH (pl_buf buffer) ptr) then Some (true, buffer)
        else findNextRDH_loop fuel' buffer ptr
      else Some (false, buffer)
  end.

Definition findNextRDH (buffer : PayLoadCont) : option (bool * PayLoadCont) :=
  findNextRDH_loop (S (length (pl_buf buffer))) buffer (PL.getPtr buffer).

(** The end-of-trigger checks of [decodeRUData] and [skimPaddedRUData], run
    when the next RDH does not continue the trigger of [rdh]. *)
Definition checkEndOfTrigger (rdh : RDH) (ruStat : RUDecodingStat) : RUDecodingStat :=
  (* make sure all lane stops for finished page are received *)
  let ruStat :=
    if negb (lanesActive ruStat =? lanesStop ruStat) then
      if negb (triggerType rdh =? trigger.SOT) (* only SOT trigger allows unstopped lanes? *)
      then incErr ErrUnstoppedLanes ruStat
      else ruStat
    else ruStat in
  (* make sure all active lanes (except those in time-out) have sent some data *)
  if negb (Z.land (trunc 32 (Z.lnot (lanesWithData ruStat))) (lanesActive ruStat)
           =? lanesTimeOut ruStat)
  then incErr ErrNoDataForActiveLane ruStat
  else ruStat.

Section Decoding.
Context {MAP : Mapping} {CODER : Coder}.

(** The data words of one page in [decodeRUData], up to [n] of them or
    until a trailer shows up. [None]: a cable index outside [cableData]. *)
Fixpoint decodeDataWords (n : nat) (wsz : Z) (mem : list Z) (raw : Z)
         (ri : RUInfo.t) (ruDecData : RUDecodeData) : option (Z * RUDecodeData) :=
  match n with
  | O => Some (raw, ruDecData)
  | S n' =>
    if GBT.isDataTrailer mem raw then Some (raw, ruDecData)
    else
      let cabHW := GBT.getCableID mem raw in
      let cabSW := cableHW2SW (RUInfo.ruType ri) cabHW in
      if inRange cabSW MaxCablesPerRU then
        let k := Z.to_nat cabSW in
        let ruStat := statistics ruDecData in
        let ruStat1 :=
          set_laneMasks (lanesActive ruStat) (lanesStop ruStat) (lanesTimeOut ruStat)
                        (Z.lor (lanesWithData ruStat) (trunc 32 (Z.shiftl 1 cabSW))) ruStat in
        let ruStat2 :=
          if negb (Z.land (lanesStop ruStat1) (trunc 32 (Z.shiftl 1 cabSW)) =? 0)
          then incErr ErrDataForStoppedLane ruStat1 else ruStat1 in
        decodeDataWords n' wsz mem (raw + wsz) ri
          (set_statistics ruStat2
            (set_cableHWID (<[k := cabHW]> (cableHWID ruDecData))
              (set_cableData (alter (fun c => PL.add c (peek mem raw 9)) k (cableData ruDecData))
                 ruDecData)))
      else None
  end.

(** The [while (1)] loop of [decodeRUData] over the pages of one trigger;
    [rdhOff] is the position of the page's RDH. Result: the pointer after
    decoding, the RU container, and [aborted]. *)
Fixpoint decodeRUPages (fuel : nat) (wsz : Z) (mem : list Z) (rdhOff : Z)
         (ri : RUInfo.t) (ruDecData : RUDecodeData) : option (Z * RUDecodeData * bool) :=
  match fuel with
  | O => None
  | S fuel' =>
    let rdh := readRDH mem rdhOff in
    let raw := rdhOff + headerSize rdh in
    (* number of GBT words excluding header/trailer *)
    let nGBTWords := Z.quot (memorySize rdh - headerSize rdh) wsz - 2 in
    let ruStat := statistics ruDecData in
    if negb (GBT.isDataHeader mem raw) then
      Some (raw, set_statistics (incErr ErrMissingGBTHeader ruStat) ruDecData, true)
    else
      let ruStat :=
        if negb (GBT.getPacketID mem raw =? pageCnt rdh)
        then incErr ErrRDHvsGBTHPageCnt ruStat else ruStat in
      let ruStat :=
        if (lanesActive ruStat =? lanesStop ruStat) && negb (pageCnt rdh =? 0)
        then incErr ErrNonZeroPageAfterStop ruStat else ruStat in
      let ruStat :=
        set_laneMasks (GBT.getLanes mem raw) (lanesStop ruStat) (lanesTimeOut ruStat)
                      (lanesWithData ruStat) ruStat in
      let ruStat :=
        if pageCnt rdh =? 0
        then set_laneMasks (lanesActive ruStat) 0 (lanesTimeOut ruStat) 0 ruStat
        else ruStat in
      let raw := raw + wsz in
      '(raw, ruDecData) ← decodeDataWords (Z.to_nat nGBTWords) wsz mem raw ri
                             (set_statistics ruStat ruDecData);
      let ruStat := statistics ruDecData in
      (* process GBT trailer *)
      let gbtT := raw in
      if negb (GBT.isDataTrailer mem gbtT) then
        Some (raw, set_statistics (incErr ErrMissingGBTTrailer ruStat) ruDecData, true)
      else
        let ruStat :=
          set_laneMasks (lanesActive ruStat)
                        (Z.lor (lanesStop ruStat) (GBT.getLanesStop mem gbtT))
                        (Z.lor (lanesTimeOut ruStat) (GBT.getLanesTimeout mem gbtT))
                        (lanesWithData ruStat) ruStat in
        let raw := raw + wsz in
        if offsetToNext rdh =? 0 then Some (raw, set_statistics ruStat ruDecData, false)
        else
          let raw := rdhOff + offsetToNext rdh in (* jump to the next packet *)
          let rdhN := readRDH mem raw in
          if negb (isSameRUandTrigger rdh rdhN) then
            let ruStat := checkEndOfTrigger rdh ruStat in
            (* accumulate packet states *)
            ruStat ← incPacketState (GBT.getPacketState mem gbtT) ruStat;
            Some (raw, set_statistics ruStat ruDecData, false)
          else
            let ruStat :=
              if negb (pageCnt rdhN =? pageCnt rdh + 1)
              then incErr ErrPageCounterDiscontinuity ruStat else ruStat in
            decodeRUPages fuel' wsz mem raw ri (set_statistics ruStat ruDecData)
  end.

(** [decodeRUData]: decode raw data of single RU (possibly in a few GBT
    packets), collecting raw data for every cable in the corresponding
    slot of [ruDecData]. [None]: no fuel left, a null [ruInfo], a cable
    index outside the array, or a packet state outside [packetStates]. *)
Definition decodeRUData (fuel : nat) (wsz : Z) (mem : list Z) (raw : Z)
           (ruDecData : RUDecodeData) : option (Z * RUDecodeData * bool) :=
  let rdh := readRDH mem raw in
  if negb (isRDHHeuristic rdh) then Some (raw + wsz, ruDecData, true)
  else
    ri ← ruInfo ruDecData;
    let ruDecData := set_statistics (incPackets (statistics ruDecData)) ruDecData in
    let ruDecData := set_nCables (RUInfo.nCables ri) ruDecData in
    decodeRUPages fuel wsz mem raw ri ruDecData.

(** [getRUDecode]: RU decode container for the RU with given SW ID. *)
Definition getRUDecode (ruSW : Z) (rd : RawPixelReader) : option RUDecodeData :=
  e ← idx (mRUEntry rd) ruSW;
  if e <? 0 then None else idx (mRUDecodeVec rd) e.

(** [getCreateRUDecode]: get RU decode container for RU with given SW ID,
    if does not exist, create it. Returns the slot of the container.
    [None]: [ruSW] outside [mRUEntry] or the slot outside [mRUDecodeVec]. *)
Definition getCreateRUDecode (ruSW : Z) (rd : RawPixelReader)
  : option (Z * RawPixelReader) :=
  e ← idx (mRUEntry rd) ruSW;
  if e <? 0 then
    let slot := mNRUs rd in
    ruD ← idx (mRUDecodeVec rd) slot;
    Some (slot,
          set_mRUDecodeVec
            (<[Z.to_nat slot := set_ruInfo (Some (getRUInfoSW ruSW)) ruD]> (mRUDecodeVec rd))
            (set_mNRUs (mNRUs rd + 1)
               (set_mRUEntry (<[Z.to_nat ruSW := slot]> (mRUEntry rd)) rd)))
  else
    _ ← idx (mRUDecodeVec rd) e;
    Some (e, rd).

(** The flags [enoughTriggers[ru][link]] of [cacheLinksData]. *)
Definition enoughGet (en : list (list bool)) (r l : Z) : bool :=
  default false (row ← idx en r; idx row l).
Definition enoughSet (en : list (list bool)) (r l : Z) : list (list bool) :=
  alter (fun row => <[Z.to_nat l := true]> row) (Z.to_nat r) en.

(** State of the [do ... while] loop of [cacheLinksData]: the reader, the
    read pointer [ptr], the position [rdhPtr] the variable [rdh] points
    to, and the bookkeeping of links with enough triggers. *)
Record CacheLoop := mkCL {
  cl_rd : RawPixelReader; cl_ptr : Z; cl_rdh : Z;
  cl_enough : list (list bool); cl_nLEnough : Z
}.

(** One page of [cacheLinksData], from the [FEEId2RUSW] lookup to the
    update of [rdh] at the end of the loop body: [ptr] is where the page is
    copied from, [rdhPtr] where its header is read. *)
Definition cachePage (st : CacheLoop) : option CacheLoop :=
  let rd := cl_rd st in
  let ptr := cl_ptr st in
  let mem := pl_buf (mRawBuffer rd) in
  let rdh := readRDH mem (cl_rdh st) in
  let ruIDSW := FEEId2RUSW (feeId rdh) in
  '(slot, rd) ← getCreateRUDecode ruIDSW rd;
  ruDecode ← idx (mRUDecodeVec rd) slot;
  olink ← idx (links ruDecode) (linkID rdh);
  (* check if we see new trigger *)
  let '(newTrigger, link, nl) :=
    match olink with
    | Some link =>
      (* was there any data seen on this link before? *)
      let rdhPrev := readRDH (pl_buf (data link))
                             (PL.getSize (data link) - lastPageSize link) in
      (negb (isSameRUandTrigger rdhPrev rdh), link, mNLinks rd)
    | None => (true, linkDefault, mNLinks rd + 1) (* a new link was added *)
    end in
  (* copy data to the buffer of the link and memorize its RDH pointer *)
  let d := PL.add (data link) (peek mem ptr (Z.to_nat (memorySize rdh))) in
  let rdhC := PL.getSize d - memorySize rdh in
  (* since we skip 0-s, we have to modify the offset *)
  let d := mkPL (poke (pl_buf d) (Z.to_nat rdhC + offsetToNext_pos)
                      (leBytes 2 (memorySize rdh))) (pl_ptr d) in
  let link := set_lastPageSize (memorySize rdh) (set_data d link) in
  let '(link, en, nLE) :=
    if newTrigger : bool then
      let link := set_nTriggers (nTriggers link + 1) link in (* acknowledge 1st trigger *)
      if (mMinTriggersToCache rd <=? nTriggers link)
         && negb (enoughGet (cl_enough st) ruIDSW (linkID rdh))
      then (link, enoughSet (cl_enough st) ruIDSW (linkID rdh), cl_nLEnough st + 1)
      else (link, cl_enough st, cl_nLEnough st)
    else (link, cl_enough st, cl_nLEnough st) in
  let ruDecode := set_links (<[Z.to_nat (linkID rdh) := Some link]> (links ruDecode)) ruDecode in
  let stat := mDecodingStat rd in
  let stat := set_nPagesProcessed (nPagesProcessed stat + 1)
                (set_nBytesProcessed (nBytesProcessed stat + memorySize rdh) stat) in
  let ptr := ptr + offsetToNext rdh in
  let rd := set_mRawBuffer (PL.setPtr (mRawBuffer rd) ptr)
              (set_mDecodingStat stat
                (set_mNLinks nl
                  (set_mRUDecodeVec (<[Z.to_nat slot := ruDecode]> (mRUDecodeVec rd)) rd))) in
  (* loadInput leaves the buffer alone; rdh is taken at ptr again *)
  Some (mkCL rd ptr ptr en nLE).

(** The [do ... while (!buffer.isEmpty())] loop of [cacheLinksData]. *)
Fixpoint cacheLoop (fuel : nat) (st : CacheLoop) : option CacheLoop :=
  match fuel with
  | O => None
  | S fuel' =>
    let rd := cl_rd st in
    (* does it look like RDH? if not, try to recover the pointer *)
    '(go, st) ←
      (if isRDHHeuristic (readRDH (pl_buf (mRawBuffer rd)) (cl_rdh st))
       then Some (true, st)
       else
         '(found, buffer) ← findNextRDH (mRawBuffer rd);
         Some (found, mkCL (set_mRawBuffer buffer rd)
                           (if found : bool then PL.getPtr buffer else cl_ptr st)
                           (cl_rdh st) (cl_enough st) (cl_nLEnough st)));
    if go : bool then
      st ← cachePage st;
      if mNLinks (cl_rd st) =? cl_nLEnough st then Some st
      else if PL.isEmpty (mRawBuffer (cl_rd st)) then Some st
      else cacheLoop fuel' st
    else Some st (* no data to continue *)
  end.

(** Smallest [nTriggers] over the links of the first [mNRUs] containers,
    starting from [acc]. *)
Definition minTriggersOfLinks (rus : list RUDecodeData) (acc : Z) : Z :=
  foldl (fun acc ruD =>
           foldl (fun acc ol =>
                    match ol with
                    | Some link => if nTriggers link <? acc then nTriggers link else acc
                    | None => acc
                    end) acc (links ruD))
        acc rus.

(** [cacheLinksData]: distribute data from the single buffer among the
    links caches. *)
Definition cacheLinksData (fuel : nat) (rd : RawPixelReader) : option RawPixelReader :=
  let '(_, buffer) := loadInput (mRawBuffer rd) in
  let rd := set_mRawBuffer buffer rd in
  if PL.isEmpty buffer then Some rd
  else
    let ptr := PL.getPtr buffer in
    let enough := replicate (Z.to_nat getNRUs) (replicate 3 false) in
    st ← cacheLoop fuel (mkCL rd ptr ptr enough 0);
    let rd := cl_rd st in
    if mNLinks rd =? cl_nLEnough st
    then (* wanted number of triggers acquired *)
      Some (set_mMinTriggersCached (mMinTriggersToCache rd) rd)
    else (* there were no enough triggers to fulfill mMinTriggersToCache requirement *)
      Some (set_mMinTriggersCached
              (minTriggersOfLinks (take (Z.to_nat (mNRUs rd)) (mRUDecodeVec rd)) INT_MAX) rd).

(** [RUDecodeData::clearTrigger] *)
Fixpoint clearCables (n : nat) (cables : list PayLoadCont) : list PayLoadCont :=
  match n with
  | O => cables
  | S i => clearCables i (alter PL.clear i cables)
  end.
Definition clearTrigger (ruD : RUDecodeData) : RUDecodeData :=
  set_nCables 0 (set_cableData (clearCables (Z.to_nat (nCables ruD)) (cableData ruD)) ruD).

(** State of [decodeAlpideData]: the container, the slot [chipData] points
    to, the global statistics and the byte count [ntot]; [al_origin] lists,
    for every chip registered so far, the cable it was decoded from. *)
Record AlpideLoop := mkAL {
  al_ru : RUDecodeData; al_cur : Z; al_stat : RawDecodingStat; al_ntot : Z;
  al_origin : list Z
}.

(** The [while ((res = mCoder.decodeChip(..)))] loop of
    [decodeAlpideData] on cable [icab]. *)
Fixpoint decodeCable (fuel : nat) (ir : InteractionRecord) (trig : Z) (ri : RUInfo.t)
         (icab : Z) (st : AlpideLoop) : option AlpideLoop :=
  match fuel with
  | O => None
  | S fuel' =>
    let decData := al_ru st in
    cable ← idx (cableData decData) icab;
    chip ← idx (chipsData decData) (al_cur st);
    let '(res, chip, cable) := decodeChip chip cable in
    let decData := set_cableData (<[Z.to_nat icab := cable]> (cableData decData)) decData in
    if res =? 0 then
      Some (mkAL (set_chipsData (<[Z.to_nat (al_cur st) := chip]> (chipsData decData)) decData)
                 (al_cur st) (al_stat st) (al_ntot st) (al_origin st))
    else if 0 <? res then
      (* for the IB staves check if the cable ID is the same as the chip ID on the module *)
      let ruStat := statistics decData in
      let ruStat :=
        if (RUInfo.ruType ri =? 0) && negb (chipID chip =? icab)
        then incErr ErrIBChipLaneMismatch ruStat else ruStat in
      hw ← idx (cableHWID decData) icab;
      (* convert HW chip id within the module to absolute chip id *)
      let chip := chip_setTrigger trig
                    (chip_setIR ir (chip_setID (getGlobalChipID (chipID chip) hw ri) chip)) in
      let stat := al_stat st in
      let stat := set_nHitsDecoded (nHitsDecoded stat + Z.of_nat (length (pixels chip)))
                    (set_nNonEmptyChips (nNonEmptyChips stat + 1) stat) in
      let fired := nChipsFired decData + 1 in
      let decData :=
        set_nChipsFired fired
          (set_statistics ruStat
             (set_chipsData (<[Z.to_nat (al_cur st) := chip]> (chipsData decData)) decData)) in
      (* fetch next free chip *)
      if fired <? MaxChipsPerRU
      then decodeCable fuel' ir trig ri icab
             (mkAL decData fired stat (al_ntot st + res) (al_origin st ++ [icab]))
      else Some (mkAL decData (al_cur st) stat (al_ntot st + res) (al_origin st ++ [icab]))
           (* last chip decoded *)
    else
      decodeCable fuel' ir trig ri icab
        (mkAL (set_chipsData (<[Z.to_nat (al_cur st) := chip]> (chipsData decData)) decData)
              (al_cur st) (al_stat st) (al_ntot st) (al_origin st))
  end.

(** The [for (icab = 0; icab < nCables; icab++)] loop of
    [decodeAlpideData], with [n] cables left. *)
Fixpoint decodeCables (fuel : nat) (ir : InteractionRecord) (trig : Z) (ri : RUInfo.t)
         (n : nat) (icab : Z) (st : AlpideLoop) : option AlpideLoop :=
  match n with
  | O => Some st
  | S n' =>
    let decData := al_ru st in
    cable ← idx (cableData decData) icab;
    (* make sure the lane data starts with chip header or empty chip *)
    let ruStat :=
      match PL.current cable with
      | Some h => if negb (isChipHeaderOrEmpty h)
                  then incErr ErrCableDataHeadWrong (statistics decData)
                  else statistics decData
      | None => statistics decData
      end in
    st ← decodeCable fuel ir trig ri icab
           (mkAL (set_statistics ruStat decData) (al_cur st) (al_stat st) (al_ntot st)
                 (al_origin st));
    decodeCables fuel ir trig ri n' (icab + 1) st
  end.

(** [decodeAlpideData]: decode the ALPIDE data from the buffer of single
    lane. Result: the container, the global statistics and [ntot]. *)
Definition decodeAlpideData (fuel : nat) (ir : InteractionRecord) (trig : Z)
           (stat : RawDecodingStat) (decData : RUDecodeData)
  : option (RUDecodeData * RawDecodingStat * Z) :=
  ri ← ruInfo decData;
  let decData := set_lastChipChecked 0 (set_nChipsFired 0 decData) in
  st ← decodeCables fuel ir trig ri (Z.to_nat (nCables decData)) 0 (mkAL decData 0 stat 0 []);
  Some (al_ru st, al_stat st, al_ntot st).

(** The loop over the links in [decodeNextRUData], [n] links left from
    link [il]; [res] counts the links decoded. *)
Fixpoint decodeLinks (fuel : nat) (wsz : Z) (n : nat) (il : Z)
         (ruDecData : RUDecodeData) (res : Z) : option (RUDecodeData * Z) :=
  match n with
  | O => Some (ruDecData, res)
  | S n' =>
    olink ← idx (links ruDecData) il;
    match olink with
    | Some link =>
      if negb (PL.isEmpty (data link)) then
        '(raw, ruDecData, aborted) ←
          decodeRUData fuel wsz (pl_buf (data link)) (PL.getPtr (data link)) ruDecData;
        let d := PL.setPtr (data link) raw in
        (* decrement counter of cached triggers *)
        let link := set_nTriggers (nTriggers link - 1) link in
        let d := if PL.isEmpty d then PL.clear d else d in
        let link := set_data d link in
        decodeLinks fuel wsz n' (il + 1)
          (set_links (<[Z.to_nat il := Some link]> (links ruDecData)) ruDecData) (res + 1)
      else decodeLinks fuel wsz n' (il + 1) ruDecData res
    | None => decodeLinks fuel wsz n' (il + 1) ruDecData res
    end
  end.

(** [decodeNextRUData]: process data of single RU trigger from its links
    buffers. *)
Definition decodeNextRUData (fuel : nat) (rd : RawPixelReader) (ruDecData : RUDecodeData)
  : option (RUDecodeData * RawDecodingStat * Z) :=
  let ruDecData := clearTrigger ruDecData in
  '(ruDecData, res) ← decodeLinks fuel (mGBTWordSize rd) (Z.to_nat MaxLinksPerRU) 0 ruDecData 0;
  if negb (nCables ruDecData =? 0) then (* there are cables with data to decode *)
    '(ruDecData, stat, _) ← decodeAlpideData fuel (mInteractionRecord rd) (mTrigger rd)
                               (mDecodingStat rd) ruDecData;
    Some (ruDecData, stat, res)
  else Some (ruDecData, mDecodingStat rd, res).

(** The RDH of the first link with data, whose trigger fields
    [decodeNextTrigger] copies to the reader. *)
Definition firstLinkRDH (ruDecData : RUDecodeData) : option RDH :=
  head (omap (fun ol => match ol with
                        | Some link =>
                          if negb (PL.isEmpty (data link))
                          then Some (readRDH (pl_buf (data link)) (PL.getPtr (data link)))
                          else None
                        | None => None
                        end) (links ruDecData)).

(** The loop [for (int ir = mNRUs; ir--;)] of [decodeNextTrigger], with
    [k] containers left. *)
Fixpoint decodeRUs (fuel : nat) (k : nat) (rd : RawPixelReader) (nlinks : Z)
  : option (RawPixelReader * Z) :=
  match k with
  | O => Some (rd, nlinks)
  | S ir =>
    ruDecode ← mRUDecodeVec rd !! ir;
    let rd :=
      if nlinks =? 0 then (* on 1st occasion extract trigger data *)
        match firstLinkRDH ruDecode with
        | Some rdh =>
          set_mInteractionRecordHB (mkIR (heartbeatOrbit rdh) (heartbeatBC rdh))
            (set_mTrigger (triggerType rdh)
               (set_mInteractionRecord (mkIR (triggerOrbit rdh) (triggerBC rdh)) rd))
        | None => rd
        end
      else rd in
    '(ruDecode, stat, res) ← decodeNextRUData fuel rd ruDecode;
    let stat := set_nRUsProcessed (nRUsProcessed stat + 1) stat in
    decodeRUs fuel ir
      (set_mDecodingStat stat (set_mRUDecodeVec (<[ir := ruDecode]> (mRUDecodeVec rd)) rd))
      (nlinks + res)
  end.

(** [decodeNextTrigger]: decode next trigger from the cached links data
    and decrease cached triggers counter, return N links decoded. *)
Definition decodeNextTrigger (fuel : nat) (rd : RawPixelReader)
  : option (Z * RawPixelReader) :=
  if mMinTriggersCached rd <? 1 then Some (0, rd)
  else
    '(rd, nlinks) ← decodeRUs fuel (Z.to_nat (mNRUs rd)) rd 0;
    Some (nlinks, set_mMinTriggersCached (mMinTriggersCached rd - 1) (set_mCurRUDecodeID 0 rd)).

(** The loop [for (; mCurRUDecodeID < mNRUs; mCurRUDecodeID++)] of
    [getNextChipData], with [n] containers left: the chip swapped out and
    the reader, or [inr] when no container has a chip left. *)
Fixpoint nextFiredChip (n : nat) (chipData : ChipPixelData) (rd : RawPixelReader)
  : option (ChipPixelData * RawPixelReader + RawPixelReader) :=
  match n with
  | O => Some (inr rd)
  | S n' =>
    ruD ← idx (mRUDecodeVec rd) (mCurRUDecodeID rd);
    if lastChipChecked ruD <? nChipsFired ruD then
      c ← idx (chipsData ruD) (lastChipChecked ruD);
      let ruD := set_lastChipChecked (lastChipChecked ruD + 1)
                   (set_chipsData (<[Z.to_nat (lastChipChecked ruD) := chipData]> (chipsData ruD))
                      ruD) in
      Some (inl (c, set_mRUDecodeVec (<[Z.to_nat (mCurRUDecodeID rd) := ruD]> (mRUDecodeVec rd)) rd))
    else nextFiredChip n' chipData (set_mCurRUDecodeID (mCurRUDecodeID rd + 1) rd)
  end.

(** [getNextChipData(ChipPixelData&)]: read single chip data to the
    provided container. *)
Fixpoint getNextChipData (fuel : nat) (chipData : ChipPixelData) (rd : RawPixelReader)
  : option (bool * ChipPixelData * RawPixelReader) :=
  match fuel with
  | O => None
  | S fuel' =>
    r ← (if 0 <=? mCurRUDecodeID rd
         then (* make sure current RU has fired chips to extract *)
           r ← nextFiredChip (Z.to_nat (mNRUs rd - mCurRUDecodeID rd)) chipData rd;
           match r with
           | inl x => Some (inl x)
           | inr rd => Some (inr (set_mCurRUDecodeID 0 rd)) (* no more decoded data *)
           end
         else Some (inr rd));
    match r with
    | inl (c, rd) => Some (true, c, rd)
    | inr rd =>
      (* will need to decode new trigger *)
      rd ← (if mMinTriggersCached rd <? 2
            then cacheLinksData fuel' rd (* last trigger might be incomplete *)
            else Some rd);
      if mMinTriggersCached rd <? 1 then Some (false, chipData, set_mCurRUDecodeID (-1) rd)
      else
        '(nl, rd) ← decodeNextTrigger fuel' rd;
        if nl =? 0 then Some (false, chipData, set_mCurRUDecodeID (-1) rd)
        else getNextChipData fuel' chipData rd
    end
  end.
End Decoding.

(** ** Encoding *)

(** Order of the pixels in [convertChip]: by row, then by column. *)
Definition pixLt (lhs rhs : PixelData) : bool :=
  if row lhs <? row rhs then true
  else if row rhs <? row lhs then false
  else col lhs <? col rhs.

Fixpoint pixInsert (p : PixelData) (l : list PixelData) : list PixelData :=
  match l with
  | [] => [p]
  | q :: l' => if pixLt q p then q :: pixInsert p l' else p :: l
  end.

(** [std::sort] of the pixels with [pixLt]. *)
Definition sortPixels (l : list PixelData) : list PixelData := foldr pixInsert [] l.

Section Encoding.
Context {MAP : Mapping} {CODER : Coder}.

(** [convertChip]: convert digits of single chip to Alpide format, in the
    container [ruData] of the current RU. *)
Definition convertChip (bcv : Z) (chipData : ChipPixelData) (ruData : RUDecodeData)
  : option RUDecodeData :=
  ri ← ruInfo ruData;
  let chip := getChipOnRUInfo (RUInfo.ruType ri) (chipID chipData) in
  if inRange (cableSW chip) MaxCablesPerRU then
    let k := Z.to_nat (cableSW chip) in
    let chipData := mkChip (chipID chipData) (cp_ir chipData) (cp_trigger chipData)
                           (sortPixels (pixels chipData)) in
    Some (set_cableData
            (alter (fun c => PL.add c (encodeChip chipData (chipOnModuleHW chip) bcv)) k
                   (cableData ruData))
            (set_cableHWID (<[k := trunc 8 (cableHW chip)]> (cableHWID ruData)) ruData))
  else None.

(** [convertEmptyChips]: add empty chip words to respective cable's
    buffers for the chips [fromChip .. uptoChip - 1] of the container. *)
Fixpoint convertEmptyChips_loop (n : nat) (bcv : Z) (chipIDSW : Z) (ri : RUInfo.t)
         (ruData : RUDecodeData) : option RUDecodeData :=
  match n with
  | O => Some ruData
  | S n' =>
    let chip := getChipOnRUInfo (RUInfo.ruType ri) chipIDSW in
    if inRange (cableSW chip) MaxCablesPerRU then
      let k := Z.to_nat (cableSW chip) in
      convertEmptyChips_loop n' bcv (chipIDSW + 1) ri
        (set_cableData
           (alter (fun c => PL.add c (addEmptyChip (chipOnModuleHW chip) bcv)) k
                  (cableData ruData))
           (set_cableHWID (<[k := trunc 8 (cableHW chip)]> (cableHWID ruData)) ruData))
    else None
  end.
Definition convertEmptyChips (bcv : Z) (fromChip uptoChip : Z) (ruData : RUDecodeData)
  : option RUDecodeData :=
  ri ← ruInfo ruData;
  convertEmptyChips_loop (Z.to_nat (uptoChip - fromChip)) bcv fromChip ri ruData.

(** State of the page loop of [fillRULinks] for one link: the cable
    buffers, the link, the header [rdh] being reused, the word counters,
    and [fl_pages], the headers written to the link so far, in order. *)
Record FillLoop := mkFL {
  fl_cables : list PayLoadCont; fl_link : RULink; fl_rdh : RDH;
  fl_needed : Z; fl_inPacket : Z; fl_pages : list RDH
}.

(** [link->data.addFast(&rdh, rdh.headerSize); link->nTriggers++] *)
Definition writePageRDH (rdh : RDH) (link : RULink) : RULink :=
  set_nTriggers (nTriggers link + 1)
    (set_data (PL.add (data link) (take (Z.to_nat (headerSize rdh)) (writeRDH rdh))) link).

Definition pageMemorySize (needed wsz : Z) : Z :=
  let ms := trunc 16 (sizeofRDH + (needed + 2) * wsz) in
  if MaxGBTPacketBytes <? ms then MaxGBTPacketBytes else ms.

(** One pass [for (icab = 0; icab < nCables; icab++)] over the cables of
    the link, writing at most 9 bytes of each; stops early when the packet
    is full. *)
Fixpoint fillCables (n : nat) (icab : Z) (wsz maxW : Z) (ri : RUInfo.t)
         (hwid : list Z) (st : FillLoop) : option FillLoop :=
  match n with
  | O => Some st
  | S n' =>
    if negb (Z.land (lanes (fl_link st)) (Z.shiftl 1 icab) =? 0) then
      cable ← idx (fl_cables st) icab;
      let nb := PL.getUnusedSize cable in
      if nb =? 0 then fillCables n' (icab + 1) wsz maxW ri hwid st
      else
        let nb := if 9 <? nb then 9 else nb in
        hw ← idx hwid icab;
        let word := <[9%nat := trunc 8 (getGBTHeaderRUType (RUInfo.ruType ri) hw)]>
                      (peek (pl_buf cable) (PL.getPtr cable) (Z.to_nat nb)
                       ++ replicate (Z.to_nat (wsz - nb)) 0) in
        let link := set_data (PL.add (data (fl_link st)) word) (fl_link st) in
        let cables := <[Z.to_nat icab := PL.setPtr cable (PL.getPtr cable + nb)]> (fl_cables st) in
        let st := mkFL cables link (fl_rdh st) (fl_needed st - 1) (fl_inPacket st + 1)
                       (fl_pages st) in
        if fl_inPacket st =? maxW then Some st (* new GBT packet must be created *)
        else fillCables n' (icab + 1) wsz maxW ri hwid st
    else fillCables n' (icab + 1) wsz maxW ri hwid st
  end.

(** The [do ... while (nGBTWordsNeeded)] loop of [fillRULinks]. *)
Fixpoint fillPages (fuel : nat) (nCab : Z) (wsz maxW : Z) (impose : bool) (ri : RUInfo.t)
         (hwid : list Z) (st : FillLoop) : option FillLoop :=
  match fuel with
  | O => None
  | S fuel' =>
    st ← fillCables (Z.to_nat nCab) 0 wsz maxW ri hwid st;
    let st :=
      if negb (fl_needed st =? 0) && (maxW <=? fl_inPacket st) then
        (* more data to write, write trailer and add new GBT packet *)
        let link := set_data (PL.add (data (fl_link st)) (take (Z.to_nat wsz) (GBT.trailer 0 0 0)))
                             (fl_link st) in
        let rdh := fl_rdh st in
        let rdh := set_page (pageCnt rdh + 1)
                            (if fl_needed st <? maxW then 1 else 0) rdh in
        let rdh := set_memorySize (pageMemorySize (fl_needed st) GBTPaddedWordLength) rdh in
        let rdh := set_offsetToNext (if impose then MaxGBTPacketBytes else memorySize rdh) rdh in
        let link := writePageRDH rdh link in
        let link := set_data (PL.add (data link)
                                (take (Z.to_nat wsz) (GBT.header (pageCnt rdh) (lanes link))))
                             link in
        mkFL (fl_cables st) link rdh (fl_needed st) 0 (fl_pages st ++ [rdh])
      else st in
    if fl_needed st =? 0 then Some st else fillPages fuel' nCab wsz maxW impose ri hwid st
  end.

Definition wordsOfCable (link : RULink) (cables : list PayLoadCont) (icab : Z) : Z :=
  if negb (Z.land (lanes link) (Z.shiftl 1 icab) =? 0) then
    let nb := default 0 (PL.getSize <$> idx cables icab) in
    if nb =? 0 then 0 else 1 + Z.quot (nb - 1) 9
  else 0.

(** [nGBTWordsNeeded] of a link: number of GBT words over its cables. *)
Fixpoint wordsNeeded (n : nat) (link : RULink) (cables : list PayLoadCont) : Z :=
  match n with
  | O => 0
  | S icab => wordsOfCable link cables (Z.of_nat icab) + wordsNeeded icab link cables
  end.

(** The body of the loop over links in [fillRULinks] for link [il]:
    the link, the cable buffers, the header and the headers written. *)
Definition fillLink (fuel : nat) (rd : RawPixelReader) (ri : RUInfo.t) (hwid : list Z)
           (il : Z) (rdh : RDH) (link : RULink) (cables : list PayLoadCont)
  : option FillLoop :=
  let wsz := mGBTWordSize rd in
  let maxGBTWordsPerPacket :=
    Z.quot (MaxGBTPacketBytes - headerSize rdh) GBTPaddedWordLength - 2 in
  let nGBTWordsNeeded := wordsNeeded (Z.to_nat (RUInfo.nCables ri)) link cables in
  (* move data in padded GBT words from cable buffers to link buffers *)
  let rdh := set_feeId_link (RUSW2FEEId (RUInfo.idSW ri) il) il rdh in
  let rdh := set_page 0 0 rdh in
  let rdh := set_memorySize (pageMemorySize nGBTWordsNeeded wsz) rdh in
  let rdh := set_offsetToNext (if mImposeMaxPage rd then MaxGBTPacketBytes else memorySize rdh)
                              rdh in
  let link := writePageRDH rdh link in (* write RDH for current packet *)
  let link := set_data (PL.add (data link)
                          (take (Z.to_nat wsz) (GBT.header (pageCnt rdh) (lanes link)))) link in
  st ← fillPages fuel (RUInfo.nCables ri) wsz maxGBTWordsPerPacket (mImposeMaxPage rd) ri hwid
         (mkFL cables link rdh nGBTWordsNeeded 0 [rdh]);
  (* write GBT trailer for the last packet *)
  let link := fl_link st in
  let link := set_data (PL.add (data link)
                          (take (Z.to_nat wsz)
                             (GBT.trailer (lanes link) 0 (Z.shiftl 1 GBT.PacketDone)))) link in
  Some (mkFL (fl_cables st) link (fl_rdh st) (fl_needed st) (fl_inPacket st) (fl_pages st)).

(** The header [fillRULinks] prepares before the loop over the links. *)
Definition fillRDH (rd : RawPixelReader) : RDH :=
  let ir := mInteractionRecord rd in
  mkRDH 4 sizeofRDH 0xffff 0 0 0  0 0 0 0 0 0
        (trunc 32 (orbit ir)) (trunc 32 (orbit ir))
        (trunc 12 (bc ir)) 0 (trunc 12 (bc ir)) 0 (trunc 32 trigger.PhT)
        0 (trunc 16 getRUDetectorField) 0 0 0 0.

(** The loop over the links of [fillRULinks], [n] links left from [il];
    also collects, per link, the headers of the pages written. *)
Fixpoint fillLinks (fuel : nat) (rd : RawPixelReader) (ri : RUInfo.t) (n : nat) (il : Z)
         (rdh : RDH) (ruData : RUDecodeData) (minPages : Z) (pages : list (Z * list RDH))
  : option (RUDecodeData * Z * list (Z * list RDH)) :=
  match n with
  | O => Some (ruData, minPages, pages)
  | S n' =>
    olink ← idx (links ruData) il;
    match olink with
    | None => fillLinks fuel rd ri n' (il + 1) rdh ruData minPages pages
    | Some link =>
      st ← fillLink fuel rd ri (cableHWID ruData) il rdh link (cableData ruData);
      let link := fl_link st in
      let ruData := set_links (<[Z.to_nat il := Some link]> (links ruData))
                      (set_cableData (fl_cables st) ruData) in
      fillLinks fuel rd ri n' (il + 1) (fl_rdh st) ruData
                (if nTriggers link <? minPages then nTriggers link else minPages)
                (pages ++ [(il, fl_pages st)])
    end
  end.

Definition dummyNPages : Z := 0xffffff.

(** [fillRULinks]: fill data of the RU to links buffer, return the number
    of pages in the link with smallest amount of pages. The third
    component lists, per link, the headers of the pages written. *)
Definition fillRULinks (fuel : nat) (rd : RawPixelReader)
  : option (Z * RawPixelReader * list (Z * list RDH)) :=
  ruData ← idx (mRUDecodeVec rd) (mCurRUDecodeID rd);
  ri ← ruInfo ruData;
  let ruData := set_nCables (RUInfo.nCables ri) ruData in
  '(ruData, minPages, pages) ←
    fillLinks fuel rd ri (Z.to_nat MaxLinksPerRU) 0 (fillRDH rd) ruData dummyNPages [];
  let ruData := set_nChipsFired 0 (clearTrigger ruData) in
  Some (if minPages =? dummyNPages then 0 else minPages,
        set_mRUDecodeVec (<[Z.to_nat (mCurRUDecodeID rd) := ruData]> (mRUDecodeVec rd)) rd,
        pages).

(** The booking loop of [digits2raw]: [for (ru = ruSWMin; ru <= ruSWMax; ru++)],
    with [n] RUs left. *)
Fixpoint bookRUs (n : nat) (ruSW : Z) (rd : RawPixelReader) : option RawPixelReader :=
  match n with
  | O => Some rd
  | S n' =>
    '(slot, rd) ← getCreateRUDecode ruSW rd;
    ruData ← idx (mRUDecodeVec rd) slot;
    ri ← ruInfo ruData;
    let nLinks := Z.of_nat (length (omap (fun l => l) (links ruData))) in
    let rd := set_mNLinks (mNLinks rd + nLinks) rd in
    let rd :=
      if nLinks =? 0 then
        (* imposing single link readout for this RU *)
        let link := set_lanes (getCablesOnRUType (RUInfo.ruType ri)) linkDefault in
        set_mNLinks (mNLinks rd + 1)
          (set_mRUDecodeVec
             (<[Z.to_nat slot := set_links (<[0%nat := Some link]> (links ruData)) ruData]>
                (mRUDecodeVec rd)) rd)
      else rd in
    bookRUs n' (ruSW + 1) rd
  end.

(** State of the loop placing digits into chip buffers: the reader, the
    chip being filled ([curChipID]) and where [curChipData] points to
    (container, slot), if anywhere. *)
Record PlaceLoop := mkPlace {
  pl_rd : RawPixelReader; curChipID : Z; curChipData : option (Z * Z)
}.

(** place digits into corresponding chip buffers *)
Fixpoint placeDigits (digs : list Digit) (ruSWMin ruSWMax : Z) (st : PlaceLoop)
  : option PlaceLoop :=
  match digs with
  | [] => Some st
  | dig :: digs' =>
    r ← (if negb (curChipID st =? chipIndex dig) then
           let chInfo := getChipInfoSW (chipIndex dig) in
           if (ru chInfo <? ruSWMin) || (ruSWMax <? ru chInfo)
           then Some None (* ignore this chip *)
           else
             let rd := set_mCurRUDecodeID (ru chInfo) (pl_rd st) in
             curRUDecode ← idx (mRUDecodeVec rd) (ru chInfo);
             let k := nChipsFired curRUDecode in
             chip ← idx (chipsData curRUDecode) k;
             let curRUDecode :=
               set_nChipsFired (k + 1)
                 (set_chipsData (<[Z.to_nat k := chip_setID (id (chOnRU chInfo)) chip]>
                                   (chipsData curRUDecode)) curRUDecode) in
             Some (Some (mkPlace
                           (set_mRUDecodeVec (<[Z.to_nat (ru chInfo) := curRUDecode]>
                                                (mRUDecodeVec rd)) rd)
                           (chipIndex dig) (Some (ru chInfo, k))))
         else Some (Some st));
    match r with
    | None => placeDigits digs' ruSWMin ruSWMax st
    | Some st =>
      (* add new digit to the container *)
      '(r, k) ← curChipData st;
      ruD ← idx (mRUDecodeVec (pl_rd st)) r;
      chip ← idx (chipsData ruD) k;
      let ruD := set_chipsData
                   (<[Z.to_nat k := chip_addPixel (mkPix (d_row dig) (d_col dig)) chip]>
                      (chipsData ruD)) ruD in
      placeDigits digs' ruSWMin ruSWMax
        (mkPlace (set_mRUDecodeVec (<[Z.to_nat r := ruD]> (mRUDecodeVec (pl_rd st))) (pl_rd st))
                 (curChipID st) (curChipData st))
    end
  end.

(** The loop over the fired chips of one RU in [digits2raw]. *)
Fixpoint convertFired (n : nat) (ich : Z) (bcv : Z) (next2Proc : Z) (ruD : RUDecodeData)
  : option (Z * RUDecodeData) :=
  match n with
  | O => Some (next2Proc, ruD)
  | S n' =>
    chipData ← idx (chipsData ruD) ich;
    ruD ← convertEmptyChips bcv next2Proc (chipID chipData) ruD; (* if needed store EmptyChip flags *)
    let next2Proc := trunc 16 (chipID chipData + 1) in
    ruD ← convertChip bcv chipData ruD;
    let ruD := set_chipsData (<[Z.to_nat ich := chip_clear chipData]> (chipsData ruD)) ruD in
    convertFired n' (ich + 1) bcv next2Proc ruD
  end.

(** The loop [for (mCurRUDecodeID = ruSWMin; mCurRUDecodeID <= ruSWMax; ...)]
    of [digits2raw], with [n] RUs left; collects the headers of the pages
    written, per RU and link. *)
Fixpoint convertRUs (fuel : nat) (n : nat) (rd : RawPixelReader) (minPages : Z)
         (pages : list (Z * list (Z * list RDH)))
  : option (Z * RawPixelReader * list (Z * list (Z * list RDH))) :=
  match n with
  | O => Some (minPages, rd, pages)
  | S n' =>
    curRUDecode ← idx (mRUDecodeVec rd) (mCurRUDecodeID rd);
    ri ← ruInfo curRUDecode;
    let nchTot := trunc 16 (getNChipsOnRUType (RUInfo.ruType ri)) in
    '(next2Proc, curRUDecode) ←
      convertFired (Z.to_nat (nChipsFired curRUDecode)) 0 (bc (mInteractionRecord rd)) 0
                   curRUDecode;
    curRUDecode ← convertEmptyChips (bc (mInteractionRecord rd)) next2Proc nchTot curRUDecode;
    let rd := set_mRUDecodeVec (<[Z.to_nat (mCurRUDecodeID rd) := curRUDecode]> (mRUDecodeVec rd))
                               rd in
    (* flush per-lane buffers to link buffers *)
    '(minPageRU, rd, pg) ← fillRULinks fuel rd;
    convertRUs fuel n' (set_mCurRUDecodeID (mCurRUDecodeID rd + 1) rd)
               (if minPageRU <? minPages then minPageRU else minPages)
               (pages ++ [(mCurRUDecodeID rd, pg)])
  end.

(** [digits2raw]: convert digits belonging to the same trigger to raw
    data. The digits must be in increasing chipID order. Returns the number
    of pages in the link with smallest amount of pages (and, per RU and
    link, the headers of the pages written). [digs] is the range
    [from .. last - 1] of the digit vector. *)
Definition digits2raw (fuel : nat) (digs : list Digit) (bcData : InteractionRecord)
           (ruSWMin ruSWMax : Z) (rd : RawPixelReader)
  : option (Z * RawPixelReader * list (Z * list (Z * list RDH))) :=
  let rd := set_mInteractionRecord bcData rd in
  let ruSWMax := if ruSWMax <? trunc 8 getNRUs then ruSWMax else trunc 8 (getNRUs - 1) in
  rd ← (if mNRUs rd <? ruSWMax - ruSWMin
        then bookRUs (Z.to_nat (ruSWMax - ruSWMin + 1)) ruSWMin rd (* book containers if needed *)
        else Some rd);
  st ← placeDigits digs ruSWMin ruSWMax (mkPlace rd 0xffff None);
  (* convert digits to alpide data in the per-cable buffers *)
  convertRUs fuel (Z.to_nat (ruSWMax - ruSWMin + 1))
             (set_mCurRUDecodeID ruSWMin (pl_rd st)) 0xffffff [].

(** The [while (nPages < maxPages && !link->data.isEmpty())] loop of
    [flushSuperPages], with [n] pages allowed. *)
Fixpoint flushPages (n : nat) (link : RULink) (sink : PayLoadCont) (nPages : Z)
  : RULink * PayLoadCont * Z :=
  match n with
  | O => (link, sink, nPages)
  | S n' =>
    if PL.isEmpty (data link) then (link, sink, nPages)
    else
      let ptr := PL.getPtr (data link) in
      let rdh := readRDH (pl_buf (data link)) ptr in
      (* copy header + payload, complete with 0's till the end of the page *)
      let sink := PL.add sink (peek (pl_buf (data link)) ptr (Z.to_nat (memorySize rdh))) in
      let sink := PL.fill sink 0 (MaxGBTPacketBytes - memorySize rdh) in
      let link := set_nTriggers (nTriggers link - 1)
                    (set_data (PL.setPtr (data link) (ptr + memorySize rdh)) link) in
      flushPages n' link sink (nPages + 1)
  end.

(** The loop over the links of one RU in [flushSuperPages]. *)
Fixpoint flushLinks (n : nat) (il : Z) (maxPages : Z) (ruData : RUDecodeData)
         (sink : PayLoadCont) (totPages : Z) : RUDecodeData * PayLoadCont * Z :=
  match n with
  | O => (ruData, sink, totPages)
  | S n' =>
    match idx (links ruData) il with
    | Some (Some link) =>
      if PL.isEmpty (data link) then flushLinks n' (il + 1) maxPages ruData sink totPages
      else
        let '(link, sink, nPages) := flushPages (Z.to_nat maxPages) link sink 0 in
        let link := set_data (PL.moveUnusedToHead (data link)) link in
        flushLinks n' (il + 1) maxPages
                   (set_links (<[Z.to_nat il := Some link]> (links ruData)) ruData)
                   sink (totPages + nPages)
    | _ => flushLinks n' (il + 1) maxPages ruData sink totPages
    end
  end.

(** The loop over the RUs in [flushSuperPages]. *)
Fixpoint flushRUs (n : nat) (ruSW : Z) (maxPages : Z) (rd : RawPixelReader)
         (sink : PayLoadCont) (totPages : Z) : RawPixelReader * PayLoadCont * Z :=
  match n with
  | O => (rd, sink, totPages)
  | S n' =>
    match idx (mRUEntry rd) ruSW with
    | Some e =>
      match (if e <? 0 then None else idx (mRUDecodeVec rd) e) with
      | Some ruData =>
        let '(ruData, sink, totPages) :=
          flushLinks (Z.to_nat MaxLinksPerRU) 0 maxPages ruData sink totPages in
        flushRUs n' (ruSW + 1) maxPages
                 (set_mRUDecodeVec (<[Z.to_nat e := ruData]> (mRUDecodeVec rd)) rd)
                 sink totPages
      | None => flushRUs n' (ruSW + 1) maxPages rd sink totPages
      end
    | None => flushRUs n' (ruSW + 1) maxPages rd sink totPages
    end
  end.

(** [flushSuperPages]: flush superpage (at most [maxPages]) of each link
    to the output, return total number of pages flushed. *)
Definition flushSuperPages (maxPages : Z) (sink : PayLoadCont) (rd : RawPixelReader)
  : Z * RawPixelReader * PayLoadCont :=
  let '(rd, sink, tot) := flushRUs (Z.to_nat getNRUs) 0 maxPages rd sink 0 in
  (tot, rd, sink).
End Encoding.

(** ** A concrete mapping and coder for worked examples

    The mapping and the ALPIDE coder are interfaces of the reader. To run
    the reader on concrete data the examples below use a small detector of
    four inner-barrel readout units (type 0) with nine chips each, one chip
    per cable, and a byte-oriented chip coder with a chip header, 3-byte
    hit records, a chip trailer and a chip-empty record. *)
Module Example.
Definition nChips : Z := 9.

Definition ruInfoOf (ruSW : Z) : RUInfo.t := RUInfo.mk ruSW ruSW 0 nChips.

#[export] Instance mapping : Mapping := {|
  getNRUs := 4;
  FEEId2RUSW := fun fee => Z.land fee 0xff;
  RUSW2FEEId := fun ruSW lnk => Z.shiftl lnk 8 + ruSW;
  getRUInfoSW := ruInfoOf;
  cableHW2SW := fun _ hw => hw;
  getGlobalChipID := fun chOnMod _ ri => RUInfo.idSW ri * nChips + chOnMod;
  getChipInfoSW := fun chip =>
    mkChipInfo (chip / nChips) (mkChOnRU (chip mod nChips) (chip mod nChips)
                                          (chip mod nChips) (chip mod nChips));
  getChipOnRUInfo := fun _ c => mkChOnRU c c c c;
  getNChipsOnRUType := fun _ => nChips;
  getCablesOnRUType := fun _ => 0x1ff;
  getGBTHeaderRUType := fun _ hw => Z.lor 0x20 hw;
  getRUDetectorField := 0
|}.

Definition encodePixel (p : PixelData) : list Z :=
  [Z.lor 0x40 (Z.lor (Z.land (Z.shiftr (row p) 8) 1)
                     (Z.shiftl (Z.land (Z.shiftr (col p) 8) 3) 1));
   Z.land (row p) 0xff; Z.land (col p) 0xff].

(** Hit records up to the chip trailer: the pixels and the bytes read, or
    [None] on a malformed record. *)
Fixpoint decodeHits (bs : list Z) (acc : list PixelData) (used : Z)
  : option (list PixelData * Z) :=
  match bs with
  | b :: bs1 =>
    if b =? 0xb0 then Some (acc, used + 1)
    else if Z.land b 0xf8 =? 0x40 then
      match bs1 with
      | r :: c :: bs2 =>
        decodeHits bs2 (acc ++ [mkPix (Z.lor (Z.shiftl (Z.land b 1) 8) r)
                                      (Z.lor (Z.shiftl (Z.land (Z.shiftr b 1) 3) 8) c)])
                   (used + 3)
      | _ => None
      end
    else None
  | [] => None
  end.

(** Skip padding and chip-empty records, then read one chip: the result
    code, the chip and the number of bytes consumed. *)
Fixpoint decodeRecords (fuel : nat) (bs : list Z) (chip : ChipPixelData) (used : Z)
  : Z * ChipPixelData * Z :=
  match fuel, bs with
  | S fuel', b :: bs1 =>
    if b =? 0 then decodeRecords fuel' bs1 chip (used + 1)
    else if Z.land b 0xf0 =? 0xe0 then decodeRecords fuel' (drop 1 bs1) chip (used + 2)
    else if Z.land b 0xf0 =? 0xa0 then
      match decodeHits (drop 1 bs1) [] 0 with
      | Some (pix, n) =>
        (2 + n, mkChip (Z.land b 0xf) (cp_ir chip) (cp_trigger chip) pix, used + 2 + n)
      | None => (-1, chip, used + 1)
      end
    else (-1, chip, used + 1)
  | _, _ => (0, chip, used)
  end.

#[export] Instance coder : Coder := {|
  encodeChip := fun chip chOnMod bcv =>
    [Z.lor 0xa0 (Z.land chOnMod 0xf); Z.land bcv 0xff]
    ++ flat_map encodePixel (pixels chip) ++ [0xb0];
  addEmptyChip := fun chOnMod bcv => [Z.lor 0xe0 (Z.land chOnMod 0xf); Z.land bcv 0xff];
  decodeChip := fun chip buf =>
    let bs := PL.unused buf in
    let '(res, chip, used) := decodeRecords (S (length bs)) bs chip 0 in
    (res, chip, PL.setPtr buf (PL.getPtr buf + used));
  isChipHeaderOrEmpty := fun b => (Z.land b 0xf0 =? 0xa0) || (Z.land b 0xf0 =? 0xe0)
|}.
End Example.

(** ** Worked inputs *)
Module Inputs.
Import Example.

(** A page header as the encoder writes it: version 4, header size 64. *)
Definition pageRDH (fee lnk orb bcv trg cnt stp ms off : Z) : RDH :=
  mkRDH 4 sizeofRDH 0xffff fee 0 0  off ms lnk 0 0 0  orb orb  bcv 0 bcv 0 trg
        0  0 0 stp cnt 0.

(** A data word of cable [hw] with payload [bs] (at most 9 bytes). *)
Definition dataWord (hw : Z) (bs : list Z) : list Z :=
  take 9 (bs ++ replicate 9 0) ++ [Z.lor 0x20 hw] ++ [0;0;0;0;0;0].

(** The container of RU 0 as [getCreateRUDecode] leaves it. *)
Definition ru0 : RUDecodeData := set_ruInfo (Some (ruInfoOf 0)) ruDefault.

(** One page of RU 0: lane 0 declared active, no stop in the trailer,
    trigger type with the SOT bit and the PhT bit. *)
Definition sotPhT : Z := Z.lor trigger.SOT trigger.PhT.
Definition pageUnstopped (trg : Z) : list Z :=
  writeRDH (pageRDH 0 0 100 42 trg 0 0 112 112)
  ++ GBT.header 0 1 ++ dataWord 0 [0xe0; 42] ++ GBT.trailer 0 0 1.

(** One page of RU 0: lanes 0 and 1 active, both send data and stop, and
    the trailer reports a timeout of lane 0. *)
Definition pageTimeoutWithData (trg : Z) : list Z :=
  writeRDH (pageRDH 0 0 100 42 trg 0 0 128 128)
  ++ GBT.header 0 3 ++ dataWord 0 [0xe0; 42] ++ dataWord 1 [0xe1; 42]
  ++ GBT.trailer 3 1 1.

(** One page of RU 0: lane 0 active and stopped, but it sends nothing. *)
Definition pageSilentLane (trg : Z) : list Z :=
  writeRDH (pageRDH 0 0 100 42 trg 0 0 96 96)
  ++ GBT.header 0 1 ++ GBT.trailer 1 0 1.

(** Statistics of the container after [decodeRUData] of a page. *)
Definition statAfter (page : list Z) : option RUDecodingStat :=
  '(_, ruD, _) ← decodeRUData 4 GBTPaddedWordLength page 0 ru0;
  Some (statistics ruD).
End Inputs.

(** Lane [i] is declared active, is not in time-out and has sent no data. *)
Definition silentLane (s : RUDecodingStat) (i : Z) : Prop :=
  Z.testbit (lanesActive s) i = true /\ Z.testbit (lanesTimeOut s) i = false
  /\ Z.testbit (lanesWithData s) i = false.

(** [densePages buf]: walking [buf] from its start, every page occupies
    exactly the [memorySize] bytes its stored RDH states, and its stored
    [offsetToNext] equals that [memorySize]; the pages fill [buf]. *)
Fixpoint densePages_walk (fuel : nat) (buf : list Z) : bool :=
  match buf with
  | [] => true
  | _ :: _ =>
    match fuel with
    | O => false
    | S fuel' =>
      let h := readRDH buf 0 in
      (sizeofRDH <=? memorySize h) && (memorySize h <=? Z.of_nat (length buf))
      && (offsetToNext h =? memorySize h)
      && densePages_walk fuel' (drop (Z.to_nat (memorySize h)) buf)
    end
  end.
Definition densePages (buf : list Z) : bool := densePages_walk (length buf) buf.

(** The cache buffer of link [il] of the container in slot [slot]. *)
Definition linkData (rd : RawPixelReader) (slot il : Z) : option (list Z) :=
  ruD ← idx (mRUDecodeVec rd) slot;
  olink ← idx (links ruD) il;
  link ← olink;
  Some (pl_buf (data link)).

Module Streams.
Import Example Inputs.

(** A well-formed page of RU 0, link 0: lane 0 sends one word and stops. *)
Definition pageOK (cnt : Z) : list Z :=
  writeRDH (pageRDH 0 0 100 42 trigger.PhT cnt 0 112 112)
  ++ GBT.header cnt 1 ++ dataWord 0 [0xe0; 42] ++ GBT.trailer 1 0 1.

(** A page without data words whose reserved field [zero0] is set. *)
Definition pageCorrupted (cnt : Z) : list Z :=
  writeRDH (mkRDH 4 sizeofRDH 0xffff 0 0 1  96 96 0 0 0 0  100 100  42 0 42 0 trigger.PhT
                  0  0 0 0 cnt 0)
  ++ GBT.header cnt 1 ++ GBT.trailer 0 0 0.

(** The reader with the stream [bs] in its raw buffer. *)
Definition readerOn (bs : list Z) : RawPixelReader :=
  set_mRawBuffer (mkPL bs 0) readerInit.

(** Eight bytes of garbage in front of a well-formed page. *)
Definition garbage8 : list Z := replicate 8 0xff ++ pageOK 0.

(** A page with a corrupted header followed by a well-formed page. *)
Definition corruptedThenOK : list Z := pageCorrupted 0 ++ pageOK 0.
End Streams.

Module Ordering.
Import Example Inputs Streams.

(** A clean page of RU [fee] (link 0): all nine lanes active, sending and
    stopped; lane 0 carries the chip record [chip0], the others a
    chip-empty record. *)
Definition cleanPage (fee : Z) (chip0 : list Z) : list Z :=
  writeRDH (pageRDH fee 0 100 42 trigger.PhT 0 0 240 240)
  ++ GBT.header 0 0x1ff
  ++ dataWord 0 chip0
  ++ flat_map (fun c => dataWord c (addEmptyChip c 42)) [1; 2; 3; 4; 5; 6; 7; 8]
  ++ GBT.trailer 0x1ff 0 1.

(** Chip 0 of a readout unit with the single hit (row 3, column 5). *)
Definition oneHit : list Z := encodeChip (mkChip 0 (mkIR 0 0) 0 [mkPix 3 5]) 0 42.

(** One trigger in which the page of RU 1 precedes the page of RU 0. *)
Definition ru1ThenRu0 : list Z := cleanPage 1 oneHit ++ cleanPage 0 oneHit.
End Ordering.

(** The chips of a container that [getNextChipData] has not handed out yet,
    and the chips pending in the containers from [mCurRUDecodeID] on, in
    slot order. *)
Definition firedChips (ruD : RUDecodeData) : list ChipPixelData :=
  take (Z.to_nat (nChipsFired ruD - lastChipChecked ruD))
       (drop (Z.to_nat (lastChipChecked ruD)) (chipsData ruD)).
Definition pendingChips (rd : RawPixelReader) : list ChipPixelData :=
  flat_map firedChips
           (drop (Z.to_nat (mCurRUDecodeID rd)) (take (Z.to_nat (mNRUs rd)) (mRUDecodeVec rd))).

(** The counters of a container stay inside [chipsData]. *)
Definition ruCountersOK (ruD : RUDecodeData) : Prop :=
  0 <= lastChipChecked ruD /\ nChipsFired ruD <= Z.of_nat (length (chipsData ruD)).
Definition readerCountersOK (rd : RawPixelReader) : Prop :=
  0 <= mCurRUDecodeID rd /\ mNRUs rd <= Z.of_nat (length (mRUDecodeVec rd))
  /\ Forall ruCountersOK (mRUDecodeVec rd).

(** GBT words still to be written for cable [icab] of a link serving
    [lns]: one per 9 unread bytes. *)
Definition remOfCable (lns : Z) (cables : list PayLoadCont) (icab : Z) : Z :=
  if negb (Z.land lns (Z.shiftl 1 icab) =? 0) then
    let nb := default 0 (PL.getUnusedSize <$> idx cables icab) in
    if nb =? 0 then 0 else 1 + Z.quot (nb - 1) 9
  else 0.

(** The same, summed over the [n] cables from [icab] on. *)
Fixpoint remWords (lns : Z) (cables : list PayLoadCont) (icab : Z) (n : nat) : Z :=
  match n with
  | O => 0
  | S n' => remOfCable lns cables icab + remWords lns cables (icab + 1) n'
  end.

(** [maxGBTWordsPerPacket] for the 64-byte header. *)
Definition maxWordsPerPage : Z := 506.

(** The headers [P] of the pages of one trigger on one link: page counters
    0, 1, 2, ..., no stop flag before the last page, and the stop flag
    [lastStop] on the last page. *)
Definition pagesOK (P : list RDH) (lastStop : Z) : Prop :=
  map pageCnt P = seqZ 0 (Z.of_nat (length P))
  /\ (forall (i : nat) h, P !! i = Some h -> (S i < length P)%nat -> stop h = 0)
  /\ (forall h, last P = Some h -> stop h = lastStop).

(** Cable buffers of a readout unit in which cable 0 holds 4600 bytes. *)
Definition manyWords : list PayLoadCont :=
  <[0%nat := mkPL (replicate 4600 1) 0]> (replicate 28 PL.empty).

(** The per-trigger state of a container is empty: no cables and no fired
    chips counted, and the buffers of all cables of the RU are cleared. *)
Definition triggerStateEmpty (ruD : RUDecodeData) : Prop :=
  nCables ruD = 0 /\ nChipsFired ruD = 0
  /\ exists ri, ruInfo ruD = Some ri
       /\ forall (i : nat) c, cableData ruD !! i = Some c ->
                              Z.of_nat i < RUInfo.nCables ri -> c = PL.empty.

(** The upper end of the RU range [digits2raw] works on. *)
Definition clipRUMax {MAP : Mapping} (ruSWMax : Z) : Z :=
  if ruSWMax <? trunc 8 getNRUs then ruSWMax else trunc 8 (getNRUs - 1).

(** The page loop of [fillRULinks] only appends: the read cursor of the
    link buffer stays, the buffer and the list of page headers grow at the
    end. *)
Definition growsFrom (st st' : FillLoop) : Prop :=
  pl_ptr (data (fl_link st')) = pl_ptr (data (fl_link st))
  /\ pl_buf (data (fl_link st)) `prefix_of` pl_buf (data (fl_link st'))
  /\ fl_pages st `prefix_of` fl_pages st'.

(** An unread cable buffer of [n] bytes. *)
Definition cableOf (n : nat) : PayLoadCont := mkPL (replicate n 1) 0.

(** Cable buffers of a readout unit whose nine cables hold the bytes of
    4090 GBT words: 455 words on each of the first four, 454 on each of
    the other five. *)
Definition words4090 : list PayLoadCont :=
  cableOf 4095 :: cableOf 4095 :: cableOf 4095 :: cableOf 4095
  :: cableOf 4086 :: cableOf 4086 :: cableOf 4086 :: cableOf 4086 :: cableOf 4086
  :: replicate 19 PL.empty.

(** ** The slot table

    [mRUEntry] maps the SW id of an RU to the slot of its container in
    [mRUDecodeVec]; [mNRUs] counts the slots given out. The table is well
    formed when every entry is negative (no container) or a slot below
    [mNRUs], no slot is entered twice, and every slot below [mNRUs] is
    entered for some RU. *)
Definition entriesOK (rd : RawPixelReader) : Prop :=
  0 <= mNRUs rd
  /\ (forall (r : nat) e, mRUEntry rd !! r = Some e -> e < mNRUs rd)
  /\ (forall (r1 r2 : nat) e,
        mRUEntry rd !! r1 = Some e -> mRUEntry rd !! r2 = Some e -> 0 <= e -> r1 = r2)
  /\ (forall s, 0 <= s < mNRUs rd -> exists r : nat, mRUEntry rd !! r = Some s).

(** A list of pixels in the order of [convertChip]'s comparison: no pixel
    is followed by a smaller one. *)
Fixpoint pixSorted (l : list PixelData) : Prop :=
  match l with
  | [] => True
  | a :: l' => match l' with [] => True | b :: _ => pixLt b a = false end /\ pixSorted l'
  end.

(** ** Resetting: clear

    [RUDecodingStat::clear], [RawDecodingStat::clear],
    [RUDecodeData::clear] and [RawPixelReader::clear] (no input file is
    open, so closing it changes nothing). *)
Definition statClear (s : RUDecodingStat) : RUDecodingStat :=
  mkRUStat 0 0 0 0 0 (replicate (length (errorCounts s)) 0)
           (replicate (length (packetStates s)) 0).

Definition rawStatClear (s : RawDecodingStat) : RawDecodingStat := mkRawStat 0 0 0 0 0.

Definition ruClear (ruD : RUDecodeData) : RUDecodeData :=
  let ruD := clearTrigger ruD in
  set_statistics (statClear (statistics ruD)) ruD.

Definition readerClear (rd : RawPixelReader) : RawPixelReader :=
  let rd := set_mDecodingStat (rawStatClear (mDecodingStat rd)) rd in
  let rd := set_mRUDecodeVec (ruClear <$> mRUDecodeVec rd) rd in
  let rd := set_mNLinks 0 rd in
  let rd := set_mNRUs 0 rd in
  set_mRawBuffer (PL.clear (mRawBuffer rd)) rd.

(** The two statistics records agree on what the page loop of
    [decodeRUData] never changes on its own: the number of packets and the
    counters of the two errors that abort a page. *)
Definition sameAbortCounts (s s' : RUDecodingStat) : Prop :=
  length (errorCounts s') = length (errorCounts s)
  /\ nPackets s' = nPackets s
  /\ errCount ErrMissingGBTHeader s' = errCount ErrMissingGBTHeader s
  /\ errCount ErrMissingGBTTrailer s' = errCount ErrMissingGBTTrailer s.

(** What [decodeRUData] leaves alone in a container. *)
Definition sameContainer (r r' : RUDecodeData) : Prop :=
  links r' = links r /\ chipsData r' = chipsData r /\ ruInfo r' = ruInfo r
  /\ nChipsFired r' = nChipsFired r /\ lastChipChecked r' = lastChipChecked r
  /\ nCables r' = nCables r
  /\ length (cableData r') = length (cableData r).

(** Number of aborted pages counted: missing GBT header or trailer. *)
Definition abortCount (s : RUDecodingStat) : Z :=
  errCount ErrMissingGBTHeader s + errCount ErrMissingGBTTrailer s.

(** ** The header as stored

    [pack] lays bit fields [(value, width)] side by side, the first one in
    the lowest bits; [rdhStored h] is [h] with every field cut to the width
    it has in memory. *)
Fixpoint pack (fs : list (Z * Z)) : Z :=
  match fs with
  | [] => 0
  | (v, n) :: r => trunc n v + 2 ^ n * pack r
  end.

Definition rdhStored (h : RDH) : RDH :=
  mkRDH (trunc 8 (version h)) (trunc 8 (headerSize h)) (trunc 16 (blockLength h))
        (trunc 16 (feeId h)) (trunc 8 (priority h)) (trunc 8 (zero0 h))
        (trunc 16 (offsetToNext h)) (trunc 16 (memorySize h)) (trunc 8 (linkID h))
        (trunc 8 (packetCounter h)) (trunc 12 (cruID h)) (trunc 4 (zero1 h))
        (trunc 32 (triggerOrbit h)) (trunc 32 (heartbeatOrbit h))
        (trunc 12 (triggerBC h)) (trunc 4 (zero41 h)) (trunc 12 (heartbeatBC h))
        (trunc 4 (zero42 h)) (trunc 32 (triggerType h))
        (trunc 64 (word5 h))
        (trunc 16 (detectorField h)) (trunc 16 (par h)) (trunc 8 (stop h))
        (trunc 16 (pageCnt h)) (trunc 8 (zero6 h)).

(** [h] is the header [h0] with the page fields ([pageCnt], [stop],
    [memorySize], [offsetToNext]) set anew: the form of every header
    [fillRULinks] writes for one link. *)
Definition pageHeaderOf (h0 h : RDH) : Prop :=
  exists cnt stp ms off, h = set_offsetToNext off (set_memorySize ms (set_page cnt stp h0)).

(** ** Cable data on its way through a link

    [pad9 l]: [l] filled up with zeros to a whole number of 9-byte GBT
    payloads. [consumed c]: the bytes read from the buffer [c] so far. *)
Definition pad9 (l : list Z) : list Z :=
  l ++ replicate (Z.to_nat ((- Z.of_nat (length l)) mod 9)) 0.

Definition consumed (c : PayLoadCont) : list Z := take (Z.to_nat (pl_ptr c)) (pl_buf c).

(** The read pointer of an encoder cable is inside the buffer, and it is at
    a multiple of 9 unless the cable is read to its end. *)
Definition cableReadOK (c : PayLoadCont) : Prop :=
  0 <= pl_ptr c <= PL.getSize c /\ (pl_ptr c mod 9 = 0 \/ pl_ptr c = PL.getSize c).

(** The decoder's cable buffers [dec] mirror the encoder's [enc]: for every
    lane of [lns], the decoder holds what it held in [dec0] followed by the
    bytes the encoder has read from that cable, padded; the other cables
    are as in [dec0]. *)
Definition cablesMirror (lns : Z) (enc dec0 dec : list PayLoadCont) : Prop :=
  length dec = length dec0
  /\ forall (j : nat) d0,
       dec0 !! j = Some d0 ->
       match enc !! j with
       | Some e =>
         if Z.land lns (Z.shiftl 1 (Z.of_nat j)) =? 0 then dec !! j = Some d0
         else dec !! j = Some (mkPL (pl_buf d0 ++ pad9 (consumed e)) (pl_ptr d0))
       | None => dec !! j = Some d0
       end.

(** The mapping's cable flags can be decoded: the flag byte the encoder
    puts into the words of cable [j] is not the trailer flag, and the
    decoder maps it back to [j]. *)
Definition cableFlagsOK {MAP : Mapping} (ri : RUInfo.t) (lns : Z) (hwid : list Z) (nCab : Z)
  : Prop :=
  nCab <= MaxCablesPerRU
  /\ forall (j : nat) hw,
       Z.of_nat j < nCab -> Z.land lns (Z.shiftl 1 (Z.of_nat j)) <> 0 ->
       hwid !! j = Some hw ->
       let f := trunc 8 (getGBTHeaderRUType (RUInfo.ruType ri) hw) in
       f <> GBT.FlagDataTrailer
       /\ cableHW2SW (RUInfo.ruType ri) (Z.land f 0x1f) = Z.of_nat j.

(** Cable buffers of a readout unit of nine cables: 10 unread bytes on
    cable 0, 3 on cable 1, nothing on the others. *)
Definition shortCables : list PayLoadCont :=
  [mkPL [1; 2; 3; 4; 5; 6; 7; 8; 9; 10] 0; mkPL [11; 12; 13] 0; PL.empty; PL.empty; PL.empty;
   PL.empty; PL.empty; PL.empty; PL.empty].

(** The hits of a list of chips, as [nHitsDecoded] counts them. *)
Definition hitsOf (l : list ChipPixelData) : Z :=
  foldr (fun c a => Z.of_nat (length (pixels c)) + a) 0 l.

(** A chip stamped with the interaction record and trigger of a reader. *)
Definition stamped (ir : InteractionRecord) (trig : Z) (c : ChipPixelData) : Prop :=
  cp_ir c = ir /\ cp_trigger c = trig.

(** Between two states of [decodeAlpideData]: the counters move together,
    and nothing but chips, cable cursors and error counts is touched. *)
Definition alpideFrame (st st' : AlpideLoop) : Prop :=
  nChipsFired (al_ru st) <= nChipsFired (al_ru st')
  /\ nNonEmptyChips (al_stat st')
     = nNonEmptyChips (al_stat st) + (nChipsFired (al_ru st') - nChipsFired (al_ru st))
  /\ al_ntot st + (nChipsFired (al_ru st') - nChipsFired (al_ru st)) <= al_ntot st'
  /\ nHitsDecoded (al_stat st) <= nHitsDecoded (al_stat st')
  /\ length (chipsData (al_ru st')) = length (chipsData (al_ru st))
  /\ links (al_ru st') = links (al_ru st)
  /\ cableHWID (al_ru st') = cableHWID (al_ru st)
  /\ lastChipChecked (al_ru st') = lastChipChecked (al_ru st)
  /\ nCables (al_ru st') = nCables (al_ru st)
  /\ ruInfo (al_ru st') = ruInfo (al_ru st).

(** The chips registered between two states, as long as the slots are
    not used up: the earlier chips stay, the new ones are stamped, and
    their hits are what [nHitsDecoded] grew by. *)
Definition alpideChips (ir : InteractionRecord) (trig : Z) (st st' : AlpideLoop) : Prop :=
  al_cur st' = nChipsFired (al_ru st')
  /\ exists new,
       take (Z.to_nat (nChipsFired (al_ru st'))) (chipsData (al_ru st'))
       = take (Z.to_nat (nChipsFired (al_ru st))) (chipsData (al_ru st)) ++ new
       /\ Forall (stamped ir trig) new
       /\ nHitsDecoded (al_stat st') = nHitsDecoded (al_stat st) + hitsOf new.

(** The container of RU 0 with one chip record, a single hit, on cable 0. *)
Definition ruOneHit : RUDecodeData :=
  set_nCables 1
    (set_cableData (<[0%nat := mkPL Ordering.oneHit 0]> (cableData Inputs.ru0)) Inputs.ru0).

(** ** Skimming *)

(** [PayLoadCont::shrinkToSize] is not among the sources; it is modelled
    after its use in [skimPaddedRUData], which calls it with the size
    saved at entry to "reset output buffer to initial state": the bytes
    from [sz] on are dropped. [ensureFreeCapacity] reserves room and leaves
    the content alone; [skimPaddedRUData] asks for 8 KB per page and then
    appends without a check, so a page that puts more than that into the
    output buffer has no defined result. *)
Definition shrinkToSize (c : PayLoadCont) (sz : Z) : PayLoadCont :=
  mkPL (take (Z.to_nat sz) (pl_buf c)) (pl_ptr c).

(** Byte offset of [memorySize] inside the header. *)
Definition memorySize_pos : nat := 10.

(** The loop over the data words of one page in [skimPaddedRUData]:
    [n] words left, [iw] the loop counter, [nGBTWords] the estimate from the
    header. Result: the pointer, the statistics, the output buffer and
    [nGBTWords] after the loop. [None]: a shift by a cable index outside
    [0, 32). *)
Fixpoint skimDataWords {MAP : Mapping} (n : nat) (iw nGBTWords : Z) (wsz : Z) (mem : list Z)
         (raw : Z) (ri : RUInfo.t) (ruStat : RUDecodingStat) (outBuffer : PayLoadCont)
  : option (Z * RUDecodingStat * PayLoadCont * Z) :=
  match n with
  | O => Some (raw, ruStat, outBuffer, nGBTWords)
  | S n' =>
    if GBT.isDataTrailer mem raw
    then Some (raw, ruStat, outBuffer, iw) (* the nGBTWords estimate was wrong *)
    else
      let cabHW := GBT.getCableID mem raw in
      let cabSW := cableHW2SW (RUInfo.ruType ri) cabHW in
      (* save gbt word w/o 128b padding *)
      let outBuffer := PL.add outBuffer (peek mem raw (Z.to_nat wsz)) in
      if inRange cabSW 32 then
        let ruStat1 :=
          set_laneMasks (lanesActive ruStat) (lanesStop ruStat) (lanesTimeOut ruStat)
                        (Z.lor (lanesWithData ruStat) (trunc 32 (Z.shiftl 1 cabSW))) ruStat in
        let ruStat2 :=
          if negb (Z.land (lanesStop ruStat1) (trunc 32 (Z.shiftl 1 cabSW)) =? 0)
          then incErr ErrDataForStoppedLane ruStat1 else ruStat1 in
        skimDataWords n' (iw + 1) nGBTWords wsz mem (raw + GBTPaddedWordLength) ri ruStat2
                      outBuffer
      else None
  end.

(** The [while (1)] loop of [skimPaddedRUData] over the pages of one
    trigger; [rdhOff] is the position of the page's RDH in the input,
    [stat] the global statistics. Result: the pointer, the statistics, the
    output buffer and [aborted]. *)
Fixpoint skimPages {MAP : Mapping} (fuel : nat) (wsz : Z) (mem : list Z) (rdhOff : Z)
         (ri : RUInfo.t) (stat : RawDecodingStat) (ruStat : RUDecodingStat)
         (outBuffer : PayLoadCont) (sizeAtEntry : Z)
  : option (Z * RawDecodingStat * RUDecodingStat * PayLoadCont * bool) :=
  match fuel with
  | O => None
  | S fuel' =>
    let rdh := readRDH mem rdhOff in
    let stat := set_nPagesProcessed (nPagesProcessed stat + 1)
                  (set_nBytesProcessed (nBytesProcessed stat + memorySize rdh) stat) in
    let raw := rdhOff + headerSize rdh in
    (* number of 128 b GBT words excluding header/trailer *)
    let nGBTWords := Z.quot (memorySize rdh - headerSize rdh) GBTPaddedWordLength - 2 in
    if negb (GBT.isDataHeader mem raw) then
      (* reset output buffer to initial state *)
      Some (raw, stat, incErr ErrMissingGBTHeader ruStat,
            shrinkToSize outBuffer sizeAtEntry, true)
    else
      let ruStat :=
        if negb (GBT.getPacketID mem raw =? pageCnt rdh)
        then incErr ErrRDHvsGBTHPageCnt ruStat else ruStat in
      let ruStat :=
        if (lanesActive ruStat =? lanesStop ruStat) && negb (pageCnt rdh =? 0)
        then incErr ErrNonZeroPageAfterStop ruStat else ruStat in
      let ruStat :=
        set_laneMasks (GBT.getLanes mem raw) (lanesStop ruStat) (lanesTimeOut ruStat)
                      (lanesWithData ruStat) ruStat in
      let ruStat :=
        if pageCnt rdh =? 0
        then set_laneMasks (lanesActive ruStat) 0 (lanesTimeOut ruStat) 0 ruStat
        else ruStat in
      (* start writting skimmed data for this page *)
      let rdhS := PL.getSize outBuffer in (* save RDH and make saved copy editable *)
      let outBuffer := PL.add outBuffer (peek mem rdhOff (Z.to_nat (headerSize rdh))) in
      (* save gbt header w/o 128b padding *)
      let outBuffer := PL.add outBuffer (peek mem raw (Z.to_nat wsz)) in
      let raw := raw + GBTPaddedWordLength in
      '(raw, ruStat, outBuffer, nGBTWords) ←
        skimDataWords (Z.to_nat nGBTWords) 0 nGBTWords wsz mem raw ri ruStat outBuffer;
      if 8 * 1024 <? PL.getSize outBuffer - rdhS then None
      else
      (* process GBT trailer *)
      let gbtT := raw in
      if negb (GBT.isDataTrailer mem gbtT) then
        Some (raw, stat, incErr ErrMissingGBTTrailer ruStat,
              shrinkToSize outBuffer sizeAtEntry, true)
      else
        let ruStat :=
          set_laneMasks (lanesActive ruStat)
                        (Z.lor (lanesStop ruStat) (GBT.getLanesStop mem gbtT))
                        (Z.lor (lanesTimeOut ruStat) (GBT.getLanesTimeout mem gbtT))
                        (lanesWithData ruStat) ruStat in
        (* save gbt trailer w/o 128b padding *)
        let outBuffer := PL.add outBuffer (peek mem gbtT (Z.to_nat wsz)) in
        if 8 * 1024 <? PL.getSize outBuffer - rdhS then None
        else
        let raw := raw + GBTPaddedWordLength in
        (* we finished the GBT page, register in the stored RDH the memory
           size and new offset *)
        let ms := trunc 16 (headerSize (readRDH (pl_buf outBuffer) rdhS)
                            + (2 + nGBTWords) * wsz) in
        let outBuffer :=
          mkPL (poke (poke (pl_buf outBuffer) (Z.to_nat rdhS + memorySize_pos) (leBytes 2 ms))
                     (Z.to_nat rdhS + offsetToNext_pos) (leBytes 2 ms))
               (pl_ptr outBuffer) in
        if offsetToNext rdh =? 0 then Some (raw, stat, ruStat, outBuffer, false)
        else
          let raw := rdhOff + offsetToNext rdh in (* jump to the next packet *)
          let rdhN := readRDH mem raw in
          if negb (isSameRUandTrigger rdh rdhN) then
            let ruStat := checkEndOfTrigger rdh ruStat in
            (* accumulate packet states *)
            ruStat ← incPacketState (GBT.getPacketState mem gbtT) ruStat;
            Some (raw, stat, ruStat, outBuffer, false)
          else
            let ruStat :=
              if negb (pageCnt rdhN =? pageCnt rdh + 1)
              then incErr ErrPageCounterDiscontinuity ruStat else ruStat in
            skimPages fuel' wsz mem raw ri stat ruStat outBuffer sizeAtEntry
  end.

(** [skimPaddedRUData]: skim CRU data with 128b-padded GBT words and fixed
    8KB pages to 80b-GBT words and page size corresponding to real
    payload. [mem] is the raw buffer [raw] points into; [outBuffer] is a
    buffer of the caller, distinct from the buffers of the reader. [None]:
    no fuel left, or one of the cases above, or no container for the RU. *)
Definition skimPaddedRUData {MAP : Mapping} (fuel : nat) (rd : RawPixelReader) (mem : list Z)
           (raw : Z) (outBuffer : PayLoadCont)
  : option (Z * RawPixelReader * PayLoadCont * bool) :=
  (* data must start by RDH *)
  let rdh := readRDH mem raw in
  if negb (isRDHHeuristic rdh) then Some (raw, rd, outBuffer, true)
  else
    let ruIDSW := FEEId2RUSW (feeId rdh) in
    '(slot, rd) ← getCreateRUDecode ruIDSW rd;
    ruDecode ← idx (mRUDecodeVec rd) slot;
    let ri := getRUInfoSW ruIDSW in
    let rd := set_mInteractionRecord (mkIR (triggerOrbit rdh) (triggerBC rdh)) rd in
    let rd := set_mTrigger (triggerType rdh) rd in
    let rd := set_mInteractionRecordHB (mkIR (heartbeatOrbit rdh) (heartbeatBC rdh)) rd in
    let ruStat := incPackets (statistics ruDecode) in
    let stat := set_nRUsProcessed (nRUsProcessed (mDecodingStat rd) + 1) (mDecodingStat rd) in
    (* save the size of outbuffer size at entry, in case of severe error we
       will need to rewind to it *)
    let sizeAtEntry := PL.getSize outBuffer in
    '(raw, stat, ruStat, outBuffer, aborted) ←
      skimPages fuel (mGBTWordSize rd) mem raw ri stat ruStat outBuffer sizeAtEntry;
    Some (raw,
          set_mDecodingStat stat
            (set_mRUDecodeVec (<[Z.to_nat slot := set_statistics ruStat ruDecode]>
                                 (mRUDecodeVec rd)) rd),
          outBuffer, aborted).

(** [skimNextRUData]: skim the next RU of the raw buffer into
    [outBuffer]; returns 1 on success or after finding the next RDH. *)
Definition skimNextRUData {MAP : Mapping} (fuel : nat) (rd : RawPixelReader)
           (outBuffer : PayLoadCont) : option (Z * RawPixelReader * PayLoadCont) :=
  if negb (PL.isEmpty (mRawBuffer rd)) then
    '(ptr, rd, outBuffer, aborted) ←
      skimPaddedRUData fuel rd (pl_buf (mRawBuffer rd)) (PL.getPtr (mRawBuffer rd)) outBuffer;
    if negb aborted then
      let buffer := PL.setPtr (mRawBuffer rd) ptr in
      Some (1, set_mRawBuffer (if PL.isEmpty buffer then PL.clear buffer else buffer) rd,
            outBuffer) (* success *)
    else (* try to seek to the next RDH, can be done only for 128b padded GBT words *)
      '(found, buffer) ← findNextRDH (mRawBuffer rd);
      if found : bool then Some (1, set_mRawBuffer buffer rd, outBuffer)
      else Some (0, set_mRawBuffer (PL.clear buffer) rd, outBuffer) (* did not find new RDH *)
  else Some (0, rd, outBuffer).

Module Skim.
Import Example Inputs.

(** A reader in which RU 0 has its container, in slot 0. *)
Definition readerRU0 : RawPixelReader :=
  set_mNRUs 1
    (set_mRUEntry (<[0%nat := 0]> (mRUEntry readerInit))
       (set_mRUDecodeVec (<[0%nat := ru0]> (mRUDecodeVec readerInit)) readerInit)).
End Skim.

(** Two runs of the page loop of [fillRULinks] that differ only in the
    size of the GBT word are at the same point: same cable cursors, same
    counters, same lanes. *)
Definition sameLoop (a b : FillLoop) : Prop :=
  fl_cables a = fl_cables b /\ fl_needed a = fl_needed b
  /\ fl_inPacket a = fl_inPacket b /\ lanes (fl_link a) = lanes (fl_link b).

(** ** The cable buffers after the conversion of one RU *)

(** The chip with the ID [k] among the fired chips, if there is one. *)
Definition firedChip (fired : list ChipPixelData) (k : Z) : option ChipPixelData :=
  List.find (fun c => chipID c =? k) fired.

(** The record of the chip [k] of an RU of type [ruType]: the coder's words
    for its pixels, sorted, if the chip is among [fired]; the empty-chip
    flag otherwise. *)
Definition chipRecord {MAP : Mapping} {CODER : Coder} (bcv ruType : Z)
           (fired : list ChipPixelData) (k : Z) : list Z :=
  let chip := getChipOnRUInfo ruType k in
  match firedChip fired k with
  | Some c => encodeChip (mkChip (chipID c) (cp_ir c) (cp_trigger c) (sortPixels (pixels c)))
                         (chipOnModuleHW chip) bcv
  | None => addEmptyChip (chipOnModuleHW chip) bcv
  end.

(** The records of the chips [0 .. nch - 1] that the mapping puts on the
    cable [j], in chip order. *)
Definition recordsOn {MAP : Mapping} (ruType : Z) (rec : Z -> list Z) (nch : Z) (j : Z)
  : list Z :=
  flat_map (fun k => if cableSW (getChipOnRUInfo ruType k) =? j then rec k else [])
           (seqZ 0 nch).
Definition cableRecords {MAP : Mapping} {CODER : Coder} (bcv ruType : Z)
           (fired : list ChipPixelData) (nch : Z) (j : Z) : list Z :=
  recordsOn ruType (chipRecord bcv ruType fired) nch j.

(** The chip IDs go up along the list. *)
Definition idsIncreasing (l : list ChipPixelData) : Prop :=
  forall i j a b, l !! i = Some a -> l !! j = Some b -> (i < j)%nat -> chipID a < chipID b.

(** The cable [cableSW] of every chip below [upto] is a slot of [hwid] that
    holds the HW ID of one of these chips. *)
Definition cablesRegistered {MAP : Mapping} (ruType : Z) (hwid : list Z) (upto : Z) : Prop :=
  forall k, 0 <= k < upto ->
    0 <= cableSW (getChipOnRUInfo ruType k)
    /\ exists k', 0 <= k' < upto
      /\ cableSW (getChipOnRUInfo ruType k') = cableSW (getChipOnRUInfo ruType k)
      /\ hwid !! Z.to_nat (cableSW (getChipOnRUInfo ruType k))
         = Some (trunc 8 (cableHW (getChipOnRUInfo ruType k'))).

(** State of the container [ruD] when the chips below [upto] are converted,
    starting from [ruD0]. *)
Definition chipsDone {MAP : Mapping} (rec : Z -> list Z) (ruType : Z)
           (ruD0 ruD : RUDecodeData) (upto : Z) : Prop :=
  ruInfo ruD = ruInfo ruD0
  /\ length (cableData ruD) = length (cableData ruD0)
  /\ length (cableHWID ruD) = length (cableHWID ruD0)
  /\ (forall j, cableData ruD !! j
                = (fun c0 => PL.add c0 (recordsOn ruType rec upto (Z.of_nat j)))
                    <$> cableData ruD0 !! j)
  /\ cablesRegistered ruType (cableHWID ruD) upto.

(** A container with the chips 1 and 3 fired. *)
Definition ruTwoFired : RUDecodeData :=
  set_nChipsFired 2
    (set_chipsData (<[1%nat := mkChip 3 (mkIR 0 0) 0 [mkPix 7 1; mkPix 2 9; mkPix 2 4]]>
                      (<[0%nat := mkChip 1 (mkIR 0 0) 0 [mkPix 3 5]]> (chipsData Inputs.ru0)))
                   Inputs.ru0).

(** ** Links of several pages *)

(** The loop body of [decodeRUData] from the data words of a page on: [nw]
    data words from [raw], the GBT trailer, and the step to the next page
    of the trigger, whose header is at [rdhOff]. *)
Definition decodePageRest {MAP : Mapping} (fuel : nat) (wsz : Z) (mem : list Z) (rdhOff : Z)
           (ri : RUInfo.t) (nw : nat) (raw : Z) (ruDecData : RUDecodeData)
  : option (Z * RUDecodeData * bool) :=
  let rdh := readRDH mem rdhOff in
  '(raw, ruDecData) ← decodeDataWords nw wsz mem raw ri ruDecData;
  let ruStat := statistics ruDecData in
  (* process GBT trailer *)
  let gbtT := raw in
  if negb (GBT.isDataTrailer mem gbtT) then
    Some (raw, set_statistics (incErr ErrMissingGBTTrailer ruStat) ruDecData, true)
  else
    let ruStat :=
      set_laneMasks (lanesActive ruStat)
                    (Z.lor (lanesStop ruStat) (GBT.getLanesStop mem gbtT))
                    (Z.lor (lanesTimeOut ruStat) (GBT.getLanesTimeout mem gbtT))
                    (lanesWithData ruStat) ruStat in
    let raw := raw + wsz in
    if offsetToNext rdh =? 0 then Some (raw, set_statistics ruStat ruDecData, false)
    else
      let raw := rdhOff + offsetToNext rdh in (* jump to the next packet *)
      let rdhN := readRDH mem raw in
      if negb (isSameRUandTrigger rdh rdhN) then
        let ruStat := checkEndOfTrigger rdh ruStat in
        ruStat ← incPacketState (GBT.getPacketState mem gbtT) ruStat;
        Some (raw, set_statistics ruStat ruDecData, false)
      else
        let ruStat :=
          if negb (pageCnt rdhN =? pageCnt rdh + 1)
          then incErr ErrPageCounterDiscontinuity ruStat else ruStat in
        decodeRUPages fuel wsz mem raw ri (set_statistics ruStat ruDecData).

(** The page in progress of a link with 16-byte GBT words, in the loop of
    [fillRULinks]: its header [fl_rdh st] lies at [pOff] in the link
    buffer, followed by the GBT header and the [fl_inPacket st] words
    written so far; the header announces the words of this page and the
    16-bit fields of the headers still to come do not overflow. *)
Definition pageOpen (impose : bool) (st : FillLoop) (pOff : Z) : Prop :=
  let h := fl_rdh st in
  rdhStored h = h /\ isRDHHeuristic h = true /\ triggerType h <> 0
  /\ 0 <= pageCnt h
  /\ sizeofRDH + (pageCnt h * maxWordsPerPage + fl_needed st + fl_inPacket st + 2)
                 * GBTPaddedWordLength < 2 ^ 16
  /\ memorySize h
     = sizeofRDH + (Z.min (fl_needed st + fl_inPacket st) maxWordsPerPage + 2)
                   * GBTPaddedWordLength
  /\ offsetToNext h = (if impose then MaxGBTPacketBytes else memorySize h)
  /\ 0 <= fl_inPacket st /\ 0 <= fl_needed st
  /\ PL.getSize (data (fl_link st))
     = pOff + sizeofRDH + (1 + fl_inPacket st) * GBTPaddedWordLength
  /\ (forall mem, pl_buf (data (fl_link st)) `prefix_of` mem -> readRDH mem pOff = h).

(** The new page [fillRULinks] opens when more data are to be written:
    the empty trailer of the page in progress, the next header and its GBT
    header. *)
Definition openPage (wsz maxW : Z) (impose : bool) (st : FillLoop) : FillLoop :=
  let link := set_data (PL.add (data (fl_link st)) (take (Z.to_nat wsz) (GBT.trailer 0 0 0)))
                       (fl_link st) in
  let rdh := fl_rdh st in
  let rdh := set_page (pageCnt rdh + 1)
                      (if fl_needed st <? maxW then 1 else 0) rdh in
  let rdh := set_memorySize (pageMemorySize (fl_needed st) GBTPaddedWordLength) rdh in
  let rdh := set_offsetToNext (if impose then MaxGBTPacketBytes else memorySize rdh) rdh in
  let link := writePageRDH rdh link in
  let link := set_data (PL.add (data link)
                          (take (Z.to_nat wsz) (GBT.header (pageCnt rdh) (lanes link))))
                       link in
  mkFL (fl_cables st) link rdh (fl_needed st) 0 (fl_pages st ++ [rdh]).

Module AtEnd.
Import Example.

(** The reader after both chips of the trigger [ru1ThenRu0] have been
    handed out: two containers in use, no chip pending, the raw buffer
    read to its end. *)
Definition readerAtEnd : option RawPixelReader :=
  '(_, _, rd1) ← getNextChipData 10 chipDefault (Streams.readerOn Ordering.ru1ThenRu0);
  '(_, _, rd2) ← getNextChipData 10 chipDefault rd1;
  Some rd2.
End AtEnd.

(** ** Chips of a container, cable by cable

    The order of the chips in words of the calls of [decodeChip]: the
    chips of a cable are those of the successive calls on its buffer, and
    the chips of a container are those of its cables, cable 0 first. *)

(** One call of [decodeChip]: the chip slot and the cable buffer handed in,
    and the result code, the chip and the cable buffer that come back. *)
Record ChipCall := mkCall {
  call_slot : ChipPixelData; call_cable : PayLoadCont;
  call_res : Z; call_chip : ChipPixelData; call_rest : PayLoadCont
}.

(** [calls] are successive calls of [decodeChip] on the cable buffer [cab],
    each on what the call before left of the buffer, up to and with the
    first call that returns 0. *)
Fixpoint callChain {CODER : Coder} (cab : PayLoadCont) (calls : list ChipCall) : Prop :=
  match calls with
  | [] => False
  | c :: r =>
    call_cable c = cab
    /\ decodeChip (call_slot c) cab = (call_res c, call_chip c, call_rest c)
    /\ (if call_res c =? 0 then r = [] else callChain (call_rest c) r)
  end.

(** The chip as [decodeAlpideData] registers it: with its absolute ID, the
    interaction record and the trigger. *)
Definition stampChip {MAP : Mapping} (ir : InteractionRecord) (trig : Z) (ri : RUInfo.t)
           (hw : Z) (chip : ChipPixelData) : ChipPixelData :=
  chip_setTrigger trig (chip_setIR ir (chip_setID (getGlobalChipID (chipID chip) hw ri) chip)).

(** The chips of a run of calls: those of the calls with a positive result,
    in the order of the calls. *)
Definition chipsOfCalls {MAP : Mapping} (ir : InteractionRecord) (trig : Z) (ri : RUInfo.t)
           (hw : Z) (calls : list ChipCall) : list ChipPixelData :=
  omap (fun c => if 0 <? call_res c then Some (stampChip ir trig ri hw (call_chip c)) else None)
       calls.

(** [runs] holds one run of calls for each of the cables [icab],
    [icab + 1], ... of [cables]. *)
Fixpoint runsOf {CODER : Coder} (cables : list PayLoadCont) (icab : Z)
         (runs : list (list ChipCall)) : Prop :=
  match runs with
  | [] => True
  | calls :: r =>
    (exists cab, idx cables icab = Some cab /\ callChain cab calls)
    /\ runsOf cables (icab + 1) r
  end.

(** The chips of these runs, cable after cable, each with the index of the
    cable it is from. *)
Fixpoint chipsOfRuns {MAP : Mapping} (ir : InteractionRecord) (trig : Z) (ri : RUInfo.t)
         (hwid : list Z) (icab : Z) (runs : list (list ChipCall))
  : list (Z * ChipPixelData) :=
  match runs with
  | [] => []
  | calls :: r =>
    ((fun c => (icab, c)) <$> chipsOfCalls ir trig ri (default 0 (idx hwid icab)) calls)
    ++ chipsOfRuns ir trig ri hwid (icab + 1) r
  end.

Module Busy.
Import Example Inputs Streams.

(** The records of three chips with one hit each. *)
Definition chipA : list Z := encodeChip (mkChip 0 (mkIR 0 0) 0 [mkPix 3 5]) 0 42.
Definition chipB : list Z := encodeChip (mkChip 0 (mkIR 0 0) 0 [mkPix 1 2]) 1 42.
Definition chipC : list Z := encodeChip (mkChip 0 (mkIR 0 0) 0 [mkPix 7 9]) 2 42.

(** A clean page of RU [fee] (link 0): all nine lanes active, sending and
    stopped; lane 0 carries the records [chipA] and [chipB] in two words,
    lane 1 the record [chipC], the others a chip-empty record. *)
Definition busyPage (fee : Z) : list Z :=
  writeRDH (pageRDH fee 0 100 42 trigger.PhT 0 0 256 256)
  ++ GBT.header 0 0x1ff
  ++ dataWord 0 (take 9 (chipA ++ chipB))
  ++ dataWord 1 chipC
  ++ dataWord 0 (drop 9 (chipA ++ chipB))
  ++ flat_map (fun c => dataWord c (addEmptyChip c 42)) [2; 3; 4; 5; 6; 7; 8]
  ++ GBT.trailer 0x1ff 0 1.

(** One trigger in which the page of RU 1 precedes the page of RU 0. *)
Definition ru1BusyThenRu0 : list Z := busyPage 1 ++ Ordering.cleanPage 0 Ordering.oneHit.

(** The reader after this trigger is cached and decoded. *)
Definition readerDecoded : option RawPixelReader :=
  rd ← cacheLinksData 10 (readerOn ru1BusyThenRu0);
  '(_, rd) ← decodeNextTrigger 10 rd;
  Some rd.

(** The container of RU 0 with the records [chipA] and [chipB] on cable 0
    and [chipC] on cable 1. *)
Definition ruTwoCables : RUDecodeData :=
  set_nCables 2
    (set_cableData (<[1%nat := mkPL chipC 0]> (<[0%nat := mkPL (chipA ++ chipB) 0]> (cableData ru0)))
                   ru0).
End Busy.

(** * Properties *)

(** The worked examples run on the example mapping and coder. *)
Import Example.

Lemma Some_eq_inv {A} (x y : A) : Some x = Some y -> x = y.
Proof. intros H. congruence. Qed.

(** ** Error counters *)

Lemma errIdx_inj (e1 e2 : DecErrors) : errIdx e1 = errIdx e2 -> e1 = e2.
Proof. destruct e1, e2; simpl; congruence. Qed.

Lemma errIdx_lt (e : DecErrors) : (errIdx e < NErrorsDefined)%nat.
Proof. destruct e; unfold NErrorsDefined; simpl; lia. Qed.

Lemma errCount_incErr_eq (e : DecErrors) (s : RUDecodingStat) :
  length (errorCounts s) = NErrorsDefined ->
  errCount e (incErr e s) = errCount e s + 1.
Proof.
  intros Hlen. unfold errCount, incErr. simpl.
  rewrite list_lookup_alter_eq.
  destruct (errorCounts s !! errIdx e) as [c|] eqn:E; [reflexivity|].
  apply lookup_ge_None in E. pose proof (errIdx_lt e). lia.
Qed.

Lemma errCount_incErr_ne (e e' : DecErrors) (s : RUDecodingStat) :
  e <> e' -> errCount e (incErr e' s) = errCount e s.
Proof.
  intros Hne. unfold errCount, incErr. simpl.
  rewrite list_lookup_alter_ne; [reflexivity|].
  intros Heq. apply Hne. symmetry. now apply errIdx_inj.
Qed.

Lemma incErr_length (e : DecErrors) (s : RUDecodingStat) :
  length (errorCounts (incErr e s)) = length (errorCounts s).
Proof. unfold incErr. simpl. apply length_alter. Qed.

(** ** setMinTriggersToCache *)

(** C8: after [setMinTriggersToCache n] the minimum number of triggers to
    cache is [max n (NCRUPagesPerSuperpage + 1)], for every integer [n]. *)
Theorem setMinTriggersToCache_max (n : Z) (rd : RawPixelReader) :
  getMinTriggersToCache (setMinTriggersToCache n rd) = Z.max n (NCRUPagesPerSuperpage + 1).
Proof.
  unfold getMinTriggersToCache, setMinTriggersToCache, set_mMinTriggersToCache. simpl.
  unfold NCRUPagesPerSuperpage.
  destruct (Z.ltb_spec 256 n); lia.
Qed.

(** The two cases of C8 spelled out. *)
Lemma setMinTriggersToCache_cases (n : Z) (rd : RawPixelReader) :
  (n <= NCRUPagesPerSuperpage ->
   getMinTriggersToCache (setMinTriggersToCache n rd) = NCRUPagesPerSuperpage + 1)
  /\ (NCRUPagesPerSuperpage < n ->
      getMinTriggersToCache (setMinTriggersToCache n rd) = n).
Proof.
  unfold getMinTriggersToCache, setMinTriggersToCache, set_mMinTriggersToCache. simpl.
  unfold NCRUPagesPerSuperpage.
  destruct (Z.ltb_spec 256 n); lia.
Qed.

(** ** isSameRUandTrigger *)

(** C5: [rdhNew] is taken as a continuation of the trigger of [rdhOld]
    exactly when its page counter is not 0, the FEE id, trigger orbit and BC
    and heartbeat orbit and BC agree, and the trigger types share a bit. *)
Theorem isSameRUandTrigger_iff (rdhOld rdhNew : RDH) :
  isSameRUandTrigger rdhOld rdhNew = true <->
  pageCnt rdhNew <> 0
  /\ feeId rdhNew = feeId rdhOld
  /\ triggerOrbit rdhNew = triggerOrbit rdhOld
  /\ triggerBC rdhNew = triggerBC rdhOld
  /\ heartbeatOrbit rdhNew = heartbeatOrbit rdhOld
  /\ heartbeatBC rdhNew = heartbeatBC rdhOld
  /\ Z.land (triggerType rdhNew) (triggerType rdhOld) <> 0.
Proof.
  unfold isSameRUandTrigger.
  destruct (Z.eqb_spec (pageCnt rdhNew) 0);
  destruct (Z.eqb_spec (feeId rdhNew) (feeId rdhOld));
  destruct (Z.eqb_spec (triggerOrbit rdhNew) (triggerOrbit rdhOld));
  destruct (Z.eqb_spec (triggerBC rdhNew) (triggerBC rdhOld));
  destruct (Z.eqb_spec (heartbeatOrbit rdhNew) (heartbeatOrbit rdhOld));
  destruct (Z.eqb_spec (heartbeatBC rdhNew) (heartbeatBC rdhOld));
  destruct (Z.eqb_spec (Z.land (triggerType rdhNew) (triggerType rdhOld)) 0);
  simpl; split; intros H; try discriminate; try tauto; repeat split; assumption.
Qed.
(** ** End-of-trigger checks *)

(** Where [decodeRUData] runs the end-of-trigger checks: a page with a data
    header and a data trailer, a non-zero [offsetToNext], and a next header
    that does not continue the trigger. *)
Lemma decodeRUPages_endOfTrigger `{Mapping} (fuel : nat) (wsz : Z) (mem : list Z) (off : Z)
      (ri : RUInfo.t) (ruD ruD1 : RUDecodeData) (raw1 : Z) :
  let rdh := readRDH mem off in
  let s0 := statistics ruD in
  let s1 := if negb (GBT.getPacketID mem (off + headerSize rdh) =? pageCnt rdh)
            then incErr ErrRDHvsGBTHPageCnt s0 else s0 in
  let s2 := if (lanesActive s1 =? lanesStop s1) && negb (pageCnt rdh =? 0)
            then incErr ErrNonZeroPageAfterStop s1 else s1 in
  let s3 := set_laneMasks (GBT.getLanes mem (off + headerSize rdh)) (lanesStop s2)
                          (lanesTimeOut s2) (lanesWithData s2) s2 in
  let s4 := if pageCnt rdh =? 0
            then set_laneMasks (lanesActive s3) 0 (lanesTimeOut s3) 0 s3 else s3 in
  GBT.isDataHeader mem (off + headerSize rdh) = true ->
  decodeDataWords (Z.to_nat (Z.quot (memorySize rdh - headerSize rdh) wsz - 2)) wsz mem
                  (off + headerSize rdh + wsz) ri (set_statistics s4 ruD) = Some (raw1, ruD1) ->
  GBT.isDataTrailer mem raw1 = true ->
  offsetToNext rdh <> 0 ->
  isSameRUandTrigger rdh (readRDH mem (off + offsetToNext rdh)) = false ->
  let s5 := statistics ruD1 in
  let s6 := set_laneMasks (lanesActive s5)
                          (Z.lor (lanesStop s5) (GBT.getLanesStop mem raw1))
                          (Z.lor (lanesTimeOut s5) (GBT.getLanesTimeout mem raw1))
                          (lanesWithData s5) s5 in
  decodeRUPages (S fuel) wsz mem off ri ruD
  = (s7 ← incPacketState (GBT.getPacketState mem raw1) (checkEndOfTrigger rdh s6);
     Some (off + offsetToNext rdh, set_statistics s7 ruD1, false)).
Proof.
  intros rdh s0 s1 s2 s3 s4 Hhdr Hwords Htrl Hoff Hnew s5 s6.
  cbn [decodeRUPages]. fold rdh. rewrite Hhdr. cbn [negb].
  fold s0. fold s1. fold s2. fold s3. fold s4.
  rewrite Hwords. cbn [mbind option_bind]. rewrite Htrl. cbn [negb].
  destruct (Z.eqb_spec (offsetToNext rdh) 0) as [E|_]; [contradiction|].
  rewrite Hnew. reflexivity.
Qed.

(** The lane masks are not touched by the end-of-trigger checks. *)
Lemma checkEndOfTrigger_lanes (rdh : RDH) (s : RUDecodingStat) :
  lanesActive (checkEndOfTrigger rdh s) = lanesActive s
  /\ lanesStop (checkEndOfTrigger rdh s) = lanesStop s
  /\ lanesTimeOut (checkEndOfTrigger rdh s) = lanesTimeOut s
  /\ lanesWithData (checkEndOfTrigger rdh s) = lanesWithData s.
Proof.
  unfold checkEndOfTrigger.
  repeat match goal with |- context [if ?b then _ else _] => destruct b end;
    simpl; auto.
Qed.

(** C7, as stated, fails: a trigger type that has the SOT bit together with
    the PhT bit gets no exception; the page [pageUnstopped sotPhT] ends with
    lanes active and not stopped and [ErrUnstoppedLanes] is counted. *)
Lemma unstoppedLanes_SOT_bit_counterexample :
  Z.land Inputs.sotPhT trigger.SOT <> 0
  /\ errCount ErrUnstoppedLanes Inputs.ru0.(statistics) = 0
  /\ errCount ErrUnstoppedLanes <$> Inputs.statAfter (Inputs.pageUnstopped Inputs.sotPhT)
     = Some 1.
Proof. vm_compute. split; [discriminate|split; reflexivity]. Qed.

(** C7, amended: at the end of a trigger [ErrUnstoppedLanes] is counted once
    when [lanesActive != lanesStop], unless the trigger type is exactly
    [SOT]; it is not counted otherwise. *)
Theorem checkEndOfTrigger_unstoppedLanes (rdh : RDH) (s : RUDecodingStat) :
  length (errorCounts s) = NErrorsDefined ->
  errCount ErrUnstoppedLanes (checkEndOfTrigger rdh s)
  = errCount ErrUnstoppedLanes s
    + (if negb (lanesActive s =? lanesStop s) && negb (triggerType rdh =? trigger.SOT)
       then 1 else 0).
Proof.
  intros Hlen. unfold checkEndOfTrigger.
  destruct (lanesActive s =? lanesStop s) eqn:Ea; simpl.
  - destruct (negb _); [rewrite errCount_incErr_ne by discriminate|]; lia.
  - destruct (triggerType rdh =? trigger.SOT) eqn:Et; simpl.
    + destruct (negb _); [rewrite errCount_incErr_ne by discriminate|]; lia.
    + destruct (negb _); [rewrite errCount_incErr_ne by discriminate|];
        rewrite errCount_incErr_eq by assumption; lia.
Qed.

Lemma checkEndOfTrigger_unstoppedLanes_witness :
  errCount ErrUnstoppedLanes
    (checkEndOfTrigger (Inputs.pageRDH 0 0 100 42 Inputs.sotPhT 0 0 112 112)
                       (set_laneMasks 1 0 0 1 ruStatInit))
  = errCount ErrUnstoppedLanes (set_laneMasks 1 0 0 1 ruStatInit) + 1.
Proof.
  apply (checkEndOfTrigger_unstoppedLanes
           (Inputs.pageRDH 0 0 100 42 Inputs.sotPhT 0 0 112 112)
           (set_laneMasks 1 0 0 1 ruStatInit)).
  reflexivity.
Defined.

(** A set bit of a 32-bit value sits below bit 32. *)
Lemma testbit_u32 (a i : Z) : 0 <= a < 2 ^ 32 -> Z.testbit a i = true -> 0 <= i < 32.
Proof.
  intros Ha Hb. split.
  - destruct (Z.le_gt_cases 0 i) as [|Hneg]; [assumption|].
    rewrite Z.testbit_neg_r in Hb by lia. discriminate.
  - destruct (Z.lt_ge_cases i 32) as [|Hge]; [assumption|].
    rewrite <- (Z.mod_small a (2 ^ 32)) in Hb by lia.
    rewrite Z.mod_pow2_bits_high in Hb by lia. discriminate.
Qed.

Lemma testbit_silent_mask (wd act i : Z) :
  0 <= i ->
  Z.testbit (Z.land (trunc 32 (Z.lnot wd)) act) i
  = negb (Z.testbit wd i) && (i <? 32) && Z.testbit act i.
Proof.
  intros Hi. unfold trunc.
  rewrite !Z.land_spec, Z.lnot_spec by assumption.
  rewrite Z.testbit_ones_nonneg by lia.
  destruct (Z.ltb_spec i 32); reflexivity.
Qed.

(** C4, as stated, fails. On [pageTimeoutWithData] (a physics trigger)
    every active lane has sent data, yet [ErrNoDataForActiveLane] is counted
    because a lane that sent data is also in time-out; and on
    [pageSilentLane] with trigger type SOT the error is counted, so triggers
    with the SOT bit are no exception. *)
Lemma noDataForActiveLane_counterexample :
  (Z.land trigger.PhT trigger.SOT = 0
   /\ exists s, Inputs.statAfter (Inputs.pageTimeoutWithData trigger.PhT) = Some s
        /\ Z.land (Z.land (lanesActive s) (Z.lnot (lanesTimeOut s))) (Z.lnot (lanesWithData s)) = 0
        /\ errCount ErrNoDataForActiveLane s = 1)
  /\ errCount ErrNoDataForActiveLane Inputs.ru0.(statistics) = 0
  /\ errCount ErrNoDataForActiveLane <$> Inputs.statAfter (Inputs.pageSilentLane trigger.SOT)
     = Some 1.
Proof.
  split; [split; [reflexivity|]|split; vm_compute; reflexivity].
  eexists. split; [vm_compute; reflexivity|]. vm_compute. split; reflexivity.
Qed.

(** C4, amended: at the end of a trigger, whatever the trigger type,
    [ErrNoDataForActiveLane] is counted once when some lane is active, not in
    time-out and without data; and, when every lane in time-out is active
    and has sent no data, it is not counted if there is no such lane. *)
Theorem checkEndOfTrigger_noDataForActiveLane (rdh : RDH) (s : RUDecodingStat) :
  length (errorCounts s) = NErrorsDefined ->
  0 <= lanesActive s < 2 ^ 32 ->
  ((exists i, silentLane s i) ->
   errCount ErrNoDataForActiveLane (checkEndOfTrigger rdh s)
   = errCount ErrNoDataForActiveLane s + 1)
  /\ ((forall i, Z.testbit (lanesTimeOut s) i = true ->
                 Z.testbit (lanesActive s) i = true /\ Z.testbit (lanesWithData s) i = false) ->
      (forall i, ~ silentLane s i) ->
      errCount ErrNoDataForActiveLane (checkEndOfTrigger rdh s)
      = errCount ErrNoDataForActiveLane s).
Proof.
  intros Hlen Hact.
  assert (Hstep : forall s1 : RUDecodingStat,
             lanesActive s1 = lanesActive s -> lanesTimeOut s1 = lanesTimeOut s ->
             lanesWithData s1 = lanesWithData s ->
             length (errorCounts s1) = NErrorsDefined ->
             errCount ErrNoDataForActiveLane s1 = errCount ErrNoDataForActiveLane s ->
             errCount ErrNoDataForActiveLane
               (if negb (Z.land (trunc 32 (Z.lnot (lanesWithData s1))) (lanesActive s1)
                         =? lanesTimeOut s1)
                then incErr ErrNoDataForActiveLane s1 else s1)
             = errCount ErrNoDataForActiveLane s
               + (if Z.land (trunc 32 (Z.lnot (lanesWithData s))) (lanesActive s)
                     =? lanesTimeOut s then 0 else 1)).
  { intros s1 E1 E2 E3 L1 C1. rewrite E1, E2, E3.
    destruct (_ =? _); simpl; [lia|].
    rewrite errCount_incErr_eq by assumption. lia. }
  assert (Hcount : errCount ErrNoDataForActiveLane (checkEndOfTrigger rdh s)
                   = errCount ErrNoDataForActiveLane s
                     + (if Z.land (trunc 32 (Z.lnot (lanesWithData s))) (lanesActive s)
                           =? lanesTimeOut s then 0 else 1)).
  { unfold checkEndOfTrigger.
    destruct (negb (lanesActive s =? lanesStop s)); [destruct (negb (triggerType rdh =? _))|].
    - apply Hstep; try reflexivity.
      + rewrite incErr_length. assumption.
      + apply errCount_incErr_ne. discriminate.
    - apply Hstep; auto.
    - apply Hstep; auto. }
  rewrite Hcount. split.
  - intros [i (Ha & Ht & Hw)].
    destruct (Z.eqb_spec (Z.land (trunc 32 (Z.lnot (lanesWithData s))) (lanesActive s))
                         (lanesTimeOut s)) as [E|_]; [exfalso|reflexivity].
    pose proof (testbit_u32 _ _ Hact Ha) as Hi.
    assert (Hb := f_equal (fun m => Z.testbit m i) E). simpl in Hb.
    rewrite testbit_silent_mask, Ha, Ht, Hw in Hb by lia.
    destruct (Z.ltb_spec i 32); [discriminate|lia].
  - intros Htmo Hnone.
    destruct (Z.eqb_spec (Z.land (trunc 32 (Z.lnot (lanesWithData s))) (lanesActive s))
                         (lanesTimeOut s)) as [_|Hne]; [lia|exfalso].
    apply Hne. apply Z.bits_inj'. intros n Hn.
    rewrite testbit_silent_mask by assumption.
    destruct (Z.testbit (lanesTimeOut s) n) eqn:Et.
    + destruct (Htmo n Et) as [Ha Hw]. rewrite Ha, Hw.
      pose proof (testbit_u32 _ _ Hact Ha) as Hi.
      destruct (Z.ltb_spec n 32); [reflexivity|lia].
    + destruct (Z.testbit (lanesWithData s) n) eqn:Ew; [reflexivity|].
      destruct (Z.testbit (lanesActive s) n) eqn:Ea;
        [|now rewrite andb_false_r].
      exfalso. apply (Hnone n). repeat split; assumption.
Qed.

Lemma checkEndOfTrigger_noDataForActiveLane_witness :
  errCount ErrNoDataForActiveLane
    (checkEndOfTrigger (Inputs.pageRDH 0 0 100 42 trigger.SOT 0 0 96 96)
                       (set_laneMasks 1 1 0 0 ruStatInit))
  = errCount ErrNoDataForActiveLane (set_laneMasks 1 1 0 0 ruStatInit) + 1.
Proof.
  apply (proj1 (checkEndOfTrigger_noDataForActiveLane
                  (Inputs.pageRDH 0 0 100 42 trigger.SOT 0 0 96 96)
                  (set_laneMasks 1 1 0 0 ruStatInit)
                  eq_refl
                  (conj (fun H : (0 ?= 1) = Gt => ltac:(discriminate H)) eq_refl))).
  exists 0. repeat split; reflexivity.
Defined.

(** ** Pointer recovery: findNextRDH *)

Lemma findNextRDH_loop_found (k fuel : nat) (buffer : PayLoadCont) (p : Z) :
  (1 <= k <= fuel)%nat ->
  0 <= p ->
  p + GBTPaddedWordLength * Z.of_nat k < PL.getSize buffer ->
  pl_ptr buffer = p ->
  (forall j : nat, (1 <= j < k)%nat ->
     isRDHHeuristic (readRDH (pl_buf buffer) (p + GBTPaddedWordLength * Z.of_nat j)) = false) ->
  isRDHHeuristic (readRDH (pl_buf buffer) (p + GBTPaddedWordLength * Z.of_nat k)) = true ->
  findNextRDH_loop fuel buffer p
  = Some (true, PL.setPtr buffer (p + GBTPaddedWordLength * Z.of_nat k)).
Proof.
  revert fuel buffer p. unfold GBTPaddedWordLength.
  induction k as [|k IH]; intros fuel buffer p Hk Hp Hlen Hptr Hbad Hgood; [lia|].
  destruct fuel as [|fuel]; [lia|]. cbn [findNextRDH_loop].
  unfold PL.isEmpty at 1. rewrite Hptr.
  destruct (Z.leb_spec (PL.getSize buffer) p); [lia|].
  unfold PL.isEmpty, PL.setPtr, PL.getSize in *; cbn [pl_buf pl_ptr] in *.
  unfold GBTPaddedWordLength.
  destruct (Z.leb_spec (Z.of_nat (length (pl_buf buffer))) (p + 16)); [lia|].
  cbn [negb].
  destruct k as [|k].
  - replace (p + 16 * Z.of_nat 1) with (p + 16) in * by lia.
    rewrite Hgood. reflexivity.
  - assert (H1 := Hbad 1%nat ltac:(lia)).
    replace (p + 16 * Z.of_nat 1) with (p + 16) in H1 by lia. rewrite H1.
    specialize (IH fuel (mkPL (pl_buf buffer) (p + 16)) (p + 16)).
    cbn [pl_buf pl_ptr] in IH.
    replace (p + 16 + 16 * Z.of_nat (S k)) with (p + 16 * Z.of_nat (S (S k))) in IH by lia.
    rewrite IH; [reflexivity|lia|lia|lia|reflexivity| |assumption].
    intros j Hj.
    replace (p + 16 + 16 * Z.of_nat j) with (p + 16 * Z.of_nat (S j)) by lia.
    apply Hbad. lia.
Qed.

Lemma findNextRDH_loop_stride (fuel : nat) (buffer buffer' : PayLoadCont) (p : Z) (b : bool) :
  pl_ptr buffer = p ->
  findNextRDH_loop fuel buffer p = Some (b, buffer') ->
  pl_buf buffer' = pl_buf buffer
  /\ exists j : nat, pl_ptr buffer' = p + GBTPaddedWordLength * Z.of_nat j.
Proof.
  revert buffer p. induction fuel as [|fuel IH]; intros buffer p Hptr H; [discriminate|].
  cbn [findNextRDH_loop] in H.
  destruct (PL.isEmpty buffer).
  { inversion H; subst. split; [reflexivity|]. exists 0%nat. lia. }
  destruct (negb (PL.isEmpty (PL.setPtr buffer (p + GBTPaddedWordLength)))).
  - destruct (isRDHHeuristic _).
    + inversion H; subst. split; [reflexivity|]. exists 1%nat. simpl. lia.
    + apply IH in H; [|reflexivity]. destruct H as [Hb [j Hj]].
      split; [exact Hb|]. exists (S j). rewrite Hj. lia.
  - inversion H; subst. split; [reflexivity|]. exists 1%nat. simpl. lia.
Qed.

(** C3, as stated, fails: with eight bytes of garbage in front of a
    well-formed page the recovery steps over the page's header; nothing is
    cached and no trigger can be decoded, while the same page without the
    garbage is cached as one trigger. *)
Lemma resync_garbage8_counterexample :
  (length Streams.garbage8 - length (Streams.pageOK 0) < Z.to_nat MaxGBTPacketBytes)%nat
  /\ (exists rd, cacheLinksData 10 (Streams.readerOn (Streams.pageOK 0)) = Some rd
                 /\ mNLinks rd = 1 /\ mMinTriggersCached rd = 1
                 /\ linkData rd 0 0 = Some (Streams.pageOK 0))
  /\ (exists rd, cacheLinksData 10 (Streams.readerOn Streams.garbage8) = Some rd
                 /\ mNRUs rd = 0 /\ mNLinks rd = 0
                 /\ fst <$> decodeNextTrigger 10 rd = Some 0).
Proof.
  split; [vm_compute; lia|]. split.
  - eexists. split; [vm_compute; reflexivity|]. vm_compute. repeat split; reflexivity.
  - eexists. split; [vm_compute; reflexivity|]. vm_compute. repeat split; reflexivity.
Qed.

(** C3, amended: [findNextRDH] moves the read pointer in steps of one padded
    GBT word (16 bytes) only; a garbage block of [16 * k] bytes ([k >= 1])
    that shows no plausible RDH at these steps is skipped, with the read
    pointer left on the first valid RDH behind it. *)
Theorem findNextRDH_skips_aligned_garbage (buffer : PayLoadCont) (k : nat) :
  (1 <= k)%nat ->
  0 <= pl_ptr buffer ->
  pl_ptr buffer + GBTPaddedWordLength * Z.of_nat k < PL.getSize buffer ->
  (forall j : nat, (1 <= j < k)%nat ->
     isRDHHeuristic (readRDH (pl_buf buffer) (pl_ptr buffer + GBTPaddedWordLength * Z.of_nat j))
     = false) ->
  isRDHHeuristic (readRDH (pl_buf buffer) (pl_ptr buffer + GBTPaddedWordLength * Z.of_nat k))
  = true ->
  findNextRDH buffer
  = Some (true, PL.setPtr buffer (pl_ptr buffer + GBTPaddedWordLength * Z.of_nat k))
  /\ (forall b buffer', findNextRDH buffer = Some (b, buffer') ->
        exists j : nat, pl_ptr buffer' = pl_ptr buffer + GBTPaddedWordLength * Z.of_nat j).
Proof.
  intros Hk Hp Hlen Hbad Hgood. split.
  - unfold findNextRDH, PL.getPtr.
    apply findNextRDH_loop_found; try assumption; [|reflexivity].
    unfold PL.getSize, GBTPaddedWordLength in *. lia.
  - intros b buffer' H. unfold findNextRDH, PL.getPtr in H.
    apply findNextRDH_loop_stride in H; [|reflexivity]. tauto.
Qed.

Lemma findNextRDH_skips_aligned_garbage_witness :
  findNextRDH (mkPL Streams.corruptedThenOK 0)
  = Some (true, PL.setPtr (mkPL Streams.corruptedThenOK 0) (0 + GBTPaddedWordLength * Z.of_nat 6)).
Proof.
  refine (proj1 (findNextRDH_skips_aligned_garbage (mkPL Streams.corruptedThenOK 0) 6 _ _ _ _ _)).
  - lia.
  - simpl. lia.
  - vm_compute. reflexivity.
  - intros j Hj.
    assert (Hc : (j = 1 \/ j = 2 \/ j = 3 \/ j = 4 \/ j = 5)%nat) by lia.
    destruct Hc as [Hc|[Hc|[Hc|[Hc|Hc]]]]; rewrite Hc; vm_compute; reflexivity.
  - vm_compute. reflexivity.
Defined.

(** ** Caching of pages: cacheLinksData *)

(** C9 fails after a pointer recovery: [cacheLinksData] keeps reading the
    header at the place where the heuristic failed while copying from the
    recovered position. On a corrupted page (96 bytes) followed by a
    well-formed page (112 bytes) the cached page has a stored [memorySize] of
    112 but occupies 96 bytes, so the link buffer is not densely packed. *)
Lemma cacheLinksData_stale_rdh :
  exists rd buf,
    cacheLinksData 10 (Streams.readerOn Streams.corruptedThenOK) = Some rd
    /\ linkData rd 0 0 = Some buf
    /\ length buf = 96%nat
    /\ memorySize (readRDH buf 0) = 112
    /\ offsetToNext (readRDH buf 0) = 96
    /\ buf = poke (take 96 (Streams.pageOK 0)) 8 [96; 0]
    /\ densePages buf = false.
Proof.
  eexists. eexists. split; [vm_compute; reflexivity|].
  split; [vm_compute; reflexivity|].
  vm_compute. repeat split; reflexivity.
Qed.

(** ** Order of the chips handed out by getNextChipData *)

Lemma idx_Some {A} (l : list A) (i : Z) (x : A) :
  idx l i = Some x <-> 0 <= i /\ l !! Z.to_nat i = Some x.
Proof.
  unfold idx. destruct (Z.ltb_spec i 0); split; intros H1; try tauto; try discriminate; lia.
Qed.

Lemma idx_lookup {A} (l : list A) (i : Z) : 0 <= i -> idx l i = l !! Z.to_nat i.
Proof. unfold idx. destruct (Z.ltb_spec i 0); [lia|reflexivity]. Qed.

Lemma firedChips_nil (ruD : RUDecodeData) :
  nChipsFired ruD <= lastChipChecked ruD -> firedChips ruD = [].
Proof.
  intros H. unfold firedChips.
  replace (Z.to_nat (nChipsFired ruD - lastChipChecked ruD)) with 0%nat by lia.
  reflexivity.
Qed.

Lemma firedChips_cons (ruD : RUDecodeData) :
  ruCountersOK ruD -> lastChipChecked ruD < nChipsFired ruD ->
  exists c, chipsData ruD !! Z.to_nat (lastChipChecked ruD) = Some c
    /\ forall out,
       firedChips ruD
       = c :: firedChips (set_lastChipChecked (lastChipChecked ruD + 1)
                            (set_chipsData (<[Z.to_nat (lastChipChecked ruD) := out]> (chipsData ruD))
                                           ruD)).
Proof.
  intros [H0 Hn] Hlt.
  destruct (lookup_lt_is_Some_2 (chipsData ruD) (Z.to_nat (lastChipChecked ruD))) as [c Hc];
    [lia|].
  exists c. split; [exact Hc|]. intros out.
  unfold firedChips. cbn [set_lastChipChecked set_chipsData lastChipChecked nChipsFired chipsData].
  rewrite (drop_S _ _ _ Hc).
  replace (Z.to_nat (nChipsFired ruD - lastChipChecked ruD))
    with (S (Z.to_nat (nChipsFired ruD - (lastChipChecked ruD + 1)))) by lia.
  cbn [take]. f_equal.
  replace (Z.to_nat (lastChipChecked ruD + 1)) with (S (Z.to_nat (lastChipChecked ruD))) by lia.
  rewrite drop_insert_lt by lia. reflexivity.
Qed.

Lemma pendingChips_step (rd : RawPixelReader) (ruD : RUDecodeData) :
  0 <= mCurRUDecodeID rd -> mCurRUDecodeID rd < mNRUs rd ->
  mRUDecodeVec rd !! Z.to_nat (mCurRUDecodeID rd) = Some ruD ->
  pendingChips rd
  = firedChips ruD ++ pendingChips (set_mCurRUDecodeID (mCurRUDecodeID rd + 1) rd).
Proof.
  intros H0 Hlt Hru. unfold pendingChips.
  cbn [set_mCurRUDecodeID mCurRUDecodeID mNRUs mRUDecodeVec].
  assert (Ht : take (Z.to_nat (mNRUs rd)) (mRUDecodeVec rd) !! Z.to_nat (mCurRUDecodeID rd)
               = Some ruD).
  { rewrite lookup_take_lt by lia. exact Hru. }
  rewrite (drop_S _ _ _ Ht). cbn [flat_map].
  replace (Z.to_nat (mCurRUDecodeID rd + 1)) with (S (Z.to_nat (mCurRUDecodeID rd))) by lia.
  reflexivity.
Qed.

Lemma nextFiredChip_pending (n : nat) (out c : ChipPixelData) (rest : list ChipPixelData)
      (rd : RawPixelReader) :
  readerCountersOK rd ->
  n = Z.to_nat (mNRUs rd - mCurRUDecodeID rd) ->
  pendingChips rd = c :: rest ->
  exists rd', nextFiredChip n out rd = Some (inl (c, rd'))
              /\ pendingChips rd' = rest /\ readerCountersOK rd'.
Proof.
  revert rd. induction n as [|n IH]; intros rd (H0 & HN & Hall) Hn Hp.
  - exfalso. unfold pendingChips in Hp.
    rewrite drop_ge in Hp; [discriminate|]. rewrite length_take. lia.
  - assert (Hlt : mCurRUDecodeID rd < mNRUs rd) by lia.
    destruct (lookup_lt_is_Some_2 (mRUDecodeVec rd) (Z.to_nat (mCurRUDecodeID rd)))
      as [ruD Hru]; [lia|].
    cbn [nextFiredChip]. rewrite idx_lookup by assumption. rewrite Hru. cbn [mbind option_bind].
    rewrite (pendingChips_step rd ruD H0 Hlt Hru) in Hp.
    assert (Hok : ruCountersOK ruD) by (eapply Forall_lookup_1; eassumption).
    destruct (Z.ltb_spec (lastChipChecked ruD) (nChipsFired ruD)) as [Hf|Hf].
    + destruct (firedChips_cons ruD Hok Hf) as (c0 & Hc0 & Hfc).
      rewrite (Hfc out) in Hp. cbn [app] in Hp. inversion Hp; subst c0. clear Hp.
      rewrite idx_lookup by (destruct Hok; assumption). rewrite Hc0. cbn [mbind option_bind].
      eexists. split; [reflexivity|].
      set (ruD' := set_lastChipChecked _ _).
      assert (Hok' : ruCountersOK ruD').
      { destruct Hok as [Ha Hb]. split; subst ruD'; cbn; [lia|].
        rewrite length_insert. exact Hb. }
      split.
      * set (rd' := set_mRUDecodeVec _ rd).
        assert (Hru' : mRUDecodeVec rd' !! Z.to_nat (mCurRUDecodeID rd') = Some ruD').
        { subst rd'. cbn. apply list_lookup_insert_eq.
          apply lookup_lt_Some in Hru. exact Hru. }
        rewrite (pendingChips_step rd' ruD'); [|assumption|assumption|exact Hru'].
        f_equal. unfold pendingChips. subst rd'. cbn.
        rewrite take_insert.
        destruct (decide _); [|reflexivity].
        rewrite drop_insert_lt by lia. reflexivity.
      * split; [assumption|]. split; cbn; [rewrite length_insert; assumption|].
        apply Forall_insert; assumption.
    + rewrite firedChips_nil in Hp by assumption. cbn [app] in Hp.
      apply IH; [|cbn; lia|exact Hp].
      split; [cbn; lia|]. split; assumption.
Qed.

Lemma getNextChipData_pending `{Mapping} `{Coder} (fuel : nat) (out c : ChipPixelData)
      (rest : list ChipPixelData) (rd : RawPixelReader) :
  readerCountersOK rd ->
  pendingChips rd = c :: rest ->
  exists rd', getNextChipData (S fuel) out rd = Some (true, c, rd')
              /\ pendingChips rd' = rest /\ readerCountersOK rd'.
Proof.
  intros Hok Hp.
  destruct (nextFiredChip_pending _ out c rest rd Hok eq_refl Hp) as (rd' & Hn & Hp' & Hok').
  exists rd'. split; [|split; assumption].
  cbn [getNextChipData].
  destruct Hok as (Hcur & _). destruct (Z.leb_spec 0 (mCurRUDecodeID rd)); [|lia].
  rewrite Hn. reflexivity.
Qed.

(** Chips are registered by [decodeAlpideData] cable after cable. *)
Lemma decodeCable_order {MAP : Mapping} {CODER : Coder} (fuel : nat) (ir : InteractionRecord) (trig : Z)
      (ri : RUInfo.t) (icab : Z) (st st' : AlpideLoop) :
  decodeCable fuel ir trig ri icab st = Some st' ->
  al_cur st = nChipsFired (al_ru st) -> 0 <= al_cur st ->
  (exists k : nat, al_origin st' = al_origin st ++ replicate k icab
                   /\ nChipsFired (al_ru st') = nChipsFired (al_ru st) + Z.of_nat k)
  /\ (forall i, (i < Z.to_nat (nChipsFired (al_ru st)))%nat ->
                chipsData (al_ru st') !! i = chipsData (al_ru st) !! i)
  /\ (nChipsFired (al_ru st') < MaxChipsPerRU -> al_cur st' = nChipsFired (al_ru st')).
Proof.
  revert st. induction fuel as [|fuel IH]; intros st Hdec Hcur H0; [discriminate|].
  cbn [decodeCable] in Hdec.
  destruct (idx (cableData (al_ru st)) icab) as [cable|]; [|discriminate].
  destruct (idx (chipsData (al_ru st)) (al_cur st)) as [chip|]; [|discriminate].
  cbn [mbind option_bind] in Hdec.
  destruct (decodeChip chip cable) as [[res chip'] cable'].
  destruct (res =? 0).
  { inversion Hdec; subst st'; clear Hdec. cbn. split; [|split].
    - exists 0%nat. cbn. rewrite app_nil_r. split; [reflexivity|lia].
    - intros i Hi. apply list_lookup_insert_ne. lia.
    - intros _. exact Hcur. }
  destruct (0 <? res).
  - destruct (idx (cableHWID _) icab) as [hw|]; [|discriminate].
    cbn [mbind option_bind] in Hdec.
    cbn [nChipsFired set_cableData] in Hdec.
    destruct (Z.ltb_spec (nChipsFired (al_ru st) + 1) MaxChipsPerRU) as [Hlt|Hge].
    + apply IH in Hdec; [|cbn; reflexivity|cbn; lia].
      cbn in Hdec. destruct Hdec as ((k & Ho & Hn) & Hpre & Hc).
      split; [|split].
      * exists (S k). rewrite Ho, Hn, <- app_assoc. cbn. split; [reflexivity|lia].
      * intros i Hi. rewrite Hpre by lia. apply list_lookup_insert_ne. lia.
      * exact Hc.
    + inversion Hdec; subst st'; clear Hdec. cbn. split; [|split].
      * exists 1%nat. cbn. split; [reflexivity|lia].
      * intros i Hi. apply list_lookup_insert_ne. lia.
      * intros Hc. lia.
  - apply IH in Hdec; [|cbn; exact Hcur|cbn; exact H0].
    cbn in Hdec. destruct Hdec as ((k & Ho & Hn) & Hpre & Hc).
    split; [|split].
    + exists k. split; assumption.
    + intros i Hi. rewrite Hpre by lia. apply list_lookup_insert_ne. lia.
    + exact Hc.
Qed.

Lemma decodeCable_mono {MAP : Mapping} {CODER : Coder} (fuel : nat) (ir : InteractionRecord)
      (trig : Z) (ri : RUInfo.t) (icab : Z) (st st' : AlpideLoop) :
  decodeCable fuel ir trig ri icab st = Some st' ->
  nChipsFired (al_ru st) <= nChipsFired (al_ru st').
Proof.
  revert st. induction fuel as [|fuel IH]; intros st Hdec; [discriminate|].
  cbn [decodeCable] in Hdec.
  destruct (idx (cableData (al_ru st)) icab) as [cable|]; [|discriminate].
  destruct (idx (chipsData (al_ru st)) (al_cur st)) as [chip|]; [|discriminate].
  cbn [mbind option_bind] in Hdec.
  destruct (decodeChip chip cable) as [[res chip'] cable'].
  destruct (res =? 0).
  { inversion Hdec; subst st'. cbn. lia. }
  destruct (0 <? res).
  - destruct (idx (cableHWID _) icab) as [hw|]; [|discriminate].
    cbn [mbind option_bind] in Hdec.
    destruct (_ <? MaxChipsPerRU).
    + apply IH in Hdec. cbn in Hdec. lia.
    + inversion Hdec; subst st'. cbn. lia.
  - apply IH in Hdec. cbn in Hdec. exact Hdec.
Qed.

Lemma decodeCables_mono {MAP : Mapping} {CODER : Coder} (fuel : nat) (ir : InteractionRecord)
      (trig : Z) (ri : RUInfo.t) (n : nat) (icab : Z) (st st' : AlpideLoop) :
  decodeCables fuel ir trig ri n icab st = Some st' ->
  nChipsFired (al_ru st) <= nChipsFired (al_ru st').
Proof.
  revert icab st. induction n as [|n IH]; intros icab st Hdec.
  { inversion Hdec; subst. lia. }
  cbn [decodeCables] in Hdec.
  destruct (idx (cableData (al_ru st)) icab) as [cable|]; [|discriminate].
  cbn [mbind option_bind] in Hdec.
  match type of Hdec with
  | context [decodeCable ?f ?a ?b ?c ?d ?s] =>
    destruct (decodeCable f a b c d s) as [st1|] eqn:E1; [|discriminate]
  end.
  cbn [mbind option_bind] in Hdec.
  apply decodeCable_mono in E1. apply IH in Hdec. cbn in E1. lia.
Qed.

Lemma decodeCables_order {MAP : Mapping} {CODER : Coder} (fuel : nat) (ir : InteractionRecord) (trig : Z)
      (ri : RUInfo.t) (n : nat) (icab : Z) (st st' : AlpideLoop) :
  decodeCables fuel ir trig ri n icab st = Some st' ->
  al_cur st = nChipsFired (al_ru st) -> 0 <= al_cur st ->
  nChipsFired (al_ru st') < MaxChipsPerRU ->
  exists l, al_origin st' = al_origin st ++ l
    /\ nChipsFired (al_ru st') = nChipsFired (al_ru st) + Z.of_nat (length l)
    /\ (forall i, (i < Z.to_nat (nChipsFired (al_ru st)))%nat ->
                  chipsData (al_ru st') !! i = chipsData (al_ru st) !! i)
    /\ Forall (fun c => icab <= c < icab + Z.of_nat n) l
    /\ (forall i j x y, (i <= j)%nat -> l !! i = Some x -> l !! j = Some y -> x <= y).
Proof.
  revert icab st. induction n as [|n IH]; intros icab st Hdec Hcur H0 Hmax.
  { inversion Hdec; subst st'. exists []. rewrite app_nil_r. cbn.
    repeat split; try lia; auto. intros i j x y _ Hx. discriminate. }
  cbn [decodeCables] in Hdec.
  destruct (idx (cableData (al_ru st)) icab) as [cable|]; [|discriminate].
  cbn [mbind option_bind] in Hdec.
  match type of Hdec with
  | context [decodeCable ?f ?a ?b ?c ?d ?s] =>
    destruct (decodeCable f a b c d s) as [st1|] eqn:E1; [|discriminate]
  end.
  cbn [mbind option_bind] in Hdec.
  apply decodeCable_order in E1; [|cbn; exact Hcur|cbn; exact H0].
  cbn [al_origin al_ru nChipsFired chipsData set_statistics] in E1.
  destruct E1 as ((k & Ho1 & Hn1) & Hpre1 & Hc1).
  destruct (Z.lt_ge_cases (nChipsFired (al_ru st1)) MaxChipsPerRU) as [Hlt1|Hge1].
  - specialize (IH (icab + 1) st1 Hdec (Hc1 Hlt1) ltac:(rewrite (Hc1 Hlt1); lia) Hmax).
    destruct IH as (l & Ho & Hn & Hpre & Hrange & Hsorted).
    exists (replicate k icab ++ l). rewrite Ho, Ho1, <- app_assoc.
    split; [reflexivity|]. split; [rewrite length_app, length_replicate; lia|].
    split; [intros i Hi; rewrite Hpre by lia; apply Hpre1; exact Hi|].
    split.
    + apply Forall_app. split.
      * apply Forall_replicate. lia.
      * eapply Forall_impl; [exact Hrange|]. cbn. intros c Hc. lia.
    + intros i j x y Hij Hx Hy.
      destruct (Nat.lt_ge_cases j k) as [Hj|Hj].
      * rewrite lookup_app_l in Hx by (rewrite length_replicate; lia).
        rewrite lookup_app_l in Hy by (rewrite length_replicate; lia).
        apply lookup_replicate in Hx, Hy. lia.
      * rewrite lookup_app_r in Hy by (rewrite length_replicate; lia).
        assert (Hyr : icab + 1 <= y).
        { eapply Forall_lookup_1 in Hrange; [|exact Hy]. cbn in Hrange. lia. }
        destruct (Nat.lt_ge_cases i k) as [Hi|Hi].
        -- rewrite lookup_app_l in Hx by (rewrite length_replicate; lia).
           apply lookup_replicate in Hx. lia.
        -- rewrite lookup_app_r in Hx by (rewrite length_replicate; lia).
           rewrite length_replicate in Hx, Hy.
           eapply (Hsorted (i - k)%nat (j - k)%nat); [lia|exact Hx|exact Hy].
  - apply decodeCables_mono in Hdec. lia.
Qed.


Lemma chipsOfCalls_pos {MAP : Mapping} (ir : InteractionRecord) (trig : Z) (ri : RUInfo.t)
      (hw : Z) (c : ChipCall) (calls : list ChipCall) :
  0 < call_res c ->
  chipsOfCalls ir trig ri hw (c :: calls)
  = stampChip ir trig ri hw (call_chip c) :: chipsOfCalls ir trig ri hw calls.
Proof.
  intros H. unfold chipsOfCalls. cbn [omap list_omap].
  destruct (Z.ltb_spec 0 (call_res c)); [reflexivity|lia].
Qed.

Lemma chipsOfCalls_skip {MAP : Mapping} (ir : InteractionRecord) (trig : Z) (ri : RUInfo.t)
      (hw : Z) (c : ChipCall) (calls : list ChipCall) :
  call_res c <= 0 ->
  chipsOfCalls ir trig ri hw (c :: calls) = chipsOfCalls ir trig ri hw calls.
Proof.
  intros H. unfold chipsOfCalls. cbn [omap list_omap].
  destruct (Z.ltb_spec 0 (call_res c)); [lia|reflexivity].
Qed.

(** Chips are registered call by call of [decodeChip] on the cable. *)
Lemma decodeCable_calls {MAP : Mapping} {CODER : Coder} (fuel : nat) (ir : InteractionRecord)
      (trig : Z) (ri : RUInfo.t) (icab : Z) (st st' : AlpideLoop) :
  decodeCable fuel ir trig ri icab st = Some st' ->
  al_cur st = nChipsFired (al_ru st) -> 0 <= al_cur st ->
  nChipsFired (al_ru st') < MaxChipsPerRU ->
  exists cab calls,
    idx (cableData (al_ru st)) icab = Some cab
    /\ callChain cab calls
    /\ take (Z.to_nat (nChipsFired (al_ru st'))) (chipsData (al_ru st'))
       = take (Z.to_nat (nChipsFired (al_ru st))) (chipsData (al_ru st))
         ++ chipsOfCalls ir trig ri (default 0 (idx (cableHWID (al_ru st)) icab)) calls
    /\ al_origin st'
       = al_origin st
         ++ replicate (length (chipsOfCalls ir trig ri
                                 (default 0 (idx (cableHWID (al_ru st)) icab)) calls)) icab
    /\ al_cur st' = nChipsFired (al_ru st')
    /\ nChipsFired (al_ru st) <= nChipsFired (al_ru st')
    /\ (forall j, j <> icab ->
          idx (cableData (al_ru st')) j = idx (cableData (al_ru st)) j)
    /\ cableHWID (al_ru st') = cableHWID (al_ru st)
    /\ lastChipChecked (al_ru st') = lastChipChecked (al_ru st).
Proof.
  revert st. induction fuel as [|fuel IH]; intros st H Hcur H0 Hmax; [discriminate|].
  cbn [decodeCable] in H.
  destruct (idx (cableData (al_ru st)) icab) as [cable|] eqn:Ecab; [|discriminate].
  cbn [mbind option_bind] in H.
  destruct (idx (chipsData (al_ru st)) (al_cur st)) as [chip|] eqn:Ech; [|discriminate].
  cbn [mbind option_bind] in H.
  pose proof (proj1 (idx_Some _ _ _) Ecab) as [Hic Hcabl].
  pose proof (proj1 (idx_Some _ _ _) Ech) as [_ Hchl].
  pose proof (lookup_lt_Some _ _ _ Hcabl) as Hlcab.
  pose proof (lookup_lt_Some _ _ _ Hchl) as Hlch.
  destruct (decodeChip chip cable) as [[res chip'] cable'] eqn:Edc.
  assert (Hother : forall (l : list PayLoadCont) j, j <> icab ->
             idx (<[Z.to_nat icab := cable']> l) j = idx l j).
  { intros l j Hj. unfold idx. destruct (Z.ltb_spec j 0); [reflexivity|].
    apply list_lookup_insert_ne. lia. }
  assert (Hsame : idx (<[Z.to_nat icab := cable']> (cableData (al_ru st))) icab = Some cable').
  { unfold idx. destruct (Z.ltb_spec icab 0); [lia|]. apply list_lookup_insert_eq. exact Hlcab. }
  exists cable.
  destruct (Z.eqb_spec res 0) as [Hz|Hnz].
  { apply Some_eq_inv in H. subst st'. exists [mkCall chip cable res chip' cable'].
    cbn [al_ru al_cur nChipsFired chipsData cableData cableHWID lastChipChecked
         set_chipsData set_cableData].
    split; [reflexivity|]. split.
    { cbn [callChain call_cable call_slot call_res call_chip call_rest].
      split; [reflexivity|]. split; [exact Edc|]. subst res. reflexivity. }
    split.
    { rewrite chipsOfCalls_skip by (cbn [call_res]; lia). cbn [chipsOfCalls omap list_omap].
      rewrite app_nil_r. rewrite take_insert_ge by lia. reflexivity. }
    split.
    { cbn [al_origin]. rewrite chipsOfCalls_skip by (cbn [call_res]; lia).
      cbn [chipsOfCalls omap list_omap length replicate]. rewrite app_nil_r. reflexivity. }
    split; [exact Hcur|]. split; [lia|]. split; [intros j Hj; apply Hother; exact Hj|].
    split; reflexivity. }
  destruct (Z.ltb_spec 0 res) as [Hpos|Hneg].
  - cbn [cableHWID set_cableData] in H.
    destruct (idx (cableHWID (al_ru st)) icab) as [hw|] eqn:Ehw; [|discriminate].
    cbn [mbind option_bind] in H. cbn [nChipsFired set_cableData] in H.
    destruct (Z.ltb_spec (nChipsFired (al_ru st) + 1) MaxChipsPerRU) as [Hlt|Hge].
    + apply IH in H; [|reflexivity|cbn [al_cur]; lia|exact Hmax].
      destruct H as (cab1 & calls & Hc1 & Hch & Htk & Hor & Hcur' & Hle & Hoth & Hhw & Hlc).
      cbn [al_ru al_cur al_origin nChipsFired chipsData cableData cableHWID lastChipChecked
           set_chipsData set_cableData set_statistics set_nChipsFired]
        in Hc1, Htk, Hor, Hle, Hoth, Hhw, Hlc.
      rewrite Hsame in Hc1. apply Some_eq_inv in Hc1. subst cab1.
      exists (mkCall chip cable res chip' cable' :: calls).
      split; [reflexivity|]. split.
      { cbn [callChain call_cable call_slot call_res call_chip call_rest].
        split; [reflexivity|]. split; [exact Edc|].
        destruct (Z.eqb_spec res 0); [contradiction|]. exact Hch. }
      split.
      { rewrite Htk. rewrite Ehw. change (default 0 (Some hw)) with hw.
        rewrite chipsOfCalls_pos by (cbn [call_res]; lia). cbn [call_chip].
        replace (Z.to_nat (nChipsFired (al_ru st) + 1))
          with (S (Z.to_nat (al_cur st))) by lia.
        erewrite take_S_r by (apply list_lookup_insert_eq; exact Hlch).
        rewrite take_insert_ge by lia. rewrite <- app_assoc. rewrite Hcur. reflexivity. }
      split.
      { rewrite Hor, Ehw. change (default 0 (Some hw)) with hw.
        rewrite (chipsOfCalls_pos _ _ _ _ (mkCall chip cable res chip' cable'))
          by (cbn [call_res]; lia).
        cbn [length replicate]. rewrite <- app_assoc. reflexivity. }
      split; [exact Hcur'|]. split; [lia|].
      split; [intros j Hj; rewrite (Hoth j Hj); apply Hother; exact Hj|].
      split; [exact Hhw|exact Hlc].
    + apply Some_eq_inv in H. subst st'. cbn [al_ru nChipsFired set_nChipsFired] in Hmax. lia.
  - apply IH in H; [|exact Hcur|exact H0|exact Hmax].
    destruct H as (cab1 & calls & Hc1 & Hch & Htk & Hor & Hcur' & Hle & Hoth & Hhw & Hlc).
    cbn [al_ru al_cur al_origin nChipsFired chipsData cableData cableHWID lastChipChecked
         set_chipsData set_cableData] in Hc1, Htk, Hor, Hle, Hoth, Hhw, Hlc.
    rewrite Hsame in Hc1. apply Some_eq_inv in Hc1. subst cab1.
    exists (mkCall chip cable res chip' cable' :: calls).
    split; [reflexivity|]. split.
    { cbn [callChain call_cable call_slot call_res call_chip call_rest].
      split; [reflexivity|]. split; [exact Edc|].
      destruct (Z.eqb_spec res 0); [contradiction|]. exact Hch. }
    split.
    { rewrite Htk. rewrite chipsOfCalls_skip by (cbn [call_res]; lia).
      rewrite take_insert_ge by lia. reflexivity. }
    split; [rewrite Hor, chipsOfCalls_skip by (cbn [call_res]; lia); reflexivity|].
    split; [exact Hcur'|]. split; [lia|].
    split; [intros j Hj; rewrite (Hoth j Hj); apply Hother; exact Hj|].
    split; [exact Hhw|exact Hlc].
Qed.

Lemma runsOf_ext {CODER : Coder} (cables cables' : list PayLoadCont) (runs : list (list ChipCall)) :
  forall icab,
  (forall j, icab <= j -> idx cables' j = idx cables j) ->
  runsOf cables icab runs -> runsOf cables' icab runs.
Proof.
  induction runs as [|calls r IH]; intros icab Hext H; [exact I|].
  cbn [runsOf] in *. destruct H as [(cab & Hc & Hch) Hr]. split.
  - exists cab. split; [rewrite Hext by lia; exact Hc|exact Hch].
  - apply IH; [|exact Hr]. intros j Hj. apply Hext. lia.
Qed.

Lemma fmap_snd_pair {A B} (a : A) (l : list B) : snd <$> ((fun b => (a, b)) <$> l) = l.
Proof. induction l as [|b l IH]; [reflexivity|]. cbn. f_equal. exact IH. Qed.

Lemma fmap_fst_pair {A B} (a : A) (l : list B) :
  fst <$> ((fun b => (a, b)) <$> l) = replicate (length l) a.
Proof. induction l as [|b l IH]; [reflexivity|]. cbn. f_equal. exact IH. Qed.

(** The same for the loop over the cables: one run of calls per cable. *)
Lemma decodeCables_calls {MAP : Mapping} {CODER : Coder} (fuel : nat) (ir : InteractionRecord)
      (trig : Z) (ri : RUInfo.t) (n : nat) (icab : Z) (st st' : AlpideLoop) :
  decodeCables fuel ir trig ri n icab st = Some st' ->
  al_cur st = nChipsFired (al_ru st) -> 0 <= al_cur st ->
  nChipsFired (al_ru st') < MaxChipsPerRU ->
  exists runs,
    length runs = n
    /\ runsOf (cableData (al_ru st)) icab runs
    /\ take (Z.to_nat (nChipsFired (al_ru st'))) (chipsData (al_ru st'))
       = take (Z.to_nat (nChipsFired (al_ru st))) (chipsData (al_ru st))
         ++ (snd <$> chipsOfRuns ir trig ri (cableHWID (al_ru st)) icab runs)
    /\ al_origin st'
       = al_origin st ++ (fst <$> chipsOfRuns ir trig ri (cableHWID (al_ru st)) icab runs)
    /\ lastChipChecked (al_ru st') = lastChipChecked (al_ru st).
Proof.
  revert icab st. induction n as [|n IH]; intros icab st H Hcur H0 Hmax.
  { apply Some_eq_inv in H. subst st'. exists []. cbn [length runsOf chipsOfRuns fmap list_fmap].
    rewrite !app_nil_r. repeat split. }
  cbn [decodeCables] in H.
  destruct (idx (cableData (al_ru st)) icab) as [cable|]; [|discriminate].
  cbn [mbind option_bind] in H.
  match type of H with
  | context [decodeCable ?f ?a ?b ?c ?d ?s] =>
    destruct (decodeCable f a b c d s) as [st1|] eqn:E1; [|discriminate]
  end.
  cbn [mbind option_bind] in H.
  pose proof (decodeCables_mono _ _ _ _ _ _ _ _ H) as Hmono.
  apply decodeCable_calls in E1; [|exact Hcur|exact H0|lia].
  cbn [al_ru al_cur al_origin nChipsFired chipsData cableData cableHWID lastChipChecked
       set_statistics] in E1.
  destruct E1 as (cab & calls & Hc & Hch & Htk1 & Hor1 & Hcur1 & Hle1 & Hoth1 & Hhw1 & Hlc1).
  destruct (IH (icab + 1) st1 H Hcur1 ltac:(lia) Hmax)
    as (runs & Hlen & Hruns & Htk & Hor & Hlc).
  exists (calls :: runs). split; [cbn [length]; rewrite Hlen; reflexivity|]. split.
  - cbn [runsOf]. split; [exists cab; split; assumption|].
    apply (runsOf_ext (cableData (al_ru st1))); [|exact Hruns].
    intros j Hj. symmetry. apply Hoth1. lia.
  - split; [|split; [|rewrite Hlc; exact Hlc1]].
    + rewrite Htk, Htk1, Hhw1. cbn [chipsOfRuns]. rewrite fmap_app, fmap_snd_pair.
      rewrite <- app_assoc. reflexivity.
    + rewrite Hor, Hor1, Hhw1. cbn [chipsOfRuns]. rewrite fmap_app, fmap_fst_pair.
      rewrite <- app_assoc. reflexivity.
Qed.



(** ** Pages written by fillRULinks *)

Lemma remOfCable_nonneg (lns : Z) (cables : list PayLoadCont) (icab : Z) :
  0 <= remOfCable lns cables icab.
Proof.
  unfold remOfCable. destruct (negb _); [|lia].
  destruct (idx cables icab) as [c|]; cbn; [|lia].
  destruct (Z.eqb_spec (PL.getUnusedSize c) 0); [lia|].
  assert (0 <= PL.getUnusedSize c).
  { unfold PL.getUnusedSize. destruct (Z.ltb_spec (pl_ptr c) (PL.getSize c)); lia. }
  pose proof (Z.quot_pos (PL.getUnusedSize c - 1) 9). lia.
Qed.

Lemma remWords_nonneg (lns : Z) (cables : list PayLoadCont) (icab : Z) (n : nat) :
  0 <= remWords lns cables icab n.
Proof.
  revert icab. induction n as [|n IH]; intros icab; cbn; [lia|].
  pose proof (remOfCable_nonneg lns cables icab). specialize (IH (icab + 1)). lia.
Qed.

Lemma remOfCable_ext (lns : Z) (c1 c2 : list PayLoadCont) (icab : Z) :
  0 <= icab -> c1 !! Z.to_nat icab = c2 !! Z.to_nat icab ->
  remOfCable lns c1 icab = remOfCable lns c2 icab.
Proof.
  intros H0 H. unfold remOfCable. rewrite !idx_lookup by assumption. rewrite H. reflexivity.
Qed.

Lemma remWords_ext (lns : Z) (c1 c2 : list PayLoadCont) (icab : Z) (n : nat) :
  0 <= icab ->
  (forall j : nat, icab <= Z.of_nat j < icab + Z.of_nat n -> c1 !! j = c2 !! j) ->
  remWords lns c1 icab n = remWords lns c2 icab n.
Proof.
  revert icab. induction n as [|n IH]; intros icab H0 H; cbn; [reflexivity|].
  rewrite (remOfCable_ext lns c1 c2 icab H0) by (apply H; lia).
  rewrite IH; [reflexivity|lia|]. intros j Hj. apply H. lia.
Qed.

(** Writing up to 9 bytes of a cable takes one word off its count. *)
Lemma remOfCable_write (lns : Z) (cables : list PayLoadCont) (icab : Z) (cable : PayLoadCont) :
  0 <= icab -> 0 <= pl_ptr cable ->
  negb (Z.land lns (Z.shiftl 1 icab) =? 0) = true ->
  cables !! Z.to_nat icab = Some cable ->
  PL.getUnusedSize cable <> 0 ->
  let nb := if 9 <? PL.getUnusedSize cable then 9 else PL.getUnusedSize cable in
  remOfCable lns (<[Z.to_nat icab := PL.setPtr cable (PL.getPtr cable + nb)]> cables) icab
  = remOfCable lns cables icab - 1.
Proof.
  intros H0 Hp Hl Hc Hnb nb. unfold remOfCable. rewrite Hl.
  rewrite !idx_lookup by assumption.
  rewrite list_lookup_insert_eq by (eapply lookup_lt_Some; eassumption).
  rewrite Hc. cbn [fmap option_fmap option_map default]. unfold Datatypes.id.
  destruct (Z.eqb_spec (PL.getUnusedSize cable) 0) as [|_]; [contradiction|].
  unfold PL.getUnusedSize, PL.setPtr, PL.getPtr, PL.getSize in *. cbn [pl_buf pl_ptr] in *.
  subst nb.
  destruct (Z.ltb_spec (pl_ptr cable) (Z.of_nat (length (pl_buf cable)))) as [Hlt|Hge];
    [|contradiction].
  set (u := Z.of_nat (length (pl_buf cable)) - pl_ptr cable) in *.
  assert (Hu : 0 < u) by (subst u; lia).
  destruct (Z.ltb_spec 9 u) as [H9|H9].
  - destruct (Z.ltb_spec (pl_ptr cable + 9) (Z.of_nat (length (pl_buf cable)))); [|lia].
    replace (Z.of_nat (length (pl_buf cable)) - (pl_ptr cable + 9)) with (u - 9) by (subst u; lia).
    destruct (Z.eqb_spec (u - 9) 0); [lia|].
    rewrite !Z.quot_div_nonneg by lia.
    replace (u - 1) with ((u - 9 - 1) + 1 * 9) by lia.
    rewrite Z.div_add by lia. lia.
  - destruct (Z.ltb_spec (pl_ptr cable + u) (Z.of_nat (length (pl_buf cable)))); [subst u; lia|].
    cbn. rewrite Z.quot_small by lia. lia.
Qed.

(** One pass of [fillRULinks] over the cables of a link. *)
Lemma fillCables_pass {MAP : Mapping} (n : nat) (icab wsz maxW : Z) (ri : RUInfo.t)
      (hwid : list Z) (st st' : FillLoop) :
  fillCables n icab wsz maxW ri hwid st = Some st' ->
  0 <= icab ->
  Forall (fun c => 0 <= pl_ptr c) (fl_cables st) ->
  exists W : Z,
    0 <= W
    /\ fl_needed st' = fl_needed st - W
    /\ fl_inPacket st' = fl_inPacket st + W
    /\ fl_pages st' = fl_pages st /\ fl_rdh st' = fl_rdh st
    /\ lanes (fl_link st') = lanes (fl_link st)
    /\ nTriggers (fl_link st') = nTriggers (fl_link st)
    /\ Forall (fun c => 0 <= pl_ptr c) (fl_cables st')
    /\ length (fl_cables st') = length (fl_cables st)
    /\ (forall j : nat, ~ (icab <= Z.of_nat j < icab + Z.of_nat n) ->
                        fl_cables st' !! j = fl_cables st !! j)
    /\ remWords (lanes (fl_link st)) (fl_cables st') icab n
       = remWords (lanes (fl_link st)) (fl_cables st) icab n - W
    /\ (fl_inPacket st < maxW -> fl_inPacket st' <= maxW)
    /\ (fl_inPacket st < maxW -> 0 < remWords (lanes (fl_link st)) (fl_cables st) icab n ->
        1 <= W).
Proof.
  revert icab st. induction n as [|n IH]; intros icab st Hf H0 Hptr.
  { inversion Hf; subst st'. exists 0. cbn. repeat split; auto; lia. }
  cbn [fillCables] in Hf.
  assert (Hskip : fillCables n (icab + 1) wsz maxW ri hwid st = Some st' ->
                  remOfCable (lanes (fl_link st)) (fl_cables st) icab = 0 ->
                  exists W : Z,
    0 <= W
    /\ fl_needed st' = fl_needed st - W
    /\ fl_inPacket st' = fl_inPacket st + W
    /\ fl_pages st' = fl_pages st /\ fl_rdh st' = fl_rdh st
    /\ lanes (fl_link st') = lanes (fl_link st)
    /\ nTriggers (fl_link st') = nTriggers (fl_link st)
    /\ Forall (fun c => 0 <= pl_ptr c) (fl_cables st')
    /\ length (fl_cables st') = length (fl_cables st)
    /\ (forall j : nat, ~ (icab <= Z.of_nat j < icab + Z.of_nat (S n)) ->
                        fl_cables st' !! j = fl_cables st !! j)
    /\ remWords (lanes (fl_link st)) (fl_cables st') icab (S n)
       = remWords (lanes (fl_link st)) (fl_cables st) icab (S n) - W
    /\ (fl_inPacket st < maxW -> fl_inPacket st' <= maxW)
    /\ (fl_inPacket st < maxW ->
        0 < remWords (lanes (fl_link st)) (fl_cables st) icab (S n) -> 1 <= W)).
  { intros Hf' Hzero. apply IH in Hf'; [|lia|assumption].
    destruct Hf' as (W & HW & Hn & Hi & Hpg & Hr & Hl & Ht & Hp' & Hlen & Hout & Hrem & Hle & Hprog).
    exists W. repeat split; try assumption.
    - intros j Hj. apply Hout. lia.
    - cbn [remWords]. rewrite Hrem.
      rewrite (remOfCable_ext _ (fl_cables st') (fl_cables st) icab H0); [lia|].
      apply Hout. lia.
    - intros Hlt Hpos. cbn [remWords] in Hpos. apply Hprog; [assumption|lia]. }
  destruct (negb (Z.land (lanes (fl_link st)) (Z.shiftl 1 icab) =? 0)) eqn:Elane.
  2:{ apply Hskip; [assumption|]. unfold remOfCable. rewrite Elane. reflexivity. }
  destruct (idx (fl_cables st) icab) as [cable|] eqn:Ecab; [|discriminate].
  cbn [mbind option_bind] in Hf.
  destruct (Z.eqb_spec (PL.getUnusedSize cable) 0) as [Enb|Enb].
  { apply Hskip; [assumption|]. unfold remOfCable. rewrite Elane, Ecab. cbn.
    rewrite Enb. reflexivity. }
  destruct (idx hwid icab) as [hw|]; [|discriminate].
  cbn [mbind option_bind] in Hf.
  apply idx_Some in Ecab. destruct Ecab as [_ Ecab].
  assert (Hpc : 0 <= pl_ptr cable).
  { eapply Forall_lookup_1 in Hptr; [|exact Ecab]. exact Hptr. }
  pose proof (remOfCable_write _ _ _ _ H0 Hpc Elane Ecab Enb) as Hw. cbn zeta in Hw.
  set (nb := if 9 <? PL.getUnusedSize cable then 9 else PL.getUnusedSize cable) in *.
  set (cables1 := <[Z.to_nat icab := PL.setPtr cable (PL.getPtr cable + nb)]> (fl_cables st)) in *.
  assert (Hnb0 : 0 <= nb).
  { assert (Hus : 0 <= PL.getUnusedSize cable).
    { unfold PL.getUnusedSize. destruct (Z.ltb_spec (pl_ptr cable) (PL.getSize cable)); lia. }
    subst nb. destruct (Z.ltb_spec 9 (PL.getUnusedSize cable)); lia. }
  assert (Hptr1 : Forall (fun c => 0 <= pl_ptr c) cables1).
  { subst cables1. apply Forall_insert; [assumption|]. cbn. unfold PL.getPtr. lia. }
  cbn [fl_inPacket] in Hf.
  destruct (Z.eqb_spec (fl_inPacket st + 1) maxW) as [Efull|Efull].
  - inversion Hf; subst st'; clear Hf. exists 1. cbn.
    repeat split; try lia; try assumption; try reflexivity.
    + subst cables1. apply length_insert.
    + intros j Hj. subst cables1. apply list_lookup_insert_ne. lia.
    + fold cables1. rewrite Hw.
      rewrite (remWords_ext _ cables1 (fl_cables st) (icab + 1) n); [lia|lia|].
      intros j Hj. subst cables1. apply list_lookup_insert_ne. lia.
  - apply IH in Hf; [|lia|assumption]. cbn in Hf.
    destruct Hf as (W & HW & Hn & Hi & Hpg & Hr & Hl & Ht & Hp' & Hlen & Hout & Hrem & Hle & Hprog).
    exists (W + 1). repeat split; try lia; try assumption.
    + rewrite Hlen. subst cables1. apply length_insert.
    + intros j Hj. rewrite Hout by lia. subst cables1. apply list_lookup_insert_ne. lia.
    + cbn [remWords]. rewrite Hrem.
      rewrite (remOfCable_ext _ (fl_cables st') cables1 icab H0) by (apply Hout; lia).
      rewrite Hw.
      rewrite (remWords_ext _ cables1 (fl_cables st) (icab + 1) n); [lia|lia|].
      intros j Hj. subst cables1. apply list_lookup_insert_ne. lia.
Qed.

Lemma fillCables_some {MAP : Mapping} (n : nat) (icab wsz maxW : Z) (ri : RUInfo.t)
      (hwid : list Z) (st : FillLoop) :
  0 <= icab ->
  (Z.to_nat icab + n <= length (fl_cables st))%nat ->
  (Z.to_nat icab + n <= length hwid)%nat ->
  is_Some (fillCables n icab wsz maxW ri hwid st).
Proof.
  revert icab st. induction n as [|n IH]; intros icab st H0 Hc Hh; cbn [fillCables]; [eauto|].
  destruct (negb _); [|apply IH; lia].
  destruct (lookup_lt_is_Some_2 (fl_cables st) (Z.to_nat icab)) as [cable Ecab]; [lia|].
  rewrite (idx_lookup (fl_cables st)) by assumption. rewrite Ecab. cbn [mbind option_bind].
  destruct (_ =? 0); [apply IH; lia|].
  destruct (lookup_lt_is_Some_2 hwid (Z.to_nat icab)) as [hw Ehw]; [lia|].
  rewrite (idx_lookup hwid) by assumption. rewrite Ehw. cbn [mbind option_bind].
  destruct (_ =? maxW); [eauto|].
  apply IH; [lia| |lia]. cbn. rewrite length_insert. lia.
Qed.

Lemma trunc_small (n v : Z) : 0 <= n -> 0 <= v < 2 ^ n -> trunc n v = v.
Proof.
  intros Hn Hv. unfold trunc. rewrite Z.land_ones by assumption. apply Z.mod_small. exact Hv.
Qed.

Lemma pagesOK_lastCnt (P : list RDH) (s : Z) (h : RDH) :
  pagesOK P s -> last P = Some h -> pageCnt h = Z.of_nat (length P) - 1.
Proof.
  intros (Hc & _ & _) Hl. rewrite last_lookup in Hl.
  assert (Hm : map pageCnt P !! pred (length P) = Some (pageCnt h)).
  { rewrite list_lookup_fmap, Hl. reflexivity. }
  rewrite Hc in Hm. apply lookup_seqZ in Hm.
  apply lookup_lt_Some in Hl. lia.
Qed.

(** Opening one more page keeps the page list well formed. *)
Lemma pagesOK_snoc (P : list RDH) (h h' : RDH) (s' : Z) :
  pagesOK P 0 -> last P = Some h ->
  pageCnt h' = pageCnt h + 1 -> stop h' = s' ->
  pagesOK (P ++ [h']) s'.
Proof.
  intros HP Hl Hc' Hs'. pose proof (pagesOK_lastCnt P 0 h HP Hl) as Hcnt.
  destruct HP as (Hc & Hns & Hls). split; [|split].
  - rewrite map_app, length_app, Hc. cbn [map length].
    replace (length P + 1)%nat with (S (length P)) by lia.
    rewrite seqZ_S. f_equal. rewrite Hc', Hcnt. f_equal. lia.
  - intros i x Hx Hi. rewrite length_app in Hi. cbn in Hi.
    rewrite lookup_app_l in Hx by lia.
    destruct (decide (S i = length P)) as [E|E].
    + apply Hls. rewrite last_lookup, <- E. exact Hx.
    + apply (Hns i x Hx). lia.
  - intros x Hx. rewrite last_snoc in Hx. inversion Hx; subst. reflexivity.
Qed.

(** The page loop of [fillRULinks]: with enough fuel it ends, and it leaves
    a well-formed list of page headers. [N] is the number of GBT data words
    of the trigger on this link. *)
Lemma fillPages_pages {MAP : Mapping} (fuel : nat) (nCab wsz : Z) (impose : bool)
      (ri : RUInfo.t) (hwid : list Z) (st : FillLoop) (N : Z) :
  let maxW := maxWordsPerPage in
  0 <= nCab ->
  (Z.to_nat nCab <= length (fl_cables st))%nat ->
  (Z.to_nat nCab <= length hwid)%nat ->
  Forall (fun c => 0 <= pl_ptr c) (fl_cables st) ->
  fl_needed st = remWords (lanes (fl_link st)) (fl_cables st) 0 (Z.to_nat nCab) ->
  0 <= fl_inPacket st < maxW ->
  last (fl_pages st) = Some (fl_rdh st) ->
  N = (Z.of_nat (length (fl_pages st)) - 1) * maxW + fl_inPacket st + fl_needed st ->
  N <= maxW * 65536 ->
  (1 < Z.of_nat (length (fl_pages st)) -> 1 <= fl_inPacket st + fl_needed st) ->
  pagesOK (fl_pages st)
          (if (1 <? Z.of_nat (length (fl_pages st)))
              && (fl_inPacket st + fl_needed st <? maxW) then 1 else 0) ->
  (Z.to_nat (fl_needed st) < fuel)%nat ->
  exists st',
    fillPages fuel nCab wsz maxW impose ri hwid st = Some st'
    /\ fl_needed st' = 0
    /\ 0 <= fl_inPacket st' <= maxW
    /\ N = (Z.of_nat (length (fl_pages st')) - 1) * maxW + fl_inPacket st'
    /\ (1 < Z.of_nat (length (fl_pages st')) -> 1 <= fl_inPacket st')
    /\ pagesOK (fl_pages st')
               (if (1 <? Z.of_nat (length (fl_pages st'))) && (fl_inPacket st' <? maxW)
                then 1 else 0)
    /\ last (fl_pages st') = Some (fl_rdh st')
    /\ lanes (fl_link st') = lanes (fl_link st).
Proof.
  intros maxW. unfold maxWordsPerPage in maxW.
  revert st. induction fuel as [|fuel IH];
    intros st HnCab Hlc Hlh Hptr Hneed Hin Hlast HN Hmax Hmulti Hok Hfuel; [lia|].
  cbn [fillPages].
  destruct (fillCables_some (Z.to_nat nCab) 0 wsz maxW ri hwid st) as [st1 E1]; [lia|lia|lia|].
  rewrite E1. cbn [mbind option_bind].
  destruct (fillCables_pass _ _ _ _ _ _ _ _ E1 ltac:(lia) Hptr)
    as (W & HW & Hn1 & Hi1 & Hpg1 & Hr1 & Hl1 & Ht1 & Hp1 & Hlen1 & _ & Hrem1 & Hle1 & Hprog1).
  assert (Hneed1 : fl_needed st1
                   = remWords (lanes (fl_link st1)) (fl_cables st1) 0 (Z.to_nat nCab)).
  { rewrite Hl1, Hrem1, Hn1, Hneed. reflexivity. }
  assert (Hnn1 : 0 <= fl_needed st1) by (rewrite Hneed1; apply remWords_nonneg).
  specialize (Hle1 ltac:(lia)).
  assert (Hlen0 : (1 <= length (fl_pages st))%nat).
  { destruct (fl_pages st); [discriminate|cbn; lia]. }
  destruct (Z.eqb_spec (fl_needed st1) 0) as [Ez|Enz]; cbn [negb andb].
  - (* all words written *)
    rewrite Ez. cbn [Z.eqb]. exists st1. rewrite Hpg1, Hr1, Hl1.
    split; [reflexivity|]. split; [exact Ez|]. split; [lia|]. split; [lia|].
    split; [lia|]. split; [|split; [assumption|reflexivity]].
    replace (fl_inPacket st1) with (fl_inPacket st + fl_needed st) by lia. exact Hok.
  - destruct (Z.leb_spec maxW (fl_inPacket st1)) as [Hfull|Hroom].
    + (* the packet is full: a new page is opened *)
      cbn [fl_needed]. destruct (Z.eqb_spec (fl_needed st1) 0) as [|_]; [contradiction|].
      match goal with |- context [fillPages fuel _ _ _ _ _ _ ?s] => set (st2 := s) end.
      assert (Hlenb : Z.of_nat (length (fl_pages st)) < 65536) by lia.
      assert (Hok0 : pagesOK (fl_pages st) 0).
      { destruct (1 <? Z.of_nat (length (fl_pages st))); [|exact Hok].
        destruct (Z.ltb_spec (fl_inPacket st + fl_needed st) maxW); [lia|exact Hok]. }
      pose proof (pagesOK_lastCnt _ _ _ Hok0 Hlast) as Hcnt.
      assert (A1 : (Z.to_nat nCab <= length (fl_cables st2))%nat)
        by (subst st2; cbn; rewrite Hlen1; exact Hlc).
      assert (A2 : Forall (fun c => 0 <= pl_ptr c) (fl_cables st2)) by (subst st2; exact Hp1).
      assert (A3 : fl_needed st2
                   = remWords (lanes (fl_link st2)) (fl_cables st2) 0 (Z.to_nat nCab)).
      { subst st2. unfold writePageRDH. cbn. exact Hneed1. }
      assert (A4 : 0 <= fl_inPacket st2 < maxW) by (subst st2; cbn; lia).
      assert (A5 : last (fl_pages st2) = Some (fl_rdh st2)) by (subst st2; cbn; apply last_snoc).
      assert (A6 : Z.of_nat (length (fl_pages st2)) = Z.of_nat (length (fl_pages st)) + 1).
      { subst st2. cbn. rewrite Hpg1, length_app. cbn [length]. lia. }
      assert (A7 : fl_needed st2 = fl_needed st1) by (subst st2; reflexivity).
      assert (A8 : fl_inPacket st2 = 0) by (subst st2; reflexivity).
      assert (A9 : pagesOK (fl_pages st2)
                     (if (1 <? Z.of_nat (length (fl_pages st2)))
                         && (fl_inPacket st2 + fl_needed st2 <? maxW) then 1 else 0)).
      { rewrite A6, A7, A8.
        destruct (Z.ltb_spec 1 (Z.of_nat (length (fl_pages st)) + 1)); [|lia]. cbn [andb].
        replace (0 + fl_needed st1 <? maxW) with (fl_needed st1 <? maxW) by (f_equal; lia).
        subst st2. cbn [fl_pages]. rewrite Hpg1.
        eapply pagesOK_snoc; [exact Hok0|exact Hlast| |].
        - cbn [pageCnt set_offsetToNext set_memorySize set_page]. rewrite Hr1.
          apply trunc_small; lia.
        - cbn [stop set_offsetToNext set_memorySize set_page].
          destruct (fl_needed st1 <? maxW); reflexivity. }
      destruct (IH st2 HnCab A1 Hlh A2 A3 A4 A5) as (st' & Hf & R);
        [rewrite A6, A7, A8; lia|exact Hmax|rewrite A7, A8; lia|exact A9|rewrite A7; lia|].
      exists st'. split; [exact Hf|].
      destruct R as (R1 & R2 & R3 & R4 & R5 & R6 & R7).
      split; [exact R1|]. split; [exact R2|]. split; [exact R3|]. split; [exact R4|].
      split; [exact R5|]. split; [exact R6|].
      rewrite R7. subst st2. unfold writePageRDH. cbn. exact Hl1.
    + (* room left in the packet: another pass over the cables *)
      destruct (Z.eqb_spec (fl_needed st1) 0) as [|_]; [contradiction|].
      assert (HW1 : 1 <= W).
      { apply Hprog1; [lia|]. rewrite <- Hneed. lia. }
      assert (B1 : (Z.to_nat nCab <= length (fl_cables st1))%nat) by (rewrite Hlen1; exact Hlc).
      assert (B5 : last (fl_pages st1) = Some (fl_rdh st1)) by (rewrite Hpg1, Hr1; exact Hlast).
      assert (B9 : pagesOK (fl_pages st1)
                     (if (1 <? Z.of_nat (length (fl_pages st1)))
                         && (fl_inPacket st1 + fl_needed st1 <? maxW) then 1 else 0)).
      { rewrite Hpg1.
        replace (fl_inPacket st1 + fl_needed st1) with (fl_inPacket st + fl_needed st) by lia.
        exact Hok. }
      destruct (IH st1 HnCab B1 Hlh Hp1 Hneed1 ltac:(lia) B5) as (st' & Hf & R);
        [rewrite Hpg1; lia|exact Hmax|rewrite Hpg1; lia|exact B9|lia|].
      exists st'. split; [exact Hf|].
      destruct R as (R1 & R2 & R3 & R4 & R5 & R6 & R7).
      split; [exact R1|]. split; [exact R2|]. split; [exact R3|]. split; [exact R4|].
      split; [exact R5|]. split; [exact R6|]. rewrite R7. exact Hl1.
Qed.

Lemma remWords_snoc (lns : Z) (cables : list PayLoadCont) (icab : Z) (n : nat) :
  remWords lns cables icab (S n)
  = remWords lns cables icab n + remOfCable lns cables (icab + Z.of_nat n).
Proof.
  revert icab. induction n as [|n IH]; intros icab.
  - replace (icab + Z.of_nat 0) with icab by lia. cbn [remWords]. lia.
  - change (remWords lns cables icab (S (S n)))
      with (remOfCable lns cables icab + remWords lns cables (icab + 1) (S n)).
    rewrite IH. cbn [remWords].
    replace (icab + 1 + Z.of_nat n) with (icab + Z.of_nat (S n)) by lia. lia.
Qed.

(** On cable buffers that have not been read yet the word count taken from
    the buffer sizes is the number of words still to be written. *)
Lemma wordsNeeded_remWords (n : nat) (link : RULink) (cables : list PayLoadCont) :
  (forall (i : nat) c, cables !! i = Some c ->
     Z.land (lanes link) (Z.shiftl 1 (Z.of_nat i)) <> 0 -> pl_ptr c = 0) ->
  wordsNeeded n link cables = remWords (lanes link) cables 0 n.
Proof.
  intros Hptr. induction n as [|n IH]; [reflexivity|].
  rewrite remWords_snoc. cbn [wordsNeeded]. rewrite IH.
  replace (0 + Z.of_nat n) with (Z.of_nat n) by lia.
  unfold wordsOfCable, remOfCable.
  destruct (Z.eqb_spec (Z.land (lanes link) (Z.shiftl 1 (Z.of_nat n))) 0) as [|Hl];
    cbn [negb]; [lia|].
  destruct (idx cables (Z.of_nat n)) as [c|] eqn:E; cbn; [|lia].
  apply idx_Some in E. destruct E as [_ E]. rewrite Nat2Z.id in E.
  specialize (Hptr n c E Hl).
  unfold PL.getUnusedSize. rewrite Hptr.
  destruct (Z.ltb_spec 0 (PL.getSize c)) as [Hs|Hs].
  - replace (PL.getSize c - 0) with (PL.getSize c) by lia. lia.
  - assert (PL.getSize c = 0) by (unfold PL.getSize in *; lia).
    rewrite H. cbn. lia.
Qed.

(** C2, as stated, fails: a trigger that fits in a single page is written
    with [stop = 0] in its only page. Two hits on chip 3 and one on chip 12
    give one page per readout unit, each with page counter 0 and no stop
    flag. *)
Lemma single_page_stop_counterexample :
  exists n rd pages,
    digits2raw 100 [mkDigit 3 5 7; mkDigit 3 1 600; mkDigit 12 300 2] (mkIR 100 42) 0 0xff
               readerInit
    = Some (n, rd, pages)
    /\ map (fun '(r, l) => (r, map (fun '(il, P) => (il, map (fun h => (pageCnt h, stop h)) P)) l))
           pages
       = [(0, [(0, [(0, 0)])]); (1, [(0, [(0, 0)])]); (2, [(0, [(0, 0)])]);
          (3, [(0, [(0, 0)])])].
Proof.
  eexists. eexists. eexists. split; [vm_compute; reflexivity|]. vm_compute. reflexivity.
Qed.

(** C2, amended: when the cable buffers of the link's lanes have not been
    read yet, and with enough fuel, [fillRULinks] writes for a link with [N] GBT data words one
    page when [N <= 506] and [ceil (N / 506)] pages otherwise; the page
    counters are 0, 1, 2, ... in order; every page before the last has
    [stop = 0]; the last page has [stop = 1] when the trigger has more than
    one page and the last page is not full, and [stop = 0] otherwise, in
    particular when the trigger fits in a single page. *)
Theorem fillLink_pages {MAP : Mapping} (fuel : nat) (rd : RawPixelReader) (ri : RUInfo.t)
        (hwid : list Z) (il : Z) (rdh : RDH) (link : RULink) (cables : list PayLoadCont) :
  let N := wordsNeeded (Z.to_nat (RUInfo.nCables ri)) link cables in
  headerSize rdh = sizeofRDH ->
  0 <= RUInfo.nCables ri ->
  (Z.to_nat (RUInfo.nCables ri) <= length cables)%nat ->
  (Z.to_nat (RUInfo.nCables ri) <= length hwid)%nat ->
  Forall (fun c => 0 <= pl_ptr c) cables ->
  (forall (i : nat) c, cables !! i = Some c ->
     Z.land (lanes link) (Z.shiftl 1 (Z.of_nat i)) <> 0 -> pl_ptr c = 0) ->
  N <= maxWordsPerPage * 65536 ->
  (Z.to_nat N < fuel)%nat ->
  exists st,
    fillLink fuel rd ri hwid il rdh link cables = Some st
    /\ Z.of_nat (length (fl_pages st))
       = (if N <=? maxWordsPerPage then 1 else (N + (maxWordsPerPage - 1)) / maxWordsPerPage)
    /\ pagesOK (fl_pages st)
               (if (maxWordsPerPage <? N) && negb (N mod maxWordsPerPage =? 0) then 1 else 0).
Proof.
  intros N Hhs HnCab Hlc Hlh Hptr0 Hptr HN Hfuel.
  unfold fillLink. cbn [headerSize set_feeId_link set_page set_memorySize set_offsetToNext].
  rewrite Hhs.
  change (Z.quot (MaxGBTPacketBytes - sizeofRDH) GBTPaddedWordLength - 2) with maxWordsPerPage.
  fold N.
  match goal with
  | |- context [fillPages fuel ?a ?b ?c ?d ?e ?f ?s] =>
    destruct (fillPages_pages fuel a b d e f s N) as (st' & Hf & R1 & R2 & R3 & R4 & R5 & R6 & R7)
  end; cbn [fl_cables fl_link fl_rdh fl_needed fl_inPacket fl_pages length]; try assumption.
  - unfold writePageRDH. cbn [lanes set_data set_nTriggers].
    apply wordsNeeded_remWords. exact Hptr.
  - unfold maxWordsPerPage. lia.
  - reflexivity.
  - unfold maxWordsPerPage. lia.
  - lia.
  - cbn [Z.ltb Z.compare Z.of_nat Pos.of_succ_nat Pos.compare Pos.compare_cont andb].
    split; [reflexivity|]. split.
    + intros i h Hi Hl. cbn in Hl. lia.
    + intros h Hl. cbn in Hl. inversion Hl; subst. reflexivity.
  - exists (mkFL (fl_cables st')
                 (set_data (PL.add (data (fl_link st'))
                              (take (Z.to_nat (mGBTWordSize rd))
                                 (GBT.trailer (lanes (fl_link st')) 0 (Z.shiftl 1 GBT.PacketDone))))
                           (fl_link st'))
                 (fl_rdh st') (fl_needed st') (fl_inPacket st') (fl_pages st')).
    rewrite Hf. cbn [mbind option_bind fl_pages]. split; [reflexivity|].
    assert (Hlen : 1 <= Z.of_nat (length (fl_pages st'))).
    { destruct (fl_pages st'); [discriminate|cbn; lia]. }
    unfold maxWordsPerPage in *. split.
    + destruct (Z.leb_spec N 506); [nia|].
      assert (Hge : 2 <= Z.of_nat (length (fl_pages st'))) by nia.
      specialize (R4 ltac:(lia)).
      apply (Z.div_unique _ _ _ (fl_inPacket st' - 1)); lia.
    + replace ((506 <? N) && negb (N mod 506 =? 0))
        with ((1 <? Z.of_nat (length (fl_pages st'))) && (fl_inPacket st' <? 506)); [exact R5|].
      destruct (Z.ltb_spec 1 (Z.of_nat (length (fl_pages st')))) as [Hm|Hs]; cbn [andb].
      * specialize (R4 Hm). destruct (Z.ltb_spec 506 N); [|nia]. cbn [andb].
        destruct (Z.ltb_spec (fl_inPacket st') 506) as [Hr|Hr].
        -- assert (Hmod : N mod 506 = fl_inPacket st').
           { symmetry. apply (Z.mod_unique _ _ (Z.of_nat (length (fl_pages st')) - 1)); lia. }
           rewrite Hmod. destruct (Z.eqb_spec (fl_inPacket st') 0); [lia|reflexivity].
        -- assert (Hmod : N mod 506 = 0).
           { symmetry. apply (Z.mod_unique _ _ (Z.of_nat (length (fl_pages st')))); lia. }
           rewrite Hmod. reflexivity.
      * destruct (Z.ltb_spec 506 N); [nia|reflexivity].
Qed.

Lemma fillLink_pages_witness :
  exists st,
    fillLink 600 readerInit (Example.ruInfoOf 0) (replicate 28 0) 0 (fillRDH readerInit)
             (set_lanes 0x1ff linkDefault) manyWords
    = Some st
    /\ Z.of_nat (length (fl_pages st)) = 2
    /\ pagesOK (fl_pages st) 1.
Proof.
  destruct (fillLink_pages 600 readerInit (Example.ruInfoOf 0) (replicate 28 0) 0
                           (fillRDH readerInit) (set_lanes 0x1ff linkDefault) manyWords)
    as (st & H1 & H2 & H3).
  - reflexivity.
  - unfold Example.ruInfoOf, Example.nChips. cbn. lia.
  - unfold Example.ruInfoOf, Example.nChips. cbn. lia.
  - unfold Example.ruInfoOf, Example.nChips. cbn. lia.
  - repeat constructor; cbn; lia.
  - intros i c Hc _. assert (Hi : (i < 28)%nat) by (apply lookup_lt_Some in Hc; exact Hc).
    do 28 (destruct i as [|i]; [inversion Hc; reflexivity|]). lia.
  - vm_compute. discriminate.
  - vm_compute. lia.
  - exists st. split; [exact H1|]. split; [exact H2|exact H3].
Defined.

(** ** State left by digits2raw *)

Lemma clearCables_lookup (n : nat) (cables : list PayLoadCont) (i : nat) :
  clearCables n cables !! i
  = if decide (i < n)%nat then PL.clear <$> cables !! i else cables !! i.
Proof.
  revert cables. induction n as [|n IH]; intros cables; cbn [clearCables].
  - destruct (decide (i < 0)%nat); [lia|reflexivity].
  - rewrite IH. destruct (decide (i < n)%nat) as [Hlt|Hge].
    + rewrite list_lookup_alter_ne by lia.
      destruct (decide (i < S n)%nat); [reflexivity|lia].
    + destruct (decide (i < S n)%nat) as [Hs|Hs].
      * assert (i = n) by lia. subst i. apply list_lookup_alter_eq.
      * apply list_lookup_alter_ne. lia.
Qed.

Lemma fillLinks_frame {MAP : Mapping} (fuel : nat) (rd : RawPixelReader) (ri : RUInfo.t)
      (n : nat) (il : Z) (rdh : RDH) (ruData ruData' : RUDecodeData) (mp mp' : Z)
      (pg pg' : list (Z * list RDH)) :
  fillLinks fuel rd ri n il rdh ruData mp pg = Some (ruData', mp', pg') ->
  ruInfo ruData' = ruInfo ruData /\ nCables ruData' = nCables ruData.
Proof.
  revert il rdh ruData mp pg. induction n as [|n IH]; intros il rdh ruData mp pg Hf.
  { inversion Hf; subst. split; reflexivity. }
  cbn [fillLinks] in Hf.
  destruct (idx (links ruData) il) as [[link|]|]; cbn [mbind option_bind] in Hf;
    [|apply IH in Hf; exact Hf|discriminate].
  destruct (fillLink _ _ _ _ _ _ _ _) as [st|]; [|discriminate].
  cbn [mbind option_bind] in Hf. apply IH in Hf. cbn in Hf. exact Hf.
Qed.

(** [fillRULinks] leaves the container of the current RU empty and the
    other containers alone. *)
Lemma fillRULinks_post {MAP : Mapping} (fuel : nat) (rd rd' : RawPixelReader) (mp : Z)
      (pg : list (Z * list RDH)) :
  fillRULinks fuel rd = Some (mp, rd', pg) ->
  0 <= mCurRUDecodeID rd
  /\ mCurRUDecodeID rd' = mCurRUDecodeID rd
  /\ mInteractionRecord rd' = mInteractionRecord rd
  /\ (forall j : nat, j <> Z.to_nat (mCurRUDecodeID rd) ->
                      mRUDecodeVec rd' !! j = mRUDecodeVec rd !! j)
  /\ exists ruD, mRUDecodeVec rd' !! Z.to_nat (mCurRUDecodeID rd) = Some ruD
                 /\ triggerStateEmpty ruD.
Proof.
  intros Hf. unfold fillRULinks in Hf.
  destruct (idx (mRUDecodeVec rd) (mCurRUDecodeID rd)) as [ruData|] eqn:Eru; [|discriminate].
  cbn [mbind option_bind] in Hf.
  destruct (ruInfo ruData) as [ri|] eqn:Eri; [|discriminate].
  cbn [mbind option_bind] in Hf.
  destruct (fillLinks _ _ _ _ _ _ _ _ _) as [[[ruData1 mp1] pg1]|] eqn:El; [|discriminate].
  cbn [mbind option_bind] in Hf. inversion Hf; subst; clear Hf.
  apply fillLinks_frame in El. cbn in El. destruct El as [Eri1 Enc1].
  apply idx_Some in Eru. destruct Eru as [H0 Eru].
  split; [exact H0|]. split; [reflexivity|]. split; [reflexivity|]. split.
  - intros j Hj. cbn. apply list_lookup_insert_ne. lia.
  - eexists. split.
    + cbn. apply list_lookup_insert_eq. eapply lookup_lt_Some. exact Eru.
    + split; [reflexivity|]. split; [reflexivity|].
      exists ri. split; [cbn; rewrite Eri1; exact Eri|].
      intros i c Hc Hi. cbn in Hc. rewrite Enc1 in Hc.
      rewrite clearCables_lookup in Hc.
      destruct (decide (i < Z.to_nat (RUInfo.nCables ri))%nat); [|lia].
      destruct (cableData ruData1 !! i); inversion Hc. reflexivity.
Qed.

Lemma convertRUs_post {MAP : Mapping} {CODER : Coder} (fuel n : nat) (rd rd' : RawPixelReader)
      (mp mp' : Z) (pg pg' : list (Z * list (Z * list RDH))) :
  convertRUs fuel n rd mp pg = Some (mp', rd', pg') ->
  0 <= mCurRUDecodeID rd ->
  forall r, mCurRUDecodeID rd <= r < mCurRUDecodeID rd + Z.of_nat n ->
    exists ruD, mRUDecodeVec rd' !! Z.to_nat r = Some ruD /\ triggerStateEmpty ruD.
Proof.
  revert rd mp pg.
  assert (Hframe : forall n rd mp pg, convertRUs fuel n rd mp pg = Some (mp', rd', pg') ->
            0 <= mCurRUDecodeID rd ->
            forall j : nat, Z.of_nat j < mCurRUDecodeID rd ->
              mRUDecodeVec rd' !! j = mRUDecodeVec rd !! j).
  { clear n. induction n as [|n IH]; intros rd mp pg Hc H0 j Hj.
    { inversion Hc; subst. reflexivity. }
    cbn [convertRUs] in Hc.
    destruct (idx (mRUDecodeVec rd) (mCurRUDecodeID rd)) as [ruD|]; [|discriminate].
    cbn [mbind option_bind] in Hc.
    destruct (ruInfo ruD) as [ri|]; [|discriminate]. cbn [mbind option_bind] in Hc.
    destruct (convertFired _ _ _ _ _) as [[n2p ruD1]|]; [|discriminate].
    cbn [mbind option_bind] in Hc.
    destruct (convertEmptyChips _ _ _ _) as [ruD2|]; [|discriminate].
    cbn [mbind option_bind] in Hc.
    destruct (fillRULinks _ _) as [[[mpr rd1] pg1]|] eqn:Ef; [|discriminate].
    cbn [mbind option_bind] in Hc.
    apply fillRULinks_post in Ef. cbn in Ef. destruct Ef as (_ & Ecur & _ & Efr & _).
    cbn in Ecur.
    assert (Hj' := IH _ _ _ Hc ltac:(cbn; lia) j ltac:(cbn; lia)).
    cbn in Hj'. rewrite Hj'. rewrite Efr by lia.
    apply list_lookup_insert_ne. lia. }
  induction n as [|n IH]; intros rd mp pg Hc H0 r Hr; [lia|].
  pose proof Hc as Hc0.
  cbn [convertRUs] in Hc.
  destruct (idx (mRUDecodeVec rd) (mCurRUDecodeID rd)) as [ruD|]; [|discriminate].
  cbn [mbind option_bind] in Hc.
  destruct (ruInfo ruD) as [ri|]; [|discriminate]. cbn [mbind option_bind] in Hc.
  destruct (convertFired _ _ _ _ _) as [[n2p ruD1]|]; [|discriminate].
  cbn [mbind option_bind] in Hc.
  destruct (convertEmptyChips _ _ _ _) as [ruD2|]; [|discriminate].
  cbn [mbind option_bind] in Hc.
  destruct (fillRULinks _ _) as [[[mpr rd1] pg1]|] eqn:Ef; [|discriminate].
  cbn [mbind option_bind] in Hc.
  apply fillRULinks_post in Ef. cbn in Ef.
  destruct Ef as (_ & Ecur & _ & Efr & ruDf & Elook & Hempty).
  destruct (Z.eq_dec r (mCurRUDecodeID rd)) as [->|Hne].
  - exists ruDf. split; [|exact Hempty].
    rewrite (Hframe _ _ _ _ Hc) by (cbn; lia). cbn. exact Elook.
  - apply (IH _ _ _ Hc); cbn; lia.
Qed.




(** ** The header in memory *)

Lemma length_leBytes (n : nat) (v : Z) : length (leBytes n v) = n.
Proof. revert v. induction n as [|n IH]; intros v; cbn; [reflexivity|]. now rewrite IH. Qed.

Lemma leZ_leBytes (n : nat) (v : Z) :
  0 <= v < 2 ^ (8 * Z.of_nat n) -> leZ (leBytes n v) = v.
Proof.
  revert v. induction n as [|n IH]; intros v Hv.
  - cbn in *. lia.
  - cbn [leBytes leZ].
    replace (8 * Z.of_nat (S n)) with (8 + 8 * Z.of_nat n) in Hv by lia.
    rewrite Z.pow_add_r in Hv by lia.
    rewrite IH.
    + change 255 with (Z.ones 8). rewrite Z.land_ones by lia. rewrite Z.shiftr_div_pow2 by lia.
      change (2 ^ 8) with 256 in *. pose proof (Z.div_mod v 256). lia.
    + rewrite Z.shiftr_div_pow2 by lia. change (2 ^ 8) with 256 in *.
      split; [apply Z.div_pos; lia|].
      apply Z.div_lt_upper_bound; lia.
Qed.

Lemma peek_inside (pre mid post : list Z) :
  peek (pre ++ mid ++ post) (Z.of_nat (length pre)) (length mid) = mid.
Proof.
  unfold peek.
  replace (Z.to_nat (- Z.of_nat (length pre))) with 0%nat by lia.
  rewrite Nat.min_0_r, Nat.sub_0_r, Nat2Z.id. cbn [replicate app].
  rewrite drop_app_length, take_app_length, Nat.sub_diag. cbn. apply app_nil_r.
Qed.

Lemma trunc_range (n v : Z) : 0 <= n -> 0 <= trunc n v < 2 ^ n.
Proof.
  intros Hn. unfold trunc. rewrite Z.land_ones by assumption. apply Z.mod_pos_bound.
  apply Z.pow_pos_nonneg; lia.
Qed.

Lemma field_sum_word1 (o m l p c z : Z) :
  0 <= field o 0 16 + field m 16 16 + field l 32 8 + field p 40 8 + field c 48 12
       + field z 60 4 < 2 ^ (8 * Z.of_nat 8)
  /\ bits (field o 0 16 + field m 16 16 + field l 32 8 + field p 40 8 + field c 48 12
           + field z 60 4) 0 16 = trunc 16 o
  /\ bits (field o 0 16 + field m 16 16 + field l 32 8 + field p 40 8 + field c 48 12
           + field z 60 4) 16 16 = trunc 16 m.
Proof.
  unfold bits, field.
  pose proof (trunc_range 16 o ltac:(lia)).
  pose proof (trunc_range 16 m ltac:(lia)).
  pose proof (trunc_range 8 l ltac:(lia)).
  pose proof (trunc_range 8 p ltac:(lia)).
  pose proof (trunc_range 12 c ltac:(lia)).
  pose proof (trunc_range 4 z ltac:(lia)).
  rewrite !Z.shiftl_mul_pow2, !Z.shiftr_div_pow2, !Z.land_ones by lia.
  change (2 ^ 0) with 1. change (2 ^ 16) with 65536 in *.
  change (2 ^ 32) with 4294967296. change (2 ^ 40) with 1099511627776.
  change (2 ^ 48) with 281474976710656. change (2 ^ 60) with 1152921504606846976.
  change (2 ^ 8) with 256 in *. change (2 ^ 12) with 4096 in *. change (2 ^ 4) with 16 in *.
  change (2 ^ (8 * Z.of_nat 8)) with 18446744073709551616.
  split; [lia|]. split.
  - rewrite Z.div_1_r. symmetry.
    apply (Z.mod_unique _ _ (trunc 16 m + 65536 * trunc 8 l + 16777216 * trunc 8 p
                             + 4294967296 * trunc 12 c + 17592186044416 * trunc 4 z)); lia.
  - symmetry.
    apply (Z.mod_unique _ _ (trunc 8 l + 256 * trunc 8 p + 65536 * trunc 12 c
                             + 268435456 * trunc 4 z)); [lia|].
    symmetry.
    apply (Z.div_unique _ 65536 _ (trunc 16 o)); lia.
Qed.

(** The second 64-bit word of a header written by [writeRDH], read back. *)
Lemma readRDH_writeRDH_word1 (h : RDH) (rest : list Z) :
  offsetToNext (readRDH (writeRDH h ++ rest) 0) = trunc 16 (offsetToNext h)
  /\ memorySize (readRDH (writeRDH h ++ rest) 0) = trunc 16 (memorySize h).
Proof.
  unfold readRDH. cbn [offsetToNext memorySize].
  assert (Hpk : forall a b c : list Z, length a = 8%nat -> length b = 8%nat ->
                  peek ((a ++ b ++ c) ++ rest) (0 + 8) 8 = b).
  { intros a b c Ha Hb. rewrite <- !app_assoc.
    pose proof (peek_inside a b (c ++ rest)) as P. rewrite Ha, Hb in P. exact P. }
  unfold writeRDH. rewrite !Hpk by apply length_leBytes.
  destruct (field_sum_word1 (offsetToNext h) (memorySize h) (linkID h) (packetCounter h)
                            (cruID h) (zero1 h)) as (Hr & Ho & Hm).
  rewrite leZ_leBytes by exact Hr. split; assumption.
Qed.

(** ** Pages whose size does not fit the header field *)

Lemma growsFrom_refl (st : FillLoop) : growsFrom st st.
Proof. unfold growsFrom. split; [reflexivity|]. split; reflexivity. Qed.

Lemma growsFrom_trans (a b c : FillLoop) : growsFrom a b -> growsFrom b c -> growsFrom a c.
Proof.
  intros (P1 & B1 & G1) (P2 & B2 & G2). split; [congruence|].
  split; etransitivity; eassumption.
Qed.

Lemma fillCables_grows {MAP : Mapping} (n : nat) (icab wsz maxW : Z) (ri : RUInfo.t)
      (hwid : list Z) (st st' : FillLoop) :
  fillCables n icab wsz maxW ri hwid st = Some st' -> growsFrom st st'.
Proof.
  revert icab st. induction n as [|n IH]; intros icab st Hf.
  { inversion Hf; subst st'. apply growsFrom_refl. }
  cbn [fillCables] in Hf.
  destruct (negb (Z.land (lanes (fl_link st)) (Z.shiftl 1 icab) =? 0)); [|eapply IH; eassumption].
  destruct (idx (fl_cables st) icab) as [cable|]; [|discriminate].
  cbn [mbind option_bind] in Hf.
  destruct (PL.getUnusedSize cable =? 0); [eapply IH; eassumption|].
  destruct (idx hwid icab) as [hw|]; [|discriminate].
  cbn [mbind option_bind] in Hf.
  match type of Hf with
  | (if _ then Some ?s else _) = _ =>
    assert (Hs : growsFrom st s)
      by (split; [reflexivity|]; split; [apply prefix_app_r; reflexivity|reflexivity]);
    destruct (fl_inPacket s =? maxW);
      [inversion Hf; subst st'; exact Hs
      |eapply growsFrom_trans; [exact Hs|eapply IH; eassumption]]
  end.
Qed.

Lemma fillPages_grows {MAP : Mapping} (fuel : nat) (nCab wsz maxW : Z) (impose : bool)
      (ri : RUInfo.t) (hwid : list Z) (st st' : FillLoop) :
  fillPages fuel nCab wsz maxW impose ri hwid st = Some st' -> growsFrom st st'.
Proof.
  revert st. induction fuel as [|fuel IH]; intros st Hf; [discriminate|].
  cbn [fillPages] in Hf.
  destruct (fillCables (Z.to_nat nCab) 0 wsz maxW ri hwid st) as [st1|] eqn:E1; [|discriminate].
  cbn [mbind option_bind] in Hf. apply fillCables_grows in E1.
  match type of Hf with
  | (if fl_needed ?s =? 0 then _ else _) = _ =>
    assert (Hs : growsFrom st1 s);
      [|destruct (fl_needed s =? 0);
        [inversion Hf; subst st'; eapply growsFrom_trans; eassumption
        |eapply growsFrom_trans; [exact E1|];
         eapply growsFrom_trans; [exact Hs|eapply IH; eassumption]]]
  end.
  destruct (negb (fl_needed st1 =? 0) && (maxW <=? fl_inPacket st1)); [|apply growsFrom_refl].
  unfold growsFrom, writePageRDH. cbn [fl_link fl_pages data set_data set_nTriggers PL.add pl_ptr pl_buf].
  split; [reflexivity|]. split.
  - rewrite <- !app_assoc. apply prefix_app_r. reflexivity.
  - apply prefix_app_r. reflexivity.
Qed.

Lemma length_writeRDH (h : RDH) : length (writeRDH h) = 64%nat.
Proof. unfold writeRDH. rewrite !length_app, !length_leBytes. reflexivity. Qed.

(** With enough fuel [fillLink] produces its pages. *)
Lemma fillLink_runs {MAP : Mapping} (fuel : nat) (rd : RawPixelReader) (ri : RUInfo.t)
      (hwid : list Z) (il : Z) (rdh : RDH) (link : RULink) (cables : list PayLoadCont) :
  let N := wordsNeeded (Z.to_nat (RUInfo.nCables ri)) link cables in
  headerSize rdh = sizeofRDH ->
  0 <= RUInfo.nCables ri ->
  (Z.to_nat (RUInfo.nCables ri) <= length cables)%nat ->
  (Z.to_nat (RUInfo.nCables ri) <= length hwid)%nat ->
  Forall (fun c => 0 <= pl_ptr c) cables ->
  (forall (i : nat) c, cables !! i = Some c ->
     Z.land (lanes link) (Z.shiftl 1 (Z.of_nat i)) <> 0 -> pl_ptr c = 0) ->
  N <= maxWordsPerPage * 65536 ->
  (Z.to_nat N < fuel)%nat ->
  is_Some (fillLink fuel rd ri hwid il rdh link cables).
Proof.
  intros N Hhs HnCab Hlc Hlh Hptr0 Hptr HN Hfuel.
  unfold fillLink. cbn [headerSize set_feeId_link set_page set_memorySize set_offsetToNext].
  rewrite Hhs.
  change (Z.quot (MaxGBTPacketBytes - sizeofRDH) GBTPaddedWordLength - 2) with maxWordsPerPage.
  fold N.
  match goal with
  | |- context [fillPages fuel ?a ?b ?c ?d ?e ?f ?s] =>
    destruct (fillPages_pages fuel a b d e f s N) as (st' & Hf & _)
  end; cbn [fl_cables fl_link fl_rdh fl_needed fl_inPacket fl_pages length]; try assumption.
  - unfold writePageRDH. cbn [lanes set_data set_nTriggers].
    apply wordsNeeded_remWords. exact Hptr.
  - unfold maxWordsPerPage. lia.
  - reflexivity.
  - unfold maxWordsPerPage. lia.
  - lia.
  - cbn [Z.ltb Z.compare Z.of_nat Pos.of_succ_nat Pos.compare Pos.compare_cont andb].
    split; [reflexivity|]. split.
    + intros i h Hi Hl. cbn in Hl. lia.
    + intros h Hl. cbn in Hl. inversion Hl; subst. reflexivity.
  - rewrite Hf. cbn [mbind option_bind]. eauto.
Qed.

(** The first page [fillLink] writes into a fresh link buffer: its header
    is at the start of the buffer, under the read cursor, and its
    [memorySize] is the 16-bit value [pageMemorySize] computes. *)
Lemma fillLink_first_page {MAP : Mapping} (fuel : nat) (rd : RawPixelReader) (ri : RUInfo.t)
      (hwid : list Z) (il : Z) (rdh : RDH) (link : RULink) (cables : list PayLoadCont)
      (st : FillLoop) :
  fillLink fuel rd ri hwid il rdh link cables = Some st ->
  headerSize rdh = sizeofRDH ->
  data link = PL.empty ->
  exists h rest,
    pl_buf (data (fl_link st)) = writeRDH h ++ rest
    /\ pl_ptr (data (fl_link st)) = 0
    /\ head (fl_pages st) = Some h
    /\ pageCnt h = 0
    /\ memorySize h
       = trunc 16 (pageMemorySize (wordsNeeded (Z.to_nat (RUInfo.nCables ri)) link cables)
                                  (mGBTWordSize rd)).
Proof.
  intros Hf Hhs Hd. unfold fillLink in Hf.
  match type of Hf with
  | (mbind _ (fillPages _ _ _ _ _ _ _ ?s)) = _ => set (st0 := s) in Hf
  end.
  destruct (fillPages _ _ _ _ _ _ _ st0) as [st1|] eqn:E1; [|discriminate].
  cbn [mbind option_bind] in Hf. inversion Hf; subst st. clear Hf.
  apply fillPages_grows in E1. destruct E1 as (P1 & [b1 B1] & [g1 G1]).
  cbn [fl_link fl_pages data set_data pl_buf pl_ptr PL.add].
  rewrite P1, B1, G1. subst st0. unfold writePageRDH.
  cbn [fl_link fl_pages data set_data set_nTriggers pl_buf pl_ptr PL.add headerSize
       set_feeId_link set_page set_memorySize set_offsetToNext].
  rewrite Hd, Hhs. cbn [PL.empty pl_buf pl_ptr app].
  eexists. eexists. split; [|split; [reflexivity|split; [reflexivity|split; reflexivity]]].
  rewrite firstn_all2; [rewrite <- !app_assoc; reflexivity|].
  rewrite length_writeRDH. unfold sizeofRDH. lia.
Qed.

(** A page whose header holds [memorySize = 0] is never flushed: every
    round of the loop of [flushSuperPages] copies no byte of the link,
    emits a page of zeros and leaves the read cursor where it was. *)
Lemma flushPages_stuck (n : nat) (link : RULink) (sink : PayLoadCont) (k : Z) :
  memorySize (readRDH (pl_buf (data link)) (pl_ptr (data link))) = 0 ->
  PL.isEmpty (data link) = false ->
  exists link' sink',
    flushPages n link sink k = (link', sink', k + Z.of_nat n)
    /\ pl_buf (data link') = pl_buf (data link)
    /\ pl_ptr (data link') = pl_ptr (data link)
    /\ pl_ptr sink' = pl_ptr sink
    /\ pl_buf sink' = pl_buf sink ++ replicate (n * Z.to_nat MaxGBTPacketBytes) 0.
Proof.
  revert link sink k. induction n as [|n IH]; intros link sink k Hm He.
  { exists link, sink. cbn [flushPages Nat.mul replicate]. rewrite Z.add_0_r, app_nil_r. auto. }
  cbn [flushPages]. rewrite He. unfold PL.getPtr. rewrite Hm.
  match goal with |- context [flushPages n ?l ?s ?c] =>
    destruct (IH l s c) as (link' & sink' & E & B & P & SP & S)
  end.
  - cbn [data set_data set_nTriggers PL.setPtr pl_buf pl_ptr]. rewrite Z.add_0_r. exact Hm.
  - cbn [data set_data set_nTriggers PL.setPtr pl_buf pl_ptr]. rewrite Z.add_0_r. exact He.
  - exists link', sink'. rewrite E.
    cbn [data set_data set_nTriggers PL.setPtr pl_buf pl_ptr] in B, P.
    cbn [PL.add PL.fill pl_buf pl_ptr] in SP, S.
    split; [f_equal; lia|]. split; [exact B|]. split; [rewrite P; lia|]. split; [exact SP|].
    rewrite S. change (Z.to_nat 0) with 0%nat.
    change (peek (pl_buf (data link)) (pl_ptr (data link)) 0) with (@nil Z).
    rewrite app_nil_r, Z.sub_0_r, <- app_assoc, <- replicate_add. reflexivity.
Qed.

(** C1 (round trip), where the code departs from it: when the cables of a
    link hold 4090 GBT words of a trigger, [fillRULinks] computes
    [64 + (4090 + 2) * 16 = 65536] for the first page, which the 16-bit
    [memorySize] field stores as 0 before the cap at 8192 is applied. The
    link buffer then starts with a page-0 header saying [memorySize = 0],
    and the loop of [flushSuperPages] over that link copies no byte of it:
    each of its [n] rounds emits 8192 zero bytes and leaves the read
    cursor on the same header. The digits of the trigger on that link are
    in none of the pages written, so decoding the output cannot give them
    back. *)
Theorem fillLink_4090_words_never_flushed {MAP : Mapping} (fuel : nat) (rd : RawPixelReader)
        (ri : RUInfo.t) (hwid : list Z) (il : Z) (rdh : RDH) (link : RULink)
        (cables : list PayLoadCont) (n : nat) (sink : PayLoadCont) :
  wordsNeeded (Z.to_nat (RUInfo.nCables ri)) link cables = 4090 ->
  mGBTWordSize rd = GBTPaddedWordLength ->
  headerSize rdh = sizeofRDH ->
  data link = PL.empty ->
  0 <= RUInfo.nCables ri ->
  (Z.to_nat (RUInfo.nCables ri) <= length cables)%nat ->
  (Z.to_nat (RUInfo.nCables ri) <= length hwid)%nat ->
  Forall (fun c => 0 <= pl_ptr c) cables ->
  (forall (i : nat) c, cables !! i = Some c ->
     Z.land (lanes link) (Z.shiftl 1 (Z.of_nat i)) <> 0 -> pl_ptr c = 0) ->
  (4090 < fuel)%nat ->
  exists st h rest link' sink',
    fillLink fuel rd ri hwid il rdh link cables = Some st
    /\ pl_buf (data (fl_link st)) = writeRDH h ++ rest
    /\ pl_ptr (data (fl_link st)) = 0
    /\ head (fl_pages st) = Some h /\ pageCnt h = 0 /\ memorySize h = 0
    /\ flushPages n (fl_link st) sink 0 = (link', sink', Z.of_nat n)
    /\ pl_buf (data link') = pl_buf (data (fl_link st))
    /\ pl_ptr (data link') = 0
    /\ pl_buf sink' = pl_buf sink ++ replicate (n * Z.to_nat MaxGBTPacketBytes) 0.
Proof.
  intros HN Hw Hhs Hd HnCab Hlc Hlh Hptr0 Hptr Hfuel.
  destruct (fillLink_runs fuel rd ri hwid il rdh link cables) as [st Hst]; try assumption.
  { rewrite HN. unfold maxWordsPerPage. lia. }
  { rewrite HN. lia. }
  destruct (fillLink_first_page _ _ _ _ _ _ _ _ _ Hst Hhs Hd)
    as (h & rest & Hbuf & Hp & Hhd & Hcnt & Hms).
  rewrite HN, Hw in Hms. change (trunc 16 (pageMemorySize 4090 GBTPaddedWordLength)) with 0 in Hms.
  destruct (flushPages_stuck n (fl_link st) sink 0) as (link' & sink' & E & B & P & _ & S).
  { rewrite Hbuf, Hp. destruct (readRDH_writeRDH_word1 h rest) as [_ R]. rewrite R, Hms.
    reflexivity. }
  { unfold PL.isEmpty, PL.getSize. rewrite Hbuf, Hp, length_app, length_writeRDH.
    apply Z.leb_gt. lia. }
  exists st, h, rest, link', sink'.
  split; [exact Hst|]. split; [exact Hbuf|]. split; [exact Hp|]. split; [exact Hhd|].
  split; [exact Hcnt|]. split; [exact Hms|]. split; [exact E|]. split; [exact B|].
  split; [rewrite P; exact Hp|exact S].
Qed.

Lemma fillLink_4090_words_never_flushed_witness :
  exists st h rest link' sink',
    fillLink (Z.to_nat 4100) readerInit (Example.ruInfoOf 0) (replicate 28 0) 0
             (fillRDH readerInit) (set_lanes 0x1ff linkDefault) words4090
    = Some st
    /\ pl_buf (data (fl_link st)) = writeRDH h ++ rest
    /\ pl_ptr (data (fl_link st)) = 0
    /\ head (fl_pages st) = Some h /\ pageCnt h = 0 /\ memorySize h = 0
    /\ flushPages 16 (fl_link st) PL.empty 0 = (link', sink', Z.of_nat 16)
    /\ pl_buf (data link') = pl_buf (data (fl_link st))
    /\ pl_ptr (data link') = 0
    /\ pl_buf sink' = pl_buf PL.empty ++ replicate (16 * Z.to_nat MaxGBTPacketBytes) 0.
Proof.
  apply (fillLink_4090_words_never_flushed (Z.to_nat 4100) readerInit (Example.ruInfoOf 0)
           (replicate 28 0) 0 (fillRDH readerInit) (set_lanes 0x1ff linkDefault) words4090
           16 PL.empty).
  - vm_compute. reflexivity.
  - reflexivity.
  - reflexivity.
  - reflexivity.
  - unfold Example.ruInfoOf, Example.nChips. cbn. lia.
  - unfold Example.ruInfoOf, Example.nChips. cbn. lia.
  - unfold Example.ruInfoOf, Example.nChips. cbn. lia.
  - unfold words4090. repeat (apply Forall_cons; split; [cbn [cableOf pl_ptr]; lia|]).
    apply Forall_replicate. cbn [pl_ptr PL.empty]. lia.
  - intros i c Hc _. unfold words4090 in Hc.
    do 9 (destruct i as [|i]; [injection Hc as <-; reflexivity|]).
    change (replicate 19 PL.empty !! i = Some c) in Hc.
    apply lookup_replicate in Hc. destruct Hc as [-> _]. reflexivity.
  - lia.
Defined.

(** * Further properties *)


(** ** Containers of the readout units: getRUDecode, getCreateRUDecode *)

Lemma entriesOK_readerInit {MAP : Mapping} : entriesOK readerInit.
Proof.
  unfold entriesOK, readerInit. cbn [mNRUs mRUEntry]. split; [lia|]. split; [|split].
  - intros r e H. apply lookup_replicate in H. lia.
  - intros r1 r2 e H _ He. apply lookup_replicate in H. lia.
  - intros s Hs. lia.
Qed.

Lemma entriesOK_ext (rd rd' : RawPixelReader) :
  mNRUs rd' = mNRUs rd -> mRUEntry rd' = mRUEntry rd -> entriesOK rd -> entriesOK rd'.
Proof. unfold entriesOK. intros -> ->. tauto. Qed.

(** What [getCreateRUDecode] changes when it books a new container. *)
Lemma getCreateRUDecode_cases {MAP : Mapping} (ruSW : Z) (rd : RawPixelReader) (slot : Z)
      (rd' : RawPixelReader) :
  getCreateRUDecode ruSW rd = Some (slot, rd') ->
  0 <= ruSW /\ exists e, mRUEntry rd !! Z.to_nat ruSW = Some e
  /\ ((0 <= e /\ slot = e /\ rd' = rd /\ is_Some (idx (mRUDecodeVec rd) e))
      \/ (e < 0 /\ slot = mNRUs rd
          /\ exists ruD, idx (mRUDecodeVec rd) slot = Some ruD
             /\ rd' = set_mRUDecodeVec
                        (<[Z.to_nat slot := set_ruInfo (Some (getRUInfoSW ruSW)) ruD]>
                           (mRUDecodeVec rd))
                        (set_mNRUs (mNRUs rd + 1)
                           (set_mRUEntry (<[Z.to_nat ruSW := slot]> (mRUEntry rd)) rd)))).
Proof.
  unfold getCreateRUDecode. intros H.
  destruct (idx (mRUEntry rd) ruSW) as [e|] eqn:Ee; [|discriminate].
  apply idx_Some in Ee. destruct Ee as [H0 Ee]. split; [exact H0|]. exists e. split; [exact Ee|].
  cbn [mbind option_bind] in H. destruct (Z.ltb_spec e 0) as [Hneg|Hpos].
  - right. destruct (idx (mRUDecodeVec rd) (mNRUs rd)) as [ruD|] eqn:Ev; [|discriminate].
    cbn [mbind option_bind] in H. inversion H; subst. split; [exact Hneg|]. split; [reflexivity|].
    exists ruD. split; [exact Ev|reflexivity].
  - left. destruct (idx (mRUDecodeVec rd) e) as [ruD|] eqn:Ev; [|discriminate].
    cbn [mbind option_bind] in H. inversion H; subst. repeat split; eauto.
Qed.

(** X1: lookup after create. After [getCreateRUDecode ruSW] the container
    of [ruSW] is found by [getRUDecode], at the slot returned. When the RU
    had no container before, the new one sits in slot [mNRUs], carries the
    mapping's info of the RU, and [mNRUs] has grown by one; when it had
    one, the reader is not changed. *)
Theorem getCreateRUDecode_lookup {MAP : Mapping} (ruSW : Z) (rd : RawPixelReader) (slot : Z)
        (rd' : RawPixelReader) :
  getCreateRUDecode ruSW rd = Some (slot, rd') ->
  0 <= mNRUs rd ->
  exists ruD,
    getRUDecode ruSW rd' = Some ruD
    /\ idx (mRUDecodeVec rd') slot = Some ruD
    /\ (getRUDecode ruSW rd = None ->
        slot = mNRUs rd /\ mNRUs rd' = mNRUs rd + 1
        /\ ruInfo ruD = Some (getRUInfoSW ruSW))
    /\ (getRUDecode ruSW rd <> None -> rd' = rd).
Proof.
  intros H Hn. destruct (getCreateRUDecode_cases _ _ _ _ H) as (H0 & e & Ee & Hc).
  destruct Hc as [(He & -> & -> & [ruD Ev])|(He & -> & ruD & Ev & ->)].
  - exists ruD. unfold getRUDecode. rewrite (idx_lookup (mRUEntry rd)) by exact H0.
    rewrite Ee. cbn [mbind option_bind]. destruct (Z.ltb_spec e 0); [lia|].
    split; [exact Ev|]. split; [exact Ev|]. split; [rewrite Ev; discriminate|reflexivity].
  - apply idx_Some in Ev. destruct Ev as [_ Ev].
    exists (set_ruInfo (Some (getRUInfoSW ruSW)) ruD).
    assert (Hl : <[Z.to_nat (mNRUs rd) := set_ruInfo (Some (getRUInfoSW ruSW)) ruD]>
                   (mRUDecodeVec rd) !! Z.to_nat (mNRUs rd)
                 = Some (set_ruInfo (Some (getRUInfoSW ruSW)) ruD)).
    { apply list_lookup_insert_eq. eapply lookup_lt_Some. exact Ev. }
    unfold getRUDecode. cbn [mRUEntry mRUDecodeVec mNRUs set_mRUDecodeVec set_mNRUs set_mRUEntry].
    rewrite (idx_lookup (<[_ := _]> (mRUEntry rd))) by exact H0.
    rewrite list_lookup_insert_eq by (eapply lookup_lt_Some; exact Ee).
    cbn [mbind option_bind]. destruct (Z.ltb_spec (mNRUs rd) 0); [lia|].
    rewrite (idx_lookup (<[_ := _]> (mRUDecodeVec rd))) by exact Hn. rewrite Hl.
    split; [reflexivity|]. split; [reflexivity|]. split.
    + intros _. split; [reflexivity|]. split; reflexivity.
    + intros Hne. exfalso. apply Hne. rewrite (idx_lookup (mRUEntry rd)) by exact H0.
      rewrite Ee. cbn [mbind option_bind]. destruct (Z.ltb_spec e 0); [reflexivity|lia].
Qed.

Lemma getCreateRUDecode_lookup_witness :
  exists slot rd' ruD,
    getCreateRUDecode 2 readerInit = Some (slot, rd')
    /\ getRUDecode 2 rd' = Some ruD /\ slot = 0 /\ mNRUs rd' = 1
    /\ ruInfo ruD = Some (getRUInfoSW 2).
Proof.
  destruct (getCreateRUDecode 2 readerInit) as [[slot rd']|] eqn:E; [|vm_compute in E; discriminate].
  destruct (getCreateRUDecode_lookup 2 readerInit slot rd' E ltac:(cbn; lia))
    as (ruD & H1 & _ & H3 & _).
  destruct (H3 eq_refl) as (S1 & S2 & S3).
  exists slot, rd', ruD. split; [reflexivity|]. split; [exact H1|]. split; [exact S1|].
  split; [exact S2|exact S3].
Defined.

(** [getCreateRUDecode] keeps the slot table well formed. *)
Lemma getCreateRUDecode_inv {MAP : Mapping} (ruSW : Z) (rd : RawPixelReader) (slot : Z)
      (rd' : RawPixelReader) :
  entriesOK rd -> getCreateRUDecode ruSW rd = Some (slot, rd') -> entriesOK rd'.
Proof.
  intros (Hn & Hlt & Hinj & Hden) H.
  destruct (getCreateRUDecode_cases _ _ _ _ H) as (H0 & e & Ee & Hc).
  destruct Hc as [(He & -> & -> & [ruD Ev])|(He & -> & ruD & Ev & ->)].
  { split; [exact Hn|split; [|split]; assumption]. }
  apply idx_Some in Ev. destruct Ev as [_ Ev].
  assert (Hle : (Z.to_nat ruSW < length (mRUEntry rd))%nat) by (eapply lookup_lt_Some; exact Ee).
  unfold entriesOK. cbn [mRUEntry mNRUs set_mRUDecodeVec set_mNRUs set_mRUEntry].
  split; [lia|]. split; [|split].
  - intros r x Hx. destruct (decide (r = Z.to_nat ruSW)) as [->|Hr].
    + rewrite list_lookup_insert_eq in Hx by exact Hle. inversion Hx; subst. lia.
    + rewrite list_lookup_insert_ne in Hx by congruence. apply Hlt in Hx. lia.
  - intros r1 r2 x H1 H2 Hx.
    destruct (decide (r1 = Z.to_nat ruSW)) as [->|Hr1];
      destruct (decide (r2 = Z.to_nat ruSW)) as [->|Hr2]; [reflexivity| | |].
    + rewrite list_lookup_insert_eq in H1 by exact Hle. inversion H1; subst.
      rewrite list_lookup_insert_ne in H2 by congruence. apply Hlt in H2. lia.
    + rewrite list_lookup_insert_eq in H2 by exact Hle. inversion H2; subst.
      rewrite list_lookup_insert_ne in H1 by congruence. apply Hlt in H1. lia.
    + rewrite list_lookup_insert_ne in H1 by congruence.
      rewrite list_lookup_insert_ne in H2 by congruence. eapply Hinj; eassumption.
  - intros s Hs. destruct (decide (s = mNRUs rd)) as [->|Hne].
    + exists (Z.to_nat ruSW). apply list_lookup_insert_eq. exact Hle.
    + destruct (Hden s ltac:(lia)) as [r Hr]. exists r.
      rewrite list_lookup_insert_ne; [exact Hr|]. intros <-. rewrite Ee in Hr.
      inversion Hr. lia.
Qed.

(** X2: the slot table stays well formed. On a well-formed table
    [getCreateRUDecode] keeps it well formed, is idempotent (a second call
    for the same RU returns the same slot and changes nothing), and leaves
    the container found for every other RU as it was. *)
Theorem getCreateRUDecode_entriesOK {MAP : Mapping} (ruSW : Z) (rd : RawPixelReader) (slot : Z)
        (rd' : RawPixelReader) :
  entriesOK rd ->
  getCreateRUDecode ruSW rd = Some (slot, rd') ->
  entriesOK rd'
  /\ getCreateRUDecode ruSW rd' = Some (slot, rd')
  /\ forall r, r <> ruSW -> getRUDecode r rd' = getRUDecode r rd.
Proof.
  intros Hok H. split; [eapply getCreateRUDecode_inv; eassumption|].
  destruct Hok as (Hn & Hlt & Hinj & Hden).
  destruct (getCreateRUDecode_cases _ _ _ _ H) as (H0 & e & Ee & Hc).
  destruct Hc as [(He & -> & -> & [ruD Ev])|(He & -> & ruD & Ev & ->)].
  - split; [exact H|]. reflexivity.
  - apply idx_Some in Ev. destruct Ev as [_ Ev].
    assert (Hle : (Z.to_nat ruSW < length (mRUEntry rd))%nat) by (eapply lookup_lt_Some; exact Ee).
    assert (Hlv : (Z.to_nat (mNRUs rd) < length (mRUDecodeVec rd))%nat)
      by (eapply lookup_lt_Some; exact Ev).
    split.
    + unfold getCreateRUDecode.
      cbn [mRUEntry mRUDecodeVec mNRUs set_mRUDecodeVec set_mNRUs set_mRUEntry].
      rewrite (idx_lookup (<[_ := _]> (mRUEntry rd))) by exact H0.
      rewrite list_lookup_insert_eq by exact Hle. cbn [mbind option_bind].
      destruct (Z.ltb_spec (mNRUs rd) 0); [lia|].
      rewrite (idx_lookup (<[_ := _]> (mRUDecodeVec rd))) by exact Hn.
      rewrite list_lookup_insert_eq by exact Hlv. reflexivity.
    + intros r Hr. unfold getRUDecode.
      cbn [mRUEntry mRUDecodeVec mNRUs set_mRUDecodeVec set_mNRUs set_mRUEntry].
      destruct (Z.ltb_spec r 0) as [Hneg|Hpos].
      { unfold idx. rewrite (proj2 (Z.ltb_lt r 0) Hneg). reflexivity. }
      rewrite (idx_lookup (<[_ := _]> (mRUEntry rd))), (idx_lookup (mRUEntry rd)) by exact Hpos.
      rewrite list_lookup_insert_ne by lia.
      destruct (mRUEntry rd !! Z.to_nat r) as [x|] eqn:Ex; [|reflexivity].
      cbn [mbind option_bind]. destruct (Z.ltb_spec x 0); [reflexivity|].
      rewrite (idx_lookup (<[_ := _]> (mRUDecodeVec rd))), (idx_lookup (mRUDecodeVec rd))
        by assumption.
      apply Hlt in Ex. rewrite list_lookup_insert_ne by lia. reflexivity.
Qed.

Lemma getCreateRUDecode_entriesOK_witness :
  exists slot rd',
    getCreateRUDecode 2 readerInit = Some (slot, rd')
    /\ entriesOK rd' /\ getCreateRUDecode 2 rd' = Some (slot, rd').
Proof.
  destruct (getCreateRUDecode 2 readerInit) as [[slot rd']|] eqn:E; [|vm_compute in E; discriminate].
  destruct (getCreateRUDecode_entriesOK 2 readerInit slot rd' entriesOK_readerInit E)
    as (H1 & H2 & _).
  exists slot, rd'. split; [reflexivity|]. split; [exact H1|exact H2].
Defined.

Lemma cachePage_entries {MAP : Mapping} (st st' : CacheLoop) :
  cachePage st = Some st' -> entriesOK (cl_rd st) -> entriesOK (cl_rd st').
Proof.
  unfold cachePage. intros H Hok.
  destruct (getCreateRUDecode _ (cl_rd st)) as [[slot rd1]|] eqn:Eg; [|discriminate].
  cbn [mbind option_bind] in H.
  apply (getCreateRUDecode_inv _ _ _ _ Hok) in Eg. rename Eg into Hok1.
  destruct (idx (mRUDecodeVec rd1) slot) as [ruDecode|]; [|discriminate].
  cbn [mbind option_bind] in H.
  destruct (idx (links ruDecode) _) as [olink|]; [|discriminate].
  cbn [mbind option_bind] in H.
  match type of H with
  | match ?t with pair _ _ => _ end = _ => destruct t as [[nt lk] nl]
  end.
  match type of H with
  | match ?t with pair _ _ => _ end = _ => destruct t as [[lk' en] nLE]
  end.
  apply Some_eq_inv in H. subst st'. cbn [cl_rd].
  eapply entriesOK_ext; [| |exact Hok1]; reflexivity.
Qed.

Lemma findNextRDH_loop_buf (fuel : nat) (buffer buffer' : PayLoadCont) (p : Z) (b : bool) :
  findNextRDH_loop fuel buffer p = Some (b, buffer') -> pl_buf buffer' = pl_buf buffer.
Proof.
  revert buffer p. induction fuel as [|fuel IH]; intros buffer p H; [discriminate|].
  cbn [findNextRDH_loop] in H.
  destruct (PL.isEmpty buffer); [inversion H; reflexivity|].
  destruct (negb (PL.isEmpty (PL.setPtr buffer (p + GBTPaddedWordLength)))).
  - destruct (isRDHHeuristic _); [inversion H; reflexivity|].
    apply IH in H. exact H.
  - inversion H; reflexivity.
Qed.

Lemma cacheLoop_entries {MAP : Mapping} (fuel : nat) (st st' : CacheLoop) :
  cacheLoop fuel st = Some st' -> entriesOK (cl_rd st) -> entriesOK (cl_rd st').
Proof.
  revert st. induction fuel as [|fuel IH]; intros st H Hok; [discriminate|].
  cbn [cacheLoop] in H.
  destruct (isRDHHeuristic _).
  - cbn [mbind option_bind] in H.
    destruct (cachePage st) as [st1|] eqn:E1; [|discriminate].
    cbn [mbind option_bind] in H. apply cachePage_entries in E1; [|exact Hok].
    destruct (mNLinks (cl_rd st1) =? cl_nLEnough st1); [inversion H; subst; exact E1|].
    destruct (PL.isEmpty _); [inversion H; subst; exact E1|].
    eapply IH; eassumption.
  - destruct (findNextRDH _) as [[found buffer]|]; [|discriminate].
    cbn [mbind option_bind] in H. destruct found.
    + match type of H with
      | context [cachePage ?s] =>
        assert (Hs : entriesOK (cl_rd s))
          by (cbn [cl_rd]; eapply entriesOK_ext; [| |exact Hok]; reflexivity);
        destruct (cachePage s) as [st1|] eqn:E1; [|discriminate]
      end.
      cbn [mbind option_bind] in H. apply cachePage_entries in E1; [|exact Hs].
      destruct (mNLinks (cl_rd st1) =? cl_nLEnough st1); [inversion H; subst; exact E1|].
      destruct (PL.isEmpty _); [inversion H; subst; exact E1|].
      eapply IH; eassumption.
    + apply Some_eq_inv in H. subst st'. cbn [cl_rd].
      eapply entriesOK_ext; [| |exact Hok]; reflexivity.
Qed.

(** X3: [cacheLinksData] keeps the slot table well formed: however the
    pages of different RUs are interleaved in the input, afterwards every
    booked RU has a slot below [mNRUs], two RUs never share a container,
    and [mNRUs] slots are in use. *)
Theorem cacheLinksData_entriesOK {MAP : Mapping} (fuel : nat) (rd rd' : RawPixelReader) :
  entriesOK rd -> cacheLinksData fuel rd = Some rd' -> entriesOK rd'.
Proof.
  unfold cacheLinksData, loadInput. intros Hok H.
  assert (H0 : entriesOK (set_mRawBuffer (mRawBuffer rd) rd))
    by (eapply entriesOK_ext; [| |exact Hok]; reflexivity).
  destruct (PL.isEmpty (mRawBuffer rd)); [inversion H; subst; exact H0|].
  destruct (cacheLoop _ _) as [st|] eqn:E; [|discriminate].
  cbn [mbind option_bind] in H. apply cacheLoop_entries in E; [|exact H0].
  destruct (mNLinks (cl_rd st) =? cl_nLEnough st); inversion H; subst;
    (eapply entriesOK_ext; [| |exact E]; reflexivity).
Qed.

Lemma cacheLinksData_entriesOK_witness :
  exists rd', cacheLinksData 10 (Streams.readerOn Ordering.ru1ThenRu0) = Some rd'
              /\ entriesOK rd'.
Proof.
  destruct (cacheLinksData 10 (Streams.readerOn Ordering.ru1ThenRu0)) as [rd'|] eqn:E;
    [|vm_compute in E; discriminate].
  exists rd'. split; [reflexivity|].
  apply (cacheLinksData_entriesOK 10 (Streams.readerOn Ordering.ru1ThenRu0) rd'); [|exact E].
  eapply entriesOK_ext; [| |exact entriesOK_readerInit]; reflexivity.
Defined.

(** ** Pointer recovery, continued *)

Lemma findNextRDH_loop_total (fuel : nat) (buffer : PayLoadCont) (p : Z) :
  (0 < fuel)%nat ->
  PL.getSize buffer - p < Z.of_nat fuel ->
  is_Some (findNextRDH_loop fuel buffer p).
Proof.
  revert buffer p. induction fuel as [|fuel IH]; intros buffer p H0 Hf; [lia|].
  cbn [findNextRDH_loop].
  destruct (PL.isEmpty buffer); [eauto|].
  destruct (PL.isEmpty (PL.setPtr buffer (p + GBTPaddedWordLength))) eqn:E1; cbn [negb]; [eauto|].
  destruct (isRDHHeuristic _); [eauto|].
  unfold PL.isEmpty, PL.getSize, PL.setPtr, GBTPaddedWordLength in *. cbn [pl_buf pl_ptr] in *.
  apply Z.leb_gt in E1. apply IH; cbn [pl_buf]; lia.
Qed.

Lemma findNextRDH_loop_sound (fuel : nat) (buffer buffer' : PayLoadCont) (p : Z) (b : bool) :
  findNextRDH_loop fuel buffer p = Some (b, buffer') ->
  pl_ptr buffer = p ->
  (b = true ->
   p < pl_ptr buffer' < PL.getSize buffer
   /\ isRDHHeuristic (readRDH (pl_buf buffer) (pl_ptr buffer')) = true)
  /\ (b = false -> PL.isEmpty buffer' = true).
Proof.
  revert buffer p. induction fuel as [|fuel IH]; intros buffer p H Hp; [discriminate|].
  cbn [findNextRDH_loop] in H.
  destruct (PL.isEmpty buffer) eqn:E0.
  { apply Some_eq_inv in H. inversion H; subst. split; [discriminate|]. intros _. exact E0. }
  destruct (PL.isEmpty (PL.setPtr buffer (p + GBTPaddedWordLength))) eqn:E1; cbn [negb] in H.
  { apply Some_eq_inv in H. inversion H; subst. split; [discriminate|]. intros _. exact E1. }
  unfold PL.isEmpty, PL.getSize, PL.setPtr, GBTPaddedWordLength in *.
  cbn [pl_buf pl_ptr] in *. apply Z.leb_gt in E1.
  destruct (isRDHHeuristic (readRDH (pl_buf buffer) (p + 16))) eqn:Eh.
  - apply Some_eq_inv in H. inversion H; subst. cbn [pl_ptr]. split; [|discriminate].
    intros _. split; [lia|exact Eh].
  - apply IH in H; [|reflexivity]. cbn [pl_buf pl_ptr] in H. destruct H as [Ht Hf].
    split; [|exact Hf]. intros Hb. destruct (Ht Hb) as [Hr Hh]. split; [lia|exact Hh].
Qed.

(** X4: [findNextRDH] always ends, and its answer can be trusted. It never
    changes the bytes of the buffer. When it returns true, the read pointer
    has moved forward to a position inside the buffer whose header passes
    [isRDHHeuristic]; when it returns false, the buffer is exhausted. *)
Theorem findNextRDH_sound (buffer : PayLoadCont) :
  0 <= pl_ptr buffer ->
  exists b buffer',
    findNextRDH buffer = Some (b, buffer')
    /\ pl_buf buffer' = pl_buf buffer
    /\ (b = true ->
        pl_ptr buffer < pl_ptr buffer' < PL.getSize buffer
        /\ isRDHHeuristic (readRDH (pl_buf buffer) (pl_ptr buffer')) = true)
    /\ (b = false -> PL.isEmpty buffer' = true).
Proof.
  intros Hp. unfold findNextRDH, PL.getPtr.
  destruct (findNextRDH_loop_total (S (length (pl_buf buffer))) buffer (pl_ptr buffer))
    as [[b buffer'] E].
  { lia. }
  { unfold PL.getSize. lia. }
  exists b, buffer'. split; [exact E|]. split; [eapply findNextRDH_loop_buf; exact E|].
  eapply findNextRDH_loop_sound; [exact E|reflexivity].
Qed.

Lemma findNextRDH_sound_witness :
  exists b buffer',
    findNextRDH (mkPL Streams.garbage8 0) = Some (b, buffer')
    /\ pl_buf buffer' = Streams.garbage8
    /\ (b = true ->
        0 < pl_ptr buffer' < PL.getSize (mkPL Streams.garbage8 0)
        /\ isRDHHeuristic (readRDH Streams.garbage8 (pl_ptr buffer')) = true)
    /\ (b = false -> PL.isEmpty buffer' = true).
Proof.
  apply (findNextRDH_sound (mkPL Streams.garbage8 0)). cbn [pl_ptr]. lia.
Defined.

(** ** Decoding of one trigger: decodeNextTrigger *)

Lemma decodeCable_stat {MAP : Mapping} {CODER : Coder} (fuel : nat) (ir : InteractionRecord)
      (trig : Z) (ri : RUInfo.t) (icab : Z) (st st' : AlpideLoop) :
  decodeCable fuel ir trig ri icab st = Some st' ->
  nRUsProcessed (al_stat st') = nRUsProcessed (al_stat st).
Proof.
  revert st. induction fuel as [|fuel IH]; intros st H; [discriminate|].
  cbn [decodeCable] in H.
  destruct (idx (cableData (al_ru st)) icab) as [cable|]; [|discriminate].
  cbn [mbind option_bind] in H.
  destruct (idx (chipsData (al_ru st)) (al_cur st)) as [chip|]; [|discriminate].
  cbn [mbind option_bind] in H.
  destruct (decodeChip chip cable) as [[res chip'] cable'].
  destruct (res =? 0); [apply Some_eq_inv in H; subst st'; reflexivity|].
  destruct (0 <? res).
  - destruct (idx (cableHWID _) icab) as [hw|]; [|discriminate].
    cbn [mbind option_bind] in H.
    destruct (_ <? MaxChipsPerRU).
    + apply IH in H. rewrite H. reflexivity.
    + apply Some_eq_inv in H. subst st'. reflexivity.
  - apply IH in H. rewrite H. reflexivity.
Qed.

Lemma decodeCables_stat {MAP : Mapping} {CODER : Coder} (fuel : nat) (ir : InteractionRecord)
      (trig : Z) (ri : RUInfo.t) (n : nat) (icab : Z) (st st' : AlpideLoop) :
  decodeCables fuel ir trig ri n icab st = Some st' ->
  nRUsProcessed (al_stat st') = nRUsProcessed (al_stat st).
Proof.
  revert icab st. induction n as [|n IH]; intros icab st H.
  { apply Some_eq_inv in H. subst. reflexivity. }
  cbn [decodeCables] in H.
  destruct (idx (cableData (al_ru st)) icab) as [cable|]; [|discriminate].
  cbn [mbind option_bind] in H.
  destruct (decodeCable _ _ _ _ _ _) as [st1|] eqn:E1; [|discriminate].
  cbn [mbind option_bind] in H. apply decodeCable_stat in E1. apply IH in H.
  rewrite H, E1. reflexivity.
Qed.

Lemma decodeLinks_res {MAP : Mapping} (fuel : nat) (wsz : Z) (n : nat) (il : Z)
      (ruD ruD' : RUDecodeData) (res res' : Z) :
  decodeLinks fuel wsz n il ruD res = Some (ruD', res') ->
  res <= res' <= res + Z.of_nat n.
Proof.
  revert il ruD res. induction n as [|n IH]; intros il ruD res H.
  { apply Some_eq_inv in H. inversion H; subst. lia. }
  cbn [decodeLinks] in H.
  destruct (idx (links ruD) il) as [olink|]; [|discriminate].
  cbn [mbind option_bind] in H.
  destruct olink as [link|]; [|apply IH in H; lia].
  destruct (negb (PL.isEmpty (data link))); [|apply IH in H; lia].
  destruct (decodeRUData _ _ _ _ _) as [[[raw ruD1] ab]|]; [|discriminate].
  cbn [mbind option_bind] in H. apply IH in H. lia.
Qed.

Lemma decodeNextRUData_stat {MAP : Mapping} {CODER : Coder} (fuel : nat) (rd : RawPixelReader)
      (ruD ruD' : RUDecodeData) (stat : RawDecodingStat) (res : Z) :
  decodeNextRUData fuel rd ruD = Some (ruD', stat, res) ->
  nRUsProcessed stat = nRUsProcessed (mDecodingStat rd) /\ 0 <= res <= MaxLinksPerRU.
Proof.
  unfold decodeNextRUData. intros H.
  destruct (decodeLinks _ _ _ _ _ _) as [[ruD1 res1]|] eqn:E1; [|discriminate].
  cbn [mbind option_bind] in H. apply decodeLinks_res in E1.
  assert (Hres : 0 <= res1 <= MaxLinksPerRU) by (unfold MaxLinksPerRU in *; lia).
  destruct (negb (nCables ruD1 =? 0)).
  - unfold decodeAlpideData in H.
    destruct (ruInfo ruD1) as [ri|]; [|discriminate].
    cbn [mbind option_bind] in H.
    destruct (decodeCables _ _ _ _ _ _ _) as [st|] eqn:E2; [|discriminate].
    cbn [mbind option_bind] in H. apply decodeCables_stat in E2. cbn [al_stat] in E2.
    apply Some_eq_inv in H. inversion H; subst. split; [exact E2|exact Hres].
  - apply Some_eq_inv in H. inversion H; subst. split; [reflexivity|exact Hres].
Qed.

Lemma decodeRUs_bookkeeping {MAP : Mapping} {CODER : Coder} (fuel k : nat)
      (rd rd' : RawPixelReader) (nl nl' : Z) :
  decodeRUs fuel k rd nl = Some (rd', nl') ->
  mNRUs rd' = mNRUs rd /\ mRUEntry rd' = mRUEntry rd /\ mNLinks rd' = mNLinks rd
  /\ mMinTriggersCached rd' = mMinTriggersCached rd /\ mRawBuffer rd' = mRawBuffer rd
  /\ nRUsProcessed (mDecodingStat rd') = nRUsProcessed (mDecodingStat rd) + Z.of_nat k
  /\ nl <= nl' <= nl + MaxLinksPerRU * Z.of_nat k.
Proof.
  revert rd nl. induction k as [|k IH]; intros rd nl H.
  { apply Some_eq_inv in H. inversion H; subst. cbn. repeat split; lia. }
  cbn [decodeRUs] in H.
  destruct (mRUDecodeVec rd !! k) as [ruDecode|]; [|discriminate].
  cbn [mbind option_bind] in H.
  match type of H with
  | context [decodeNextRUData fuel ?r ruDecode] => set (rd1 := r) in H
  end.
  assert (H1 : mNRUs rd1 = mNRUs rd /\ mRUEntry rd1 = mRUEntry rd /\ mNLinks rd1 = mNLinks rd
               /\ mMinTriggersCached rd1 = mMinTriggersCached rd
               /\ mRawBuffer rd1 = mRawBuffer rd /\ mDecodingStat rd1 = mDecodingStat rd).
  { subst rd1. destruct (nl =? 0); [|tauto].
    destruct (firstLinkRDH ruDecode); cbn; tauto. }
  clearbody rd1. destruct H1 as (A1 & A2 & A3 & A4 & A5 & A6).
  destruct (decodeNextRUData fuel rd1 ruDecode) as [[[ruD1 stat] res]|] eqn:E; [|discriminate].
  cbn [mbind option_bind] in H. apply decodeNextRUData_stat in E. destruct E as [Es Er].
  apply IH in H. cbn in H. destruct H as (B1 & B2 & B3 & B4 & B5 & B6 & B7).
  unfold MaxLinksPerRU in *.
  split; [congruence|]. split; [congruence|]. split; [congruence|]. split; [congruence|].
  split; [congruence|]. split; [rewrite B6, Es, A6; lia|lia].
Qed.

(** X5: bookkeeping of [decodeNextTrigger]. With no trigger cached it
    returns 0 and changes nothing. Otherwise it uses up exactly one cached
    trigger, resets [mCurRUDecodeID] to 0, counts every booked RU once in
    [nRUsProcessed], reports at most [MaxLinksPerRU] links per RU, and
    leaves the slot table, the link count and the raw buffer alone. *)
Theorem decodeNextTrigger_bookkeeping {MAP : Mapping} {CODER : Coder} (fuel : nat)
        (rd rd' : RawPixelReader) (nl : Z) :
  decodeNextTrigger fuel rd = Some (nl, rd') ->
  (mMinTriggersCached rd < 1 -> nl = 0 /\ rd' = rd)
  /\ (1 <= mMinTriggersCached rd ->
      mMinTriggersCached rd' = mMinTriggersCached rd - 1
      /\ mCurRUDecodeID rd' = 0
      /\ nRUsProcessed (mDecodingStat rd')
         = nRUsProcessed (mDecodingStat rd) + Z.of_nat (Z.to_nat (mNRUs rd))
      /\ 0 <= nl <= MaxLinksPerRU * Z.of_nat (Z.to_nat (mNRUs rd))
      /\ mNRUs rd' = mNRUs rd /\ mRUEntry rd' = mRUEntry rd /\ mNLinks rd' = mNLinks rd
      /\ mRawBuffer rd' = mRawBuffer rd).
Proof.
  unfold decodeNextTrigger. intros H.
  destruct (Z.ltb_spec (mMinTriggersCached rd) 1) as [Hlt|Hge].
  - apply Some_eq_inv in H. inversion H; subst. split; [auto|lia].
  - split; [lia|]. intros _.
    destruct (decodeRUs _ _ _ _) as [[rd1 nl1]|] eqn:E; [|discriminate].
    cbn [mbind option_bind] in H. apply Some_eq_inv in H. inversion H; subst.
    apply decodeRUs_bookkeeping in E. destruct E as (B1 & B2 & B3 & B4 & B5 & B6 & B7).
    cbn. repeat split; try assumption; lia.
Qed.

Lemma decodeNextTrigger_bookkeeping_witness :
  exists rd0 nl rd',
    cacheLinksData 10 (Streams.readerOn Ordering.ru1ThenRu0) = Some rd0
    /\ decodeNextTrigger 10 rd0 = Some (nl, rd')
    /\ mMinTriggersCached rd' = mMinTriggersCached rd0 - 1
    /\ mCurRUDecodeID rd' = 0 /\ 0 <= nl <= MaxLinksPerRU * 2.
Proof.
  destruct (cacheLinksData 10 (Streams.readerOn Ordering.ru1ThenRu0)) as [rd0|] eqn:E0;
    [|vm_compute in E0; discriminate].
  destruct (decodeNextTrigger 10 rd0) as [[nl rd']|] eqn:E1.
  - destruct (decodeNextTrigger_bookkeeping 10 rd0 rd' nl E1) as [_ H].
    assert (Hc : 1 <= mMinTriggersCached rd0 /\ Z.of_nat (Z.to_nat (mNRUs rd0)) = 2).
    { vm_compute in E0. apply Some_eq_inv in E0. subst rd0. vm_compute. split; [discriminate|reflexivity]. }
    destruct Hc as [Hc1 Hc2]. destruct (H Hc1) as (R1 & R2 & _ & R4 & _).
    rewrite Hc2 in R4.
    exists rd0, nl, rd'. split; [reflexivity|]. split; [exact E1|].
    split; [exact R1|]. split; [exact R2|exact R4].
  - exfalso. vm_compute in E0. apply Some_eq_inv in E0. subst rd0. vm_compute in E1.
    discriminate E1.
Defined.

(** ** Order of the pixels in convertChip *)

Lemma pixLt_spec (a b : PixelData) :
  pixLt a b = true <-> row a < row b \/ (row a = row b /\ col a < col b).
Proof.
  unfold pixLt. destruct (Z.ltb_spec (row a) (row b)); [split; [auto|reflexivity]|].
  destruct (Z.ltb_spec (row b) (row a)); [split; [discriminate|lia]|].
  destruct (Z.ltb_spec (col a) (col b)); split; try discriminate; try reflexivity; lia.
Qed.

Lemma pixLt_false (a b : PixelData) :
  pixLt a b = false <-> row b < row a \/ (row a = row b /\ col b <= col a).
Proof.
  pose proof (pixLt_spec a b) as H. destruct (pixLt a b).
  - split; [discriminate|]. intros Hf. destruct H as [H _]. specialize (H eq_refl). lia.
  - split; [|reflexivity]. intros _.
    destruct (Z.lt_trichotomy (row a) (row b)) as [Hr|[Hr|Hr]];
      [exfalso; assert (false = true) by (apply H; lia); discriminate| |lia].
    destruct (Z.lt_ge_cases (col a) (col b)) as [Hc|Hc]; [|lia].
    exfalso. assert (false = true) by (apply H; lia). discriminate.
Qed.

Lemma pixLt_strict_order_eq (a b : PixelData) :
  pixLt a b = false -> pixLt b a = false -> a = b.
Proof.
  rewrite !pixLt_false. intros H1 H2. destruct a as [ra ca], b as [rb cb]. cbn in *.
  f_equal; lia.
Qed.

(** X6: the comparison [convertChip] hands to [std::sort] is a strict total
    order on pixels (by row, then by column): it is irreflexive and
    transitive, and two pixels neither of which is before the other are the
    same pixel. So the sorted pixel list of a chip is determined by the set
    of pixels alone. *)
Theorem pixLt_strict_total_order (a b c : PixelData) :
  pixLt a a = false
  /\ (pixLt a b = true -> pixLt b c = true -> pixLt a c = true)
  /\ (pixLt a b = false -> pixLt b a = false -> a = b).
Proof.
  split; [apply pixLt_false; lia|]. split.
  - rewrite !pixLt_spec. lia.
  - apply pixLt_strict_order_eq.
Qed.

Lemma pixInsert_perm (p : PixelData) (l : list PixelData) : pixInsert p l ≡ₚ p :: l.
Proof.
  induction l as [|q l IH]; [reflexivity|]. cbn [pixInsert].
  destruct (pixLt q p); [|reflexivity].
  rewrite IH. apply Permutation_swap.
Qed.

Lemma pixInsert_sorted (p : PixelData) (l : list PixelData) :
  pixSorted l -> pixSorted (pixInsert p l).
Proof.
  induction l as [|q l IH]; intros Hs; [cbn; auto|].
  cbn [pixInsert]. destruct (pixLt q p) eqn:E.
  - destruct Hs as [Hh Ht]. specialize (IH Ht). split; [|exact IH].
    destruct l as [|r l]; cbn [pixInsert].
    + apply pixLt_false. apply pixLt_spec in E. lia.
    + destruct (pixLt r p); [exact Hh|].
      apply pixLt_false. apply pixLt_spec in E. lia.
  - split; [exact E|exact Hs].
Qed.

Lemma pixInsert_comm (a b : PixelData) (l : list PixelData) :
  pixInsert a (pixInsert b l) = pixInsert b (pixInsert a l).
Proof.
  assert (Hbase : forall t, (if pixLt b a then b :: a :: t else a :: b :: t)
                            = (if pixLt a b then a :: b :: t else b :: a :: t)).
  { intros t. destruct (pixLt b a) eqn:E1, (pixLt a b) eqn:E2; try reflexivity.
    - apply pixLt_spec in E1, E2. lia.
    - destruct (pixLt_strict_order_eq a b E2 E1). reflexivity. }
  induction l as [|q l IH].
  - cbn [pixInsert]. apply Hbase.
  - cbn [pixInsert].
    destruct (pixLt q b) eqn:Eb, (pixLt q a) eqn:Ea; cbn [pixInsert]; rewrite ?Ea, ?Eb.
    + rewrite IH. reflexivity.
    + assert (Hab : pixLt a b = true).
      { apply pixLt_spec. apply pixLt_spec in Eb. apply pixLt_false in Ea. lia. }
      rewrite Hab. cbn [pixInsert]. rewrite ?Eb. reflexivity.
    + assert (Hba : pixLt b a = true).
      { apply pixLt_spec. apply pixLt_spec in Ea. apply pixLt_false in Eb. lia. }
      rewrite Hba. cbn [pixInsert]. rewrite ?Ea. reflexivity.
    + apply Hbase.
Qed.

Lemma sortPixels_perm_eq (l l' : list PixelData) : l ≡ₚ l' -> sortPixels l = sortPixels l'.
Proof.
  unfold sortPixels. induction 1 as [|x l l' _ IH|x y l|l l' l'' _ IH1 _ IH2].
  - reflexivity.
  - cbn [foldr]. rewrite IH. reflexivity.
  - cbn [foldr]. apply pixInsert_comm.
  - congruence.
Qed.

Lemma sortPixels_of_sorted (l : list PixelData) : pixSorted l -> sortPixels l = l.
Proof.
  unfold sortPixels. induction l as [|a l IH]; intros Hs; [reflexivity|].
  destruct Hs as [Hh Ht]. cbn [foldr]. rewrite (IH Ht).
  destruct l as [|b l]; [reflexivity|]. cbn [pixInsert]. rewrite Hh. reflexivity.
Qed.

(** X7: the pixels [convertChip] passes to the coder are the chip's pixels
    in row-major order, whatever order the digits came in: [sortPixels l]
    is a permutation of [l], it is sorted, and it is the only sorted
    permutation of [l] (so it is what any correct sort returns). *)
Theorem sortPixels_sorted_permutation (l : list PixelData) :
  sortPixels l ≡ₚ l
  /\ pixSorted (sortPixels l)
  /\ (forall l', l' ≡ₚ l -> pixSorted l' -> l' = sortPixels l).
Proof.
  split; [|split].
  - unfold sortPixels. induction l as [|a l IH]; [reflexivity|].
    cbn [foldr]. rewrite pixInsert_perm, IH. reflexivity.
  - unfold sortPixels. induction l as [|a l IH]; [exact I|].
    cbn [foldr]. apply pixInsert_sorted. exact IH.
  - intros l' Hp Hs. rewrite <- (sortPixels_perm_eq l' l Hp). symmetry.
    apply sortPixels_of_sorted. exact Hs.
Qed.

(** ** Flushing of pages: flushSuperPages *)

Lemma length_peek (mem : list Z) (off : Z) (n : nat) : length (peek mem off n) = n.
Proof.
  unfold peek. rewrite !length_app, !length_replicate, length_take. lia.
Qed.

Lemma memorySize_readRDH_nonneg (mem : list Z) (off : Z) : 0 <= memorySize (readRDH mem off).
Proof.
  unfold readRDH. cbn [memorySize]. unfold bits. apply Z.land_nonneg. right.
  change (Z.ones 16) with 65535. lia.
Qed.

(** X8: bookkeeping of the page loop of [flushSuperPages] on one link. It
    flushes at most [n] pages and stops earlier only when the link buffer
    is exhausted; the link's page counter [nTriggers] drops by the number
    of pages flushed; the bytes of the link buffer are not changed (only
    its read pointer moves); the sink keeps what it held and every flushed
    page takes at least [MaxGBTPacketBytes] bytes in it. *)
Theorem flushPages_bookkeeping (n : nat) (link : RULink) (sink : PayLoadCont) (k : Z) :
  let '(link', sink', k') := flushPages n link sink k in
  k <= k' <= k + Z.of_nat n
  /\ (k' < k + Z.of_nat n -> PL.isEmpty (data link') = true)
  /\ nTriggers link' = nTriggers link - (k' - k)
  /\ pl_buf (data link') = pl_buf (data link)
  /\ lanes link' = lanes link
  /\ pl_ptr sink' = pl_ptr sink
  /\ pl_buf sink `prefix_of` pl_buf sink'
  /\ PL.getSize sink + MaxGBTPacketBytes * (k' - k) <= PL.getSize sink'.
Proof.
  revert link sink k. induction n as [|n IH]; intros link sink k.
  { cbn [flushPages]. repeat split; try reflexivity; lia. }
  cbn [flushPages]. destruct (PL.isEmpty (data link)) eqn:E.
  { repeat split; try reflexivity; try lia. intros _. exact E. }
  match goal with |- context [flushPages n ?l ?s ?c] => specialize (IH l s c) end.
  destruct (flushPages n _ _ _) as [[link' sink'] k'].
  destruct IH as (I1 & I2 & I3 & I4 & I5 & I6 & I7 & I8).
  cbn [nTriggers data lanes set_data set_nTriggers PL.setPtr PL.add PL.fill pl_buf pl_ptr] in *.
  pose proof (memorySize_readRDH_nonneg (pl_buf (data link)) (PL.getPtr (data link))) as Hm.
  split; [lia|]. split; [intros Hk; apply I2; lia|]. split; [lia|]. split; [exact I4|].
  split; [exact I5|]. split; [exact I6|]. split.
  - etransitivity; [|exact I7]. rewrite <- app_assoc. apply prefix_app_r. reflexivity.
  - unfold PL.getSize, PL.fill, PL.add, MaxGBTPacketBytes in *. cbn [pl_buf] in I8.
    rewrite !length_app, length_peek, length_replicate in I8. lia.
Qed.

(** ** The number of cached triggers *)

Lemma minTriggersOfLinks_inner (ls : list (option RULink)) (acc : Z) :
  let m := foldl (fun acc ol =>
                    match ol with
                    | Some link => if nTriggers link <? acc then nTriggers link else acc
                    | None => acc
                    end) acc ls in
  m <= acc
  /\ (forall link, Some link ∈ ls -> m <= nTriggers link)
  /\ (m = acc \/ exists link, Some link ∈ ls /\ m = nTriggers link).
Proof.
  revert acc. induction ls as [|ol ls IH]; intros acc; cbn [foldl].
  { split; [lia|]. split; [|left; reflexivity]. intros link H. inversion H. }
  match goal with |- context [foldl _ ?a ls] => specialize (IH a); set (a' := a) in * end.
  cbn zeta in IH. destruct IH as (I1 & I2 & I3).
  assert (Ha : a' <= acc /\ (forall link, ol = Some link -> a' <= nTriggers link)
               /\ (a' = acc \/ exists link, ol = Some link /\ a' = nTriggers link)).
  { subst a'. destruct ol as [link|].
    - destruct (Z.ltb_spec (nTriggers link) acc).
      + split; [lia|]. split; [intros l Hl; inversion Hl; subst; lia|].
        right. exists link. split; reflexivity.
      + split; [lia|]. split; [intros l Hl; inversion Hl; subst; lia|]. left. reflexivity.
    - split; [lia|]. split; [intros l Hl; discriminate|]. left. reflexivity. }
  destruct Ha as (A1 & A2 & A3).
  split; [lia|]. split.
  - intros link Hl. apply elem_of_cons in Hl. destruct Hl as [Hl|Hl].
    + specialize (A2 link (eq_sym Hl)). lia.
    + apply I2. exact Hl.
  - destruct I3 as [I3|(link & Hl & I3)].
    + destruct A3 as [A3|(link & Hl & A3)]; [left; lia|].
      right. exists link. split; [subst ol; apply list_elem_of_here|lia].
    + right. exists link. split; [apply list_elem_of_further; exact Hl|exact I3].
Qed.

(** X9: the value [cacheLinksData] stores in [mMinTriggersCached] when not
    every link reached the wanted number of triggers: [minTriggersOfLinks]
    is the smallest [nTriggers] over all links of the given containers, or
    the start value [acc] ([INT_MAX]) when no link has fewer. It never
    exceeds the count of any link. *)
Theorem minTriggersOfLinks_min (rus : list RUDecodeData) (acc : Z) :
  let m := minTriggersOfLinks rus acc in
  m <= acc
  /\ (forall ruD link, ruD ∈ rus -> Some link ∈ links ruD -> m <= nTriggers link)
  /\ (m = acc \/ exists ruD link, ruD ∈ rus /\ Some link ∈ links ruD /\ m = nTriggers link).
Proof.
  unfold minTriggersOfLinks. revert acc. induction rus as [|ruD rus IH]; intros acc; cbn [foldl].
  { split; [lia|]. split; [|left; reflexivity]. intros r l H. inversion H. }
  pose proof (minTriggersOfLinks_inner (links ruD) acc) as Hin. cbn zeta in Hin.
  match type of Hin with context [foldl ?f acc (links ruD)] =>
    set (a' := foldl f acc (links ruD)) in *
  end.
  specialize (IH a'). cbn zeta in IH. destruct IH as (I1 & I2 & I3).
  destruct Hin as (A1 & A2 & A3).
  split; [lia|]. split.
  - intros r l Hr Hl. apply elem_of_cons in Hr. destruct Hr as [->|Hr].
    + specialize (A2 l Hl). lia.
    + eapply I2; eassumption.
  - destruct I3 as [I3|(r & l & Hr & Hl & I3)].
    + destruct A3 as [A3|(l & Hl & A3)]; [left; lia|].
      right. exists ruD, l. split; [apply list_elem_of_here|]. split; [exact Hl|lia].
    + right. exists r, l. split; [apply list_elem_of_further; exact Hr|]. split; assumption.
Qed.

(** ** Resetting the reader: clear *)

(** X10: what [RawPixelReader::clear] resets and what it keeps. It zeroes
    the counters [mNRUs] and [mNLinks], the global statistics and the
    statistics of every container, and empties the raw buffer. It does not
    touch the slot table [mRUEntry] nor the link caches: [getRUDecode]
    still finds the (cleared) container of every RU booked before, with
    its links as they were. A reader that had booked an RU is therefore
    not back in a freshly constructed state: its slot table is no longer
    well formed, since an entry points at a slot that [mNRUs] says is
    free. *)
Theorem readerClear_keeps_slot_table (rd : RawPixelReader) :
  mNRUs (readerClear rd) = 0 /\ mNLinks (readerClear rd) = 0
  /\ PL.isEmpty (mRawBuffer (readerClear rd)) = true
  /\ mRUEntry (readerClear rd) = mRUEntry rd
  /\ (forall ruSW, getRUDecode ruSW (readerClear rd) = ruClear <$> getRUDecode ruSW rd)
  /\ (forall ruD e, links (ruClear ruD) = links ruD /\ ruInfo (ruClear ruD) = ruInfo ruD
                    /\ nCables (ruClear ruD) = 0 /\ errCount e (statistics (ruClear ruD)) = 0)
  /\ (entriesOK rd -> 0 < mNRUs rd -> ~ entriesOK (readerClear rd)).
Proof.
  split; [reflexivity|]. split; [reflexivity|]. split; [reflexivity|]. split; [reflexivity|].
  split; [|split].
  - intros ruSW. unfold getRUDecode, readerClear.
    cbn [mRUEntry mRUDecodeVec set_mRawBuffer set_mNRUs set_mNLinks set_mRUDecodeVec
         set_mDecodingStat].
    destruct (idx (mRUEntry rd) ruSW) as [e|]; [|reflexivity].
    cbn [mbind option_bind]. destruct (Z.ltb_spec e 0); [reflexivity|].
    rewrite !idx_lookup by assumption. apply list_lookup_fmap.
  - intros ruD e. split; [reflexivity|]. split; [reflexivity|]. split; [reflexivity|].
    unfold errCount, ruClear, statClear. cbn [statistics set_statistics errorCounts].
    destruct (replicate _ 0 !! errIdx e) as [c|] eqn:E; [|reflexivity].
    apply lookup_replicate in E. destruct E as [-> _]. reflexivity.
  - intros (Hn & Hlt & Hinj & Hden) Hpos (_ & Hlt' & _).
    destruct (Hden 0 ltac:(lia)) as [r Hr].
    specialize (Hlt' r 0). cbn in Hlt'. specialize (Hlt' Hr). lia.
Qed.

(** ** What fillRULinks moves into a link *)

Lemma getUnusedSize_nonneg (c : PayLoadCont) : 0 <= PL.getUnusedSize c.
Proof. unfold PL.getUnusedSize. destruct (Z.ltb_spec (pl_ptr c) (PL.getSize c)); lia. Qed.

(** Every word [fillCables] writes takes [wsz] bytes of the link buffer. *)
Lemma fillCables_size {MAP : Mapping} (n : nat) (icab wsz maxW : Z) (ri : RUInfo.t)
      (hwid : list Z) (st st' : FillLoop) :
  fillCables n icab wsz maxW ri hwid st = Some st' ->
  9 <= wsz ->
  fl_needed st' <= fl_needed st
  /\ PL.getSize (data (fl_link st'))
     = PL.getSize (data (fl_link st)) + (fl_needed st - fl_needed st') * wsz.
Proof.
  revert icab st. induction n as [|n IH]; intros icab st H Hw.
  { apply Some_eq_inv in H. subst st'. lia. }
  cbn [fillCables] in H.
  destruct (negb (Z.land (lanes (fl_link st)) (Z.shiftl 1 icab) =? 0)); [|eapply IH; eassumption].
  destruct (idx (fl_cables st) icab) as [cable|]; [|discriminate].
  cbn [mbind option_bind] in H.
  destruct (Z.eqb_spec (PL.getUnusedSize cable) 0) as [|Hnb]; [eapply IH; eassumption|].
  destruct (idx hwid icab) as [hw|]; [|discriminate].
  cbn [mbind option_bind] in H.
  pose proof (getUnusedSize_nonneg cable) as H0.
  match type of H with
  | (if _ then Some ?s else _) = _ =>
    assert (Hs : fl_needed s = fl_needed st - 1
                 /\ PL.getSize (data (fl_link s)) = PL.getSize (data (fl_link st)) + wsz)
  end.
  { cbn [fl_needed fl_link data set_data PL.add]. split; [reflexivity|].
    unfold PL.getSize, PL.add. cbn [pl_buf]. rewrite length_app, length_insert, length_app.
    rewrite length_peek, length_replicate.
    destruct (Z.ltb_spec 9 (PL.getUnusedSize cable)); lia. }
  destruct Hs as [Hs1 Hs2].
  match type of H with
  | (if ?c then _ else _) = _ => destruct c
  end.
  - apply Some_eq_inv in H. subst st'. rewrite Hs1, Hs2. lia.
  - apply IH in H; [|exact Hw]. rewrite Hs1, Hs2 in H. lia.
Qed.

Lemma fillCables_frame {MAP : Mapping} (n : nat) (icab wsz maxW : Z) (ri : RUInfo.t)
      (hwid : list Z) (st st' : FillLoop) :
  fillCables n icab wsz maxW ri hwid st = Some st' ->
  fl_rdh st' = fl_rdh st /\ fl_pages st' = fl_pages st
  /\ nTriggers (fl_link st') = nTriggers (fl_link st).
Proof.
  revert icab st. induction n as [|n IH]; intros icab st H.
  { apply Some_eq_inv in H. subst st'. auto. }
  cbn [fillCables] in H.
  destruct (negb (Z.land (lanes (fl_link st)) (Z.shiftl 1 icab) =? 0)); [|eapply IH; eassumption].
  destruct (idx (fl_cables st) icab) as [cable|]; [|discriminate].
  cbn [mbind option_bind] in H.
  destruct (PL.getUnusedSize cable =? 0); [eapply IH; eassumption|].
  destruct (idx hwid icab) as [hw|]; [|discriminate].
  cbn [mbind option_bind] in H.
  match type of H with
  | (if ?c then _ else _) = _ => destruct c
  end.
  - apply Some_eq_inv in H. subst st'. auto.
  - apply IH in H. cbn in H. exact H.
Qed.

Lemma length_GBT_header (p l : Z) : length (GBT.header p l) = 16%nat.
Proof. reflexivity. Qed.

Lemma length_GBT_trailer (s t p : Z) : length (GBT.trailer s t p) = 16%nat.
Proof. reflexivity. Qed.

Lemma headerSize_page (rdh : RDH) (a b c d : Z) :
  headerSize (set_offsetToNext a (set_memorySize b (set_page c d rdh))) = headerSize rdh.
Proof. reflexivity. Qed.

(** The page loop: bytes and pages written. *)
Lemma fillPages_size {MAP : Mapping} (fuel : nat) (nCab wsz maxW : Z) (impose : bool)
      (ri : RUInfo.t) (hwid : list Z) (st st' : FillLoop) :
  fillPages fuel nCab wsz maxW impose ri hwid st = Some st' ->
  9 <= wsz <= 16 ->
  headerSize (fl_rdh st) = sizeofRDH ->
  headerSize (fl_rdh st') = sizeofRDH
  /\ (length (fl_pages st) <= length (fl_pages st'))%nat
  /\ nTriggers (fl_link st')
     = nTriggers (fl_link st) + (Z.of_nat (length (fl_pages st')) - Z.of_nat (length (fl_pages st)))
  /\ PL.getSize (data (fl_link st'))
     = PL.getSize (data (fl_link st)) + (fl_needed st - fl_needed st') * wsz
       + (Z.of_nat (length (fl_pages st')) - Z.of_nat (length (fl_pages st)))
         * (sizeofRDH + 2 * wsz).
Proof.
  revert st. induction fuel as [|fuel IH]; intros st H Hw Hh; [discriminate|].
  cbn [fillPages] in H.
  destruct (fillCables _ _ _ _ _ _ st) as [st1|] eqn:E1; [|discriminate].
  cbn [mbind option_bind] in H.
  pose proof (fillCables_size _ _ _ _ _ _ _ _ E1 ltac:(lia)) as [Hn1 Hs1].
  assert (Hr1 : fl_rdh st1 = fl_rdh st /\ fl_pages st1 = fl_pages st
                /\ nTriggers (fl_link st1) = nTriggers (fl_link st)).
  { apply fillCables_frame in E1. exact E1. }
  destruct Hr1 as (Hr1 & Hpg1 & Ht1).
  match type of H with
  | (if fl_needed ?s =? 0 then _ else _) = _ => set (st2 := s) in H
  end.
  assert (H2 : headerSize (fl_rdh st2) = sizeofRDH
               /\ (length (fl_pages st) <= length (fl_pages st2))%nat
               /\ fl_needed st2 = fl_needed st1
               /\ nTriggers (fl_link st2)
                  = nTriggers (fl_link st)
                    + (Z.of_nat (length (fl_pages st2)) - Z.of_nat (length (fl_pages st)))
               /\ PL.getSize (data (fl_link st2))
                  = PL.getSize (data (fl_link st)) + (fl_needed st - fl_needed st1) * wsz
                    + (Z.of_nat (length (fl_pages st2)) - Z.of_nat (length (fl_pages st)))
                      * (sizeofRDH + 2 * wsz)).
  { subst st2. destruct (negb (fl_needed st1 =? 0) && (maxW <=? fl_inPacket st1)).
    - cbn [fl_rdh fl_pages fl_needed fl_link]. rewrite headerSize_page, Hr1, Hpg1.
      split; [exact Hh|]. rewrite length_app. cbn [length]. split; [lia|].
      split; [reflexivity|]. unfold writePageRDH, PL.getSize, PL.add in *.
      cbn [nTriggers data set_data set_nTriggers pl_buf pl_ptr]. split; [lia|].
      rewrite !length_app, !length_take, ?headerSize_page, ?Hh, length_writeRDH,
        length_GBT_header, length_GBT_trailer.
      unfold sizeofRDH in *. lia.
    - rewrite Hr1, Hpg1. split; [exact Hh|]. split; [lia|]. split; [reflexivity|].
      split; [lia|]. lia. }
  clearbody st2. destruct H2 as (G1 & G2 & G3 & G4 & G5).
  destruct (fl_needed st2 =? 0).
  - apply Some_eq_inv in H. subst st'. split; [exact G1|]. split; [exact G2|].
    split; [exact G4|]. rewrite G5, G3. lia.
  - apply IH in H; [|exact Hw|exact G1]. destruct H as (R1 & R2 & R3 & R4).
    split; [exact R1|]. split; [lia|]. split; [lia|]. rewrite R4, G5, G3. lia.
Qed.

Lemma fillCables_bufs {MAP : Mapping} (n : nat) (icab wsz maxW : Z) (ri : RUInfo.t)
      (hwid : list Z) (st st' : FillLoop) :
  fillCables n icab wsz maxW ri hwid st = Some st' ->
  pl_buf <$> fl_cables st' = pl_buf <$> fl_cables st.
Proof.
  revert icab st. induction n as [|n IH]; intros icab st H.
  { apply Some_eq_inv in H. subst st'. reflexivity. }
  cbn [fillCables] in H.
  destruct (negb (Z.land (lanes (fl_link st)) (Z.shiftl 1 icab) =? 0)); [|eapply IH; eassumption].
  destruct (idx (fl_cables st) icab) as [cable|] eqn:Ec; [|discriminate].
  cbn [mbind option_bind] in H.
  destruct (PL.getUnusedSize cable =? 0); [eapply IH; eassumption|].
  destruct (idx hwid icab) as [hw|]; [|discriminate].
  cbn [mbind option_bind] in H. apply idx_Some in Ec. destruct Ec as [_ Ec].
  match type of H with
  | (if _ then Some ?s else _) = _ =>
    assert (Hs : pl_buf <$> fl_cables s = pl_buf <$> fl_cables st)
  end.
  { cbn [fl_cables]. rewrite list_fmap_insert. cbn [PL.setPtr pl_buf].
    apply list_insert_id. rewrite list_lookup_fmap, Ec. reflexivity. }
  match type of H with
  | (if ?c then _ else _) = _ => destruct c
  end.
  - apply Some_eq_inv in H. subst st'. exact Hs.
  - apply IH in H. rewrite H. exact Hs.
Qed.

(** The page loop ends with all words written: the invariant "words still
    needed = words left in the cables" holds throughout. *)
Lemma fillPages_drain {MAP : Mapping} (fuel : nat) (nCab wsz maxW : Z) (impose : bool)
      (ri : RUInfo.t) (hwid : list Z) (st st' : FillLoop) :
  fillPages fuel nCab wsz maxW impose ri hwid st = Some st' ->
  Forall (fun c => 0 <= pl_ptr c) (fl_cables st) ->
  fl_needed st = remWords (lanes (fl_link st)) (fl_cables st) 0 (Z.to_nat nCab) ->
  fl_needed st' = 0
  /\ remWords (lanes (fl_link st)) (fl_cables st') 0 (Z.to_nat nCab) = 0
  /\ pl_buf <$> fl_cables st' = pl_buf <$> fl_cables st
  /\ lanes (fl_link st') = lanes (fl_link st).
Proof.
  revert st. induction fuel as [|fuel IH]; intros st H Hptr Hneed; [discriminate|].
  cbn [fillPages] in H.
  destruct (fillCables _ _ _ _ _ _ st) as [st1|] eqn:E1; [|discriminate].
  cbn [mbind option_bind] in H.
  pose proof (fillCables_bufs _ _ _ _ _ _ _ _ E1) as Hb1.
  destruct (fillCables_pass _ _ _ _ _ _ _ _ E1 ltac:(lia) Hptr)
    as (W & HW & Hn1 & Hi1 & Hpg1 & Hr1 & Hl1 & Ht1 & Hp1 & Hlen1 & _ & Hrem1 & _ & _).
  match type of H with
  | (if fl_needed ?s =? 0 then _ else _) = _ => set (st2 := s) in H
  end.
  assert (H2 : fl_cables st2 = fl_cables st1 /\ fl_needed st2 = fl_needed st1
               /\ lanes (fl_link st2) = lanes (fl_link st1)).
  { subst st2. destruct (negb (fl_needed st1 =? 0) && (maxW <=? fl_inPacket st1)); auto. }
  clearbody st2. destruct H2 as (G1 & G2 & G3).
  destruct (Z.eqb_spec (fl_needed st2) 0) as [Ez|Enz].
  - apply Some_eq_inv in H. subst st'. rewrite G1, G3, Hl1. split; [exact Ez|].
    split; [lia|]. split; [exact Hb1|reflexivity].
  - apply IH in H.
    + rewrite G1, G3, Hl1 in H. destruct H as (R1 & R2 & R3 & R4).
      split; [exact R1|]. split; [exact R2|]. split; [congruence|exact R4].
    + rewrite G1. exact Hp1.
    + rewrite G1, G2, G3, Hl1. lia.
Qed.

Lemma remWords_zero (lns : Z) (cables : list PayLoadCont) (icab : Z) (n : nat) :
  remWords lns cables icab n = 0 ->
  forall j : nat, (j < n)%nat -> remOfCable lns cables (icab + Z.of_nat j) = 0.
Proof.
  revert icab. induction n as [|n IH]; intros icab H j Hj; [lia|].
  cbn [remWords] in H.
  pose proof (remOfCable_nonneg lns cables icab).
  pose proof (remWords_nonneg lns cables (icab + 1) n).
  destruct j as [|j].
  - replace (icab + Z.of_nat 0) with icab by lia. lia.
  - replace (icab + Z.of_nat (S j)) with (icab + 1 + Z.of_nat j) by lia.
    apply IH; lia.
Qed.

Lemma manyWords_ptrs : Forall (fun c => 0 <= pl_ptr c) manyWords.
Proof. repeat constructor; cbn; lia. Qed.

Lemma manyWords_unread (i : nat) (c : PayLoadCont) : manyWords !! i = Some c -> pl_ptr c = 0.
Proof.
  intros Hc. assert (Hi : (i < 28)%nat) by (apply lookup_lt_Some in Hc; exact Hc).
  do 28 (destruct i as [|i]; [inversion Hc; reflexivity|]). lia.
Qed.

(** The example link with [manyWords] is filled with 600 units of fuel. *)
Lemma manyWords_runs :
  is_Some (fillLink 600 readerInit (Example.ruInfoOf 0) (replicate 28 0) 0 (fillRDH readerInit)
                    (set_lanes 0x1ff linkDefault) manyWords).
Proof.
  apply fillLink_runs.
  - reflexivity.
  - unfold Example.ruInfoOf, Example.nChips. cbn. lia.
  - unfold Example.ruInfoOf, Example.nChips. cbn. lia.
  - unfold Example.ruInfoOf, Example.nChips. cbn. lia.
  - exact manyWords_ptrs.
  - intros i c Hc _. eapply manyWords_unread. exact Hc.
  - vm_compute. discriminate.
  - vm_compute. lia.
Qed.

(** X11: [fillRULinks] reads every cable of a link to its end and only
    appends to the link. After the page loop of a link no word is left to
    write, every cable served by the link (lane bit set, index below
    [nCables]) has been read to its end, and no byte of any cable buffer
    has been altered: only read pointers move. The link buffer still
    begins with the bytes it held before, and its read pointer has not
    moved. (What the appended pages hold is the subject of X15 and X23.) *)
Theorem fillLink_drains_cables {MAP : Mapping} (fuel : nat) (rd : RawPixelReader)
        (ri : RUInfo.t) (hwid : list Z) (il : Z) (rdh : RDH) (link : RULink)
        (cables : list PayLoadCont) (st : FillLoop) :
  fillLink fuel rd ri hwid il rdh link cables = Some st ->
  Forall (fun c => 0 <= pl_ptr c) cables ->
  (forall (i : nat) c, cables !! i = Some c ->
     Z.land (lanes link) (Z.shiftl 1 (Z.of_nat i)) <> 0 -> pl_ptr c = 0) ->
  fl_needed st = 0
  /\ pl_buf <$> fl_cables st = pl_buf <$> cables
  /\ (forall (i : nat) c,
        Z.of_nat i < RUInfo.nCables ri ->
        Z.land (lanes link) (Z.shiftl 1 (Z.of_nat i)) <> 0 ->
        fl_cables st !! i = Some c ->
        PL.getUnusedSize c = 0)
  /\ pl_buf (data link) `prefix_of` pl_buf (data (fl_link st))
  /\ pl_ptr (data (fl_link st)) = pl_ptr (data link).
Proof.
  intros H Hptr0 Hptr. unfold fillLink in H.
  match type of H with
  | (mbind _ (fillPages _ _ _ _ _ _ _ ?s)) = _ => set (st0 := s) in H
  end.
  destruct (fillPages _ _ _ _ _ _ _ st0) as [st1|] eqn:E1; [|discriminate].
  cbn [mbind option_bind] in H. apply Some_eq_inv in H. subst st.
  cbn [fl_needed fl_cables fl_link data set_data].
  pose proof (fillPages_grows _ _ _ _ _ _ _ _ _ E1) as (Gp & Gb & _).
  assert (Hb0 : pl_buf (data link) `prefix_of` pl_buf (data (fl_link st0))).
  { subst st0. cbn [fl_link data set_data]. unfold writePageRDH, PL.add.
    cbn [data set_data set_nTriggers pl_buf]. rewrite <- app_assoc. apply prefix_app_r.
    reflexivity. }
  assert (Hp0 : pl_ptr (data (fl_link st0)) = pl_ptr (data link)) by reflexivity.
  apply fillPages_drain in E1.
  - subst st0. cbn [fl_cables fl_link lanes set_data] in E1. unfold writePageRDH in E1.
    cbn [lanes set_data set_nTriggers] in E1. destruct E1 as (R1 & R2 & R3 & _).
    split; [exact R1|]. split; [exact R3|]. split.
    + intros i c Hi Hl Hc.
      pose proof (remWords_zero _ _ _ _ R2 i ltac:(lia)) as Hz.
      replace (0 + Z.of_nat i) with (Z.of_nat i) in Hz by lia.
      unfold remOfCable in Hz.
      destruct (Z.eqb_spec (Z.land (lanes link) (Z.shiftl 1 (Z.of_nat i))) 0) as [|_];
        [contradiction|].
      cbn [negb] in Hz. rewrite idx_lookup, Nat2Z.id, Hc in Hz by lia. cbn in Hz.
      destruct (Z.eqb_spec (PL.getUnusedSize c) 0) as [Ez|Enz]; [exact Ez|].
      pose proof (getUnusedSize_nonneg c).
      pose proof (Z.quot_pos (PL.getUnusedSize c - 1) 9). lia.
    + split.
      * unfold PL.add. cbn [pl_buf]. apply prefix_app_r.
        etransitivity; [exact Hb0|exact Gb].
      * unfold PL.add. cbn [pl_ptr]. rewrite Gp. exact Hp0.
  - subst st0. exact Hptr0.
  - subst st0. cbn [fl_needed fl_cables fl_link]. unfold writePageRDH.
    cbn [lanes set_data set_nTriggers]. apply wordsNeeded_remWords. exact Hptr.
Qed.

Lemma fillLink_drains_cables_witness :
  exists st,
    fillLink 600 readerInit (Example.ruInfoOf 0) (replicate 28 0) 0 (fillRDH readerInit)
             (set_lanes 0x1ff (set_data (mkPL [7; 7; 7] 1) linkDefault)) manyWords = Some st
    /\ fl_needed st = 0
    /\ pl_buf <$> fl_cables st = pl_buf <$> manyWords
    /\ (forall (i : nat) c,
          Z.of_nat i < RUInfo.nCables (Example.ruInfoOf 0) ->
          Z.land 0x1ff (Z.shiftl 1 (Z.of_nat i)) <> 0 ->
          fl_cables st !! i = Some c ->
          PL.getUnusedSize c = 0)
    /\ [7; 7; 7] `prefix_of` pl_buf (data (fl_link st))
    /\ pl_ptr (data (fl_link st)) = 1.
Proof.
  destruct (fillLink_runs 600 readerInit (Example.ruInfoOf 0) (replicate 28 0) 0
              (fillRDH readerInit) (set_lanes 0x1ff (set_data (mkPL [7; 7; 7] 1) linkDefault))
              manyWords) as [st E].
  - reflexivity.
  - unfold Example.ruInfoOf, Example.nChips. cbn. lia.
  - unfold Example.ruInfoOf, Example.nChips. cbn. lia.
  - unfold Example.ruInfoOf, Example.nChips. cbn. lia.
  - exact manyWords_ptrs.
  - intros i c Hc _. eapply manyWords_unread. exact Hc.
  - vm_compute. discriminate.
  - vm_compute. lia.
  - exists st. split; [exact E|].
    apply (fillLink_drains_cables 600 readerInit (Example.ruInfoOf 0) (replicate 28 0) 0
             (fillRDH readerInit) (set_lanes 0x1ff (set_data (mkPL [7; 7; 7] 1) linkDefault))
             manyWords st E).
    + exact manyWords_ptrs.
    + intros i c Hc _. eapply manyWords_unread. exact Hc.
Defined.

(** X12: size of what [fillRULinks] writes for one link. With GBT words of
    [wsz] bytes (10 or 16) and [N] words of cable data, the link buffer
    grows by [N] data words plus, for each of the [P] pages written, one
    RDH, one GBT header and one GBT trailer; the link's page counter
    [nTriggers] grows by [P]. *)
Theorem fillLink_bytes_written {MAP : Mapping} (fuel : nat) (rd : RawPixelReader)
        (ri : RUInfo.t) (hwid : list Z) (il : Z) (rdh : RDH) (link : RULink)
        (cables : list PayLoadCont) (st : FillLoop) :
  let wsz := mGBTWordSize rd in
  let N := wordsNeeded (Z.to_nat (RUInfo.nCables ri)) link cables in
  let P := Z.of_nat (length (fl_pages st)) in
  fillLink fuel rd ri hwid il rdh link cables = Some st ->
  9 <= wsz <= 16 ->
  headerSize rdh = sizeofRDH ->
  1 <= P
  /\ nTriggers (fl_link st) = nTriggers link + P
  /\ PL.getSize (data (fl_link st))
     = PL.getSize (data link) + N * wsz + P * (sizeofRDH + 2 * wsz).
Proof.
  intros wsz N P H Hw Hh. subst P. unfold fillLink in H. fold wsz N in H.
  match type of H with
  | (mbind _ (fillPages _ _ _ _ _ _ _ ?s)) = _ => set (st0 := s) in H
  end.
  destruct (fillPages _ _ _ _ _ _ _ st0) as [st1|] eqn:E1; [|discriminate].
  cbn [mbind option_bind] in H. apply Some_eq_inv in H. subst st.
  cbn [fl_pages fl_link nTriggers data set_data].
  pose proof E1 as E2. apply fillPages_size in E1; [|exact Hw|subst st0; exact Hh].
  destruct E1 as (_ & R2 & R3 & R4).
  assert (Hz : fl_needed st1 = 0).
  { destruct fuel as [|fuel]; [discriminate|]. cbn [fillPages] in E2.
    destruct (fillCables _ _ _ _ _ _ st0) as [sx|]; [|discriminate].
    cbn [mbind option_bind] in E2. clear -E2.
    match type of E2 with
    | (if fl_needed ?s =? 0 then _ else _) = _ => set (s2 := s) in E2
    end.
    clearbody s2. revert s2 E2. induction fuel as [|fuel IH]; intros s2 E2.
    - destruct (Z.eqb_spec (fl_needed s2) 0) as [Ez|]; [|discriminate].
      apply Some_eq_inv in E2. subst. exact Ez.
    - destruct (Z.eqb_spec (fl_needed s2) 0) as [Ez|].
      + apply Some_eq_inv in E2. subst. exact Ez.
      + cbn [fillPages] in E2.
        destruct (fillCables _ _ _ _ _ _ s2) as [sy|]; [|discriminate].
        cbn [mbind option_bind] in E2. eapply IH. exact E2. }
  subst st0. unfold writePageRDH in *.
  cbn [fl_pages fl_link fl_needed nTriggers data set_data set_nTriggers length] in *.
  unfold PL.getSize, PL.add in *. cbn [pl_buf] in *.
  rewrite !length_app, !length_take in *. rewrite length_GBT_trailer.
  rewrite length_GBT_header, length_writeRDH in R4.
  cbn [headerSize set_offsetToNext set_memorySize set_page set_feeId_link] in R4.
  rewrite Hh in R4. unfold sizeofRDH in *.
  rewrite Hz in R4. split; [lia|]. split; [lia|]. lia.
Qed.

Lemma fillLink_bytes_written_witness :
  exists st,
    fillLink 600 readerInit (Example.ruInfoOf 0) (replicate 28 0) 0 (fillRDH readerInit)
             (set_lanes 0x1ff linkDefault) manyWords = Some st
    /\ 1 <= Z.of_nat (length (fl_pages st))
    /\ nTriggers (fl_link st) = 0 + Z.of_nat (length (fl_pages st))
    /\ PL.getSize (data (fl_link st))
       = 0 + 512 * 16 + Z.of_nat (length (fl_pages st)) * (64 + 2 * 16).
Proof.
  destruct manyWords_runs as [st E]. exists st. split; [exact E|].
  assert (HN : wordsNeeded (Z.to_nat (RUInfo.nCables (Example.ruInfoOf 0)))
                           (set_lanes 0x1ff linkDefault) manyWords = 512)
    by (vm_compute; reflexivity).
  pose proof (fillLink_bytes_written 600 readerInit (Example.ruInfoOf 0) (replicate 28 0) 0
                (fillRDH readerInit) (set_lanes 0x1ff linkDefault) manyWords st E) as H.
  cbv zeta in H. rewrite HN in H. apply H.
  - vm_compute. split; discriminate.
  - reflexivity.
Defined.

(** ** Aborted pages in decodeRUData *)

(** A packet state that is counted lies inside [packetStates]. *)
Lemma incPacketState_inv (st : Z) (s s' : RUDecodingStat) :
  incPacketState st s = Some s' ->
  0 <= st < GBT.MaxStateCombinations
  /\ s' = mkRUStat (lanesActive s) (lanesStop s) (lanesTimeOut s) (lanesWithData s) (nPackets s)
                   (errorCounts s) (alter (fun c => c + 1) (Z.to_nat st) (packetStates s)).
Proof.
  unfold incPacketState. intros H.
  destruct (Z.leb_spec 0 st); [|discriminate].
  destruct (Z.ltb_spec st GBT.MaxStateCombinations); [|discriminate].
  cbn [andb] in H. apply Some_eq_inv in H. split; [lia|]. symmetry. exact H.
Qed.

Lemma incPacketState_Some (st : Z) (s : RUDecodingStat) :
  0 <= st < GBT.MaxStateCombinations ->
  incPacketState st s
  = Some (mkRUStat (lanesActive s) (lanesStop s) (lanesTimeOut s) (lanesWithData s) (nPackets s)
                   (errorCounts s) (alter (fun c => c + 1) (Z.to_nat st) (packetStates s))).
Proof.
  unfold incPacketState. intros H.
  destruct (Z.leb_spec 0 st); [|lia].
  destruct (Z.ltb_spec st GBT.MaxStateCombinations); [|lia]. reflexivity.
Qed.

Lemma sameAbortCounts_refl (s : RUDecodingStat) : sameAbortCounts s s.
Proof. unfold sameAbortCounts. auto. Qed.

Lemma sameAbortCounts_trans (a b c : RUDecodingStat) :
  sameAbortCounts a b -> sameAbortCounts b c -> sameAbortCounts a c.
Proof. unfold sameAbortCounts. intros (A1 & A2 & A3 & A4) (B1 & B2 & B3 & B4). lia. Qed.

Lemma sameAbortCounts_incErr (e : DecErrors) (s : RUDecodingStat) :
  e <> ErrMissingGBTHeader -> e <> ErrMissingGBTTrailer -> sameAbortCounts s (incErr e s).
Proof.
  intros H1 H2. split; [apply incErr_length|]. split; [reflexivity|].
  split; apply errCount_incErr_ne; congruence.
Qed.

Lemma sameAbortCounts_if (b : bool) (e : DecErrors) (s : RUDecodingStat) :
  e <> ErrMissingGBTHeader -> e <> ErrMissingGBTTrailer ->
  sameAbortCounts s (if b then incErr e s else s).
Proof.
  intros H1 H2. destruct b; [apply sameAbortCounts_incErr; assumption|apply sameAbortCounts_refl].
Qed.

Lemma sameAbortCounts_lanes (a b c d : Z) (s : RUDecodingStat) :
  sameAbortCounts s (set_laneMasks a b c d s).
Proof. unfold sameAbortCounts, errCount. cbn. auto. Qed.

Lemma sameAbortCounts_checkEndOfTrigger (rdh : RDH) (s : RUDecodingStat) :
  sameAbortCounts s (checkEndOfTrigger rdh s).
Proof.
  unfold checkEndOfTrigger.
  eapply sameAbortCounts_trans; [|apply sameAbortCounts_if; discriminate].
  destruct (negb (lanesActive s =? lanesStop s)); [|apply sameAbortCounts_refl].
  apply sameAbortCounts_if; discriminate.
Qed.

Lemma sameContainer_refl (r : RUDecodeData) : sameContainer r r.
Proof. unfold sameContainer. tauto. Qed.

Lemma sameContainer_trans (a b c : RUDecodeData) :
  sameContainer a b -> sameContainer b c -> sameContainer a c.
Proof.
  unfold sameContainer.
  intros (A1 & A2 & A3 & A4 & A5 & A6 & A7) (B1 & B2 & B3 & B4 & B5 & B6 & B7).
  repeat split; congruence.
Qed.

Lemma sameContainer_stat (s : RUDecodingStat) (r : RUDecodeData) :
  sameContainer r (set_statistics s r).
Proof. unfold sameContainer. cbn. tauto. Qed.

Lemma decodeDataWords_frame {MAP : Mapping} (n : nat) (wsz : Z) (mem : list Z) (raw : Z)
      (ri : RUInfo.t) (ruD ruD' : RUDecodeData) (raw' : Z) :
  decodeDataWords n wsz mem raw ri ruD = Some (raw', ruD') ->
  sameAbortCounts (statistics ruD) (statistics ruD') /\ sameContainer ruD ruD'.
Proof.
  revert raw ruD. induction n as [|n IH]; intros raw ruD H.
  { apply Some_eq_inv in H. inversion H; subst.
    split; [apply sameAbortCounts_refl|apply sameContainer_refl]. }
  cbn [decodeDataWords] in H.
  destruct (GBT.isDataTrailer mem raw).
  { apply Some_eq_inv in H. inversion H; subst.
    split; [apply sameAbortCounts_refl|apply sameContainer_refl]. }
  destruct (inRange _ MaxCablesPerRU); [|discriminate].
  apply IH in H. cbn [statistics set_statistics] in H. destruct H as [Hs Hc].
  split.
  - eapply sameAbortCounts_trans; [|exact Hs].
    eapply sameAbortCounts_trans; [apply sameAbortCounts_lanes|].
    apply sameAbortCounts_if; discriminate.
  - eapply sameContainer_trans; [|exact Hc].
    unfold sameContainer. cbn. rewrite length_alter. tauto.
Qed.

Lemma abortCount_same (s s' : RUDecodingStat) :
  sameAbortCounts s s' -> abortCount s' = abortCount s.
Proof. unfold abortCount. intros (_ & _ & H1 & H2). lia. Qed.

Lemma abortCount_incErr (s : RUDecodingStat) (e : DecErrors) :
  length (errorCounts s) = NErrorsDefined ->
  e = ErrMissingGBTHeader \/ e = ErrMissingGBTTrailer ->
  abortCount (incErr e s) = abortCount s + 1.
Proof.
  intros Hl [->| ->]; unfold abortCount.
  - rewrite errCount_incErr_eq by exact Hl. rewrite errCount_incErr_ne by discriminate. lia.
  - rewrite errCount_incErr_eq by exact Hl. rewrite errCount_incErr_ne by discriminate. lia.
Qed.

Lemma decodeRUPages_abort {MAP : Mapping} (fuel : nat) (wsz : Z) (mem : list Z) (off : Z)
      (ri : RUInfo.t) (ruD ruD' : RUDecodeData) (raw' : Z) (ab : bool) :
  decodeRUPages fuel wsz mem off ri ruD = Some (raw', ruD', ab) ->
  length (errorCounts (statistics ruD)) = NErrorsDefined ->
  abortCount (statistics ruD') = abortCount (statistics ruD) + (if ab then 1 else 0)
  /\ nPackets (statistics ruD') = nPackets (statistics ruD)
  /\ sameContainer ruD ruD'.
Proof.
  revert off ruD. induction fuel as [|fuel IH]; intros off ruD H Hlen; [discriminate|].
  cbn [decodeRUPages] in H. cbv zeta in H.
  destruct (negb (GBT.isDataHeader mem _)).
  { apply Some_eq_inv in H. inversion H; subst. cbn [statistics set_statistics].
    split; [apply abortCount_incErr; auto|]. split; [reflexivity|apply sameContainer_stat]. }
  match type of H with
  | context [decodeDataWords _ _ _ _ _ (set_statistics ?s ruD)] =>
    set (s4 := s) in H; assert (H4 : sameAbortCounts (statistics ruD) s4)
  end.
  { subst s4.
    match goal with
    | |- sameAbortCounts _ (if _ then _ else ?s3) =>
      assert (Hs3 : sameAbortCounts (statistics ruD) s3)
    end.
    { eapply sameAbortCounts_trans; [|apply sameAbortCounts_lanes].
      eapply sameAbortCounts_trans; [|apply sameAbortCounts_if; discriminate].
      apply sameAbortCounts_if; discriminate. }
    destruct (pageCnt (readRDH mem off) =? 0); [|exact Hs3].
    eapply sameAbortCounts_trans; [exact Hs3|apply sameAbortCounts_lanes]. }
  clearbody s4.
  destruct (decodeDataWords _ _ _ _ _ _) as [[raw1 ruD1]|] eqn:E1; [|discriminate].
  cbn [mbind option_bind] in H. apply decodeDataWords_frame in E1.
  cbn [statistics set_statistics] in E1. destruct E1 as [Hs1 Hc1].
  assert (H5 : sameAbortCounts (statistics ruD) (statistics ruD1))
    by (eapply sameAbortCounts_trans; eassumption).
  assert (Hc5 : sameContainer ruD ruD1)
    by (eapply sameContainer_trans; [apply sameContainer_stat|exact Hc1]).
  assert (Hl5 : length (errorCounts (statistics ruD1)) = NErrorsDefined)
    by (destruct H5 as [Hl _]; congruence).
  destruct (negb (GBT.isDataTrailer mem raw1)).
  { apply Some_eq_inv in H. inversion H; subst. cbn [statistics set_statistics].
    rewrite abortCount_incErr by auto. rewrite (abortCount_same _ _ H5).
    split; [reflexivity|]. split; [apply H5|].
    eapply sameContainer_trans; [exact Hc5|apply sameContainer_stat]. }
  match type of H with
  | context [set_laneMasks ?a ?b ?c ?d (statistics ruD1)] =>
    set (s6 := set_laneMasks a b c d (statistics ruD1)) in H;
    assert (H6 : sameAbortCounts (statistics ruD) s6)
      by (eapply sameAbortCounts_trans; [exact H5|apply sameAbortCounts_lanes])
  end.
  clearbody s6.
  destruct (offsetToNext (readRDH mem off) =? 0).
  { apply Some_eq_inv in H. inversion H; subst. cbn [statistics set_statistics].
    rewrite (abortCount_same _ _ H6). split; [lia|]. split; [apply H6|].
    eapply sameContainer_trans; [exact Hc5|apply sameContainer_stat]. }
  destruct (negb (isSameRUandTrigger _ _)).
  { destruct (incPacketState _ _) as [s7|] eqn:E7; [|discriminate].
    cbn [mbind option_bind] in H. apply incPacketState_inv in E7. destruct E7 as [_ E7].
    apply Some_eq_inv in H. inversion H; subst. cbn [statistics set_statistics].
    match goal with
    | |- context [abortCount ?s] =>
      assert (H7 : sameAbortCounts (statistics ruD) s)
    end.
    { eapply sameAbortCounts_trans; [exact H6|].
      eapply sameAbortCounts_trans; [apply sameAbortCounts_checkEndOfTrigger|].
      unfold sameAbortCounts, errCount. cbn. auto. }
    rewrite (abortCount_same _ _ H7). split; [lia|]. split; [apply H7|].
    eapply sameContainer_trans; [exact Hc5|apply sameContainer_stat]. }
  match type of H with
  | context [set_statistics ?s ruD1] =>
    assert (H8 : sameAbortCounts (statistics ruD) s)
      by (eapply sameAbortCounts_trans; [exact H6|apply sameAbortCounts_if; discriminate])
  end.
  apply IH in H; cbn [statistics set_statistics] in *.
  - destruct H as (R1 & R2 & R3). rewrite R1, (abortCount_same _ _ H8).
    split; [reflexivity|]. split; [rewrite R2; apply H8|].
    eapply sameContainer_trans; [exact Hc5|].
    eapply sameContainer_trans; [apply sameContainer_stat|exact R3].
  - destruct H8 as [Hl _]. congruence.
Qed.

(** X13: when [decodeRUData] aborts. If the data does not start with an
    RDH, the call is aborted with the pointer one GBT word further and the
    container untouched. Otherwise one packet is counted, and the call is
    aborted exactly when a GBT header or a GBT trailer was missing, which
    is then counted once ([ErrMissingGBTHeader] or [ErrMissingGBTTrailer]);
    in no call with a defined result (the packet state of the last trailer
    is an index of [packetStates], every cable index one of [cableData])
    are the links, the decoded chips or the number of chips of the
    container changed. *)
Theorem decodeRUData_aborted {MAP : Mapping} (fuel : nat) (wsz : Z) (mem : list Z) (raw : Z)
        (ruD ruD' : RUDecodeData) (raw' : Z) (ab : bool) :
  decodeRUData fuel wsz mem raw ruD = Some (raw', ruD', ab) ->
  length (errorCounts (statistics ruD)) = NErrorsDefined ->
  (isRDHHeuristic (readRDH mem raw) = false -> ab = true /\ ruD' = ruD /\ raw' = raw + wsz)
  /\ (isRDHHeuristic (readRDH mem raw) = true ->
      nPackets (statistics ruD') = trunc 32 (nPackets (statistics ruD) + 1)
      /\ abortCount (statistics ruD') = abortCount (statistics ruD) + (if ab then 1 else 0)
      /\ links ruD' = links ruD /\ chipsData ruD' = chipsData ruD
      /\ nChipsFired ruD' = nChipsFired ruD).
Proof.
  unfold decodeRUData. intros H Hlen.
  destruct (isRDHHeuristic (readRDH mem raw)); cbn [negb] in H.
  - split; [discriminate|]. intros _.
    destruct (ruInfo ruD) as [ri|]; [|discriminate].
    cbn [mbind option_bind] in H. apply decodeRUPages_abort in H.
    + cbn [statistics set_statistics set_nCables incPackets nPackets] in H.
      destruct H as (R1 & R2 & R3). split; [exact R2|]. split; [exact R1|].
      destruct R3 as (C1 & C2 & _ & C4 & _). cbn in C1, C2, C4. auto.
    + exact Hlen.
  - split; [|discriminate]. intros _. apply Some_eq_inv in H. inversion H; subst. auto.
Qed.

Lemma decodeRUData_aborted_witness :
  (exists raw' ruD',
      decodeRUData 4 GBTPaddedWordLength (take 80 (Streams.pageOK 0)) 0 Inputs.ru0
      = Some (raw', ruD', true)
      /\ nPackets (statistics ruD') = 1
      /\ abortCount (statistics ruD') = 1
      /\ links ruD' = links Inputs.ru0 /\ chipsData ruD' = chipsData Inputs.ru0
      /\ nChipsFired ruD' = nChipsFired Inputs.ru0)
  /\ decodeRUData 4 GBTPaddedWordLength (replicate 64 0xff) 0 Inputs.ru0
     = Some (GBTPaddedWordLength, Inputs.ru0, true).
Proof.
  split.
  - destruct (decodeRUData 4 GBTPaddedWordLength (take 80 (Streams.pageOK 0)) 0 Inputs.ru0)
      as [[[raw' ruD'] ab]|] eqn:E; [|vm_compute in E; discriminate].
    assert (Hab : ab = true).
    { vm_compute in E. apply Some_eq_inv in E. inversion E. reflexivity. }
    subst ab.
    destruct (decodeRUData_aborted 4 GBTPaddedWordLength (take 80 (Streams.pageOK 0)) 0
                Inputs.ru0 ruD' raw' true E eq_refl) as [_ H].
    destruct (H ltac:(vm_compute; reflexivity)) as (R1 & R2 & R3 & R4 & R5).
    exists raw', ruD'. split; [reflexivity|]. split; [exact R1|]. split; [exact R2|].
    split; [exact R3|]. split; [exact R4|exact R5].
  - destruct (decodeRUData 4 GBTPaddedWordLength (replicate 64 0xff) 0 Inputs.ru0)
      as [[[raw' ruD'] ab]|] eqn:E; [|vm_compute in E; discriminate].
    destruct (decodeRUData_aborted 4 GBTPaddedWordLength (replicate 64 0xff) 0
                Inputs.ru0 ruD' raw' ab E eq_refl) as [H _].
    destruct (H ltac:(vm_compute; reflexivity)) as (-> & -> & ->). reflexivity.
Defined.

(** ** Headers written and read back *)

Lemma leZ_leBytes_trunc (n : nat) (v : Z) : leZ (leBytes n v) = trunc (8 * Z.of_nat n) v.
Proof.
  unfold trunc. revert v. induction n as [|n IH]; intros v.
  - cbn. rewrite Z.land_0_r. reflexivity.
  - cbn [leBytes leZ]. rewrite IH.
    replace (8 * Z.of_nat (S n)) with (8 + 8 * Z.of_nat n) by lia.
    change 255 with (Z.ones 8). rewrite !Z.land_ones by lia.
    rewrite Z.shiftr_div_pow2 by lia. rewrite Z.pow_add_r by lia.
    rewrite Z.rem_mul_r by (try apply Z.pow_pos_nonneg; lia). reflexivity.
Qed.

Lemma pack_nonneg (fs : list (Z * Z)) :
  Forall (fun f => 0 <= snd f) fs -> 0 <= pack fs.
Proof.
  induction 1 as [|[v n] r Hn _ IH]; cbn [pack]; [lia|]. cbn [snd] in Hn.
  pose proof (trunc_range n v Hn). pose proof (Z.pow_pos_nonneg 2 n). nia.
Qed.

Lemma bits_pack_head (v n : Z) (r : list (Z * Z)) :
  0 <= n -> bits (pack ((v, n) :: r)) 0 n = trunc n v.
Proof.
  intros Hn. unfold bits. cbn [pack]. rewrite Z.shiftr_0_r, Z.land_ones by exact Hn.
  pose proof (trunc_range n v Hn).
  rewrite (Z.mul_comm (2 ^ n)), Z.mod_add by (pose proof (Z.pow_pos_nonneg 2 n); lia).
  apply Z.mod_small. lia.
Qed.

Lemma bits_pack_tail (v n lo m : Z) (r : list (Z * Z)) :
  0 <= n -> 0 <= lo -> bits (pack ((v, n) :: r)) (n + lo) m = bits (pack r) lo m.
Proof.
  intros Hn Hlo. unfold bits. cbn [pack]. rewrite <- Z.shiftr_shiftr by exact Hlo.
  f_equal. f_equal. rewrite Z.shiftr_div_pow2 by exact Hn.
  pose proof (trunc_range n v Hn). pose proof (Z.pow_pos_nonneg 2 n ltac:(lia) Hn).
  rewrite (Z.mul_comm (2 ^ n)), Z.div_add by lia. rewrite Z.div_small by lia. lia.
Qed.

Lemma peek_skip (a l : list Z) (off : Z) (n : nat) :
  0 <= off -> peek (a ++ l) (Z.of_nat (length a) + off) n = peek l off n.
Proof.
  intros Hoff. unfold peek.
  replace (Z.to_nat (- (Z.of_nat (length a) + off))) with 0%nat by lia.
  replace (Z.to_nat (- off)) with 0%nat by lia.
  replace (Z.to_nat (Z.of_nat (length a) + off)) with (length a + Z.to_nat off)%nat by lia.
  rewrite <- drop_drop, drop_app_length. reflexivity.
Qed.

Lemma peek_head (a l : list Z) : peek (a ++ l) 0 (length a) = a.
Proof.
  pose proof (peek_inside [] a l) as H. cbn [app length Z.of_nat] in H. exact H.
Qed.

Lemma readRDH_skip (pre mem : list Z) :
  readRDH (pre ++ mem) (Z.of_nat (length pre)) = readRDH mem 0.
Proof.
  unfold readRDH.
  replace (peek (pre ++ mem) (Z.of_nat (length pre)) 8) with (peek mem 0 8)
    by (rewrite <- (peek_skip pre mem 0 8) by lia; f_equal; lia).
  rewrite !(peek_skip pre mem) by lia. reflexivity.
Qed.

(** The bytes of a header determine its fields: what [readRDH] finds where
    [writeRDH h] was put is [h] with every field cut to its width. *)
Lemma readRDH_writeRDH (h : RDH) (rest : list Z) :
  readRDH (writeRDH h ++ rest) 0 = rdhStored h.
Proof.
  unfold readRDH, writeRDH. rewrite <- !app_assoc.
  set (w0 := leBytes 8 (_ + field (zero0 h) 56 8)).
  set (w1 := leBytes 8 (_ + field (zero1 h) 60 4)).
  set (w2 := leBytes 8 (_ + field (heartbeatOrbit h) 32 32)).
  set (w4 := leBytes 8 (_ + field (triggerType h) 32 32)).
  set (w5 := leBytes 8 (word5 h)).
  set (w6 := leBytes 8 (_ + field (zero6 h) 56 8)).
  set (w3 := leBytes 8 0).
  assert (L : forall v, length (leBytes 8 v) = 8%nat) by (intros; apply length_leBytes).
  assert (S8 : forall (a l : list Z) off, length a = 8%nat -> 0 <= off ->
                 peek (a ++ l) (8 + off) 8 = peek l off 8).
  { intros a l off Ha Hoff. rewrite <- (peek_skip a l off 8 Hoff). rewrite Ha. reflexivity. }
  assert (H8 : forall (a l : list Z), length a = 8%nat -> peek (a ++ l) 0 8 = a).
  { intros a l Ha. rewrite <- Ha. apply peek_head. }
  change (0 + 8) with (8 + 0). change (0 + 16) with (8 + (8 + 0)).
  change (0 + 32) with (8 + (8 + (8 + (8 + 0)))).
  change (0 + 40) with (8 + (8 + (8 + (8 + (8 + 0))))).
  change (0 + 48) with (8 + (8 + (8 + (8 + (8 + (8 + 0)))))).
  rewrite !S8 by (try apply L; lia). rewrite !H8 by apply L.
  subst w0 w1 w2 w4 w5 w6. rewrite !leZ_leBytes_trunc.
  change (8 * Z.of_nat 8) with 64.
  assert (T : forall fs, Forall (fun f => 0 <= snd f) fs ->
                foldr (fun f s => snd f + s) 0 fs <= 64 -> trunc 64 (pack fs) = pack fs).
  { intros fs Hf Hs. apply trunc_small; [lia|]. split; [apply pack_nonneg; exact Hf|].
    apply Z.lt_le_trans with (2 ^ foldr (fun f s => snd f + s) 0 fs);
      [|apply Z.pow_le_mono_r; lia].
    clear Hs. induction Hf as [|[v n] r Hn Hr IH]; cbn [pack foldr snd]; [cbn; lia|].
    cbn [snd] in Hn. pose proof (trunc_range n v Hn).
    pose proof (pack_nonneg r Hr).
    assert (0 <= foldr (fun f s => snd f + s) 0 r).
    { clear -Hr. induction Hr as [|[v' n'] r' Hn' _ IH']; cbn [foldr snd]; cbn [snd] in *; lia. }
    rewrite Z.pow_add_r by lia. nia. }
  assert (E0 : field (version h) 0 8 + field (headerSize h) 8 8 + field (blockLength h) 16 16
               + field (feeId h) 32 16 + field (priority h) 48 8 + field (zero0 h) 56 8
               = pack [(version h, 8); (headerSize h, 8); (blockLength h, 16); (feeId h, 16);
                       (priority h, 8); (zero0 h, 8)]).
  { unfold field. rewrite !Z.shiftl_mul_pow2 by lia. cbn [pack].
    generalize (trunc 8 (version h)), (trunc 8 (headerSize h)), (trunc 16 (blockLength h)),
      (trunc 16 (feeId h)), (trunc 8 (priority h)), (trunc 8 (zero0 h)). intros. cbn. lia. }
  assert (E1 : field (offsetToNext h) 0 16 + field (memorySize h) 16 16 + field (linkID h) 32 8
               + field (packetCounter h) 40 8 + field (cruID h) 48 12 + field (zero1 h) 60 4
               = pack [(offsetToNext h, 16); (memorySize h, 16); (linkID h, 8);
                       (packetCounter h, 8); (cruID h, 12); (zero1 h, 4)]).
  { unfold field. rewrite !Z.shiftl_mul_pow2 by lia. cbn [pack].
    generalize (trunc 16 (offsetToNext h)), (trunc 16 (memorySize h)), (trunc 8 (linkID h)),
      (trunc 8 (packetCounter h)), (trunc 12 (cruID h)), (trunc 4 (zero1 h)). intros. cbn. lia. }
  assert (E2 : field (triggerOrbit h) 0 32 + field (heartbeatOrbit h) 32 32
               = pack [(triggerOrbit h, 32); (heartbeatOrbit h, 32)]).
  { unfold field. rewrite !Z.shiftl_mul_pow2 by lia. cbn [pack].
    generalize (trunc 32 (triggerOrbit h)), (trunc 32 (heartbeatOrbit h)). intros. cbn. lia. }
  assert (E4 : field (triggerBC h) 0 12 + field (zero41 h) 12 4 + field (heartbeatBC h) 16 12
               + field (zero42 h) 28 4 + field (triggerType h) 32 32
               = pack [(triggerBC h, 12); (zero41 h, 4); (heartbeatBC h, 12); (zero42 h, 4);
                       (triggerType h, 32)]).
  { unfold field. rewrite !Z.shiftl_mul_pow2 by lia. cbn [pack].
    generalize (trunc 12 (triggerBC h)), (trunc 4 (zero41 h)), (trunc 12 (heartbeatBC h)),
      (trunc 4 (zero42 h)), (trunc 32 (triggerType h)). intros. cbn. lia. }
  assert (E6 : field (detectorField h) 0 16 + field (par h) 16 16 + field (stop h) 32 8
               + field (pageCnt h) 40 16 + field (zero6 h) 56 8
               = pack [(detectorField h, 16); (par h, 16); (stop h, 8); (pageCnt h, 16);
                       (zero6 h, 8)]).
  { unfold field. rewrite !Z.shiftl_mul_pow2 by lia. cbn [pack].
    generalize (trunc 16 (detectorField h)), (trunc 16 (par h)), (trunc 8 (stop h)),
      (trunc 16 (pageCnt h)), (trunc 8 (zero6 h)). intros. cbn. lia. }
  rewrite E0, E1, E2, E4, E6.
  rewrite !T by (try (repeat constructor; cbn; lia); cbn; lia).
  unfold rdhStored. f_equal;
    repeat first
      [ apply bits_pack_head; lia
      | match goal with
        | |- bits (pack ((_, ?n) :: _)) ?lo _ = _ =>
          let d := eval cbv in (lo - n) in
          change lo with (n + d); rewrite bits_pack_tail by lia
        end ].
Qed.

(** ** Page headers written by fillRULinks *)

Lemma pageHeaderOf_page (h0 h : RDH) (cnt stp ms off : Z) :
  pageHeaderOf h0 h ->
  pageHeaderOf h0 (set_offsetToNext off (set_memorySize ms (set_page cnt stp h))).
Proof.
  intros (c & s & m & o & ->). exists cnt, stp, ms, off. reflexivity.
Qed.

Lemma fillPages_headers {MAP : Mapping} (fuel : nat) (nCab wsz maxW : Z) (impose : bool)
      (ri : RUInfo.t) (hwid : list Z) (h0 : RDH) (st st' : FillLoop) :
  fillPages fuel nCab wsz maxW impose ri hwid st = Some st' ->
  pageHeaderOf h0 (fl_rdh st) -> Forall (pageHeaderOf h0) (fl_pages st) ->
  pageHeaderOf h0 (fl_rdh st') /\ Forall (pageHeaderOf h0) (fl_pages st').
Proof.
  revert st. induction fuel as [|fuel IH]; intros st H Hr Hp; [discriminate|].
  cbn [fillPages] in H.
  destruct (fillCables _ _ _ _ _ _ st) as [st1|] eqn:E1; [|discriminate].
  cbn [mbind option_bind] in H. apply fillCables_frame in E1. destruct E1 as (F1 & F2 & _).
  match type of H with
  | (if fl_needed ?s =? 0 then _ else _) = _ => set (st2 := s) in H
  end.
  assert (H2 : pageHeaderOf h0 (fl_rdh st2) /\ Forall (pageHeaderOf h0) (fl_pages st2)).
  { subst st2. destruct (negb (fl_needed st1 =? 0) && (maxW <=? fl_inPacket st1)).
    - cbn [fl_rdh fl_pages]. rewrite F1, F2.
      assert (Hn : forall a b c d,
                 pageHeaderOf h0 (set_offsetToNext a (set_memorySize b (set_page c d (fl_rdh st)))))
        by (intros; apply pageHeaderOf_page; exact Hr).
      split; [apply Hn|]. apply Forall_app. split; [exact Hp|].
      constructor; [apply Hn|constructor].
    - rewrite F1, F2. split; assumption. }
  clearbody st2. destruct H2 as [G1 G2].
  destruct (fl_needed st2 =? 0).
  - apply Some_eq_inv in H. subst st'. split; assumption.
  - eapply IH; eassumption.
Qed.

Ltac rdh_field Hst :=
  first [ exact (f_equal version Hst) | exact (f_equal headerSize Hst)
        | exact (f_equal blockLength Hst) | exact (f_equal feeId Hst)
        | exact (f_equal priority Hst) | exact (f_equal zero0 Hst)
        | exact (f_equal offsetToNext Hst) | exact (f_equal memorySize Hst)
        | exact (f_equal linkID Hst) | exact (f_equal packetCounter Hst)
        | exact (f_equal cruID Hst) | exact (f_equal zero1 Hst)
        | exact (f_equal triggerOrbit Hst) | exact (f_equal heartbeatOrbit Hst)
        | exact (f_equal triggerBC Hst) | exact (f_equal zero41 Hst)
        | exact (f_equal heartbeatBC Hst) | exact (f_equal zero42 Hst)
        | exact (f_equal triggerType Hst) | exact (f_equal word5 Hst)
        | exact (f_equal detectorField Hst) | exact (f_equal par Hst)
        | exact (f_equal stop Hst) | exact (f_equal pageCnt Hst)
        | exact (f_equal zero6 Hst) ].

(** X14: the encoder's pages are what the decoder expects. Every page
    header [fillRULinks] writes for a link keeps the identity of the
    trigger: it passes [isRDHHeuristic] when the header it started from
    does, it is the same header again when read back from its bytes, and
    for two consecutive pages of the link [isSameRUandTrigger] says that
    the second continues the first, unless its 16-bit page counter is 0. *)
Theorem fillLink_headers_accepted {MAP : Mapping} (fuel : nat) (rd : RawPixelReader)
        (ri : RUInfo.t) (hwid : list Z) (il : Z) (rdh : RDH) (link : RULink)
        (cables : list PayLoadCont) (st : FillLoop) :
  fillLink fuel rd ri hwid il rdh link cables = Some st ->
  rdhStored rdh = rdh ->
  isRDHHeuristic rdh = true ->
  triggerType rdh <> 0 ->
  (forall h, h ∈ fl_pages st ->
     isRDHHeuristic h = true
     /\ feeId h = trunc 16 (RUSW2FEEId (RUInfo.idSW ri) il) /\ linkID h = trunc 8 il
     /\ forall rest, readRDH (writeRDH h ++ rest) 0 = h)
  /\ (forall (i : nat) h h',
        fl_pages st !! i = Some h -> fl_pages st !! S i = Some h' ->
        pageCnt h' <> 0 -> isSameRUandTrigger h h' = true).
Proof.
  intros H Hst Hh Ht. unfold fillLink in H.
  set (h0 := set_feeId_link (RUSW2FEEId (RUInfo.idSW ri) il) il rdh) in H.
  match type of H with
  | (mbind _ (fillPages _ _ _ _ _ _ _ ?s)) = _ => set (st0 := s) in H
  end.
  destruct (fillPages _ _ _ _ _ _ _ st0) as [st1|] eqn:E1; [|discriminate].
  cbn [mbind option_bind] in H. apply Some_eq_inv in H. subst st. cbn [fl_pages].
  assert (H0 : pageHeaderOf h0 (fl_rdh st0)).
  { subst st0. cbn [fl_rdh]. eexists _, _, _, _. reflexivity. }
  apply (fillPages_headers _ _ _ _ _ _ _ h0) in E1;
    [|exact H0|subst st0; cbn [fl_pages fl_rdh] in *; constructor; [exact H0|constructor]].
  destruct E1 as [_ Hall]. rewrite Forall_forall in Hall.
  assert (Hfit : forall v n, 0 <= n -> trunc n (trunc n v) = trunc n v).
  { intros v n Hn. apply trunc_small; [exact Hn|]. apply trunc_range. exact Hn. }
  assert (Hs0 : rdhStored h0 = h0).
  { subst h0. unfold rdhStored, set_feeId_link.
    cbn [version headerSize blockLength feeId priority zero0 offsetToNext memorySize linkID
         packetCounter cruID zero1 triggerOrbit heartbeatOrbit triggerBC zero41 heartbeatBC
         zero42 triggerType word5 detectorField par stop pageCnt zero6].
    f_equal; first [apply Hfit; lia | rdh_field Hst]. }
  split.
  - intros h Hin. destruct (Hall h Hin) as (cnt & stp & ms & off & ->).
    split; [exact Hh|]. split; [reflexivity|]. split; [reflexivity|].
    intros rest. rewrite readRDH_writeRDH. unfold rdhStored, set_offsetToNext, set_memorySize,
      set_page.
    cbn [version headerSize blockLength feeId priority zero0 offsetToNext memorySize linkID
         packetCounter cruID zero1 triggerOrbit heartbeatOrbit triggerBC zero41 heartbeatBC
         zero42 triggerType word5 detectorField par stop pageCnt zero6].
    f_equal; first [apply Hfit; lia | rdh_field Hs0].
  - intros i h h' Hi Hi' Hc.
    destruct (Hall h (list_elem_of_lookup_2 _ _ _ Hi)) as (c1 & s1 & m1 & o1 & ->).
    destruct (Hall h' (list_elem_of_lookup_2 _ _ _ Hi')) as (c2 & s2 & m2 & o2 & ->).
    unfold isSameRUandTrigger.
    cbn [pageCnt feeId triggerOrbit triggerBC heartbeatOrbit heartbeatBC triggerType
         set_offsetToNext set_memorySize set_page] in *.
    rewrite !Z.eqb_refl, Z.land_diag. cbn [negb orb].
    destruct (Z.eqb_spec (trunc 16 c2) 0) as [|_]; [contradiction|].
    destruct (Z.eqb_spec (triggerType h0) 0) as [E|_]; [|reflexivity].
    exfalso. apply Ht. exact E.
Qed.

Lemma fillLink_headers_accepted_witness :
  exists st,
    fillLink 600 readerInit (Example.ruInfoOf 0) (replicate 28 0) 0 (fillRDH readerInit)
             (set_lanes 0x1ff linkDefault) manyWords = Some st
    /\ (forall h, h ∈ fl_pages st ->
          isRDHHeuristic h = true
          /\ feeId h = trunc 16 (RUSW2FEEId (RUInfo.idSW (Example.ruInfoOf 0)) 0)
          /\ linkID h = trunc 8 0
          /\ forall rest, readRDH (writeRDH h ++ rest) 0 = h)
    /\ (forall (i : nat) h h',
          fl_pages st !! i = Some h -> fl_pages st !! S i = Some h' ->
          pageCnt h' <> 0 -> isSameRUandTrigger h h' = true).
Proof.
  destruct manyWords_runs as [st E]. exists st. split; [exact E|].
  apply (fillLink_headers_accepted 600 readerInit (Example.ruInfoOf 0) (replicate 28 0) 0
           (fillRDH readerInit) (set_lanes 0x1ff linkDefault) manyWords st E).
  - vm_compute. reflexivity.
  - reflexivity.
  - vm_compute. discriminate.
Defined.

(** ** Cable data through a link: the payload round trip *)

Lemma byteAt_app (pre w : list Z) (k : nat) :
  (k < length w)%nat ->
  byteAt (pre ++ w) (Z.of_nat (length pre) + Z.of_nat k) = default 0 (w !! k).
Proof.
  intros Hk. unfold byteAt.
  destruct (Z.ltb_spec (Z.of_nat (length pre) + Z.of_nat k) 0); [lia|].
  replace (Z.to_nat (Z.of_nat (length pre) + Z.of_nat k)) with (length pre + k)%nat by lia.
  rewrite lookup_app_r by lia. replace (length pre + k - length pre)%nat with k by lia.
  reflexivity.
Qed.

Lemma byteAt_prefix (l mem : list Z) (off : Z) :
  l `prefix_of` mem -> 0 <= off < Z.of_nat (length l) -> byteAt mem off = byteAt l off.
Proof.
  intros [r ->] Hoff. unfold byteAt. destruct (Z.ltb_spec off 0); [lia|].
  rewrite lookup_app_l by lia. reflexivity.
Qed.

Lemma peek_prefix (l mem : list Z) (off : Z) (n : nat) :
  l `prefix_of` mem -> 0 <= off -> off + Z.of_nat n <= Z.of_nat (length l) ->
  peek mem off n = peek l off n.
Proof.
  intros [r ->] H0 Hn. unfold peek.
  replace (Z.to_nat (- off)) with 0%nat by lia. rewrite Nat.min_0_r, Nat.sub_0_r.
  cbn [replicate app].
  assert (Ht : take n (drop (Z.to_nat off) (l ++ r)) = take n (drop (Z.to_nat off) l)).
  { rewrite drop_app_le by lia. rewrite take_app_le; [reflexivity|]. rewrite length_drop. lia. }
  rewrite Ht. reflexivity.
Qed.

Lemma peek_take_drop (l : list Z) (off : Z) (n : nat) :
  0 <= off -> off + Z.of_nat n <= Z.of_nat (length l) ->
  peek l off n = take n (drop (Z.to_nat off) l).
Proof.
  intros H0 Hn. unfold peek.
  replace (Z.to_nat (- off)) with 0%nat by lia. rewrite Nat.min_0_r, Nat.sub_0_r.
  cbn [replicate app]. rewrite length_take, length_drop.
  replace (n - Nat.min n (length l - Z.to_nat off))%nat with 0%nat by lia.
  cbn [replicate]. apply app_nil_r.
Qed.

Lemma pad9_whole (l : list Z) : Z.of_nat (length l) mod 9 = 0 -> pad9 l = l.
Proof.
  intros H. unfold pad9.
  replace ((- Z.of_nat (length l)) mod 9) with 0; [cbn; apply app_nil_r|].
  symmetry. apply Z.mod_opp_l_z; [lia|exact H].
Qed.

(** One more GBT payload: [nb] bytes and zeros up to 9. *)
Lemma pad9_step (l chunk : list Z) :
  Z.of_nat (length l) mod 9 = 0 -> (1 <= length chunk <= 9)%nat ->
  pad9 (l ++ chunk) = pad9 l ++ chunk ++ replicate (9 - length chunk) 0.
Proof.
  intros Hl Hc. rewrite (pad9_whole l Hl). unfold pad9. rewrite <- app_assoc. f_equal. f_equal.
  f_equal. rewrite length_app.
  assert (E : (- Z.of_nat (length l + length chunk)) mod 9 = 9 - Z.of_nat (length chunk)).
  { symmetry.
    apply (Z.mod_unique _ _ (- (Z.of_nat (length l) / 9) - 1)); [lia|].
    pose proof (Z.div_mod (Z.of_nat (length l)) 9). lia. }
  rewrite E. lia.
Qed.

Lemma consumed_length (c : PayLoadCont) :
  0 <= pl_ptr c <= PL.getSize c -> Z.of_nat (length (consumed c)) = pl_ptr c.
Proof. unfold consumed, PL.getSize. intros H. rewrite length_take. lia. Qed.

(** A pointer that did not stop early has run over all [n] words. *)
Lemma decodeDataWords_app {MAP : Mapping} (a b : nat) (wsz : Z) (mem : list Z) (raw : Z)
      (ri : RUInfo.t) (ruD ruD1 : RUDecodeData) :
  0 < wsz ->
  decodeDataWords a wsz mem raw ri ruD = Some (raw + Z.of_nat a * wsz, ruD1) ->
  decodeDataWords (a + b) wsz mem raw ri ruD
  = decodeDataWords b wsz mem (raw + Z.of_nat a * wsz) ri ruD1.
Proof.
  intros Hw. revert raw ruD. induction a as [|a IH]; intros raw ruD H.
  { cbn [decodeDataWords] in H. apply Some_eq_inv in H.
    assert (E : ruD1 = ruD) by congruence. subst ruD1.
    replace (raw + Z.of_nat 0 * wsz) with raw by lia. reflexivity. }
  assert (Hmono : forall n r d r' d', decodeDataWords n wsz mem r ri d = Some (r', d') ->
                                      r <= r' <= r + Z.of_nat n * wsz).
  { clear -Hw. induction n as [|n IHn]; intros r d r' d' Hd.
    - apply Some_eq_inv in Hd. inversion Hd; subst. lia.
    - cbn [decodeDataWords] in Hd. destruct (GBT.isDataTrailer mem r).
      + apply Some_eq_inv in Hd. inversion Hd; subst. lia.
      + destruct (inRange _ _); [|discriminate]. apply IHn in Hd. lia. }
  cbn [decodeDataWords Nat.add] in *.
  destruct (GBT.isDataTrailer mem raw).
  { apply Some_eq_inv in H. inversion H. lia. }
  destruct (inRange _ _); [|discriminate].
  replace (raw + Z.of_nat (S a) * wsz) with (raw + wsz + Z.of_nat a * wsz) in * by lia.
  apply IH. exact H.
Qed.
(** One GBT data word as the cable loop of [fillRULinks] builds it. *)
Lemma dataWord_facts (e : PayLoadCont) (wsz f : Z) :
  let nb0 := PL.getUnusedSize e in
  let nb := if 9 <? nb0 then 9 else nb0 in
  let word := <[9%nat := f]> (peek (pl_buf e) (PL.getPtr e) (Z.to_nat nb)
                              ++ replicate (Z.to_nat (wsz - nb)) 0) in
  cableReadOK e -> nb0 <> 0 -> 10 <= wsz ->
  Z.of_nat (length word) = wsz
  /\ word !! 9%nat = Some f
  /\ pad9 (consumed (PL.setPtr e (PL.getPtr e + nb))) = pad9 (consumed e) ++ take 9 word
  /\ cableReadOK (PL.setPtr e (PL.getPtr e + nb)).
Proof.
  intros nb0 nb word [Hr Hm] Hnz Hw.
  assert (Hlt : pl_ptr e < PL.getSize e).
  { subst nb0. unfold PL.getUnusedSize in Hnz.
    destruct (Z.ltb_spec (pl_ptr e) (PL.getSize e)); [assumption|contradiction]. }
  assert (Hnb0 : nb0 = PL.getSize e - pl_ptr e).
  { subst nb0. unfold PL.getUnusedSize.
    destruct (Z.ltb_spec (pl_ptr e) (PL.getSize e)); [reflexivity|lia]. }
  assert (Hnb : 1 <= nb <= 9 /\ nb <= nb0 /\ (nb < 9 -> nb = nb0)).
  { subst nb. destruct (Z.ltb_spec 9 nb0); lia. }
  destruct Hm as [Hm|Hm]; [|lia].
  unfold PL.getPtr in *. unfold PL.getSize in *.
  assert (Hchunk : peek (pl_buf e) (pl_ptr e) (Z.to_nat nb)
                   = take (Z.to_nat nb) (drop (Z.to_nat (pl_ptr e)) (pl_buf e)))
    by (apply peek_take_drop; lia).
  assert (Hlc : length (peek (pl_buf e) (pl_ptr e) (Z.to_nat nb)) = Z.to_nat nb)
    by apply length_peek.
  assert (Hlen : length word = Z.to_nat wsz).
  { subst word. rewrite length_insert, length_app, Hlc, length_replicate. lia. }
  split; [lia|]. split; [subst word; apply list_lookup_insert_eq;
                         rewrite length_app, Hlc, length_replicate; lia|].
  split.
  - subst word. rewrite take_insert by lia.
    assert (Ht9 : take 9 (peek (pl_buf e) (pl_ptr e) (Z.to_nat nb)
                          ++ replicate (Z.to_nat (wsz - nb)) 0)
                  = peek (pl_buf e) (pl_ptr e) (Z.to_nat nb)
                    ++ replicate (9 - length (peek (pl_buf e) (pl_ptr e) (Z.to_nat nb))) 0).
    { rewrite take_app, Hlc. rewrite take_ge by lia. f_equal.
      rewrite take_replicate. f_equal. lia. }
    rewrite Ht9. unfold consumed, PL.setPtr. cbn [pl_buf pl_ptr].
    replace (Z.to_nat (pl_ptr e + nb)) with (Z.to_nat (pl_ptr e) + Z.to_nat nb)%nat by lia.
    rewrite <- take_take_drop, <- Hchunk.
    apply pad9_step; [rewrite length_take; replace (Z.of_nat _) with (pl_ptr e) by lia; exact Hm
                     |rewrite Hlc; lia].
  - unfold cableReadOK, PL.setPtr, PL.getSize. cbn [pl_buf pl_ptr]. split; [lia|].
    destruct (Z.eq_dec nb 9) as [E9|N9].
    + left. rewrite E9. rewrite <- Z.add_mod_idemp_l by lia. rewrite Hm. reflexivity.
    + right. lia.
Qed.
Lemma fillCables_lanes {MAP : Mapping} (n : nat) (icab wsz maxW : Z) (ri : RUInfo.t)
      (hwid : list Z) (st st' : FillLoop) :
  fillCables n icab wsz maxW ri hwid st = Some st' ->
  lanes (fl_link st') = lanes (fl_link st).
Proof.
  revert icab st. induction n as [|n IH]; intros icab st H.
  { apply Some_eq_inv in H. subst st'. reflexivity. }
  cbn [fillCables] in H.
  destruct (negb (Z.land (lanes (fl_link st)) (Z.shiftl 1 icab) =? 0)); [|eapply IH; eassumption].
  destruct (idx (fl_cables st) icab) as [cable|]; [|discriminate].
  cbn [mbind option_bind] in H.
  destruct (PL.getUnusedSize cable =? 0); [eapply IH; eassumption|].
  destruct (idx hwid icab) as [hw|]; [|discriminate].
  cbn [mbind option_bind] in H.
  match type of H with
  | (if ?c then _ else _) = _ => destruct c
  end.
  - apply Some_eq_inv in H. subst st'. reflexivity.
  - apply IH in H. exact H.
Qed.

(** The words one pass of the cable loop writes are decoded by the word
    loop of [decodeRUData] into the cable buffers they came from. *)
Lemma fillCables_decoded {MAP : Mapping} (n : nat) (icab wsz maxW nCab : Z) (ri : RUInfo.t)
      (hwid : list Z) (st st' : FillLoop) :
  fillCables n icab wsz maxW ri hwid st = Some st' ->
  0 <= icab -> icab + Z.of_nat n <= nCab -> 10 <= wsz ->
  cableFlagsOK ri (lanes (fl_link st)) hwid nCab ->
  Forall cableReadOK (fl_cables st) ->
  Forall cableReadOK (fl_cables st')
  /\ forall (mem : list Z) (ruD : RUDecodeData) (dec0 : list PayLoadCont),
       pl_buf (data (fl_link st')) `prefix_of` mem ->
       cablesMirror (lanes (fl_link st)) (fl_cables st) dec0 (cableData ruD) ->
       exists ruD',
         decodeDataWords (Z.to_nat (fl_needed st - fl_needed st')) wsz mem
                         (PL.getSize (data (fl_link st))) ri ruD
         = Some (PL.getSize (data (fl_link st')), ruD')
         /\ cablesMirror (lanes (fl_link st)) (fl_cables st') dec0 (cableData ruD').
Proof.
  revert icab st. induction n as [|n IH]; intros icab st H H0 Hn Hw Hflags Hok.
  { apply Some_eq_inv in H. subst st'. split; [exact Hok|].
    intros mem ruD dec0 _ Hm. exists ruD. rewrite Z.sub_diag. split; [reflexivity|exact Hm]. }
  cbn [fillCables] in H.
  destruct (Z.eqb_spec (Z.land (lanes (fl_link st)) (Z.shiftl 1 icab)) 0) as [El|El];
    cbn [negb] in H; [apply (IH (icab + 1) st H); (assumption || lia)|].
  destruct (idx (fl_cables st) icab) as [cable|] eqn:Ec; [|discriminate].
  cbn [mbind option_bind] in H.
  destruct (Z.eqb_spec (PL.getUnusedSize cable) 0) as [|Hnz]; [apply (IH (icab + 1) st H); (assumption || lia)|].
  destruct (idx hwid icab) as [hw|] eqn:Eh; [|discriminate].
  cbn [mbind option_bind] in H.
  apply idx_Some in Ec. destruct Ec as [_ Ec]. apply idx_Some in Eh. destruct Eh as [_ Eh].
  set (f := trunc 8 (getGBTHeaderRUType (RUInfo.ruType ri) hw)) in *.
  assert (Hcok : cableReadOK cable) by (eapply Forall_lookup_1; eassumption).
  destruct (dataWord_facts cable wsz f Hcok Hnz Hw) as (W1 & W2 & W3 & W4).
  set (nb := if 9 <? PL.getUnusedSize cable then 9 else PL.getUnusedSize cable) in *.
  set (word := <[9%nat := f]> (peek (pl_buf cable) (PL.getPtr cable) (Z.to_nat nb)
                               ++ replicate (Z.to_nat (wsz - nb)) 0)) in *.
  match type of H with
  | (if _ then Some ?s else _) = _ => set (st1 := s) in H
  end.
  assert (Hok1 : Forall cableReadOK (fl_cables st1)).
  { subst st1. cbn [fl_cables]. apply Forall_insert; assumption. }
  destruct Hflags as [Hmax Hfl].
  destruct (Hfl (Z.to_nat icab) hw) as [Hnt Hsw]; [lia|rewrite Z2Nat.id by lia; exact El|exact Eh|].
  fold f in Hnt, Hsw. rewrite Z2Nat.id in Hsw by lia.
  (* what the decoder does with the word just written *)
  assert (Hstep : forall (mem : list Z) (ruD : RUDecodeData) (dec0 : list PayLoadCont) (k : nat),
             pl_buf (data (fl_link st1)) `prefix_of` mem ->
             cablesMirror (lanes (fl_link st)) (fl_cables st) dec0 (cableData ruD) ->
             exists ruD1,
               decodeDataWords (S k) wsz mem (PL.getSize (data (fl_link st))) ri ruD
               = decodeDataWords k wsz mem (PL.getSize (data (fl_link st1))) ri ruD1
               /\ cablesMirror (lanes (fl_link st)) (fl_cables st1) dec0 (cableData ruD1)).
  { intros mem ruD dec0 k Hpre Hm. subst st1.
    cbn [fl_link fl_cables data set_data] in *. unfold PL.add, PL.getSize in *.
    cbn [pl_buf] in *.
    assert (Hb9 : byteAt mem (Z.of_nat (length (pl_buf (data (fl_link st)))) + 9) = f).
    { rewrite (byteAt_prefix _ _ _ Hpre) by (rewrite length_app; lia).
      rewrite (byteAt_app _ word 9) by lia. rewrite W2. reflexivity. }
    assert (Hp9 : peek mem (Z.of_nat (length (pl_buf (data (fl_link st))))) 9 = take 9 word).
    { rewrite (peek_prefix _ _ _ _ Hpre) by (rewrite ?length_app; lia).
      pose proof (peek_skip (pl_buf (data (fl_link st))) word 0 9 ltac:(lia)) as Hs.
      rewrite Z.add_0_r in Hs. rewrite Hs. rewrite peek_take_drop by lia. reflexivity. }
    cbn [decodeDataWords]. unfold GBT.isDataTrailer, GBT.getCableID. rewrite Hb9.
    destruct (Z.eqb_spec f GBT.FlagDataTrailer) as [|_]; [contradiction|].
    rewrite Hsw. unfold inRange, MaxCablesPerRU in *.
    destruct (Z.leb_spec 0 icab); [|lia]. destruct (Z.ltb_spec icab 28); [|lia]. cbn [andb].
    eexists. split.
    - rewrite length_app. f_equal. lia.
    - cbn [cableData set_cableData set_cableHWID set_statistics]. rewrite Hp9.
      destruct Hm as [Hlen Hm]. split; [rewrite length_alter; exact Hlen|].
      intros j d0 Hd0. specialize (Hm j d0 Hd0).
      destruct (decide (j = Z.to_nat icab)) as [->|Hj].
      + rewrite Ec in Hm. rewrite list_lookup_insert_eq by (eapply lookup_lt_Some; exact Ec).
        rewrite Z2Nat.id in * by lia.
        destruct (Z.eqb_spec (Z.land (lanes (fl_link st)) (Z.shiftl 1 icab)) 0) as [|_];
          [contradiction|].
        rewrite list_lookup_alter_eq, Hm. cbn [fmap option_fmap option_map pl_buf pl_ptr].
        rewrite W3, app_assoc. reflexivity.
      + rewrite list_lookup_insert_ne by congruence.
        rewrite list_lookup_alter_ne by congruence. exact Hm. }
  assert (Hsz1 : fl_needed st1 = fl_needed st - 1
                 /\ lanes (fl_link st1) = lanes (fl_link st)) by (subst st1; auto).
  destruct Hsz1 as [Hn1 Hl1].
  match type of H with
  | (if ?c then _ else _) = _ => destruct c
  end.
  - apply Some_eq_inv in H. subst st'. split; [exact Hok1|].
    intros mem ruD dec0 Hpre Hm.
    destruct (Hstep mem ruD dec0 0%nat Hpre Hm) as (ruD1 & E1 & M1).
    exists ruD1. rewrite Hn1. replace (Z.to_nat (fl_needed st - (fl_needed st - 1))) with 1%nat by lia.
    split; [rewrite E1; reflexivity|exact M1].
  - pose proof (fillCables_size _ _ _ _ _ _ _ _ H ltac:(lia)) as [Hle _].
    pose proof (growsFrom_trans _ _ _ (growsFrom_refl st1) (fillCables_grows _ _ _ _ _ _ _ _ H))
      as (_ & Hpre1 & _).
    apply IH in H; try assumption; try lia; [|rewrite Hl1; split; assumption].
    destruct H as [Hok' Hdec]. split; [exact Hok'|].
    intros mem ruD dec0 Hpre Hm.
    destruct (Hstep mem ruD dec0 (Z.to_nat (fl_needed st1 - fl_needed st'))
                    ltac:(etransitivity; eassumption) Hm) as (ruD1 & E1 & M1).
    rewrite Hl1 in Hdec. destruct (Hdec mem ruD1 dec0 Hpre M1) as (ruD' & E2 & M2).
    exists ruD'. split; [|exact M2].
    replace (Z.to_nat (fl_needed st - fl_needed st'))
      with (S (Z.to_nat (fl_needed st1 - fl_needed st'))) by lia.
    rewrite E1. exact E2.
Qed.
(** The same for the whole [do ... while] loop, as long as it opens no
    new page. *)
Lemma fillPages_decoded {MAP : Mapping} (fuel : nat) (nCab wsz maxW : Z) (impose : bool)
      (ri : RUInfo.t) (hwid : list Z) (st st' : FillLoop) :
  fillPages fuel nCab wsz maxW impose ri hwid st = Some st' ->
  length (fl_pages st') = length (fl_pages st) ->
  0 <= nCab -> 10 <= wsz ->
  cableFlagsOK ri (lanes (fl_link st)) hwid nCab ->
  Forall cableReadOK (fl_cables st) ->
  Forall cableReadOK (fl_cables st')
  /\ fl_needed st' <= fl_needed st
  /\ PL.getSize (data (fl_link st'))
     = PL.getSize (data (fl_link st)) + (fl_needed st - fl_needed st') * wsz
  /\ forall (mem : list Z) (ruD : RUDecodeData) (dec0 : list PayLoadCont),
       pl_buf (data (fl_link st')) `prefix_of` mem ->
       cablesMirror (lanes (fl_link st)) (fl_cables st) dec0 (cableData ruD) ->
       exists ruD',
         decodeDataWords (Z.to_nat (fl_needed st - fl_needed st')) wsz mem
                         (PL.getSize (data (fl_link st))) ri ruD
         = Some (PL.getSize (data (fl_link st')), ruD')
         /\ cablesMirror (lanes (fl_link st)) (fl_cables st') dec0 (cableData ruD').
Proof.
  revert st. induction fuel as [|fuel IH]; intros st H Hpg Hc Hw Hflags Hok; [discriminate|].
  cbn [fillPages] in H.
  destruct (fillCables (Z.to_nat nCab) 0 wsz maxW ri hwid st) as [st1|] eqn:E1; [|discriminate].
  cbn [mbind option_bind] in H.
  destruct (fillCables_size _ _ _ _ _ _ _ _ E1 ltac:(lia)) as [Hle1 Hsz1].
  destruct (fillCables_frame _ _ _ _ _ _ _ _ E1) as (_ & Hp1 & _).
  pose proof (fillCables_lanes _ _ _ _ _ _ _ _ E1) as Hl1.
  pose proof (fillCables_grows _ _ _ _ _ _ _ _ E1) as (_ & Hpre1 & _).
  destruct (fillCables_decoded _ _ _ _ nCab _ _ _ _ E1 ltac:(lia) ltac:(lia) Hw Hflags Hok)
    as [Hok1 Hdec1].
  destruct (negb (fl_needed st1 =? 0) && (maxW <=? fl_inPacket st1)) eqn:Enew.
  { (* a new page is opened: excluded *)
    exfalso.
    apply andb_prop in Enew. destruct Enew as [Enz _].
    destruct (Z.eqb_spec (fl_needed st1) 0) as [|Hnz]; [discriminate|].
    cbn [fl_needed] in H.
    destruct (Z.eqb_spec (fl_needed st1) 0) as [|_]; [contradiction|].
    apply fillPages_grows in H. destruct H as (_ & _ & Hpp).
    cbn [fl_pages] in Hpp. apply prefix_length in Hpp.
    rewrite length_app, Hp1 in Hpp. cbn [length] in Hpp. lia. }
  destruct (Z.eqb_spec (fl_needed st1) 0) as [Ez|Enz].
  - apply Some_eq_inv in H. subst st'. repeat split; try assumption.
  - pose proof (fillPages_grows _ _ _ _ _ _ _ _ _ H) as (_ & Hpre2 & _).
    apply IH in H; try assumption; [|congruence|rewrite Hl1; assumption].
    destruct H as (Hok' & Hle2 & Hsz2 & Hdec2).
    split; [exact Hok'|]. split; [lia|]. split; [rewrite Hsz2, Hsz1; ring|].
    intros mem ruD dec0 Hpre Hm.
    destruct (Hdec1 mem ruD dec0 ltac:(etransitivity; eassumption) Hm) as (ruD1 & D1 & M1).
    rewrite Hl1 in Hdec2.
    destruct (Hdec2 mem ruD1 dec0 Hpre M1) as (ruD' & D2 & M2).
    exists ruD'. split; [|exact M2].
    replace (Z.to_nat (fl_needed st - fl_needed st'))
      with (Z.to_nat (fl_needed st - fl_needed st1) + Z.to_nat (fl_needed st1 - fl_needed st'))%nat
      by lia.
    rewrite (decodeDataWords_app _ _ _ _ _ _ _ ruD1) by
        (try lia; rewrite D1; repeat f_equal; rewrite Hsz1, Z2Nat.id by lia; reflexivity).
    rewrite Z2Nat.id by lia. rewrite <- Hsz1. exact D2.
Qed.
Lemma cableReadOK_ptr (l : list PayLoadCont) :
  Forall cableReadOK l -> Forall (fun c => 0 <= pl_ptr c) l.
Proof. intros H. eapply Forall_impl; [exact H|]. intros c [Hc _]. lia. Qed.

(** Data that fit into the page in progress open no new page. *)
Lemma fillPages_onepage {MAP : Mapping} (fuel : nat) (nCab wsz maxW : Z) (impose : bool)
      (ri : RUInfo.t) (hwid : list Z) (st st' : FillLoop) :
  fillPages fuel nCab wsz maxW impose ri hwid st = Some st' ->
  Forall (fun c => 0 <= pl_ptr c) (fl_cables st) ->
  fl_needed st = remWords (lanes (fl_link st)) (fl_cables st) 0 (Z.to_nat nCab) ->
  fl_inPacket st + fl_needed st <= maxW ->
  fl_pages st' = fl_pages st.
Proof.
  revert st. induction fuel as [|fuel IH]; intros st H Hptr Hneed Hfit; [discriminate|].
  cbn [fillPages] in H.
  destruct (fillCables (Z.to_nat nCab) 0 wsz maxW ri hwid st) as [st1|] eqn:E1; [|discriminate].
  cbn [mbind option_bind] in H.
  destruct (fillCables_pass _ _ _ _ _ _ _ _ E1 ltac:(lia) Hptr)
    as (W & HW & Hn1 & Hi1 & Hp1 & _ & Hl1 & _ & Hptr1 & _ & _ & Hr1 & _).
  pose proof (remWords_nonneg (lanes (fl_link st)) (fl_cables st1) 0 (Z.to_nat nCab)) as Hnn.
  assert (Hneed1 : fl_needed st1 = remWords (lanes (fl_link st1)) (fl_cables st1) 0 (Z.to_nat nCab))
    by (rewrite Hl1; lia).
  destruct (Z.eqb_spec (fl_needed st1) 0) as [Ez|Enz]; cbn [negb andb] in H.
  - rewrite Ez in H. cbn in H. apply Some_eq_inv in H. subst st'. exact Hp1.
  - destruct (Z.leb_spec maxW (fl_inPacket st1)) as [Hfull|_]; [lia|].
    destruct (Z.eqb_spec (fl_needed st1) 0) as [|_]; [contradiction|].
    apply IH in H; [congruence|assumption|assumption|lia].
Qed.

Lemma wordsNeeded_nonneg (n : nat) (link : RULink) (cables : list PayLoadCont) :
  (forall (i : nat) c, cables !! i = Some c ->
     Z.land (lanes link) (Z.shiftl 1 (Z.of_nat i)) <> 0 -> pl_ptr c = 0) ->
  0 <= wordsNeeded n link cables.
Proof. intros H. rewrite (wordsNeeded_remWords n link cables H). apply remWords_nonneg. Qed.

(** A cable with nothing left to write has been read to its end. *)
Lemma drained_consumed (lns : Z) (cables : list PayLoadCont) (j : nat) (e : PayLoadCont) :
  remOfCable lns cables (Z.of_nat j) = 0 ->
  Z.land lns (Z.shiftl 1 (Z.of_nat j)) <> 0 ->
  cables !! j = Some e -> cableReadOK e ->
  consumed e = pl_buf e.
Proof.
  intros Hr Hl He [Hp _]. unfold remOfCable in Hr.
  destruct (Z.eqb_spec (Z.land lns (Z.shiftl 1 (Z.of_nat j))) 0) as [|_]; [contradiction|].
  cbn [negb] in Hr. rewrite idx_lookup, Nat2Z.id, He in Hr by lia.
  change (default 0 (PL.getUnusedSize <$> Some e)) with (PL.getUnusedSize e) in Hr.
  destruct (Z.eqb_spec (PL.getUnusedSize e) 0) as [Hu|Hu].
  - unfold PL.getUnusedSize in Hu. unfold consumed. apply take_ge.
    unfold PL.getSize in *. destruct (Z.ltb_spec (pl_ptr e) (Z.of_nat (length (pl_buf e)))); lia.
  - assert (0 < PL.getUnusedSize e).
    { unfold PL.getUnusedSize in *. destruct (Z.ltb_spec (pl_ptr e) (PL.getSize e)); lia. }
    pose proof (Z.quot_pos (PL.getUnusedSize e - 1) 9 ltac:(lia) ltac:(lia)). lia.
Qed.

Lemma GBT_header_flag (wsz p l : Z) :
  10 <= wsz -> take (Z.to_nat wsz) (GBT.header p l) !! 9%nat = Some GBT.FlagDataHeader.
Proof. intros H. rewrite lookup_take_lt by lia. reflexivity. Qed.

Lemma GBT_trailer_flag (wsz s t p : Z) :
  10 <= wsz -> take (Z.to_nat wsz) (GBT.trailer s t p) !! 9%nat = Some GBT.FlagDataTrailer.
Proof. intros H. rewrite lookup_take_lt by lia. reflexivity. Qed.

Lemma GBT_trailer_state (wsz s t p : Z) :
  10 <= wsz -> take (Z.to_nat wsz) (GBT.trailer s t p) !! 8%nat = Some (trunc 8 p).
Proof. intros H. rewrite lookup_take_lt by lia. reflexivity. Qed.

(** The state [PacketDone] of the encoder's last trailer is counted. *)
Lemma incPacketState_done (s : RUDecodingStat) :
  incPacketState (trunc 8 (Z.shiftl 1 GBT.PacketDone)) s
  = Some (mkRUStat (lanesActive s) (lanesStop s) (lanesTimeOut s) (lanesWithData s) (nPackets s)
                   (errorCounts s) (alter (fun c => c + 1) 1%nat (packetStates s))).
Proof. reflexivity. Qed.

Lemma length_GBT_take (wsz : Z) (w : list Z) :
  length w = 16%nat -> 0 <= wsz <= 16 -> Z.of_nat (length (take (Z.to_nat wsz) w)) = wsz.
Proof. intros Hl H. rewrite length_take, Hl. lia. Qed.
(** X15: what [fillRULinks] writes for a link, [decodeRUData] reads back.
    Take a link whose cable data need at most 506 GBT words, so one page,
    with the cable buffers of its lanes unread, a header that passes
    [isRDHHeuristic] with its fields in range, and a mapping whose GBT flag
    of every active cable is not the trailer flag and leads back to the
    index of the cable. Then the link gets exactly one page [h], and
    [decodeRUData], started at that page on any memory that begins with
    the link buffer and in which the header found [offsetToNext] bytes
    later does not continue the trigger, does not abort, stops at
    [offsetToNext], and has appended to the slot of every active cable the
    bytes of that cable, padded with zeros to a multiple of 9; the slots of
    the other cables are unchanged. *)
Theorem fillLink_page_decoded {MAP : Mapping} (fuel : nat) (rd : RawPixelReader)
        (ri : RUInfo.t) (hwid : list Z) (il : Z) (rdh : RDH) (link : RULink)
        (cables : list PayLoadCont) (st : FillLoop) :
  let wsz := mGBTWordSize rd in
  let N := wordsNeeded (Z.to_nat (RUInfo.nCables ri)) link cables in
  let off := PL.getSize (data link) in
  fillLink fuel rd ri hwid il rdh link cables = Some st ->
  rdhStored rdh = rdh -> isRDHHeuristic rdh = true ->
  10 <= wsz <= 16 ->
  0 <= RUInfo.nCables ri ->
  cableFlagsOK ri (lanes link) hwid (RUInfo.nCables ri) ->
  Forall cableReadOK cables ->
  (forall (i : nat) c, cables !! i = Some c ->
     Z.land (lanes link) (Z.shiftl 1 (Z.of_nat i)) <> 0 -> pl_ptr c = 0) ->
  N <= maxWordsPerPage ->
  exists h,
    fl_pages st = [h]
    /\ forall (mem : list Z) (ruD : RUDecodeData) (dfuel : nat),
         pl_buf (data (fl_link st)) `prefix_of` mem ->
         ruInfo ruD = Some ri ->
         isSameRUandTrigger h (readRDH mem (off + offsetToNext h)) = false ->
         exists ruD',
           decodeRUData (S dfuel) wsz mem off ruD = Some (off + offsetToNext h, ruD', false)
           /\ length (cableData ruD') = length (cableData ruD)
           /\ forall (j : nat) e d0,
                cables !! j = Some e -> cableData ruD !! j = Some d0 ->
                Z.of_nat j < RUInfo.nCables ri ->
                cableData ruD' !! j
                = Some (if Z.land (lanes link) (Z.shiftl 1 (Z.of_nat j)) =? 0 then d0
                        else PL.add d0 (pad9 (pl_buf e))).
Proof.
  intros wsz N off H Hst Hh Hw HnC Hflags Hok Hptr HN.
  assert (Hhs : headerSize rdh = sizeofRDH).
  { unfold isRDHHeuristic in Hh.
    destruct (Z.eqb_spec (headerSize rdh) sizeofRDH); [assumption|discriminate]. }
  pose proof (wordsNeeded_nonneg (Z.to_nat (RUInfo.nCables ri)) link cables Hptr) as HN0.
  fold N in HN0.
  unfold fillLink in H. fold wsz N in H.
  set (h0 := set_feeId_link (RUSW2FEEId (RUInfo.idSW ri) il) il rdh) in H.
  set (h := set_offsetToNext _ (set_memorySize _ (set_page 0 0 h0))) in H.
  match type of H with
  | (mbind _ (fillPages _ _ _ _ _ _ _ ?s)) = _ => set (st0 := s) in H
  end.
  destruct (fillPages _ _ _ _ _ _ _ st0) as [st1|] eqn:E1; [|discriminate].
  cbn [mbind option_bind] in H. apply Some_eq_inv in H. subst st.
  cbn [fl_pages fl_link data set_data]. unfold PL.add at 1. cbn [pl_buf].
  rewrite Hhs in E1.
  change (Z.quot (MaxGBTPacketBytes - sizeofRDH) GBTPaddedWordLength - 2)
    with maxWordsPerPage in E1.
  (* the header of the page *)
  assert (Hfit : forall v n, 0 <= n -> trunc n (trunc n v) = trunc n v).
  { intros v n Hn. apply trunc_small; [exact Hn|]. apply trunc_range. exact Hn. }
  assert (Hprod : 0 <= (N + 2) * wsz <= 8128).
  { unfold maxWordsPerPage in HN.
    assert (G : forall a b, 0 <= a <= 506 -> 10 <= b <= 16 -> 0 <= (a + 2) * b <= 8128)
      by (intros a b Ha Hb; nia).
    apply G; lia. }
  assert (Hpms : pageMemorySize N wsz = sizeofRDH + (N + 2) * wsz).
  { unfold pageMemorySize, sizeofRDH, MaxGBTPacketBytes.
    rewrite trunc_small by (change (2 ^ 16) with 65536; lia).
    destruct (Z.ltb_spec (8 * 1024) (64 + (N + 2) * wsz)); [lia|reflexivity]. }
  assert (Hms : memorySize h = sizeofRDH + (N + 2) * wsz).
  { subst h. cbn [memorySize set_offsetToNext set_memorySize]. rewrite Hpms.
    apply trunc_small; [lia|]. unfold sizeofRDH. change (2 ^ 16) with 65536. lia. }
  assert (Hhsh : headerSize h = sizeofRDH) by exact Hhs.
  assert (Hpc : pageCnt h = 0) by reflexivity.
  assert (Hoff : 0 < offsetToNext h).
  { subst h. cbn [offsetToNext set_offsetToNext memorySize set_memorySize]. rewrite Hpms.
    destruct (mImposeMaxPage rd); [reflexivity|].
    rewrite Hfit by lia. rewrite trunc_small; unfold sizeofRDH; [lia|lia|].
    change (2 ^ 16) with 65536. lia. }
  assert (Hs0 : rdhStored h0 = h0).
  { subst h0. unfold rdhStored, set_feeId_link.
    cbn [version headerSize blockLength feeId priority zero0 offsetToNext memorySize linkID
         packetCounter cruID zero1 triggerOrbit heartbeatOrbit triggerBC zero41 heartbeatBC
         zero42 triggerType word5 detectorField par stop pageCnt zero6].
    f_equal; first [apply Hfit; lia | rdh_field Hst]. }
  assert (Hsh : rdhStored h = h).
  { subst h. unfold rdhStored, set_offsetToNext, set_memorySize, set_page.
    cbn [version headerSize blockLength feeId priority zero0 offsetToNext memorySize linkID
         packetCounter cruID zero1 triggerOrbit heartbeatOrbit triggerBC zero41 heartbeatBC
         zero42 triggerType word5 detectorField par stop pageCnt zero6].
    f_equal; first [apply Hfit; lia | rdh_field Hs0]. }
  assert (Hheur : isRDHHeuristic h = true) by exact Hh.
  (* the loop over the pages *)
  assert (Hneed0 : fl_needed st0
                   = remWords (lanes (fl_link st0)) (fl_cables st0) 0
                              (Z.to_nat (RUInfo.nCables ri))).
  { subst st0. cbn [fl_needed fl_link fl_cables]. unfold writePageRDH.
    cbn [lanes set_data set_nTriggers]. apply wordsNeeded_remWords. exact Hptr. }
  pose proof (cableReadOK_ptr _ Hok) as Hptr0.
  pose proof (fillPages_onepage _ _ _ _ _ _ _ _ _ E1 Hptr0 Hneed0 ltac:(subst st0; cbn; lia))
    as Hpages.
  destruct (fillPages_drain _ _ _ _ _ _ _ _ _ E1 Hptr0 Hneed0) as (Hn1 & Hrem & Hbufs & Hl1).
  destruct (fillPages_decoded _ _ _ _ _ _ _ _ _ E1 ltac:(congruence) HnC ltac:(lia) Hflags Hok)
    as (Hok1 & _ & Hsz1 & Hdec).
  pose proof (fillPages_grows _ _ _ _ _ _ _ _ _ E1) as (_ & [X HX] & _).
  exists h. split; [exact Hpages|].
  intros mem ruD dfuel [r ->] Hri Hsame.
  assert (Hbuf0 : pl_buf (data (fl_link st0))
                  = (pl_buf (data link) ++ writeRDH h)
                    ++ take (Z.to_nat wsz) (GBT.header 0 (lanes link))).
  { subst st0. cbn [fl_link data set_data]. unfold writePageRDH, PL.add.
    cbn [data set_data set_nTriggers pl_buf lanes]. rewrite Hhsh.
    rewrite (take_ge (writeRDH h)) by (rewrite length_writeRDH; reflexivity).
    reflexivity. }
  assert (Hlw : Z.of_nat (length (writeRDH h)) = sizeofRDH) by (rewrite length_writeRDH; reflexivity).
  assert (Hlh : Z.of_nat (length (take (Z.to_nat wsz) (GBT.header 0 (lanes link)))) = wsz)
    by (apply length_GBT_take; [reflexivity|lia]).
  assert (Hsz0 : PL.getSize (data (fl_link st0)) = off + sizeofRDH + wsz).
  { unfold PL.getSize. rewrite Hbuf0, !length_app. subst off. unfold PL.getSize. lia. }
  rewrite Hn1 in Hsz1. change (fl_needed st0) with N in Hsz1. rewrite Z.sub_0_r in Hsz1.
  rewrite HX in *. rewrite Hbuf0 in *.
  set (Tr := take (Z.to_nat wsz) (GBT.trailer (lanes (fl_link st1)) 0 (Z.shiftl 1 GBT.PacketDone)))
    in *.
  set (Hd := take (Z.to_nat wsz) (GBT.header 0 (lanes link))) in *.
  set (mem := ((((pl_buf (data link) ++ writeRDH h) ++ Hd) ++ X) ++ Tr) ++ r) in *.
  assert (F1 : readRDH mem off = h).
  { subst mem off. unfold PL.getSize. rewrite <- !app_assoc.
    rewrite readRDH_skip, readRDH_writeRDH. exact Hsh. }
  assert (F2 : byteAt mem (off + sizeofRDH + 9) = GBT.FlagDataHeader).
  { subst mem. rewrite <- !(app_assoc _ _ r), <- !(app_assoc _ _ (Tr ++ r)),
      <- !(app_assoc _ Hd).
    replace (off + sizeofRDH) with (Z.of_nat (length (pl_buf (data link) ++ writeRDH h)))
      by (rewrite length_app; subst off; unfold PL.getSize; lia).
    rewrite (byteAt_app _ _ 9) by (rewrite length_app; lia).
    rewrite lookup_app_l by lia. subst Hd. rewrite GBT_header_flag by lia. reflexivity. }
  assert (F3 : byteAt mem (PL.getSize (data (fl_link st1)) + 9) = GBT.FlagDataTrailer).
  { subst mem. rewrite <- !(app_assoc _ _ r). unfold PL.getSize. rewrite HX.
    assert (Hlt : Z.of_nat (length Tr) = wsz) by (apply length_GBT_take; [reflexivity|lia]).
    rewrite (byteAt_app _ _ 9) by (rewrite length_app; lia).
    rewrite lookup_app_l by lia. subst Tr. rewrite GBT_trailer_flag by lia. reflexivity. }
  assert (F4 : GBT.getPacketState mem (PL.getSize (data (fl_link st1)))
               = trunc 8 (Z.shiftl 1 GBT.PacketDone)).
  { unfold GBT.getPacketState. subst mem. rewrite <- !(app_assoc _ _ r). unfold PL.getSize.
    rewrite HX.
    assert (Hlt : Z.of_nat (length Tr) = wsz) by (apply length_GBT_take; [reflexivity|lia]).
    rewrite (byteAt_app _ _ 8) by (rewrite length_app; lia).
    rewrite lookup_app_l by lia. subst Tr. rewrite GBT_trailer_state by lia. reflexivity. }
  (* the decoder on these bytes *)
  unfold decodeRUData. rewrite F1, Hheur. cbn [negb]. rewrite Hri. cbn [mbind option_bind].
  cbn [decodeRUPages]. rewrite F1, Hhsh, Hms, Hpc.
  unfold GBT.isDataHeader. rewrite F2, Z.eqb_refl. cbn [negb].
  replace (Z.quot (sizeofRDH + (N + 2) * wsz - sizeofRDH) wsz - 2) with N
    by (replace (sizeofRDH + (N + 2) * wsz - sizeofRDH) with ((N + 2) * wsz) by lia;
        rewrite Z.quot_mul by lia; lia).
  match goal with
  | |- context [decodeDataWords _ _ _ _ _ ?d] => set (ruD0 := d)
  end.
  assert (Hl0 : lanes (fl_link st0) = lanes link) by reflexivity.
  rewrite Hl0 in Hdec, Hrem.
  destruct (Hdec mem ruD0 (cableData ruD)) as (ruD1 & D & M).
  { subst mem. rewrite <- (app_assoc _ Tr r). apply prefix_app_r. reflexivity. }
  { change (fl_cables st0) with cables. change (cableData ruD0) with (cableData ruD).
    split; [reflexivity|]. intros j d0 Hd0.
    destruct (cables !! j) as [e|] eqn:Ee; [|exact Hd0].
    destruct (Z.eqb_spec (Z.land (lanes link) (Z.shiftl 1 (Z.of_nat j))) 0) as [|Hact];
      [exact Hd0|].
    rewrite Hd0. f_equal. destruct d0 as [b p]. cbn [pl_buf pl_ptr].
    unfold consumed, pad9. rewrite (Hptr j e Ee Hact). cbn. rewrite app_nil_r. reflexivity. }
  rewrite Hn1 in D. change (fl_needed st0) with N in D. rewrite Z.sub_0_r, Hsz0 in D.
  rewrite D. cbn [mbind option_bind].
  unfold GBT.isDataTrailer. rewrite F3, Z.eqb_refl. cbn [negb].
  destruct (Z.eqb_spec (offsetToNext h) 0) as [|_]; [lia|].
  rewrite Hsame. cbn [negb]. rewrite F4, incPacketState_done. cbn [mbind option_bind].
  eexists. split; [reflexivity|]. cbn [cableData set_statistics].
  destruct M as [Mlen M]. split; [exact Mlen|].
  intros j e d0 He Hd0 Hj. specialize (M j d0 Hd0).
  assert (He1 : exists e1, fl_cables st1 !! j = Some e1 /\ pl_buf e1 = pl_buf e).
  { assert (Hf : (pl_buf <$> fl_cables st1) !! j = Some (pl_buf e))
      by (rewrite Hbufs; change (fl_cables st0) with cables; rewrite list_lookup_fmap, He;
          reflexivity).
    rewrite list_lookup_fmap in Hf. destruct (fl_cables st1 !! j) as [e1|]; [|discriminate].
    exists e1. split; [reflexivity|]. cbn in Hf. congruence. }
  destruct He1 as (e1 & He1 & Hb1). rewrite He1 in M.
  destruct (Z.eqb_spec (Z.land (lanes link) (Z.shiftl 1 (Z.of_nat j))) 0) as [|Hact];
    [exact M|].
  rewrite M. unfold PL.add. f_equal. f_equal. f_equal. rewrite <- Hb1. f_equal.
  apply (drained_consumed (lanes link) (fl_cables st1) j); [|exact Hact|exact He1|].
  - pose proof (remWords_zero _ _ _ _ Hrem j ltac:(lia)) as Hz.
    replace (0 + Z.of_nat j) with (Z.of_nat j) in Hz by lia. exact Hz.
  - eapply Forall_lookup_1; eassumption.
Qed.
Lemma fillLink_page_decoded_witness :
  exists st ruD',
    fillLink 10 readerInit (Example.ruInfoOf 0) [0; 1; 2; 3; 4; 5; 6; 7; 8] 0
             (fillRDH readerInit) (set_lanes 0x1ff linkDefault) shortCables = Some st
    /\ decodeRUData 1 16 (pl_buf (data (fl_link st))) 0
                    (set_ruInfo (Some (Example.ruInfoOf 0)) ruDefault)
       = Some (8192, ruD', false)
    /\ cableData ruD' !! 0%nat
       = Some (mkPL [1; 2; 3; 4; 5; 6; 7; 8; 9; 10; 0; 0; 0; 0; 0; 0; 0; 0] 0)
    /\ cableData ruD' !! 1%nat = Some (mkPL [11; 12; 13; 0; 0; 0; 0; 0; 0] 0).
Proof.
  let o := eval vm_compute in
      (fillLink 10 readerInit (Example.ruInfoOf 0) [0; 1; 2; 3; 4; 5; 6; 7; 8] 0
                (fillRDH readerInit) (set_lanes 0x1ff linkDefault) shortCables) in
  match o with
  | Some ?s => pose (st := s)
  end.
  assert (E : fillLink 10 readerInit (Example.ruInfoOf 0) [0; 1; 2; 3; 4; 5; 6; 7; 8] 0
                       (fillRDH readerInit) (set_lanes 0x1ff linkDefault) shortCables
              = Some st) by (vm_compute; reflexivity).
  destruct (fillLink_page_decoded 10 readerInit (Example.ruInfoOf 0) [0; 1; 2; 3; 4; 5; 6; 7; 8] 0
              (fillRDH readerInit) (set_lanes 0x1ff linkDefault) shortCables st E)
    as (h & Hp & Hdec).
  - vm_compute. reflexivity.
  - reflexivity.
  - vm_compute. split; discriminate.
  - vm_compute. discriminate.
  - split; [vm_compute; discriminate|].
    intros j hw Hj _ Hhw. change (RUInfo.nCables (Example.ruInfoOf 0)) with 9 in Hj.
    do 9 (destruct j as [|j];
          [apply Some_eq_inv in Hhw; subst hw; vm_compute; split; [discriminate|reflexivity]|]).
    lia.
  - unfold shortCables.
    repeat (apply Forall_cons; split; [split; [vm_compute; split; discriminate|left; reflexivity]|]).
    apply Forall_nil. exact I.
  - intros i c Hc _.
    do 9 (destruct i as [|i]; [apply Some_eq_inv in Hc; subst c; reflexivity|]).
    discriminate.
  - vm_compute. discriminate.
  - apply (f_equal head) in Hp. vm_compute in Hp. apply Some_eq_inv in Hp. subst h.
    destruct (Hdec (pl_buf (data (fl_link st)))
                   (set_ruInfo (Some (Example.ruInfoOf 0)) ruDefault) 0%nat)
      as (ruD' & D & _ & Hc).
    + reflexivity.
    + reflexivity.
    + vm_compute. reflexivity.
    + exists st, ruD'. split; [exact E|]. split; [exact D|].
      split; [exact (Hc 0%nat _ _ eq_refl eq_refl eq_refl)
             |exact (Hc 1%nat _ _ eq_refl eq_refl eq_refl)].
Defined.

(** ** digits2raw on a reader without containers *)

(** Placing the digits changes chips, never the [ruInfo] of a container. *)
Lemma insert_same_ruInfo (vec : list RUDecodeData) (k : nat) (c c' : RUDecodeData) :
  vec !! k = Some c -> ruInfo c' = ruInfo c ->
  ruInfo <$> <[k := c']> vec = ruInfo <$> vec.
Proof.
  intros Hk Hc. rewrite list_fmap_insert, Hc. apply list_insert_id.
  rewrite list_lookup_fmap, Hk. reflexivity.
Qed.

Lemma placeDigits_ruInfo {MAP : Mapping} (digs : list Digit) (ruSWMin ruSWMax : Z)
      (st st' : PlaceLoop) :
  placeDigits digs ruSWMin ruSWMax st = Some st' ->
  ruInfo <$> mRUDecodeVec (pl_rd st') = ruInfo <$> mRUDecodeVec (pl_rd st).
Proof.
  revert st. induction digs as [|dig digs IH]; intros st H.
  { apply Some_eq_inv in H. subst st'. reflexivity. }
  cbn [placeDigits] in H.
  assert (Hadd : forall st1,
             ('(r, k) ← curChipData st1;
              ruD ← idx (mRUDecodeVec (pl_rd st1)) r;
              chip ← idx (chipsData ruD) k;
              let ruD := set_chipsData
                           (<[Z.to_nat k := chip_addPixel (mkPix (d_row dig) (d_col dig)) chip]>
                              (chipsData ruD)) ruD in
              placeDigits digs ruSWMin ruSWMax
                (mkPlace (set_mRUDecodeVec (<[Z.to_nat r := ruD]> (mRUDecodeVec (pl_rd st1)))
                                           (pl_rd st1))
                         (curChipID st1) (curChipData st1))) = Some st' ->
             ruInfo <$> mRUDecodeVec (pl_rd st') = ruInfo <$> mRUDecodeVec (pl_rd st1)).
  { intros st1 H1. destruct (curChipData st1) as [[r k]|]; [|discriminate].
    cbn [mbind option_bind] in H1.
    destruct (idx (mRUDecodeVec (pl_rd st1)) r) as [ruD|] eqn:Er; [|discriminate].
    cbn [mbind option_bind] in H1.
    destruct (idx (chipsData ruD) k) as [chip|]; [|discriminate].
    cbn [mbind option_bind] in H1. apply IH in H1. rewrite H1. cbn [pl_rd mRUDecodeVec set_mRUDecodeVec].
    apply idx_Some in Er. destruct Er as [_ Er].
    apply (insert_same_ruInfo _ _ ruD); [exact Er|reflexivity]. }
  destruct (negb (curChipID st =? chipIndex dig)).
  - destruct ((ru (getChipInfoSW (chipIndex dig)) <? ruSWMin)
              || (ruSWMax <? ru (getChipInfoSW (chipIndex dig)))).
    + cbn [mbind option_bind] in H. apply IH in H. exact H.
    + cbn [mRUDecodeVec set_mCurRUDecodeID] in H.
      destruct (idx (mRUDecodeVec (pl_rd st)) (ru (getChipInfoSW (chipIndex dig))))
        as [cur|] eqn:Ec; [|discriminate].
      cbn [mbind option_bind] in H.
      destruct (idx (chipsData cur) (nChipsFired cur)) as [chip|]; [|discriminate].
      cbn [mbind option_bind] in H. apply Hadd in H. rewrite H.
      cbn [pl_rd mRUDecodeVec set_mRUDecodeVec set_mCurRUDecodeID].
      apply idx_Some in Ec. destruct Ec as [_ Ec].
      apply (insert_same_ruInfo _ _ cur); [exact Ec|reflexivity].
  - cbn [mbind option_bind] in H. apply Hadd in H. exact H.
Qed.

(** The conversion loop stops at a container without [ruInfo]. *)
Lemma convertRUs_unbooked {MAP : Mapping} {CODER : Coder} (fuel n : nat) (rd : RawPixelReader)
      (mp : Z) (pg : list (Z * list (Z * list RDH))) (r : Z) :
  0 <= mCurRUDecodeID rd ->
  mCurRUDecodeID rd <= r < mCurRUDecodeID rd + Z.of_nat n ->
  (forall c, mRUDecodeVec rd !! Z.to_nat r = Some c -> ruInfo c = None) ->
  convertRUs fuel n rd mp pg = None.
Proof.
  revert rd mp pg. induction n as [|n IH]; intros rd mp pg H0 Hr Hnone; [lia|].
  cbn [convertRUs].
  destruct (idx (mRUDecodeVec rd) (mCurRUDecodeID rd)) as [ruD|] eqn:Eru; [|reflexivity].
  cbn [mbind option_bind].
  destruct (ruInfo ruD) as [ri|] eqn:Eri; [|reflexivity]. cbn [mbind option_bind].
  destruct (convertFired _ _ _ _ _) as [[n2p ruD1]|]; [|reflexivity].
  cbn [mbind option_bind].
  destruct (convertEmptyChips _ _ _ _) as [ruD2|]; [|reflexivity].
  cbn [mbind option_bind].
  destruct (fillRULinks _ _) as [[[mpr rd1] pg1]|] eqn:Ef; [|reflexivity].
  cbn [mbind option_bind].
  apply fillRULinks_post in Ef. cbn in Ef. destruct Ef as (_ & Ecur & _ & Efr & _).
  apply idx_Some in Eru. destruct Eru as [_ Eru].
  assert (Hne : r <> mCurRUDecodeID rd).
  { intros ->. specialize (Hnone ruD Eru). congruence. }
  apply IH; cbn [mCurRUDecodeID set_mCurRUDecodeID]; rewrite ?Ecur; try lia.
  intros c Hc. cbn [mRUDecodeVec set_mCurRUDecodeID] in Hc.
  rewrite Efr in Hc by lia. rewrite list_lookup_insert_ne in Hc by lia.
  apply Hnone. exact Hc.
Qed.

(** Booking RUs that have no container yet fills the slots in order. *)
Lemma bookRUs_unbooked {MAP : Mapping} (n : nat) (ruSW : Z) (rd rd' : RawPixelReader) :
  bookRUs n ruSW rd = Some rd' ->
  0 <= ruSW -> 0 <= mNRUs rd ->
  (forall (j : nat) c, mRUDecodeVec rd !! j = Some c -> mNRUs rd <= Z.of_nat j ->
                       ruInfo c = None) ->
  (forall u e, ruSW <= u -> idx (mRUEntry rd) u = Some e -> e < 0) ->
  mNRUs rd' = mNRUs rd + Z.of_nat n
  /\ forall (j : nat) c, mRUDecodeVec rd' !! j = Some c -> mNRUs rd' <= Z.of_nat j ->
                         ruInfo c = None.
Proof.
  revert ruSW rd. induction n as [|n IH]; intros ruSW rd H H0 Hn Hvec Hent.
  { apply Some_eq_inv in H. subst rd'. split; [lia|exact Hvec]. }
  cbn [bookRUs] in H. unfold getCreateRUDecode in H.
  destruct (idx (mRUEntry rd) ruSW) as [e|] eqn:Ee; [|discriminate].
  cbn [mbind option_bind] in H.
  pose proof (Hent ruSW e ltac:(lia) Ee) as He.
  destruct (Z.ltb_spec e 0); [|lia].
  destruct (idx (mRUDecodeVec rd) (mNRUs rd)) as [ruD|] eqn:Es; [|discriminate].
  cbn [mbind option_bind] in H.
  match type of H with
  | context [idx (mRUDecodeVec ?r) (mNRUs rd)] => set (rd1 := r) in H
  end.
  apply idx_Some in Es. destruct Es as [_ Es].
  assert (Es1 : idx (mRUDecodeVec rd1) (mNRUs rd)
                = Some (set_ruInfo (Some (getRUInfoSW ruSW)) ruD)).
  { subst rd1. cbn [mRUDecodeVec set_mRUDecodeVec set_mNRUs set_mRUEntry].
    rewrite idx_lookup by lia. apply list_lookup_insert_eq. eapply lookup_lt_Some. exact Es. }
  rewrite Es1 in H. cbn [mbind option_bind ruInfo set_ruInfo] in H.
  apply IH in H; try lia.
  - destruct H as [Hn' Hv']. split; [|exact Hv'].
    rewrite Hn'. destruct (_ =? 0); subst rd1; cbn; lia.
  - destruct (_ =? 0); subst rd1; cbn; lia.
  - intros j c Hj Hge.
    assert (Hj1 : mRUDecodeVec rd !! j = Some c /\ mNRUs rd + 1 <= Z.of_nat j).
    { destruct (_ =? 0); subst rd1;
        cbn [mRUDecodeVec mNRUs set_mRUDecodeVec set_mNRUs set_mRUEntry set_mNLinks] in *;
        (split; [|lia]); rewrite ?list_lookup_insert_ne in Hj by lia; exact Hj. }
    destruct Hj1 as [Hj1 Hge1]. apply (Hvec j c Hj1). lia.
  - intros u e' Hu He'. apply (Hent u e'); [lia|].
    destruct (_ =? 0); subst rd1;
      cbn [mRUEntry set_mRUEntry set_mNRUs set_mRUDecodeVec set_mNLinks] in He';
      apply idx_Some in He'; destruct He' as [Hu0 He'];
      rewrite list_lookup_insert_ne in He' by lia; rewrite idx_lookup by lia; exact He'.
Qed.

(** X16: [digits2raw] looks its containers up by the software id of the
    RU, but books them only when the reader has fewer containers than
    [ruSWMax - ruSWMin], and then in slots counted from 0. On a reader that
    has no container yet a call for a non-empty range of RUs therefore
    returns only if the range starts at RU 0 and has at least two RUs; in
    every other case it reaches a container whose [ruInfo] is null. *)
Theorem digits2raw_fresh_reader {MAP : Mapping} {CODER : Coder} (fuel : nat)
        (digs : list Digit) (bcData : InteractionRecord) (ruSWMin ruSWMax : Z)
        (r : Z * RawPixelReader * list (Z * list (Z * list RDH))) :
  digits2raw fuel digs bcData ruSWMin ruSWMax readerInit = Some r ->
  0 <= ruSWMin <= clipRUMax ruSWMax ->
  ruSWMin = 0 /\ 1 <= clipRUMax ruSWMax.
Proof.
  intros H [H0 Hle].
  destruct (Z.eq_dec ruSWMin 0) as [Hz|Hnz];
    [destruct (Z.le_gt_cases 1 (clipRUMax ruSWMax)) as [|Hone]; [split; assumption|]|].
  all: exfalso.
  all: unfold digits2raw in H; fold (clipRUMax ruSWMax) in H.
  all: set (M := clipRUMax ruSWMax) in *.
  all: set (rd0 := set_mInteractionRecord bcData readerInit) in H.
  all: assert (Hvec0 : forall (j : nat) c, mRUDecodeVec rd0 !! j = Some c -> ruInfo c = None)
    by (intros j c Hj; subst rd0; cbn [mRUDecodeVec set_mInteractionRecord readerInit] in Hj;
        apply lookup_replicate in Hj; destruct Hj as [-> _]; reflexivity).
  all: assert (Hent0 : forall u e, ruSWMin <= u -> idx (mRUEntry rd0) u = Some e -> e < 0)
    by (intros u e _ He; subst rd0; cbn [mRUEntry set_mInteractionRecord readerInit] in He;
        apply idx_Some in He; destruct He as [_ He]; apply lookup_replicate in He;
        destruct He as [-> _]; reflexivity).
  all: assert (Hbook : forall rdb,
            (if mNRUs rd0 <? M - ruSWMin
             then bookRUs (Z.to_nat (M - ruSWMin + 1)) ruSWMin rd0 else Some rd0) = Some rdb ->
            forall c, mRUDecodeVec rdb !! Z.to_nat M = Some c -> ruInfo c = None).
  { (* a single RU from 0: nothing is booked *)
    intros rdb Hb c Hc. change (mNRUs rd0) with 0 in Hb.
    destruct (Z.ltb_spec 0 (M - ruSWMin)) as [Hlt|Hge]; [lia|].
    apply Some_eq_inv in Hb. subst rdb. exact (Hvec0 _ _ Hc). }
  2: { (* a range from RU [ruSWMin > 0]: its last RU has no container *)
    intros rdb Hb c Hc. change (mNRUs rd0) with 0 in Hb.
    destruct (Z.ltb_spec 0 (M - ruSWMin)) as [Hlt|Hge].
    - apply bookRUs_unbooked in Hb; [|lia|change (mNRUs rd0) with 0; lia| |exact Hent0].
      + destruct Hb as [Hn Hv]. apply (Hv _ _ Hc). rewrite Hn. change (mNRUs rd0) with 0. lia.
      + intros j c' Hj _. exact (Hvec0 _ _ Hj).
    - apply Some_eq_inv in Hb. subst rdb. exact (Hvec0 _ _ Hc). }
  all: destruct (if mNRUs rd0 <? M - ruSWMin then _ else _) as [rdb|] eqn:Eb; [|discriminate].
  all: cbn [mbind option_bind] in H.
  all: destruct (placeDigits digs ruSWMin M _) as [st|] eqn:Ep; [|discriminate].
  all: cbn [mbind option_bind] in H.
  all: apply placeDigits_ruInfo in Ep; cbn [pl_rd] in Ep.
  all: rewrite (convertRUs_unbooked _ _ _ _ _ M) in H; [discriminate| | |].
  all: cbn [mCurRUDecodeID mRUDecodeVec set_mCurRUDecodeID]; try lia.
  all: intros c Hc.
  all: assert (Hf : (ruInfo <$> mRUDecodeVec rdb) !! Z.to_nat M = Some (ruInfo c))
      by (rewrite <- Ep, list_lookup_fmap, Hc; reflexivity).
  all: rewrite list_lookup_fmap in Hf.
  all: destruct (mRUDecodeVec rdb !! Z.to_nat M) as [c1|] eqn:E1; [|discriminate].
  all: apply Some_eq_inv in Hf; rewrite <- Hf; exact (Hbook rdb eq_refl c1 E1).
Qed.

Lemma digits2raw_fresh_reader_witness :
  exists r,
    digits2raw 100 [mkDigit 3 5 7; mkDigit 3 1 600; mkDigit 12 300 2] (mkIR 100 42) 0 0xff
               readerInit = Some r
    /\ 0 <= 0 <= clipRUMax 0xff
    /\ (0 = 0 /\ 1 <= clipRUMax 0xff).
Proof.
  destruct (digits2raw 100 [mkDigit 3 5 7; mkDigit 3 1 600; mkDigit 12 300 2] (mkIR 100 42)
                       0 0xff readerInit) as [r|] eqn:E.
  - exists r. split; [reflexivity|].
    assert (Hr : 0 <= 0 <= clipRUMax 0xff) by (vm_compute; split; discriminate).
    split; [exact Hr|].
    exact (digits2raw_fresh_reader _ _ _ _ _ _ E Hr).
  - exfalso. vm_compute in E. discriminate E.
Defined.

(** ** Chips registered by decodeAlpideData *)

Lemma hitsOf_app (a b : list ChipPixelData) : hitsOf (a ++ b) = hitsOf a + hitsOf b.
Proof. induction a as [|c a IH]; cbn; [reflexivity|]. unfold hitsOf in *. rewrite IH. lia. Qed.

Lemma alpideFrame_refl (st : AlpideLoop) : alpideFrame st st.
Proof. unfold alpideFrame. repeat split; lia. Qed.

Lemma alpideFrame_trans (a b c : AlpideLoop) :
  alpideFrame a b -> alpideFrame b c -> alpideFrame a c.
Proof.
  unfold alpideFrame.
  intros (A1 & A2 & A3 & A4 & A5 & A6 & A7 & A8 & A9 & A10)
         (B1 & B2 & B3 & B4 & B5 & B6 & B7 & B8 & B9 & B10).
  repeat split; try lia; congruence.
Qed.

Lemma alpideChips_refl (ir : InteractionRecord) (trig : Z) (st : AlpideLoop) :
  al_cur st = nChipsFired (al_ru st) -> alpideChips ir trig st st.
Proof.
  intros Hcur. split; [exact Hcur|]. exists []. rewrite app_nil_r.
  repeat split; [constructor|cbn; lia].
Qed.

Lemma alpideChips_trans (ir : InteractionRecord) (trig : Z) (a b c : AlpideLoop) :
  alpideChips ir trig a b -> alpideChips ir trig b c -> alpideChips ir trig a c.
Proof.
  intros (_ & n1 & T1 & F1 & H1) (C2 & n2 & T2 & F2 & H2).
  split; [exact C2|]. exists (n1 ++ n2).
  split; [rewrite T2, T1, app_assoc; reflexivity|].
  split; [apply Forall_app; split; assumption|].
  rewrite H2, H1, hitsOf_app. lia.
Qed.

Lemma decodeCable_frame {MAP : Mapping} {CODER : Coder} (fuel : nat) (ir : InteractionRecord)
      (trig : Z) (ri : RUInfo.t) (icab : Z) (st st' : AlpideLoop) :
  decodeCable fuel ir trig ri icab st = Some st' -> alpideFrame st st'.
Proof.
  revert st. induction fuel as [|fuel IH]; intros st H; [discriminate|].
  cbn [decodeCable] in H.
  destruct (idx (cableData (al_ru st)) icab) as [cable|]; [|discriminate].
  cbn [mbind option_bind] in H.
  destruct (idx (chipsData (al_ru st)) (al_cur st)) as [chip|]; [|discriminate].
  cbn [mbind option_bind] in H.
  destruct (decodeChip chip cable) as [[res chip'] cable'].
  destruct (Z.eqb_spec res 0) as [Hz|Hnz].
  { apply Some_eq_inv in H. subst st'. unfold alpideFrame. cbn. rewrite length_insert.
    repeat split; lia. }
  destruct (Z.ltb_spec 0 res) as [Hpos|Hneg].
  2: { apply IH in H. unfold alpideFrame in *. cbn in H. rewrite length_insert in H. exact H. }
  destruct (idx (cableHWID _) icab) as [hw|]; [|discriminate].
  cbn [mbind option_bind] in H.
  match type of H with
  | (if _ then decodeCable _ _ _ _ _ ?s else _) = _ => set (st1 := s) in H
  end.
  assert (Fr1 : alpideFrame st st1).
  { subst st1. unfold alpideFrame.
    cbn [al_ru al_stat al_ntot al_cur nChipsFired chipsData links cableHWID lastChipChecked
         nCables ruInfo set_nChipsFired set_statistics set_chipsData set_cableData
         nNonEmptyChips nHitsDecoded set_nHitsDecoded set_nNonEmptyChips].
    rewrite length_insert. repeat split; try lia; reflexivity. }
  destruct (_ <? MaxChipsPerRU).
  - apply IH in H. exact (alpideFrame_trans _ _ _ Fr1 H).
  - apply Some_eq_inv in H. subst st'. unfold alpideFrame in *. cbn in *. exact Fr1.
Qed.

Lemma decodeCables_frame {MAP : Mapping} {CODER : Coder} (fuel : nat) (ir : InteractionRecord)
      (trig : Z) (ri : RUInfo.t) (n : nat) (icab : Z) (st st' : AlpideLoop) :
  decodeCables fuel ir trig ri n icab st = Some st' -> alpideFrame st st'.
Proof.
  revert icab st. induction n as [|n IH]; intros icab st H.
  { apply Some_eq_inv in H. subst st'. apply alpideFrame_refl. }
  cbn [decodeCables] in H.
  destruct (idx (cableData (al_ru st)) icab) as [cable|]; [|discriminate].
  cbn [mbind option_bind] in H.
  destruct (decodeCable _ _ _ _ _ _) as [st1|] eqn:E1; [|discriminate].
  cbn [mbind option_bind] in H.
  apply decodeCable_frame in E1. apply IH in H.
  apply (alpideFrame_trans _ st1); [|exact H].
  unfold alpideFrame in *. cbn in E1. exact E1.
Qed.

Lemma decodeCable_chips {MAP : Mapping} {CODER : Coder} (fuel : nat) (ir : InteractionRecord)
      (trig : Z) (ri : RUInfo.t) (icab : Z) (st st' : AlpideLoop) :
  decodeCable fuel ir trig ri icab st = Some st' ->
  al_cur st = nChipsFired (al_ru st) -> 0 <= al_cur st ->
  nChipsFired (al_ru st') < MaxChipsPerRU -> alpideChips ir trig st st'.
Proof.
  revert st. induction fuel as [|fuel IH]; intros st H Hcur H0 Hmax; [discriminate|].
  cbn [decodeCable] in H.
  destruct (idx (cableData (al_ru st)) icab) as [cable|]; [|discriminate].
  cbn [mbind option_bind] in H.
  destruct (idx (chipsData (al_ru st)) (al_cur st)) as [chip|] eqn:Ech; [|discriminate].
  cbn [mbind option_bind] in H.
  apply idx_Some in Ech. destruct Ech as [_ Ech].
  pose proof (lookup_lt_Some _ _ _ Ech) as Hlt.
  destruct (decodeChip chip cable) as [[res chip'] cable'].
  (* a chip written to the free slot without being registered *)
  assert (Hfree : forall c0 stx,
             alpideChips ir trig
               (mkAL (set_chipsData (<[Z.to_nat (al_cur st) := c0]>
                        (chipsData (set_cableData (<[Z.to_nat icab := cable']>
                                                     (cableData (al_ru st))) (al_ru st))))
                        (set_cableData (<[Z.to_nat icab := cable']> (cableData (al_ru st)))
                                       (al_ru st)))
                     (al_cur st) (al_stat st) (al_ntot st) (al_origin st)) stx ->
             alpideChips ir trig st stx).
  { intros c0 stx (C1 & new & T & F & Hh). split; [exact C1|].
    exists new. cbn in T, Hh. rewrite take_insert_ge in T by lia.
    split; [exact T|]. split; [exact F|exact Hh]. }
  destruct (Z.eqb_spec res 0) as [Hz|Hnz].
  { apply Some_eq_inv in H. subst st'. apply (Hfree chip').
    apply alpideChips_refl. cbn. exact Hcur. }
  destruct (Z.ltb_spec 0 res) as [Hpos|Hneg].
  2: { apply IH in H; [|exact Hcur|exact H0|exact Hmax]. apply (Hfree chip'). exact H. }
  destruct (idx (cableHWID _) icab) as [hw|]; [|discriminate].
  cbn [mbind option_bind] in H.
  match type of H with
  | (if _ then decodeCable _ _ _ _ _ ?s else _) = _ => set (st1 := s) in H
  end.
  set (chipS := chip_setTrigger trig (chip_setIR ir (chip_setID _ chip'))) in *.
  assert (Hstep : alpideChips ir trig st st1).
  { split; [reflexivity|]. exists [chipS]. subst st1.
    cbn [al_ru al_stat al_ntot al_cur nChipsFired chipsData links cableHWID lastChipChecked
         nCables ruInfo set_nChipsFired set_statistics set_chipsData set_cableData
         nNonEmptyChips nHitsDecoded set_nHitsDecoded set_nNonEmptyChips].
    split; [|split; [repeat constructor|unfold hitsOf; cbn [foldr]; lia]].
    rewrite <- Hcur.
    replace (Z.to_nat (al_cur st + 1)) with (S (Z.to_nat (al_cur st))) by lia.
    rewrite (take_S_r _ _ chipS) by (apply list_lookup_insert_eq; exact Hlt).
    rewrite take_insert_ge by lia. reflexivity. }
  destruct (Z.ltb_spec (nChipsFired (set_cableData (<[Z.to_nat icab := cable']>
                          (cableData (al_ru st))) (al_ru st)) + 1) MaxChipsPerRU) as [Hroom|Hfull].
  - apply IH in H; [|reflexivity|subst st1; cbn; cbn in Hcur; lia|exact Hmax].
    exact (alpideChips_trans _ _ _ _ _ Hstep H).
  - apply Some_eq_inv in H. subst st'. exfalso. cbn in Hmax, Hfull. lia.
Qed.

Lemma decodeCables_chips {MAP : Mapping} {CODER : Coder} (fuel : nat) (ir : InteractionRecord)
      (trig : Z) (ri : RUInfo.t) (n : nat) (icab : Z) (st st' : AlpideLoop) :
  decodeCables fuel ir trig ri n icab st = Some st' ->
  al_cur st = nChipsFired (al_ru st) -> 0 <= al_cur st ->
  nChipsFired (al_ru st') < MaxChipsPerRU -> alpideChips ir trig st st'.
Proof.
  revert icab st. induction n as [|n IH]; intros icab st H Hcur H0 Hmax.
  { apply Some_eq_inv in H. subst st'. apply alpideChips_refl. exact Hcur. }
  cbn [decodeCables] in H.
  destruct (idx (cableData (al_ru st)) icab) as [cable|]; [|discriminate].
  cbn [mbind option_bind] in H.
  match type of H with
  | context [decodeCable ?f ?a ?b ?c ?d ?s] =>
    set (st0 := s) in H; destruct (decodeCable f a b c d st0) as [st1|] eqn:E1; [|discriminate]
  end.
  cbn [mbind option_bind] in H.
  pose proof (decodeCables_frame _ _ _ _ _ _ _ _ H) as (Hm & _).
  pose proof (decodeCable_frame _ _ _ _ _ _ _ E1) as (Hm1 & _).
  apply decodeCable_chips in E1; [|exact Hcur|exact H0|lia].
  destruct E1 as (C1 & new & T & F & Hh).
  apply IH in H; [|exact C1|cbn in Hm1; lia|exact Hmax].
  apply (alpideChips_trans _ _ _ st1); [|exact H].
  split; [exact C1|]. exists new. split; [exact T|]. split; [exact F|exact Hh].
Qed.

(** X17: what [decodeAlpideData] registers. It starts the chip counters of
    the container at 0; afterwards the global [nNonEmptyChips] has grown by
    exactly [nChipsFired], the returned byte count is at least
    [nChipsFired], and the links, the cable HW ids, [nCables], [ruInfo] and
    the size of [chipsData] are as before. As long as fewer than
    [MaxChipsPerRU] chips were registered, every chip that
    [getNextChipData] will hand out carries the interaction record and the
    trigger of the reader, and [nHitsDecoded] has grown by exactly the
    number of hits of these chips. *)
Theorem decodeAlpideData_registered {MAP : Mapping} {CODER : Coder} (fuel : nat)
        (ir : InteractionRecord) (trig : Z) (stat stat' : RawDecodingStat)
        (decData ruD' : RUDecodeData) (ntot : Z) :
  decodeAlpideData fuel ir trig stat decData = Some (ruD', stat', ntot) ->
  lastChipChecked ruD' = 0
  /\ 0 <= nChipsFired ruD' <= ntot
  /\ nNonEmptyChips stat' = nNonEmptyChips stat + nChipsFired ruD'
  /\ nHitsDecoded stat <= nHitsDecoded stat'
  /\ length (chipsData ruD') = length (chipsData decData)
  /\ links ruD' = links decData /\ cableHWID ruD' = cableHWID decData
  /\ nCables ruD' = nCables decData /\ ruInfo ruD' = ruInfo decData
  /\ (nChipsFired ruD' < MaxChipsPerRU ->
      Forall (stamped ir trig) (firedChips ruD')
      /\ nHitsDecoded stat' = nHitsDecoded stat + hitsOf (firedChips ruD')).
Proof.
  intros H. unfold decodeAlpideData in H.
  destruct (ruInfo decData) as [ri|] eqn:Eri; [|discriminate]. cbn [mbind option_bind] in H.
  destruct (decodeCables _ _ _ _ _ _ _) as [st|] eqn:E; [|discriminate].
  cbn [mbind option_bind] in H. apply Some_eq_inv in H.
  assert (Hr : ruD' = al_ru st) by congruence.
  assert (Hs : stat' = al_stat st) by congruence.
  assert (Ht : ntot = al_ntot st) by congruence.
  subst ruD' stat' ntot. clear H.
  pose proof (decodeCables_frame _ _ _ _ _ _ _ _ E) as Fr.
  unfold alpideFrame in Fr. cbn in Fr.
  destruct Fr as (F1 & F2 & F3 & F4 & F5 & F6 & F7 & F8 & F9 & F10).
  split; [exact F8|]. split; [lia|]. split; [lia|]. split; [exact F4|].
  split; [exact F5|]. split; [exact F6|]. split; [exact F7|]. split; [exact F9|].
  split; [congruence|].
  intros Hmax. apply decodeCables_chips in E; [|reflexivity|cbn; lia|exact Hmax].
  destruct E as (_ & new & T & Fs & Hh). cbn in T, Hh.
  unfold firedChips. rewrite F8, Z.sub_0_r. change (Z.to_nat 0) with 0%nat.
  rewrite drop_0, T.
  split; [exact Fs|exact Hh].
Qed.

Lemma decodeAlpideData_registered_witness :
  exists ruD' stat' ntot,
    decodeAlpideData 10 (mkIR 100 42) 16 (mkRawStat 0 0 0 0 0) ruOneHit
    = Some (ruD', stat', ntot)
    /\ nChipsFired ruD' = 1
    /\ nNonEmptyChips stat' = 0 + nChipsFired ruD'
    /\ Forall (stamped (mkIR 100 42) 16) (firedChips ruD')
    /\ nHitsDecoded stat' = 0 + hitsOf (firedChips ruD').
Proof.
  destruct (decodeAlpideData 10 (mkIR 100 42) 16 (mkRawStat 0 0 0 0 0) ruOneHit)
    as [[[ruD' stat'] ntot]|] eqn:E; [|vm_compute in E; discriminate E].
  exists ruD', stat', ntot. split; [reflexivity|].
  assert (H1 : nChipsFired ruD' = 1).
  { vm_compute in E. apply Some_eq_inv in E.
    apply (f_equal (fun x => nChipsFired (fst (fst x)))) in E. cbn in E. symmetry. exact E. }
  split; [exact H1|].
  destruct (decodeAlpideData_registered _ _ _ _ _ _ _ _ E)
    as (_ & _ & H3 & _ & _ & _ & _ & _ & _ & H10).
  split; [exact H3|]. apply H10. rewrite H1. reflexivity.
Defined.

(** ** getNextChipData at the end of the data *)

Lemma nextFiredChip_none (n : nat) (out : ChipPixelData) (rd : RawPixelReader) :
  readerCountersOK rd ->
  n = Z.to_nat (mNRUs rd - mCurRUDecodeID rd) ->
  pendingChips rd = [] ->
  nextFiredChip n out rd
  = Some (inr (set_mCurRUDecodeID (mCurRUDecodeID rd + Z.of_nat n) rd)).
Proof.
  revert rd. induction n as [|n IH]; intros rd (H0 & HN & Hall) Hn Hp.
  - cbn [nextFiredChip]. replace (mCurRUDecodeID rd + Z.of_nat 0) with (mCurRUDecodeID rd) by lia.
    destruct rd; reflexivity.
  - assert (Hlt : mCurRUDecodeID rd < mNRUs rd) by lia.
    destruct (lookup_lt_is_Some_2 (mRUDecodeVec rd) (Z.to_nat (mCurRUDecodeID rd)))
      as [ruD Hru]; [lia|].
    cbn [nextFiredChip]. rewrite idx_lookup by assumption. rewrite Hru. cbn [mbind option_bind].
    rewrite (pendingChips_step rd ruD H0 Hlt Hru) in Hp.
    apply app_eq_nil in Hp. destruct Hp as [Hf Hp].
    assert (Hok : ruCountersOK ruD) by (eapply Forall_lookup_1; eassumption).
    destruct (Z.ltb_spec (lastChipChecked ruD) (nChipsFired ruD)) as [Hlast|Hlast].
    + exfalso. destruct (firedChips_cons ruD Hok Hlast) as (c0 & _ & Hfc).
      rewrite (Hfc out) in Hf. discriminate.
    + rewrite IH; [|split; [cbn; lia|split; assumption]|cbn; lia|exact Hp].
      cbn [mCurRUDecodeID set_mCurRUDecodeID].
      replace (mCurRUDecodeID rd + Z.of_nat (S n)) with (mCurRUDecodeID rd + 1 + Z.of_nat n)
        by lia.
      reflexivity.
Qed.

(** X18: [getNextChipData] at the end of the data. When no decoded chip is
    pending (or [mCurRUDecodeID] is negative), the raw buffer is used up,
    no trigger is cached and there is no input file to read from, the call
    returns false and leaves the chip of the caller as it is;
    [mCurRUDecodeID] becomes -1, the raw buffer is still used up, and no
    other field of the reader changes; the next call on the reader it
    leaves does the same and changes nothing. (What is left in the used-up
    buffer is not stated: the first [loadInput] of a stream that was never
    opened compacts it.) *)
Theorem getNextChipData_end_of_data {MAP : Mapping} {CODER : Coder} (fuel : nat)
        (out : ChipPixelData) (rd : RawPixelReader) :
  mCurRUDecodeID rd < 0 \/ (readerCountersOK rd /\ pendingChips rd = []) ->
  PL.isEmpty (mRawBuffer rd) = true ->
  mMinTriggersCached rd < 1 ->
  exists rd',
    getNextChipData (S fuel) out rd = Some (false, out, rd')
    /\ mCurRUDecodeID rd' = -1
    /\ PL.isEmpty (mRawBuffer rd') = true
    /\ set_mRawBuffer (mRawBuffer rd) rd' = set_mCurRUDecodeID (-1) rd
    /\ getNextChipData (S fuel) out rd' = Some (false, out, rd').
Proof.
  assert (Hend : forall r, PL.isEmpty (mRawBuffer r) = true -> mMinTriggersCached r < 1 ->
            (rd0 ← (if mMinTriggersCached r <? 2 then cacheLinksData fuel r else Some r);
             if mMinTriggersCached rd0 <? 1
             then Some (false, out, set_mCurRUDecodeID (-1) rd0)
             else '(nl, rd1) ← decodeNextTrigger fuel rd0;
                  if nl =? 0 then Some (false, out, set_mCurRUDecodeID (-1) rd1)
                  else getNextChipData fuel out rd1)
            = Some (false, out, set_mCurRUDecodeID (-1) r)).
  { intros r He Hm. destruct (Z.ltb_spec (mMinTriggersCached r) 2); [|lia].
    unfold cacheLinksData, loadInput. cbn [mRawBuffer set_mRawBuffer]. rewrite He.
    cbn [mbind option_bind mMinTriggersCached set_mRawBuffer].
    destruct (Z.ltb_spec (mMinTriggersCached r) 1); [|lia].
    destruct r; reflexivity. }
  intros Hp He Hm.
  assert (Hneg : getNextChipData (S fuel) out (set_mCurRUDecodeID (-1) rd)
                 = Some (false, out, set_mCurRUDecodeID (-1) rd)).
  { cbn [getNextChipData].
    change (0 <=? mCurRUDecodeID (set_mCurRUDecodeID (-1) rd)) with false.
    cbn [mbind option_bind].
    etransitivity; [exact (Hend (set_mCurRUDecodeID (-1) rd) He Hm)|].
    destruct rd; reflexivity. }
  exists (set_mCurRUDecodeID (-1) rd).
  split; [|split; [reflexivity|split; [exact He|split; [destruct rd; reflexivity|exact Hneg]]]].
  destruct Hp as [Hcur|[Hok Hnone]].
  - cbn [getNextChipData]. destruct (Z.leb_spec 0 (mCurRUDecodeID rd)); [lia|].
    cbn [mbind option_bind]. apply Hend; assumption.
  - cbn [getNextChipData]. pose proof Hok as (H0 & _).
    destruct (Z.leb_spec 0 (mCurRUDecodeID rd)); [|lia].
    rewrite (nextFiredChip_none _ out rd Hok eq_refl Hnone). cbn [mbind option_bind].
    rewrite Hend by assumption. destruct rd; reflexivity.
Qed.

Lemma getNextChipData_end_of_data_witness :
  exists rd rd',
    AtEnd.readerAtEnd = Some rd
    /\ mNRUs rd = 2 /\ mCurRUDecodeID rd = 1
    /\ PL.getPtr (mRawBuffer rd) = 480 /\ PL.getSize (mRawBuffer rd) = 480
    /\ getNextChipData 1 chipDefault rd = Some (false, chipDefault, rd')
    /\ mCurRUDecodeID rd' = -1
    /\ PL.isEmpty (mRawBuffer rd') = true
    /\ set_mRawBuffer (mRawBuffer rd) rd' = set_mCurRUDecodeID (-1) rd
    /\ getNextChipData 1 chipDefault rd' = Some (false, chipDefault, rd').
Proof.
  let o := eval vm_compute in AtEnd.readerAtEnd in
  match o with
  | Some ?r => pose (rd := r)
  end.
  assert (E : AtEnd.readerAtEnd = Some rd) by (vm_compute; reflexivity).
  destruct (getNextChipData_end_of_data 0 chipDefault rd) as (rd' & H1 & H2 & H3 & H4 & H5).
  - right. split; [|vm_compute; reflexivity].
    split; [vm_compute; discriminate|]. split; [vm_compute; discriminate|].
    repeat (apply Forall_cons; split; [split; vm_compute; discriminate|]).
    apply Forall_nil. exact I.
  - vm_compute. reflexivity.
  - vm_compute. reflexivity.
  - exists rd, rd'. split; [exact E|]. split; [reflexivity|]. split; [reflexivity|].
    split; [reflexivity|]. split; [vm_compute; reflexivity|]. split; [exact H1|].
    split; [exact H2|]. split; [exact H3|]. split; [exact H4|exact H5].
Defined.

(** ** Skimming and decoding *)

Lemma skimDataWords_decode {MAP : Mapping} (n : nat) (iw nW wsz : Z) (mem : list Z) (raw : Z)
      (ri : RUInfo.t) (ruD ruD' : RUDecodeData) (out out' : PayLoadCont)
      (p p2 nW' : Z) (rs : RUDecodingStat) :
  decodeDataWords n GBTPaddedWordLength mem raw ri ruD = Some (p, ruD') ->
  skimDataWords n iw nW wsz mem raw ri (statistics ruD) out = Some (p2, rs, out', nW') ->
  p2 = p /\ rs = statistics ruD'.
Proof.
  revert iw raw ruD out. induction n as [|n IH]; intros iw raw ruD out Hd Hs.
  { cbn in Hd, Hs. apply Some_eq_inv in Hd. apply Some_eq_inv in Hs.
    split; congruence. }
  cbn [decodeDataWords skimDataWords] in Hd, Hs.
  destruct (GBT.isDataTrailer mem raw).
  { apply Some_eq_inv in Hd. apply Some_eq_inv in Hs. split; congruence. }
  destruct (inRange _ MaxCablesPerRU); [|discriminate].
  destruct (inRange _ 32); [|discriminate].
  eapply IH; [exact Hd|]. cbn [statistics set_statistics set_cableHWID set_cableData].
  exact Hs.
Qed.

Lemma skimPages_decode {MAP : Mapping} (fuel : nat) (wsz : Z) (mem : list Z)
      (rdhOff : Z) (ri : RUInfo.t) (ruD ruD' : RUDecodeData) (stat stat' : RawDecodingStat)
      (out out' : PayLoadCont) (sz p p2 : Z) (ab ab2 : bool) (rs : RUDecodingStat) :
  decodeRUPages fuel GBTPaddedWordLength mem rdhOff ri ruD = Some (p, ruD', ab) ->
  skimPages fuel wsz mem rdhOff ri stat (statistics ruD) out sz = Some (p2, stat', rs, out', ab2) ->
  p2 = p /\ ab2 = ab /\ rs = statistics ruD'.
Proof.
  revert rdhOff ruD stat out. induction fuel as [|fuel IH]; intros rdhOff ruD stat out Hd Hs;
    [discriminate|].
  cbn [decodeRUPages skimPages] in Hd, Hs.
  destruct (GBT.isDataHeader mem (rdhOff + headerSize (readRDH mem rdhOff))).
  2: { cbn [negb] in Hd, Hs. apply Some_eq_inv in Hd. apply Some_eq_inv in Hs.
       injection Hd as <- <- <-. injection Hs as <- _ <- _ <-. repeat split; reflexivity. }
  cbn [negb] in Hd, Hs.
  match type of Hd with
  | context [decodeDataWords ?n ?w ?m ?r ?i ?d] =>
    destruct (decodeDataWords n w m r i d) as [[pd ruD1]|] eqn:Ed; [|discriminate]
  end.
  match type of Hs with
  | context [skimDataWords ?n ?a ?b ?w ?m ?r ?i ?s ?o] =>
    destruct (skimDataWords n a b w m r i s o) as [[[[ps rs1] out1] nW1]|] eqn:Es;
      [|discriminate]
  end.
  cbn [mbind option_bind] in Hd, Hs.
  destruct (skimDataWords_decode _ _ _ _ _ _ _ _ _ _ _ _ _ _ _ Ed Es) as [-> ->].
  destruct (_ <? _) in Hs; [discriminate|].
  destruct (GBT.isDataTrailer mem pd).
  2: { cbn [negb] in Hd, Hs. apply Some_eq_inv in Hd. apply Some_eq_inv in Hs.
       injection Hd as <- <- <-. injection Hs as <- _ <- _ <-. repeat split; reflexivity. }
  cbn [negb] in Hd, Hs.
  destruct (_ <? _) in Hs; [discriminate|].
  destruct (offsetToNext (readRDH mem rdhOff) =? 0).
  { apply Some_eq_inv in Hd. apply Some_eq_inv in Hs.
    injection Hd as <- <- <-. injection Hs as <- _ <- _ <-. repeat split; reflexivity. }
  destruct (isSameRUandTrigger _ _).
  - cbn [negb] in Hd, Hs. eapply IH; [exact Hd|]. cbn [statistics set_statistics]. exact Hs.
  - cbn [negb] in Hd, Hs. revert Hd Hs.
    destruct (incPacketState _ _) as [s7|]; [|discriminate].
    cbn [mbind option_bind]. intros Hd Hs.
    apply Some_eq_inv in Hd. apply Some_eq_inv in Hs.
    injection Hd as <- <- <-. injection Hs as <- _ <- _ <-. repeat split; reflexivity.
Qed.

(** X19: [skimPaddedRUData] walks its input as [decodeRUData] does in
    padded mode. Take the container [ruD] the reader has for the RU of the
    header at [raw], and let both functions return. If the data do not
    start with an RDH both abort, but [decodeRUData] steps one GBT word
    forward while [skimPaddedRUData] stays and touches nothing. Otherwise
    they stop at the same place, agree on [aborted], and leave the same
    statistics for the RU (lane masks, packet count, error counters and
    packet states). *)
Theorem skimPaddedRUData_as_decodeRUData {MAP : Mapping} (fuel : nat) (rd rd' : RawPixelReader)
        (mem : list Z) (raw : Z) (out out' : PayLoadCont) (ruD ruD' : RUDecodeData)
        (p p2 : Z) (ab ab2 : bool) :
  let rdh := readRDH mem raw in
  let ruSW := FEEId2RUSW (feeId rdh) in
  getRUDecode ruSW rd = Some ruD ->
  ruInfo ruD = Some (getRUInfoSW ruSW) ->
  decodeRUData fuel GBTPaddedWordLength mem raw ruD = Some (p, ruD', ab) ->
  skimPaddedRUData fuel rd mem raw out = Some (p2, rd', out', ab2) ->
  ab2 = ab
  /\ (isRDHHeuristic rdh = false ->
      ab = true /\ p = raw + GBTPaddedWordLength /\ p2 = raw /\ rd' = rd /\ out' = out)
  /\ (isRDHHeuristic rdh = true ->
      p2 = p /\ statistics <$> getRUDecode ruSW rd' = Some (statistics ruD')).
Proof.
  intros rdh ruSW Hg Hri Hd Hs.
  unfold decodeRUData in Hd. unfold skimPaddedRUData in Hs. fold rdh in Hd, Hs. fold ruSW in Hs.
  destruct (isRDHHeuristic rdh) eqn:Eh; cbn [negb] in Hd, Hs.
  2: { apply Some_eq_inv in Hd. apply Some_eq_inv in Hs.
       injection Hd as <- <- <-. injection Hs as <- <- <- <-.
       split; [reflexivity|]. split; [intros _; repeat split; reflexivity|discriminate]. }
  rewrite Hri in Hd. cbn [mbind option_bind] in Hd.
  unfold getRUDecode in Hg. unfold getCreateRUDecode in Hs.
  destruct (idx (mRUEntry rd) ruSW) as [e|] eqn:Ee; [|discriminate].
  cbn [mbind option_bind] in Hg, Hs.
  destruct (Z.ltb_spec e 0) as [|He]; [discriminate|].
  rewrite Hg in Hs. cbn [mbind option_bind] in Hs.
  cbn [mRUDecodeVec set_mInteractionRecord set_mTrigger set_mInteractionRecordHB] in Hs.
  rewrite Hg in Hs. cbn [mbind option_bind] in Hs.
  match type of Hs with
  | context [skimPages ?f ?w ?m ?r ?i ?st ?rs ?o ?z] =>
    destruct (skimPages f w m r i st rs o z) as [[[[[ps st1] rs1] out1] ab1]|] eqn:Es;
      [|discriminate]
  end.
  cbn [mbind option_bind] in Hs. apply Some_eq_inv in Hs.
  injection Hs as <- <- <- <-.
  destruct (skimPages_decode _ _ _ _ _ _ _ _ _ _ _ _ _ _ _ _ _ Hd Es) as (-> & -> & ->).
  split; [reflexivity|]. split; [discriminate|]. intros _. split; [reflexivity|].
  unfold getRUDecode.
  cbn [mRUEntry mRUDecodeVec set_mDecodingStat set_mRUDecodeVec set_mInteractionRecord
       set_mTrigger set_mInteractionRecordHB].
  rewrite Ee. cbn [mbind option_bind]. destruct (Z.ltb_spec e 0); [lia|].
  apply idx_Some in Hg. destruct Hg as [_ Hg].
  rewrite idx_lookup by lia. rewrite list_lookup_insert_eq by (eapply lookup_lt_Some; exact Hg).
  reflexivity.
Qed.

Lemma skimPaddedRUData_as_decodeRUData_witness :
  exists p ruD' ab p2 rd' out' ab2,
    decodeRUData 4 GBTPaddedWordLength (Streams.pageOK 0) 0 Inputs.ru0 = Some (p, ruD', ab)
    /\ skimPaddedRUData 4 Skim.readerRU0 (Streams.pageOK 0) 0 PL.empty
       = Some (p2, rd', out', ab2)
    /\ ab2 = ab /\ p2 = p
    /\ statistics <$> getRUDecode 0 rd' = Some (statistics ruD').
Proof.
  destruct (decodeRUData 4 GBTPaddedWordLength (Streams.pageOK 0) 0 Inputs.ru0)
    as [[[p ruD'] ab]|] eqn:Ed; [|vm_compute in Ed; discriminate Ed].
  destruct (skimPaddedRUData 4 Skim.readerRU0 (Streams.pageOK 0) 0 PL.empty)
    as [[[[p2 rd'] out'] ab2]|] eqn:Es; [|vm_compute in Es; discriminate Es].
  exists p, ruD', ab, p2, rd', out', ab2.
  split; [reflexivity|]. split; [reflexivity|].
  destruct (skimPaddedRUData_as_decodeRUData 4 Skim.readerRU0 rd' (Streams.pageOK 0) 0
              PL.empty out' Inputs.ru0 ruD' p p2 ab ab2) as (H1 & _ & H3).
  - vm_compute. reflexivity.
  - vm_compute. reflexivity.
  - exact Ed.
  - exact Es.
  - split; [exact H1|]. apply H3. vm_compute. reflexivity.
Defined.

(** ** Skimming the pages of the encoder *)

Lemma leBytes_add_high (n m : nat) (a y : Z) :
  0 <= a < 2 ^ (8 * Z.of_nat n) ->
  leBytes (n + m) (a + 2 ^ (8 * Z.of_nat n) * y) = leBytes n a ++ leBytes m y.
Proof.
  revert a. induction n as [|n IH]; intros a Ha.
  { cbn in Ha. assert (a = 0) by lia. subst a. cbn [Nat.add leBytes app].
    f_equal. change (8 * Z.of_nat 0) with 0. cbn. destruct y; reflexivity. }
  cbn [Nat.add leBytes app].
  replace (8 * Z.of_nat (S n)) with (8 + 8 * Z.of_nat n) in * by lia.
  rewrite Z.pow_add_r in * by lia. change (2 ^ 8) with 256 in *.
  pose proof (Z.pow_pos_nonneg 2 (8 * Z.of_nat n) ltac:(lia) ltac:(lia)) as Hp.
  f_equal.
  - change 255 with (Z.ones 8). rewrite !Z.land_ones by lia. change (2 ^ 8) with 256.
    replace (a + 256 * 2 ^ (8 * Z.of_nat n) * y) with (a + (2 ^ (8 * Z.of_nat n) * y) * 256)
      by ring.
    apply Z.mod_add. lia.
  - rewrite !Z.shiftr_div_pow2 by lia. change (2 ^ 8) with 256.
    replace (a + 256 * 2 ^ (8 * Z.of_nat n) * y) with (a + (2 ^ (8 * Z.of_nat n) * y) * 256)
      by ring.
    rewrite Z.div_add by lia. apply IH.
    split; [apply Z.div_pos; lia|]. apply Z.div_lt_upper_bound; lia.
Qed.

Lemma poke_app (pre old post new : list Z) :
  length old = length new ->
  poke (pre ++ old ++ post) (length pre) new = pre ++ new ++ post.
Proof.
  revert pre old. induction new as [|b new IH]; intros pre old Hl.
  { destruct old; [reflexivity|discriminate]. }
  destruct old as [|o old]; [discriminate|]. cbn [poke].
  replace (<[length pre := b]> (pre ++ (o :: old) ++ post)) with ((pre ++ [b]) ++ old ++ post).
  - replace (S (length pre)) with (length (pre ++ [b])) by (rewrite length_app; cbn; lia).
    rewrite IH by (cbn in Hl; lia). rewrite <- app_assoc. reflexivity.
  - rewrite insert_app_r_alt by lia. rewrite Nat.sub_diag. rewrite <- app_assoc. reflexivity.
Qed.

(** What [skimPaddedRUData] does to the header it has copied. *)
Lemma writeRDH_poke (pre rest : list Z) (h : RDH) (ms : Z) :
  poke (poke (pre ++ writeRDH h ++ rest) (length pre + memorySize_pos) (leBytes 2 (trunc 16 ms)))
       (length pre + offsetToNext_pos) (leBytes 2 (trunc 16 ms))
  = pre ++ writeRDH (set_offsetToNext ms (set_memorySize ms h)) ++ rest.
Proof.
  assert (W1 : forall o m l p c z,
             leBytes 8 (field o 0 16 + field m 16 16 + field l 32 8 + field p 40 8
                        + field c 48 12 + field z 60 4)
             = leBytes 2 (trunc 16 o) ++ leBytes 2 (trunc 16 m)
               ++ leBytes 4 (pack [(l, 8); (p, 8); (c, 12); (z, 4)])).
  { intros o m l p c z.
    replace (field o 0 16 + field m 16 16 + field l 32 8 + field p 40 8 + field c 48 12
             + field z 60 4)
      with (trunc 16 o + 2 ^ (8 * Z.of_nat 2)
                         * (trunc 16 m + 2 ^ (8 * Z.of_nat 2)
                                         * pack [(l, 8); (p, 8); (c, 12); (z, 4)])).
    - rewrite (leBytes_add_high 2 6) by (apply trunc_range; lia).
      rewrite (leBytes_add_high 2 4) by (apply trunc_range; lia). reflexivity.
    - unfold field. rewrite !Z.shiftl_mul_pow2 by lia. cbn [pack].
      generalize (trunc 16 o), (trunc 16 m), (trunc 8 l), (trunc 8 p), (trunc 12 c),
        (trunc 4 z). intros. cbn. lia. }
  unfold writeRDH.
  cbn [offsetToNext memorySize linkID packetCounter cruID zero1 set_offsetToNext set_memorySize
       version headerSize blockLength feeId priority zero0 triggerOrbit heartbeatOrbit
       triggerBC zero41 heartbeatBC zero42 triggerType word5 detectorField par stop pageCnt
       zero6].
  rewrite !W1.
  set (w0 := leBytes 8 (_ + field (zero0 h) 56 8)).
  set (tl := leBytes 8 (_ + field (heartbeatOrbit h) 32 32) ++ _).
  set (hi := leBytes 4 _).
  assert (L0 : length w0 = 8%nat) by apply length_leBytes.
  assert (Ht : trunc 16 (trunc 16 ms) = trunc 16 ms)
    by (apply trunc_small; [lia|apply trunc_range; lia]).
  rewrite Ht.
  (* memorySize *)
  replace (pre ++ (w0 ++ (leBytes 2 (trunc 16 (offsetToNext h))
                          ++ leBytes 2 (trunc 16 (memorySize h)) ++ hi) ++ tl) ++ rest)
    with (((pre ++ w0) ++ leBytes 2 (trunc 16 (offsetToNext h)))
            ++ leBytes 2 (trunc 16 (memorySize h)) ++ (hi ++ tl ++ rest))
    by (rewrite <- !app_assoc; reflexivity).
  replace (length pre + memorySize_pos)%nat
    with (length ((pre ++ w0) ++ leBytes 2 (trunc 16 (offsetToNext h))))
    by (rewrite !length_app, L0, length_leBytes; unfold memorySize_pos; lia).
  rewrite poke_app by (rewrite !length_leBytes; reflexivity).
  (* offsetToNext *)
  replace (((pre ++ w0) ++ leBytes 2 (trunc 16 (offsetToNext h)))
             ++ leBytes 2 (trunc 16 ms) ++ hi ++ tl ++ rest)
    with ((pre ++ w0) ++ leBytes 2 (trunc 16 (offsetToNext h))
            ++ (leBytes 2 (trunc 16 ms) ++ hi ++ tl ++ rest))
    by (rewrite <- !app_assoc; reflexivity).
  replace (length pre + offsetToNext_pos)%nat with (length (pre ++ w0))
    by (rewrite length_app, L0; unfold offsetToNext_pos; lia).
  rewrite poke_app by (rewrite !length_leBytes; reflexivity).
  rewrite <- !app_assoc. reflexivity.
Qed.

(** The first [w] bytes of a padded data word are the data word of [w]
    bytes. *)
Lemma dataWord_compact (payload : list Z) (f w : Z) :
  (1 <= length payload <= 9)%nat -> 10 <= w <= GBTPaddedWordLength ->
  take (Z.to_nat w)
       (<[9%nat := f]> (payload ++ replicate (Z.to_nat (GBTPaddedWordLength
                                                        - Z.of_nat (length payload))) 0))
  = <[9%nat := f]> (payload ++ replicate (Z.to_nat (w - Z.of_nat (length payload))) 0).
Proof.
  unfold GBTPaddedWordLength. intros Hp Hw.
  rewrite take_insert_lt by lia. f_equal.
  rewrite take_app_ge by lia. f_equal. rewrite take_replicate. f_equal. lia.
Qed.

Lemma sameLoop_refl (a : FillLoop) : sameLoop a a.
Proof. repeat split. Qed.

(** One pass of the cable loop, written with padded words and with words
    of [wC] bytes: the two runs stay in step, and the word loop of
    [skimPaddedRUData] turns what the first has written into what the
    second has written. *)
Lemma fillCables_skim {MAP : Mapping} (n : nat) (icab wC maxW nCab : Z) (ri : RUInfo.t)
      (hwid : list Z) (stP stP' stC stC' : FillLoop) :
  fillCables n icab GBTPaddedWordLength maxW ri hwid stP = Some stP' ->
  fillCables n icab wC maxW ri hwid stC = Some stC' ->
  sameLoop stP stC ->
  0 <= icab -> icab + Z.of_nat n <= nCab -> 10 <= wC <= GBTPaddedWordLength ->
  cableFlagsOK ri (lanes (fl_link stP)) hwid nCab ->
  sameLoop stP' stC'
  /\ exists D,
       pl_buf (data (fl_link stC')) = pl_buf (data (fl_link stC)) ++ D
       /\ forall (mem : list Z) (ruStat : RUDecodingStat) (out : PayLoadCont) (iw nW : Z)
                 (m : nat),
            pl_buf (data (fl_link stP')) `prefix_of` mem ->
            exists ruStat',
              skimDataWords (Z.to_nat (fl_needed stP - fl_needed stP') + m) iw nW wC mem
                            (PL.getSize (data (fl_link stP))) ri ruStat out
              = skimDataWords m (iw + (fl_needed stP - fl_needed stP')) nW wC mem
                              (PL.getSize (data (fl_link stP'))) ri ruStat' (PL.add out D).
Proof.
  revert icab stP stC. induction n as [|n IH]; intros icab stP stC HP HC Hsame H0 Hn Hw Hflags.
  { apply Some_eq_inv in HP. apply Some_eq_inv in HC. subst stP' stC'.
    split; [exact Hsame|]. exists []. split; [rewrite app_nil_r; reflexivity|].
    intros mem ruStat out iw nW m _. exists ruStat. rewrite Z.sub_diag, Z.add_0_r.
    unfold PL.add. rewrite app_nil_r. destruct out; reflexivity. }
  cbn [fillCables] in HP, HC.
  destruct Hsame as (Sc & Sn & Si & Sl).
  rewrite <- Sl, <- Sc in HC.
  destruct (Z.eqb_spec (Z.land (lanes (fl_link stP)) (Z.shiftl 1 icab)) 0) as [El|El];
    cbn [negb] in HP, HC.
  { apply (IH (icab + 1) stP stC HP HC); (repeat split; assumption) || lia || assumption. }
  destruct (idx (fl_cables stP) icab) as [cable|] eqn:Ec; [|discriminate].
  cbn [mbind option_bind] in HP, HC.
  destruct (Z.eqb_spec (PL.getUnusedSize cable) 0) as [|Hnz].
  { apply (IH (icab + 1) stP stC HP HC); (repeat split; assumption) || lia || assumption. }
  destruct (idx hwid icab) as [hw|] eqn:Eh; [|discriminate].
  cbn [mbind option_bind] in HP, HC.
  apply idx_Some in Eh. destruct Eh as [_ Eh].
  set (f := trunc 8 (getGBTHeaderRUType (RUInfo.ruType ri) hw)) in *.
  set (nb := if 9 <? PL.getUnusedSize cable then 9 else PL.getUnusedSize cable) in *.
  set (payload := peek (pl_buf cable) (PL.getPtr cable) (Z.to_nat nb)) in *.
  assert (Hnb : 1 <= nb <= 9).
  { subst nb. pose proof (getUnusedSize_nonneg cable).
    destruct (Z.ltb_spec 9 (PL.getUnusedSize cable)); lia. }
  assert (Hlp : Z.of_nat (length payload) = nb) by (subst payload; rewrite length_peek; lia).
  set (wordP := <[9%nat := f]> (payload ++ replicate (Z.to_nat (GBTPaddedWordLength - nb)) 0))
    in *.
  set (wordC := <[9%nat := f]> (payload ++ replicate (Z.to_nat (wC - nb)) 0)) in *.
  assert (Htake : take (Z.to_nat wC) wordP = wordC).
  { subst wordP wordC. rewrite <- Hlp. apply dataWord_compact; lia. }
  assert (HlP : Z.of_nat (length wordP) = GBTPaddedWordLength).
  { subst wordP. rewrite length_insert, length_app, length_replicate.
    unfold GBTPaddedWordLength in *. lia. }
  assert (H9 : wordP !! 9%nat = Some f).
  { subst wordP. apply list_lookup_insert_eq. rewrite length_app, length_replicate.
    unfold GBTPaddedWordLength in *. lia. }
  match type of HP with
  | (if _ then Some ?s else _) = _ => set (sP := s) in HP
  end.
  match type of HC with
  | (if _ then Some ?s else _) = _ => set (sC := s) in HC
  end.
  assert (Hsame1 : sameLoop sP sC) by (subst sP sC; repeat split; cbn; congruence).
  destruct Hflags as [Hmax Hfl].
  destruct (Hfl (Z.to_nat icab) hw) as [Hnt Hsw]; [lia|rewrite Z2Nat.id by lia; exact El|exact Eh|].
  fold f in Hnt, Hsw. rewrite Z2Nat.id in Hsw by lia.
  (* the word loop of the skimmer on the word just written *)
  assert (Hstep : forall (mem : list Z) (ruStat : RUDecodingStat) (out : PayLoadCont)
                         (iw nW : Z) (k : nat),
             pl_buf (data (fl_link sP)) `prefix_of` mem ->
             exists ruStat1,
               skimDataWords (S k) iw nW wC mem (PL.getSize (data (fl_link stP))) ri ruStat out
               = skimDataWords k (iw + 1) nW wC mem (PL.getSize (data (fl_link sP))) ri ruStat1
                               (PL.add out wordC)).
  { intros mem ruStat out iw nW k Hpre.
    assert (Hbuf : pl_buf (data (fl_link sP)) = pl_buf (data (fl_link stP)) ++ wordP)
      by reflexivity.
    assert (Hsz : PL.getSize (data (fl_link sP))
                  = PL.getSize (data (fl_link stP)) + GBTPaddedWordLength).
    { unfold PL.getSize. rewrite Hbuf, length_app. lia. }
    rewrite Hbuf in Hpre. rewrite Hsz. unfold PL.getSize.
    assert (Hb9 : byteAt mem (Z.of_nat (length (pl_buf (data (fl_link stP)))) + 9) = f).
    { rewrite (byteAt_prefix _ _ _ Hpre) by (rewrite length_app; lia).
      rewrite (byteAt_app _ wordP 9) by lia. rewrite H9. reflexivity. }
    assert (Hpk : peek mem (Z.of_nat (length (pl_buf (data (fl_link stP))))) (Z.to_nat wC)
                  = wordC).
    { rewrite (peek_prefix _ _ _ _ Hpre) by (rewrite ?length_app; lia).
      pose proof (peek_skip (pl_buf (data (fl_link stP))) wordP 0 (Z.to_nat wC) ltac:(lia)) as Hs.
      rewrite Z.add_0_r in Hs. rewrite Hs. rewrite peek_take_drop by lia. exact Htake. }
    cbn [skimDataWords]. unfold GBT.isDataTrailer, GBT.getCableID. rewrite Hb9.
    destruct (Z.eqb_spec f GBT.FlagDataTrailer) as [|_]; [contradiction|].
    rewrite Hsw. unfold inRange, MaxCablesPerRU in *.
    destruct (Z.leb_spec 0 icab); [|lia]. destruct (Z.ltb_spec icab 32); [|lia]. cbn [andb].
    rewrite Hpk. eexists. reflexivity. }
  assert (Hn1 : fl_needed sP = fl_needed stP - 1) by reflexivity.
  assert (Hl1 : lanes (fl_link sP) = lanes (fl_link stP)) by reflexivity.
  assert (Hb1 : pl_buf (data (fl_link sC)) = pl_buf (data (fl_link stC)) ++ wordC)
    by reflexivity.
  assert (Hi : fl_inPacket sP = fl_inPacket sC) by (destruct Hsame1 as (_ & _ & Hi & _); exact Hi).
  rewrite <- Hi in HC.
  destruct (Z.eqb_spec (fl_inPacket sP) maxW) as [Hfull|Hroom].
  - apply Some_eq_inv in HP. apply Some_eq_inv in HC. subst stP' stC'.
    split; [exact Hsame1|]. exists wordC. split; [exact Hb1|].
    intros mem ruStat out iw nW m Hpre.
    destruct (Hstep mem ruStat out iw nW m Hpre) as (rs1 & E1).
    exists rs1. rewrite Hn1.
    replace (Z.to_nat (fl_needed stP - (fl_needed stP - 1)) + m)%nat with (S m) by lia.
    replace (iw + (fl_needed stP - (fl_needed stP - 1))) with (iw + 1) by lia. exact E1.
  - pose proof (fillCables_size _ _ _ _ _ _ _ _ HP ltac:(unfold GBTPaddedWordLength; lia))
      as [Hle _].
    pose proof (fillCables_grows _ _ _ _ _ _ _ _ HP) as (_ & Hpre1 & _).
    destruct (IH (icab + 1) sP sC HP HC Hsame1 ltac:(lia) ltac:(lia) Hw
                 ltac:(rewrite Hl1; split; assumption)) as (Hs' & D & HD & Hsk).
    split; [exact Hs'|]. exists (wordC ++ D).
    split; [rewrite HD, Hb1, app_assoc; reflexivity|].
    intros mem ruStat out iw nW m Hpre.
    destruct (Hstep mem ruStat out iw nW (Z.to_nat (fl_needed sP - fl_needed stP') + m)%nat
                    ltac:(etransitivity; eassumption)) as (rs1 & E1).
    destruct (Hsk mem rs1 (PL.add out wordC) (iw + 1) nW m Hpre) as (rs2 & E2).
    exists rs2.
    replace (Z.to_nat (fl_needed stP - fl_needed stP') + m)%nat
      with (S (Z.to_nat (fl_needed sP - fl_needed stP') + m)) by lia.
    rewrite E1, E2. f_equal; [lia|].
    unfold PL.add. cbn [pl_buf pl_ptr]. rewrite app_assoc. reflexivity.
Qed.

(** The same for the whole [do ... while] loop, as long as neither run
    opens a new page. *)
Lemma fillPages_skim {MAP : Mapping} (fuelP fuelC : nat) (nCab wC maxW : Z) (impP impC : bool)
      (ri : RUInfo.t) (hwid : list Z) (stP stP' stC stC' : FillLoop) :
  fillPages fuelP nCab GBTPaddedWordLength maxW impP ri hwid stP = Some stP' ->
  fillPages fuelC nCab wC maxW impC ri hwid stC = Some stC' ->
  length (fl_pages stP') = length (fl_pages stP) ->
  length (fl_pages stC') = length (fl_pages stC) ->
  sameLoop stP stC ->
  0 <= nCab -> 10 <= wC <= GBTPaddedWordLength ->
  cableFlagsOK ri (lanes (fl_link stP)) hwid nCab ->
  fl_needed stP' <= fl_needed stP
  /\ exists D,
       pl_buf (data (fl_link stC')) = pl_buf (data (fl_link stC)) ++ D
       /\ forall (mem : list Z) (ruStat : RUDecodingStat) (out : PayLoadCont) (iw nW : Z)
                 (m : nat),
            pl_buf (data (fl_link stP')) `prefix_of` mem ->
            exists ruStat',
              skimDataWords (Z.to_nat (fl_needed stP - fl_needed stP') + m) iw nW wC mem
                            (PL.getSize (data (fl_link stP))) ri ruStat out
              = skimDataWords m (iw + (fl_needed stP - fl_needed stP')) nW wC mem
                              (PL.getSize (data (fl_link stP'))) ri ruStat' (PL.add out D).
Proof.
  revert fuelC stP stC. induction fuelP as [|fuelP IH];
    intros fuelC stP stC HP HC HpgP HpgC Hsame Hc Hw Hflags; [discriminate|].
  destruct fuelC as [|fuelC]; [discriminate|].
  cbn [fillPages] in HP, HC.
  destruct (fillCables (Z.to_nat nCab) 0 GBTPaddedWordLength maxW ri hwid stP) as [sP|] eqn:EP;
    [|discriminate].
  destruct (fillCables (Z.to_nat nCab) 0 wC maxW ri hwid stC) as [sC|] eqn:EC; [|discriminate].
  cbn [mbind option_bind] in HP, HC.
  destruct (fillCables_size _ _ _ _ _ _ _ _ EP ltac:(unfold GBTPaddedWordLength; lia))
    as [Hle1 _].
  destruct (fillCables_frame _ _ _ _ _ _ _ _ EP) as (_ & HpP & _).
  destruct (fillCables_frame _ _ _ _ _ _ _ _ EC) as (_ & HpC & _).
  pose proof (fillCables_lanes _ _ _ _ _ _ _ _ EP) as Hl1.
  pose proof (fillCables_grows _ _ _ _ _ _ _ _ EP) as (_ & Hpre1 & _).
  destruct (fillCables_skim _ _ _ _ nCab _ _ _ _ _ _ EP EC Hsame ltac:(lia) ltac:(lia) Hw Hflags)
    as (Hsame1 & D1 & HD1 & Hsk1).
  pose proof Hsame1 as (_ & Sn1 & Si1 & _).
  rewrite <- Sn1, <- Si1 in HC.
  destruct (negb (fl_needed sP =? 0) && (maxW <=? fl_inPacket sP)) eqn:Enew.
  { (* a new page is opened: excluded *)
    exfalso.
    apply andb_prop in Enew. destruct Enew as [Enz _].
    destruct (Z.eqb_spec (fl_needed sP) 0) as [|Hnz]; [discriminate|].
    cbn [fl_needed] in HP.
    destruct (Z.eqb_spec (fl_needed sP) 0) as [|_]; [contradiction|].
    apply fillPages_grows in HP. destruct HP as (_ & _ & Hpp).
    cbn [fl_pages] in Hpp. apply prefix_length in Hpp.
    rewrite length_app, HpP in Hpp. cbn [length] in Hpp. lia. }
  rewrite <- ?Sn1 in HC.
  destruct (Z.eqb_spec (fl_needed sP) 0) as [Ez|Enz].
  - apply Some_eq_inv in HP. apply Some_eq_inv in HC. subst stP' stC'.
    split; [exact Hle1|]. exists D1. split; [exact HD1|exact Hsk1].
  - pose proof (fillPages_grows _ _ _ _ _ _ _ _ _ HP) as (_ & Hpre2 & _).
    destruct (IH fuelC sP sC HP HC ltac:(congruence) ltac:(congruence) Hsame1 Hc Hw
                 ltac:(rewrite Hl1; exact Hflags)) as (Hle2 & D2 & HD2 & Hsk2).
    split; [lia|]. exists (D1 ++ D2). split; [rewrite HD2, HD1, app_assoc; reflexivity|].
    intros mem ruStat out iw nW m Hpre.
    destruct (Hsk1 mem ruStat out iw nW (Z.to_nat (fl_needed sP - fl_needed stP') + m)%nat
                   ltac:(etransitivity; eassumption)) as (rs1 & E1).
    destruct (Hsk2 mem rs1 (PL.add out D1) (iw + (fl_needed stP - fl_needed sP)) nW m Hpre)
      as (rs2 & E2).
    exists rs2.
    replace (Z.to_nat (fl_needed stP - fl_needed stP') + m)%nat
      with (Z.to_nat (fl_needed stP - fl_needed sP)
            + (Z.to_nat (fl_needed sP - fl_needed stP') + m))%nat by lia.
    rewrite E1, E2. f_equal; [lia|].
    unfold PL.add. cbn [pl_buf pl_ptr]. rewrite app_assoc. reflexivity.
Qed.

Lemma getCreateRUDecode_slot {MAP : Mapping} (ruSW : Z) (rd : RawPixelReader) (slot : Z)
      (rd' : RawPixelReader) :
  getCreateRUDecode ruSW rd = Some (slot, rd') -> is_Some (idx (mRUDecodeVec rd') slot).
Proof.
  intros H. destruct (getCreateRUDecode_cases _ _ _ _ H) as (H0 & e & Ee & Hc).
  destruct Hc as [(He & -> & -> & Hs)|(He & -> & ruD & Ev & ->)]; [exact Hs|].
  cbn [mRUDecodeVec set_mRUDecodeVec set_mNRUs set_mRUEntry].
  apply idx_Some in Ev. destruct Ev as [Hn Ev].
  rewrite idx_lookup by lia. eexists. apply list_lookup_insert_eq.
  eapply lookup_lt_Some. exact Ev.
Qed.

Lemma getCreateRUDecode_wsz {MAP : Mapping} (ruSW : Z) (rd : RawPixelReader) (slot : Z)
      (rd' : RawPixelReader) :
  getCreateRUDecode ruSW rd = Some (slot, rd') -> mGBTWordSize rd' = mGBTWordSize rd.
Proof.
  intros H. destruct (getCreateRUDecode_cases _ _ _ _ H) as (H0 & e & Ee & Hc).
  destruct Hc as [(He & -> & -> & Hs)|(He & -> & ruD & Ev & ->)]; reflexivity.
Qed.

Lemma take_take_le {A} (l : list A) (n m : nat) : (n <= m)%nat -> take n (take m l) = take n l.
Proof. intros H. rewrite take_take. f_equal. lia. Qed.

Lemma pageMemorySize_fits (N wsz : Z) :
  0 <= N <= maxWordsPerPage -> 10 <= wsz <= GBTPaddedWordLength ->
  pageMemorySize N wsz = sizeofRDH + (N + 2) * wsz
  /\ trunc 16 (sizeofRDH + (N + 2) * wsz) = sizeofRDH + (N + 2) * wsz
  /\ sizeofRDH + (N + 2) * wsz <= 8 * 1024.
Proof.
  unfold maxWordsPerPage, GBTPaddedWordLength, pageMemorySize, sizeofRDH, MaxGBTPacketBytes.
  intros HN Hw.
  assert (Hprod : 0 <= (N + 2) * wsz <= 8128) by nia.
  rewrite trunc_small by (change (2 ^ 16) with 65536; lia).
  destruct (Z.ltb_spec (8 * 1024) (64 + (N + 2) * wsz)); [lia|]. repeat split; lia.
Qed.

(** [skimPaddedRUData] on data that start with an RDH, once the container
    of the RU is there. *)
Lemma skimPaddedRUData_pages {MAP : Mapping} (fuel : nat) (rd rd1 : RawPixelReader)
      (mem : list Z) (raw : Z) (out : PayLoadCont) (slot : Z) (ruDec : RUDecodeData) :
  let rdh := readRDH mem raw in
  let ruSW := FEEId2RUSW (feeId rdh) in
  isRDHHeuristic rdh = true ->
  getCreateRUDecode ruSW rd = Some (slot, rd1) ->
  idx (mRUDecodeVec rd1) slot = Some ruDec ->
  skimPaddedRUData fuel rd mem raw out
  = ('(raw', stat, ruStat, outBuffer, aborted) ←
       skimPages fuel (mGBTWordSize rd1) mem raw (getRUInfoSW ruSW)
                 (set_nRUsProcessed (nRUsProcessed (mDecodingStat rd1) + 1) (mDecodingStat rd1))
                 (incPackets (statistics ruDec)) out (PL.getSize out);
     Some (raw',
           set_mDecodingStat stat
             (set_mRUDecodeVec (<[Z.to_nat slot := set_statistics ruStat ruDec]>
                                  (mRUDecodeVec rd1))
                (set_mInteractionRecordHB (mkIR (heartbeatOrbit rdh) (heartbeatBC rdh))
                   (set_mTrigger (triggerType rdh)
                      (set_mInteractionRecord (mkIR (triggerOrbit rdh) (triggerBC rdh)) rd1)))),
           outBuffer, aborted)).
Proof.
  intros rdh ruSW Hh Hgc Hru. unfold skimPaddedRUData. fold rdh. fold ruSW.
  rewrite Hh. cbn [negb]. rewrite Hgc. cbn [mbind option_bind].
  cbn [mRUDecodeVec set_mInteractionRecord set_mTrigger set_mInteractionRecordHB].
  rewrite Hru. reflexivity.
Qed.

(** X20: skimming a padded page of the encoder gives the page the encoder
    writes with short words. Let [fillRULinks] write the data of a link
    twice from an empty link buffer: with padded GBT words (16 bytes), and
    with words of [wC] bytes (10 in the unpadded format) and no imposed
    page size; the data fit into one page, and header, cables and mapping
    are as in X15, the FEE id of the page leading back to the RU. Then
    [skimPaddedRUData] of a reader with words of [wC] bytes, run on memory
    that begins with the padded page and in which the header
    [offsetToNext] bytes later does not continue the trigger, does not
    abort, returns the position [offsetToNext], and appends to the output
    buffer exactly the bytes of the second page: header with [memorySize]
    and [offsetToNext] cut to the real size, GBT header, data words and
    trailer without the padding. *)
Theorem skim_of_encoded_page {MAP : Mapping} (fuelP fuelC : nat) (rdP rdC : RawPixelReader)
        (ri : RUInfo.t) (hwid : list Z) (il : Z) (rdh : RDH) (link : RULink)
        (cables : list PayLoadCont) (stP stC : FillLoop) :
  let wC := mGBTWordSize rdC in
  let N := wordsNeeded (Z.to_nat (RUInfo.nCables ri)) link cables in
  fillLink fuelP rdP ri hwid il rdh link cables = Some stP ->
  fillLink fuelC rdC ri hwid il rdh link cables = Some stC ->
  mGBTWordSize rdP = GBTPaddedWordLength ->
  10 <= wC <= GBTPaddedWordLength ->
  mImposeMaxPage rdC = false ->
  data link = PL.empty ->
  rdhStored rdh = rdh -> isRDHHeuristic rdh = true ->
  0 <= RUInfo.nCables ri ->
  cableFlagsOK ri (lanes link) hwid (RUInfo.nCables ri) ->
  Forall (fun c => 0 <= pl_ptr c) cables ->
  (forall (i : nat) c, cables !! i = Some c ->
     Z.land (lanes link) (Z.shiftl 1 (Z.of_nat i)) <> 0 -> pl_ptr c = 0) ->
  N <= maxWordsPerPage ->
  getRUInfoSW (FEEId2RUSW (trunc 16 (RUSW2FEEId (RUInfo.idSW ri) il))) = ri ->
  exists h,
    fl_pages stP = [h]
    /\ forall (mem : list Z) (rdS : RawPixelReader) (out : PayLoadCont) (f : nat),
         pl_buf (data (fl_link stP)) `prefix_of` mem ->
         isSameRUandTrigger h (readRDH mem (offsetToNext h)) = false ->
         mGBTWordSize rdS = wC ->
         is_Some (getCreateRUDecode (FEEId2RUSW (feeId h)) rdS) ->
         exists rdS',
           skimPaddedRUData (S f) rdS mem 0 out
           = Some (offsetToNext h, rdS', PL.add out (pl_buf (data (fl_link stC))), false).
Proof.
  intros wC N HP HC HwP Hw HimpC Hempty Hst Hh HnC Hflags Hptr0 Hptr HN Hmap.
  assert (Hhs : headerSize rdh = sizeofRDH).
  { unfold isRDHHeuristic in Hh.
    destruct (Z.eqb_spec (headerSize rdh) sizeofRDH); [assumption|discriminate]. }
  pose proof (wordsNeeded_nonneg (Z.to_nat (RUInfo.nCables ri)) link cables Hptr) as HN0.
  fold N in HN0.
  destruct (pageMemorySize_fits N GBTPaddedWordLength ltac:(lia)
              ltac:(unfold GBTPaddedWordLength; lia)) as (HpmsP & HtrP & HfitP).
  destruct (pageMemorySize_fits N wC ltac:(lia) Hw) as (HpmsC & HtrC & HfitC).
  unfold fillLink in HP, HC. fold N in HP, HC. fold wC in HC. rewrite HwP in HP.
  rewrite HimpC in HC.
  set (h0 := set_feeId_link (RUSW2FEEId (RUInfo.idSW ri) il) il rdh) in *.
  set (hP := set_offsetToNext _ (set_memorySize (pageMemorySize N GBTPaddedWordLength)
                                                (set_page 0 0 h0))) in HP.
  set (hC := set_offsetToNext _ (set_memorySize (pageMemorySize N wC) (set_page 0 0 h0))) in HC.
  match type of HP with
  | (mbind _ (fillPages _ _ _ _ _ _ _ ?s)) = _ => set (st0P := s) in HP
  end.
  match type of HC with
  | (mbind _ (fillPages _ _ _ _ _ _ _ ?s)) = _ => set (st0C := s) in HC
  end.
  destruct (fillPages _ _ _ _ _ _ _ st0P) as [st1P|] eqn:EP; [|discriminate].
  destruct (fillPages _ _ _ _ _ _ _ st0C) as [st1C|] eqn:EC; [|discriminate].
  cbn [mbind option_bind] in HP, HC. apply Some_eq_inv in HP. apply Some_eq_inv in HC.
  subst stP stC. cbn [fl_pages fl_link data set_data]. unfold PL.add at 2 3. cbn [pl_buf].
  rewrite Hhs in EP, EC.
  change (Z.quot (MaxGBTPacketBytes - sizeofRDH) GBTPaddedWordLength - 2)
    with maxWordsPerPage in EP, EC.
  (* the two headers *)
  assert (Hfit : forall v n, 0 <= n -> trunc n (trunc n v) = trunc n v).
  { intros v n Hn. apply trunc_small; [exact Hn|]. apply trunc_range. exact Hn. }
  assert (HmsP : memorySize hP = sizeofRDH + (N + 2) * GBTPaddedWordLength).
  { subst hP. cbn [memorySize set_offsetToNext set_memorySize]. rewrite HpmsP. exact HtrP. }
  assert (HhsP : headerSize hP = sizeofRDH) by exact Hhs.
  assert (HpcP : pageCnt hP = 0) by reflexivity.
  assert (HoffP : 0 < offsetToNext hP).
  { subst hP. cbn [offsetToNext set_offsetToNext memorySize set_memorySize]. rewrite HpmsP.
    destruct (mImposeMaxPage rdP); [reflexivity|].
    rewrite Hfit by lia. rewrite HtrP. unfold sizeofRDH, GBTPaddedWordLength. lia. }
  assert (Hs0 : rdhStored h0 = h0).
  { subst h0. unfold rdhStored, set_feeId_link.
    cbn [version headerSize blockLength feeId priority zero0 offsetToNext memorySize linkID
         packetCounter cruID zero1 triggerOrbit heartbeatOrbit triggerBC zero41 heartbeatBC
         zero42 triggerType word5 detectorField par stop pageCnt zero6].
    f_equal; first [apply Hfit; lia | rdh_field Hst]. }
  assert (HsP : rdhStored hP = hP).
  { subst hP. unfold rdhStored, set_offsetToNext, set_memorySize, set_page.
    cbn [version headerSize blockLength feeId priority zero0 offsetToNext memorySize linkID
         packetCounter cruID zero1 triggerOrbit heartbeatOrbit triggerBC zero41 heartbeatBC
         zero42 triggerType word5 detectorField par stop pageCnt zero6].
    f_equal; first [apply Hfit; lia | rdh_field Hs0]. }
  assert (HheurP : isRDHHeuristic hP = true) by exact Hh.
  assert (HfeeP : feeId hP = trunc 16 (RUSW2FEEId (RUInfo.idSW ri) il)) by reflexivity.
  assert (HhC : set_offsetToNext (sizeofRDH + (2 + N) * wC)
                  (set_memorySize (sizeofRDH + (2 + N) * wC) hP) = hC).
  { subst hP hC. unfold set_offsetToNext, set_memorySize.
    cbn [version headerSize blockLength feeId priority zero0 offsetToNext memorySize linkID
         packetCounter cruID zero1 triggerOrbit heartbeatOrbit triggerBC zero41 heartbeatBC
         zero42 triggerType word5 detectorField par stop pageCnt zero6].
    rewrite HpmsC. replace (sizeofRDH + (2 + N) * wC) with (sizeofRDH + (N + 2) * wC) by ring.
    rewrite Hfit by lia. reflexivity. }
  (* the two runs of the page loop *)
  assert (Hneed0 : forall st0 h (w : Z),
             st0 = mkFL cables (set_data (PL.add (data (writePageRDH h link))
                                    (take (Z.to_nat w)
                                       (GBT.header (pageCnt h) (lanes (writePageRDH h link)))))
                                  (writePageRDH h link)) h N 0 [h] ->
             fl_needed st0 = remWords (lanes (fl_link st0)) (fl_cables st0) 0
                                      (Z.to_nat (RUInfo.nCables ri))).
  { intros st0 h w ->. cbn [fl_needed fl_link fl_cables]. unfold writePageRDH.
    cbn [lanes set_data set_nTriggers]. apply wordsNeeded_remWords. exact Hptr. }
  pose proof (fillPages_onepage _ _ _ _ _ _ _ _ _ EP Hptr0 (Hneed0 _ _ _ eq_refl)
                ltac:(subst st0P; cbn; lia)) as HpagesP.
  pose proof (fillPages_onepage _ _ _ _ _ _ _ _ _ EC Hptr0 (Hneed0 _ _ _ eq_refl)
                ltac:(subst st0C; cbn; lia)) as HpagesC.
  destruct (fillPages_drain _ _ _ _ _ _ _ _ _ EP Hptr0 (Hneed0 _ _ _ eq_refl))
    as (Hn1P & _ & _ & Hl1P).
  destruct (fillPages_drain _ _ _ _ _ _ _ _ _ EC Hptr0 (Hneed0 _ _ _ eq_refl))
    as (Hn1C & _ & _ & Hl1C).
  destruct (fillPages_size _ _ _ _ _ _ _ _ _ EP ltac:(unfold GBTPaddedWordLength; lia) Hhs)
    as (_ & _ & _ & HszP).
  rewrite HpagesP, Hn1P in HszP. change (fl_needed st0P) with N in HszP.
  assert (Hsame0 : sameLoop st0P st0C).
  { split; [transitivity cables; reflexivity|]. split; [transitivity N; reflexivity|].
    split; [transitivity 0; reflexivity|transitivity (lanes link); reflexivity]. }
  destruct (fillPages_skim _ _ _ _ _ _ _ _ _ _ _ _ _ EP EC ltac:(congruence)
              ltac:(congruence) Hsame0 HnC Hw Hflags) as (_ & D & HD & Hsk).
  pose proof (fillPages_grows _ _ _ _ _ _ _ _ _ EP) as (_ & [X HX] & _).
  exists hP. split; [exact HpagesP|].
  intros mem rdS out f [r ->] Hsame HwS [[slot rd1] Hgc].
  pose proof (getCreateRUDecode_wsz _ _ _ _ Hgc) as Hwsz1.
  destruct (getCreateRUDecode_slot _ _ _ _ Hgc) as [ruDec Hru].
  (* the bytes of the two pages *)
  set (Hdr := GBT.header 0 (lanes link)) in *.
  set (Trl := GBT.trailer (lanes link) 0 (Z.shiftl 1 GBT.PacketDone)) in *.
  assert (Hbuf0P : pl_buf (data (fl_link st0P))
                   = writeRDH hP ++ take (Z.to_nat GBTPaddedWordLength) Hdr).
  { subst st0P. cbn [fl_link data set_data]. unfold writePageRDH, PL.add.
    cbn [data set_data set_nTriggers pl_buf lanes]. rewrite Hempty, HhsP. cbn [pl_buf PL.empty app].
    rewrite (take_ge (writeRDH hP)) by (rewrite length_writeRDH; reflexivity). reflexivity. }
  assert (Hbuf0C : pl_buf (data (fl_link st0C)) = writeRDH hC ++ take (Z.to_nat wC) Hdr).
  { subst st0C. cbn [fl_link data set_data]. unfold writePageRDH, PL.add.
    cbn [data set_data set_nTriggers pl_buf lanes]. rewrite Hempty.
    change (headerSize hC) with (headerSize rdh). rewrite Hhs. cbn [pl_buf PL.empty app].
    rewrite (take_ge (writeRDH hC)) by (rewrite length_writeRDH; reflexivity). reflexivity. }
  assert (HlP : lanes (fl_link st1P) = lanes link) by (rewrite Hl1P; reflexivity).
  assert (HlC : lanes (fl_link st1C) = lanes link) by (rewrite Hl1C; reflexivity).
  rewrite HlP in *. rewrite HlC. fold Trl in Hsame |- *.
  unfold PL.add at 1. unfold PL.add at 1 in Hsame. cbn [pl_buf] in Hsame |- *.
  rewrite HD, Hbuf0C. rewrite HX, Hbuf0P in Hsame |- *.
  set (HdP := take (Z.to_nat GBTPaddedWordLength) Hdr) in *.
  set (TrP := take (Z.to_nat GBTPaddedWordLength) Trl) in *.
  assert (Hmem : (((writeRDH hP ++ HdP) ++ X) ++ TrP) ++ r
                 = writeRDH hP ++ HdP ++ X ++ TrP ++ r) by (rewrite <- !app_assoc; reflexivity).
  rewrite Hmem in Hsame |- *.
  set (mem := writeRDH hP ++ HdP ++ X ++ TrP ++ r) in *.
  assert (HlHd : Z.of_nat (length HdP) = GBTPaddedWordLength)
    by (apply length_GBT_take; [reflexivity|unfold GBTPaddedWordLength; lia]).
  assert (HlTr : Z.of_nat (length TrP) = GBTPaddedWordLength)
    by (apply length_GBT_take; [reflexivity|unfold GBTPaddedWordLength; lia]).
  assert (HlW : Z.of_nat (length (writeRDH hP)) = sizeofRDH)
    by (rewrite length_writeRDH; reflexivity).
  assert (Hsz0P : PL.getSize (data (fl_link st0P)) = 0 + sizeofRDH + GBTPaddedWordLength).
  { unfold PL.getSize. rewrite Hbuf0P, length_app. fold HdP. lia. }
  assert (Hsz1P : PL.getSize (data (fl_link st1P))
                  = sizeofRDH + GBTPaddedWordLength + N * GBTPaddedWordLength).
  { rewrite HszP, Hsz0P. lia. }
  assert (HlX : Z.of_nat (length X) = N * GBTPaddedWordLength).
  { unfold PL.getSize in Hsz1P. rewrite HX, Hbuf0P, !length_app in Hsz1P. fold HdP in Hsz1P. lia. }
  assert (HlD : Z.of_nat (length D) = N * wC).
  { destruct (fillPages_size _ _ _ _ _ _ _ _ _ EC ltac:(unfold GBTPaddedWordLength in Hw; lia)
                Hhs) as (_ & _ & _ & HszC).
    rewrite HpagesC, Hn1C in HszC. change (fl_needed st0C) with N in HszC.
    unfold PL.getSize in HszC. rewrite HD, length_app in HszC. lia. }
  assert (F1 : readRDH mem 0 = hP).
  { subst mem. rewrite readRDH_writeRDH. exact HsP. }
  assert (P64 : peek mem 0 (Z.to_nat sizeofRDH) = writeRDH hP).
  { subst mem. replace (Z.to_nat sizeofRDH) with (length (writeRDH hP))
      by (rewrite length_writeRDH; reflexivity). apply peek_head. }
  assert (F2 : byteAt mem (0 + sizeofRDH + 9) = GBT.FlagDataHeader).
  { subst mem. replace (0 + sizeofRDH) with (Z.of_nat (length (writeRDH hP))) by lia.
    rewrite (byteAt_app _ _ 9) by (rewrite length_app; lia).
    rewrite lookup_app_l by lia. unfold HdP, Hdr. rewrite GBT_header_flag; [reflexivity|].
    unfold GBTPaddedWordLength. lia. }
  assert (PH : peek mem (0 + sizeofRDH) (Z.to_nat wC) = take (Z.to_nat wC) Hdr).
  { subst mem. replace (0 + sizeofRDH) with (Z.of_nat (length (writeRDH hP)) + 0) by lia.
    rewrite peek_skip by lia. rewrite peek_take_drop by (rewrite ?length_app; lia).
    change (Z.to_nat 0) with 0%nat. rewrite drop_0, take_app_le by lia. subst HdP. apply take_take_le. lia. }
  assert (Hpre1 : pl_buf (data (fl_link st1P)) `prefix_of` mem).
  { rewrite HX, Hbuf0P. fold HdP. subst mem. exists (TrP ++ r). rewrite <- !app_assoc.
    reflexivity. }
  assert (F3 : byteAt mem (PL.getSize (data (fl_link st1P)) + 9) = GBT.FlagDataTrailer).
  { subst mem. rewrite !app_assoc. rewrite <- (app_assoc _ TrP r).
    replace (PL.getSize (data (fl_link st1P)))
      with (Z.of_nat (length ((writeRDH hP ++ HdP) ++ X))) by (rewrite !length_app; lia).
    rewrite (byteAt_app _ _ 9) by (rewrite length_app; lia).
    rewrite lookup_app_l by lia. unfold TrP, Trl. rewrite GBT_trailer_flag; [reflexivity|].
    unfold GBTPaddedWordLength. lia. }
  assert (F4 : GBT.getPacketState mem (PL.getSize (data (fl_link st1P)))
               = trunc 8 (Z.shiftl 1 GBT.PacketDone)).
  { unfold GBT.getPacketState. subst mem. rewrite !app_assoc. rewrite <- (app_assoc _ TrP r).
    replace (PL.getSize (data (fl_link st1P)))
      with (Z.of_nat (length ((writeRDH hP ++ HdP) ++ X))) by (rewrite !length_app; lia).
    rewrite (byteAt_app _ _ 8) by (rewrite length_app; lia).
    rewrite lookup_app_l by lia. unfold TrP, Trl. rewrite GBT_trailer_state; [reflexivity|].
    unfold GBTPaddedWordLength. lia. }
  assert (PT : peek mem (PL.getSize (data (fl_link st1P))) (Z.to_nat wC)
               = take (Z.to_nat wC) Trl).
  { subst mem. rewrite !app_assoc. rewrite <- (app_assoc _ TrP r).
    replace (PL.getSize (data (fl_link st1P)))
      with (Z.of_nat (length ((writeRDH hP ++ HdP) ++ X)) + 0) by (rewrite !length_app; lia).
    rewrite peek_skip by lia. rewrite peek_take_drop by (rewrite ?length_app; lia).
    change (Z.to_nat 0) with 0%nat. rewrite drop_0, take_app_le by lia. subst TrP. apply take_take_le. lia. }
  (* the loop over the pages *)
  assert (Hpages : forall stat ruStat,
             exists stat' ruStat',
               skimPages (S f) wC mem 0 ri stat ruStat out (PL.getSize out)
               = Some (offsetToNext hP, stat', ruStat',
                       mkPL (pl_buf out ++ ((writeRDH hC ++ take (Z.to_nat wC) Hdr) ++ D)
                                    ++ take (Z.to_nat wC) Trl) (pl_ptr out), false)).
  { intros stat ruStat. cbn [skimPages]. rewrite F1, HhsP, HmsP, HpcP.
    unfold GBT.isDataHeader. rewrite F2, Z.eqb_refl. cbn [negb].
    replace (Z.quot (sizeofRDH + (N + 2) * GBTPaddedWordLength - sizeofRDH)
                    GBTPaddedWordLength - 2) with N
      by (replace (sizeofRDH + (N + 2) * GBTPaddedWordLength - sizeofRDH)
            with ((N + 2) * GBTPaddedWordLength) by lia;
          rewrite Z.quot_mul by (unfold GBTPaddedWordLength; lia); lia).
    change (peek mem 0 (Z.to_nat sizeofRDH)) with (peek mem 0 (Z.to_nat sizeofRDH)).
    rewrite P64, PH.
    match goal with
    | |- context [skimDataWords _ _ _ _ _ _ _ ?rs ?o] => set (rs0 := rs); set (out2 := o)
    end.
    destruct (Hsk mem rs0 out2 0 N 0%nat Hpre1) as (rs1 & Esk).
    rewrite Hn1P in Esk. change (fl_needed st0P) with N in Esk.
    rewrite Z.sub_0_r, Nat.add_0_r, Hsz0P in Esk. cbn [skimDataWords] in Esk.
    rewrite Esk. cbn [mbind option_bind].
    assert (Hso2 : PL.getSize (PL.add out2 D) - PL.getSize out = sizeofRDH + wC + N * wC).
    { subst out2. unfold PL.getSize, PL.add. cbn [pl_buf].
      rewrite !length_app, length_take, length_writeRDH.
      change (length Hdr) with 16%nat. unfold GBTPaddedWordLength, sizeofRDH in *. lia. }
    rewrite Hso2.
    destruct (Z.ltb_spec (8 * 1024) (sizeofRDH + wC + N * wC)) as [Hbig|_]; [lia|].
    unfold GBT.isDataTrailer. rewrite F3, Z.eqb_refl. cbn [negb]. rewrite PT.
    assert (Hso3 : PL.getSize (PL.add (PL.add out2 D) (take (Z.to_nat wC) Trl))
                   - PL.getSize out = sizeofRDH + (N + 2) * wC).
    { unfold PL.getSize in *. unfold PL.add at 1. cbn [pl_buf]. rewrite length_app, length_take.
      change (length Trl) with 16%nat. unfold GBTPaddedWordLength in *. lia. }
    rewrite Hso3.
    destruct (Z.ltb_spec (8 * 1024) (sizeofRDH + (N + 2) * wC)) as [Hbig|_]; [lia|].
    assert (Hout3 : pl_buf (PL.add (PL.add out2 D) (take (Z.to_nat wC) Trl))
                    = pl_buf out ++ writeRDH hP
                      ++ (take (Z.to_nat wC) Hdr ++ D ++ take (Z.to_nat wC) Trl)).
    { subst out2. unfold PL.add. cbn [pl_buf]. rewrite <- !app_assoc. reflexivity. }
    rewrite Hout3.
    replace (readRDH (pl_buf out ++ writeRDH hP
                      ++ take (Z.to_nat wC) Hdr ++ D ++ take (Z.to_nat wC) Trl)
                     (PL.getSize out)) with hP
      by (unfold PL.getSize; rewrite readRDH_skip, readRDH_writeRDH; symmetry; exact HsP).
    rewrite HhsP.
    replace (Z.to_nat (PL.getSize out)) with (length (pl_buf out))
      by (unfold PL.getSize; lia).
    rewrite writeRDH_poke, HhC.
    destruct (Z.eqb_spec (offsetToNext hP) 0) as [|_]; [lia|].
    change (0 + offsetToNext hP) with (offsetToNext hP). rewrite Hsame. cbn [negb].
    rewrite F4, incPacketState_done. cbn [mbind option_bind].
    eexists. eexists. f_equal. f_equal. f_equal.
    rewrite <- !app_assoc. reflexivity. }
  rewrite (skimPaddedRUData_pages (S f) rdS rd1 mem 0 out slot ruDec);
    [|rewrite F1; exact HheurP|rewrite F1; exact Hgc|exact Hru].
  rewrite F1, HfeeP, Hmap, Hwsz1, HwS.
  match goal with
  | |- context [skimPages _ _ _ _ _ ?st ?rs _ _] => destruct (Hpages st rs) as (st' & rs' & E)
  end.
  rewrite E. eexists. reflexivity.
Qed.

Lemma skim_of_encoded_page_witness :
  exists stP stC rdS',
    fillLink 10 readerInit (Example.ruInfoOf 0) [0; 1; 2; 3; 4; 5; 6; 7; 8] 0
             (fillRDH readerInit) (set_lanes 0x1ff linkDefault) shortCables = Some stP
    /\ fillLink 10 (imposeMaxPage false (setPadding128 false readerInit)) (Example.ruInfoOf 0)
                [0; 1; 2; 3; 4; 5; 6; 7; 8] 0
                (fillRDH readerInit) (set_lanes 0x1ff linkDefault) shortCables = Some stC
    /\ skimPaddedRUData 1 (imposeMaxPage false (setPadding128 false readerInit))
                        (pl_buf (data (fl_link stP))) 0 PL.empty
       = Some (8192, rdS', mkPL (pl_buf (data (fl_link stC))) 0, false).
Proof.
  let o := eval vm_compute in
      (fillLink 10 readerInit (Example.ruInfoOf 0) [0; 1; 2; 3; 4; 5; 6; 7; 8] 0
                (fillRDH readerInit) (set_lanes 0x1ff linkDefault) shortCables) in
  match o with
  | Some ?s => pose (stP := s)
  end.
  let o := eval vm_compute in
      (fillLink 10 (imposeMaxPage false (setPadding128 false readerInit)) (Example.ruInfoOf 0)
                [0; 1; 2; 3; 4; 5; 6; 7; 8] 0
                (fillRDH readerInit) (set_lanes 0x1ff linkDefault) shortCables) in
  match o with
  | Some ?s => pose (stC := s)
  end.
  assert (EP : fillLink 10 readerInit (Example.ruInfoOf 0) [0; 1; 2; 3; 4; 5; 6; 7; 8] 0
                        (fillRDH readerInit) (set_lanes 0x1ff linkDefault) shortCables
               = Some stP) by (vm_compute; reflexivity).
  assert (EC : fillLink 10 (imposeMaxPage false (setPadding128 false readerInit))
                        (Example.ruInfoOf 0) [0; 1; 2; 3; 4; 5; 6; 7; 8] 0
                        (fillRDH readerInit) (set_lanes 0x1ff linkDefault) shortCables
               = Some stC) by (vm_compute; reflexivity).
  destruct (skim_of_encoded_page 10 10 readerInit
              (imposeMaxPage false (setPadding128 false readerInit)) (Example.ruInfoOf 0)
              [0; 1; 2; 3; 4; 5; 6; 7; 8] 0 (fillRDH readerInit)
              (set_lanes 0x1ff linkDefault) shortCables stP stC EP EC)
    as (h & Hp & Hskim).
  - reflexivity.
  - vm_compute. split; discriminate.
  - reflexivity.
  - reflexivity.
  - vm_compute. reflexivity.
  - reflexivity.
  - vm_compute. discriminate.
  - split; [vm_compute; discriminate|].
    intros j hw Hj _ Hhw. change (RUInfo.nCables (Example.ruInfoOf 0)) with 9 in Hj.
    do 9 (destruct j as [|j];
          [apply Some_eq_inv in Hhw; subst hw; vm_compute; split; [discriminate|reflexivity]|]).
    lia.
  - unfold shortCables. repeat (apply Forall_cons; split; [vm_compute; discriminate|]).
    apply Forall_nil. exact I.
  - intros i c Hc _.
    do 9 (destruct i as [|i]; [apply Some_eq_inv in Hc; subst c; reflexivity|]).
    discriminate.
  - vm_compute. discriminate.
  - reflexivity.
  - apply (f_equal head) in Hp. vm_compute in Hp. apply Some_eq_inv in Hp. subst h.
    destruct (Hskim (pl_buf (data (fl_link stP)))
                    (imposeMaxPage false (setPadding128 false readerInit)) PL.empty 0%nat)
      as (rdS' & E).
    + reflexivity.
    + vm_compute. reflexivity.
    + reflexivity.
    + vm_compute. eexists. reflexivity.
    + exists stP, stC, rdS'. split; [exact EP|]. split; [exact EC|exact E].
Defined.

(** ** A skim that aborts *)

Lemma poke_length (mem : list Z) (pos : nat) (bs : list Z) :
  length (poke mem pos bs) = length mem.
Proof.
  revert mem pos. induction bs as [|b bs IH]; intros mem pos; cbn [poke]; [reflexivity|].
  rewrite IH. apply length_insert.
Qed.

Lemma poke_after (a b : list Z) (k : nat) (bs : list Z) :
  poke (a ++ b) (length a + k) bs = a ++ poke b k bs.
Proof.
  revert b k. induction bs as [|x bs IH]; intros b k; cbn [poke]; [reflexivity|].
  rewrite insert_app_r. replace (S (length a + k)) with (length a + S k)%nat by lia.
  apply IH.
Qed.

Lemma skimDataWords_grows {MAP : Mapping} (n : nat) (iw nW wsz : Z) (mem : list Z) (raw : Z)
      (ri : RUInfo.t) (ruStat rs : RUDecodingStat) (out out' : PayLoadCont) (p nW' : Z) :
  skimDataWords n iw nW wsz mem raw ri ruStat out = Some (p, rs, out', nW') ->
  pl_ptr out' = pl_ptr out /\ pl_buf out `prefix_of` pl_buf out'.
Proof.
  revert iw raw ruStat out. induction n as [|n IH]; intros iw raw ruStat out H.
  { apply Some_eq_inv in H. injection H as _ _ <- _. split; reflexivity. }
  cbn [skimDataWords] in H.
  destruct (GBT.isDataTrailer mem raw).
  { apply Some_eq_inv in H. injection H as _ _ <- _. split; reflexivity. }
  destruct (inRange _ 32); [|discriminate].
  apply IH in H. destruct H as [Hp Hb]. cbn [PL.add pl_ptr pl_buf] in Hp, Hb.
  split; [exact Hp|]. etransitivity; [|exact Hb]. apply prefix_app_r. reflexivity.
Qed.

Lemma skimPages_abort {MAP : Mapping} (fuel : nat) (wsz : Z) (mem : list Z) (rdhOff : Z)
      (ri : RUInfo.t) (stat stat' : RawDecodingStat) (ruStat rs : RUDecodingStat)
      (out0 out out' : PayLoadCont) (p : Z) (ab : bool) :
  skimPages fuel wsz mem rdhOff ri stat ruStat out (PL.getSize out0) = Some (p, stat', rs, out', ab) ->
  pl_ptr out = pl_ptr out0 -> pl_buf out0 `prefix_of` pl_buf out ->
  pl_ptr out' = pl_ptr out0
  /\ pl_buf out0 `prefix_of` pl_buf out'
  /\ (ab = true -> pl_buf out' = pl_buf out0).
Proof.
  revert rdhOff stat ruStat out. induction fuel as [|fuel IH];
    intros rdhOff stat ruStat out H Hptr Hpre; [discriminate|].
  assert (Hshrink : forall o, pl_buf out0 `prefix_of` pl_buf o ->
                              pl_buf (shrinkToSize o (PL.getSize out0)) = pl_buf out0).
  { intros o [x Hx]. unfold shrinkToSize, PL.getSize. cbn [pl_buf].
    rewrite Hx, Nat2Z.id. rewrite take_app_length. reflexivity. }
  cbn [skimPages] in H.
  destruct (GBT.isDataHeader mem (rdhOff + headerSize (readRDH mem rdhOff))).
  2: { cbn [negb] in H. apply Some_eq_inv in H. injection H as _ _ _ <- <-.
       rewrite (Hshrink out Hpre). cbn [shrinkToSize pl_ptr].
       split; [exact Hptr|]. split; [reflexivity|]. intros _. reflexivity. }
  cbn [negb] in H.
  match type of H with
  | context [skimDataWords ?n ?a ?b ?w ?m ?r ?i ?s ?o] =>
    destruct (skimDataWords n a b w m r i s o) as [[[[ps rs1] out1] nW1]|] eqn:Es;
      [|discriminate]
  end.
  cbn [mbind option_bind] in H.
  apply skimDataWords_grows in Es. destruct Es as [Hp1 Hb1].
  cbn [PL.add pl_ptr pl_buf] in Hp1, Hb1.
  assert (Hpre1 : pl_buf out0 `prefix_of` pl_buf out1).
  { etransitivity; [exact Hpre|]. etransitivity; [|exact Hb1].
    rewrite <- app_assoc. apply prefix_app_r. reflexivity. }
  destruct (_ <? _) in H; [discriminate|].
  destruct (GBT.isDataTrailer mem ps).
  2: { cbn [negb] in H. apply Some_eq_inv in H. injection H as _ _ _ <- <-.
       rewrite (Hshrink out1 Hpre1). cbn [shrinkToSize pl_ptr].
       split; [congruence|]. split; [reflexivity|]. intros _. reflexivity. }
  cbn [negb] in H.
  destruct (_ <? _) in H; [discriminate|].
  (* the stored header lies behind the bytes that were there at entry *)
  match type of H with
  | context [mkPL (poke (poke ?b ?p1 ?x1) ?p2 ?x2) ?q] =>
    set (out2 := mkPL (poke (poke b p1 x1) p2 x2) q) in H;
      assert (Hout2 : pl_ptr out2 = pl_ptr out0 /\ pl_buf out0 `prefix_of` pl_buf out2)
  end.
  { subst out2. cbn [pl_ptr pl_buf PL.add]. split; [congruence|].
    destruct Hpre as [x Hx]. destruct Hb1 as [y Hy]. rewrite Hy. rewrite Hx.
    unfold PL.getSize. rewrite Hx, Nat2Z.id. rewrite length_app.
    rewrite <- !(app_assoc (pl_buf out0)).
    rewrite <- !Nat.add_assoc. rewrite !poke_after. apply prefix_app_r. reflexivity. }
  destruct Hout2 as [Hp2 Hb2].
  destruct (offsetToNext (readRDH mem rdhOff) =? 0).
  { apply Some_eq_inv in H. injection H as _ _ _ <- <-.
    split; [exact Hp2|]. split; [exact Hb2|discriminate]. }
  destruct (isSameRUandTrigger _ _).
  - cbn [negb] in H. apply IH in H; [exact H|exact Hp2|exact Hb2].
  - cbn [negb] in H. destruct (incPacketState _ _) as [s7|]; [|discriminate].
    cbn [mbind option_bind] in H. apply Some_eq_inv in H. injection H as _ _ _ <- <-.
    split; [exact Hp2|]. split; [exact Hb2|discriminate].
Qed.

(** X21: a skim that aborts leaves no trace in the output buffer. Whatever
    [skimPaddedRUData] returns, the bytes the output buffer held at entry
    are still there, in front, and its read cursor has not moved; when the
    call aborts, after any number of pages, the output buffer is exactly
    what it was at entry. *)
Theorem skimPaddedRUData_abort_rewinds {MAP : Mapping} (fuel : nat) (rd rd' : RawPixelReader)
        (mem : list Z) (raw p : Z) (out out' : PayLoadCont) (ab : bool) :
  skimPaddedRUData fuel rd mem raw out = Some (p, rd', out', ab) ->
  pl_ptr out' = pl_ptr out
  /\ pl_buf out `prefix_of` pl_buf out'
  /\ (ab = true -> out' = out).
Proof.
  intros H. unfold skimPaddedRUData in H.
  destruct (isRDHHeuristic (readRDH mem raw)); cbn [negb] in H.
  2: { apply Some_eq_inv in H. injection H as _ _ <- _.
       split; [reflexivity|]. split; [reflexivity|]. intros _. reflexivity. }
  destruct (getCreateRUDecode _ rd) as [[slot rd1]|]; [|discriminate].
  cbn [mbind option_bind] in H.
  destruct (idx (mRUDecodeVec rd1) slot) as [ruDec|]; [|discriminate].
  cbn [mbind option_bind] in H.
  match type of H with
  | context [skimPages ?f ?w ?m ?r ?i ?st ?rs ?o ?z] =>
    destruct (skimPages f w m r i st rs o z) as [[[[[ps st1] rs1] out1] ab1]|] eqn:Es;
      [|discriminate]
  end.
  cbn [mbind option_bind] in H. apply Some_eq_inv in H. injection H as _ _ <- <-.
  apply skimPages_abort in Es; [|reflexivity|reflexivity].
  destruct Es as (Hp & Hb & Hab).
  split; [exact Hp|]. split; [exact Hb|]. intros Ht. specialize (Hab Ht).
  destruct out1 as [b1 p1], out as [b0 p0]. cbn [pl_buf pl_ptr] in *. congruence.
Qed.

Lemma skimPaddedRUData_abort_rewinds_witness :
  exists p rd' out',
    skimPaddedRUData 4 Skim.readerRU0 (take 80 (Streams.pageOK 0)) 0 (mkPL [1; 2; 3] 0)
    = Some (p, rd', out', true)
    /\ pl_ptr out' = 0 /\ pl_buf (mkPL [1; 2; 3] 0) `prefix_of` pl_buf out'
    /\ out' = mkPL [1; 2; 3] 0.
Proof.
  destruct (skimPaddedRUData 4 Skim.readerRU0 (take 80 (Streams.pageOK 0)) 0 (mkPL [1; 2; 3] 0))
    as [[[[p rd'] out'] ab]|] eqn:E; [|vm_compute in E; discriminate E].
  assert (Hab : ab = true).
  { pose proof (f_equal (fun x => match x with
                                  | Some (_, _, _, b) => b
                                  | None => false
                                  end) E) as Hb.
    cbn beta iota in Hb. rewrite <- Hb. vm_compute. reflexivity. }
  subst ab. exists p, rd', out'. split; [reflexivity|].
  destruct (skimPaddedRUData_abort_rewinds _ _ _ _ _ _ _ _ _ E) as (H1 & H2 & H3).
  split; [exact H1|]. split; [exact H2|]. apply H3. reflexivity.
Defined.

(** ** One record per chip *)

Lemma seqZ_snoc0 (u : Z) : 0 <= u -> seqZ 0 (u + 1) = seqZ 0 u ++ [u].
Proof.
  intros Hu. replace (u + 1) with (Z.of_nat (S (Z.to_nat u))) by lia.
  rewrite seqZ_S. rewrite Z2Nat.id by lia. reflexivity.
Qed.

Lemma recordsOn_snoc {MAP : Mapping} (ruType : Z) (rec : Z -> list Z) (u j : Z) :
  0 <= u ->
  recordsOn ruType rec (u + 1) j
  = recordsOn ruType rec u j
    ++ (if cableSW (getChipOnRUInfo ruType u) =? j then rec u else []).
Proof.
  intros Hu. unfold recordsOn. rewrite (seqZ_snoc0 u Hu), flat_map_app.
  cbn [flat_map]. rewrite app_nil_r. reflexivity.
Qed.

Lemma PL_add_add (c : PayLoadCont) (a b : list Z) : PL.add (PL.add c a) b = PL.add c (a ++ b).
Proof. unfold PL.add. cbn [pl_buf pl_ptr]. rewrite app_assoc. reflexivity. Qed.

Lemma PL_add_nil (c : PayLoadCont) : PL.add c [] = c.
Proof. destruct c. unfold PL.add. cbn. rewrite app_nil_r. reflexivity. Qed.

Lemma chipsDone_init {MAP : Mapping} (rec : Z -> list Z) (ruType : Z) (ruD : RUDecodeData) :
  chipsDone rec ruType ruD ruD 0.
Proof.
  do 4 (split; [try reflexivity|]).
  - intros j. unfold recordsOn. cbn. destruct (cableData ruD !! j) as [c|]; [|reflexivity].
    cbn. rewrite PL_add_nil. reflexivity.
  - intros k Hk. lia.
Qed.

Lemma chipsDone_step {MAP : Mapping} (rec : Z -> list Z) (ruType : Z)
      (ruD0 ruD : RUDecodeData) (upto : Z) (bytes : list Z) :
  let chip := getChipOnRUInfo ruType upto in
  chipsDone rec ruType ruD0 ruD upto -> 0 <= upto ->
  0 <= cableSW chip < Z.of_nat (length (cableHWID ruD0)) ->
  rec upto = bytes ->
  chipsDone rec ruType ruD0
    (set_cableData
       (alter (fun c => PL.add c bytes) (Z.to_nat (cableSW chip)) (cableData ruD))
       (set_cableHWID (<[Z.to_nat (cableSW chip) := trunc 8 (cableHW chip)]> (cableHWID ruD))
                      ruD))
    (upto + 1).
Proof.
  intros chip (Hi & Hl & Hh & Hc & Hr) Hu Hcab Hrec.
  unfold chipsDone. cbn [ruInfo cableData cableHWID set_cableData set_cableHWID].
  split; [exact Hi|]. split; [rewrite length_alter; exact Hl|].
  split; [rewrite length_insert; exact Hh|]. split.
  - intros j. rewrite (recordsOn_snoc _ _ _ _ Hu). fold chip.
    destruct (decide (Z.to_nat (cableSW chip) = j)) as [<-|Hne].
    + rewrite list_lookup_alter_eq, Hc. rewrite Z2Nat.id by lia. rewrite Z.eqb_refl.
      destruct (cableData ruD0 !! Z.to_nat (cableSW chip)) as [c0|]; [|reflexivity].
      cbn. rewrite PL_add_add, Hrec. reflexivity.
    + rewrite list_lookup_alter_ne by exact Hne. rewrite Hc.
      destruct (Z.eqb_spec (cableSW chip) (Z.of_nat j)) as [He|_]; [lia|].
      rewrite app_nil_r. reflexivity.
  - intros k Hk.
    destruct (Z.eq_dec k upto) as [->|Hku].
    + split; [apply Hcab|]. exists upto. split; [lia|]. split; [reflexivity|].
      apply list_lookup_insert_eq. rewrite Hh. lia.
    + destruct (Hr k ltac:(lia)) as (Hk0 & k' & Hk'r & Hs & Hw). split; [exact Hk0|].
      destruct (Z.eq_dec (cableSW (getChipOnRUInfo ruType k)) (cableSW chip)) as [He|Hne].
      * exists upto. split; [lia|]. split; [symmetry; exact He|].
        rewrite He. apply list_lookup_insert_eq. rewrite Hh. lia.
      * exists k'. split; [lia|]. split; [exact Hs|].
        rewrite list_lookup_insert_ne by (fold chip in Hcab; lia). exact Hw.
Qed.
Lemma inRange_true (i n : Z) : 0 <= i < n -> inRange i n = true.
Proof.
  intros H. unfold inRange. apply andb_true_intro. split; [apply Z.leb_le|apply Z.ltb_lt]; lia.
Qed.

Lemma convertEmptyChips_loop_done {MAP : Mapping} {CODER : Coder} (rec : Z -> list Z)
      (bcv : Z) (ri : RUInfo.t) (ruD0 : RUDecodeData) :
  forall (n : nat) (from : Z) (ruD : RUDecodeData),
  chipsDone rec (RUInfo.ruType ri) ruD0 ruD from -> 0 <= from ->
  (forall k, from <= k < from + Z.of_nat n ->
     0 <= cableSW (getChipOnRUInfo (RUInfo.ruType ri) k) < MaxCablesPerRU
     /\ rec k = addEmptyChip (chipOnModuleHW (getChipOnRUInfo (RUInfo.ruType ri) k)) bcv) ->
  MaxCablesPerRU <= Z.of_nat (length (cableHWID ruD0)) ->
  exists ruD', convertEmptyChips_loop n bcv from ri ruD = Some ruD'
    /\ chipsDone rec (RUInfo.ruType ri) ruD0 ruD' (from + Z.of_nat n)
    /\ chipsData ruD' = chipsData ruD.
Proof.
  induction n as [|n IH]; intros from ruD Hd Hf Hk Hmax.
  - exists ruD. cbn [convertEmptyChips_loop]. rewrite Z.add_0_r. auto.
  - cbn [convertEmptyChips_loop].
    destruct (Hk from ltac:(lia)) as (Hc & Hrec).
    rewrite (inRange_true _ _ Hc).
    pose proof (chipsDone_step rec _ ruD0 ruD from _ Hd Hf ltac:(lia) Hrec) as Hs.
    destruct (IH _ _ Hs ltac:(lia) ltac:(intros k Hkk; apply Hk; lia) Hmax)
      as (ruD' & H1 & H2 & H3).
    exists ruD'. split; [exact H1|]. split; [|exact H3].
    replace (from + Z.of_nat (S n)) with (from + 1 + Z.of_nat n) by lia. exact H2.
Qed.

Lemma idsIncreasing_cons (a : ChipPixelData) (l : list ChipPixelData) :
  idsIncreasing (a :: l) -> Forall (fun d => chipID a < chipID d) l /\ idsIncreasing l.
Proof.
  intros H. split.
  - apply Forall_lookup. intros i d Hi. apply (H 0%nat (S i) a d); [reflexivity|exact Hi|lia].
  - intros i j x y Hx Hy Hij. apply (H (S i) (S j) x y); [exact Hx|exact Hy|lia].
Qed.

Lemma firedChip_found (l : list ChipPixelData) (c : ChipPixelData) :
  idsIncreasing l -> c ∈ l -> firedChip l (chipID c) = Some c.
Proof.
  unfold firedChip. induction l as [|a l IH]; intros Hs Hin.
  - inversion Hin.
  - destruct (idsIncreasing_cons _ _ Hs) as (Hlt & Hs').
    cbn [List.find]. apply elem_of_cons in Hin. destruct Hin as [->|Hin].
    + rewrite Z.eqb_refl. reflexivity.
    + pose proof (proj1 (Forall_forall _ _) Hlt c Hin) as Hfa. cbn in Hfa.
      destruct (Z.eqb_spec (chipID a) (chipID c)) as [E|_]; [lia|]. apply IH; assumption.
Qed.

Lemma firedChip_absent (l : list ChipPixelData) (k : Z) :
  (forall c, c ∈ l -> chipID c <> k) -> firedChip l k = None.
Proof.
  unfold firedChip. induction l as [|a l IH]; intros H; [reflexivity|].
  cbn [List.find]. destruct (Z.eqb_spec (chipID a) k) as [E|_].
  - exfalso. apply (H a); [left|exact E].
  - apply IH. intros c Hc. apply H. right. exact Hc.
Qed.

Lemma take_drop_cons {A} (l fs : list A) (c : A) (i n : nat) :
  take (S n) (drop i l) = c :: fs -> l !! i = Some c /\ take n (drop (S i) l) = fs.
Proof.
  intros H. destruct (l !! i) as [x|] eqn:E.
  - rewrite (drop_S _ _ _ E) in H. cbn [take] in H. injection H as -> <-. auto.
  - apply lookup_ge_None in E. rewrite drop_ge in H by exact E. discriminate.
Qed.

Lemma convertFired_done {MAP : Mapping} {CODER : Coder} (rec : Z -> list Z)
      (bcv nchTot : Z) (ri : RUInfo.t) (ruD0 : RUDecodeData) :
  let chipOf := getChipOnRUInfo (RUInfo.ruType ri) in
  ruInfo ruD0 = Some ri -> nchTot <= 0xffff ->
  (forall k, 0 <= k < nchTot -> 0 <= cableSW (chipOf k) < MaxCablesPerRU) ->
  MaxCablesPerRU <= Z.of_nat (length (cableHWID ruD0)) ->
  forall (fs : list ChipPixelData) (ich : nat) (next : Z) (ruD : RUDecodeData),
  chipsDone rec (RUInfo.ruType ri) ruD0 ruD next -> 0 <= next <= nchTot ->
  take (length fs) (drop ich (chipsData ruD)) = fs ->
  idsIncreasing fs -> Forall (fun c => next <= chipID c < nchTot) fs ->
  (forall c, c ∈ fs ->
     rec (chipID c)
     = encodeChip (mkChip (chipID c) (cp_ir c) (cp_trigger c) (sortPixels (pixels c)))
                  (chipOnModuleHW (chipOf (chipID c))) bcv) ->
  (forall k, next <= k < nchTot -> (forall c, c ∈ fs -> chipID c <> k) ->
     rec k = addEmptyChip (chipOnModuleHW (chipOf k)) bcv) ->
  exists next' ruD',
    convertFired (length fs) (Z.of_nat ich) bcv next ruD = Some (next', ruD')
    /\ next <= next' <= nchTot
    /\ chipsDone rec (RUInfo.ruType ri) ruD0 ruD' next'
    /\ (forall k, next' <= k < nchTot -> rec k = addEmptyChip (chipOnModuleHW (chipOf k)) bcv)
    /\ chipsData ruD'
       = take ich (chipsData ruD) ++ (chip_clear <$> fs)
         ++ drop (ich + length fs) (chipsData ruD).
Proof.
  intros chipOf Hri Hn16 Hcab Hmax. subst chipOf.
  induction fs as [|c fs IH]; intros ich next ruD Hd Hnx Htk Hinc Hfa Henc Hemp.
  - exists next, ruD. cbn [convertFired length fmap list_fmap app].
    split; [reflexivity|]. split; [lia|]. split; [exact Hd|]. split.
    + intros k Hk. apply Hemp; [exact Hk|]. intros c Hc. inversion Hc.
    + rewrite Nat.add_0_r, take_drop. reflexivity.
  - cbn [length] in Htk. destruct (take_drop_cons _ _ _ _ _ Htk) as (Hich & Htk').
    destruct (idsIncreasing_cons _ _ Hinc) as (Hlt & Hinc').
    apply Forall_cons in Hfa. destruct Hfa as (Hc & Hfa).
    cbn [length convertFired]. unfold idx.
    replace (Z.of_nat ich <? 0) with false by (symmetry; apply Z.ltb_ge; lia).
    rewrite Nat2Z.id, Hich. cbn [mbind option_bind].
    (* the empty chips below the fired one *)
    assert (Hri1 : ruInfo ruD = Some ri) by (destruct Hd as (-> & _); exact Hri).
    unfold convertEmptyChips. rewrite Hri1. cbn [mbind option_bind].
    destruct (convertEmptyChips_loop_done rec bcv ri ruD0 (Z.to_nat (chipID c - next)) next ruD
                Hd ltac:(lia)) as (ruD1 & He & Hd1 & Hcd1); [|exact Hmax|].
    { intros k Hk. split; [apply Hcab; lia|]. apply Hemp; [lia|].
      intros d Hin. apply elem_of_cons in Hin. destruct Hin as [->|Hin]; [lia|].
      pose proof (proj1 (Forall_forall _ _) Hlt d Hin) as Hf. cbn in Hf. lia. }
    rewrite He. cbn [mbind option_bind].
    replace (next + Z.of_nat (Z.to_nat (chipID c - next))) with (chipID c) in Hd1 by lia.
    (* the fired chip *)
    assert (Hri2 : ruInfo ruD1 = Some ri) by (destruct Hd1 as (-> & _); exact Hri).
    unfold convertChip. rewrite Hri2. cbn [mbind option_bind].
    rewrite (inRange_true _ _ (Hcab (chipID c) ltac:(lia))).
    pose proof (chipsDone_step rec _ ruD0 ruD1 (chipID c) _ Hd1 ltac:(lia)
                  ltac:(pose proof (Hcab (chipID c) ltac:(lia)); lia)
                  (Henc c ltac:(left))) as Hd2.
    cbn [mbind option_bind].
    rewrite (trunc_small 16 (chipID c + 1)) by lia.
    match goal with |- context [convertFired _ _ _ _ ?r] => set (ruD3 := r) end.
    assert (Hd3 : chipsDone rec (RUInfo.ruType ri) ruD0 ruD3 (chipID c + 1)) by exact Hd2.
    assert (Hcd3 : chipsData ruD3 = <[ich := chip_clear c]> (chipsData ruD)).
    { unfold ruD3. cbn [chipsData set_chipsData set_cableData set_cableHWID].
      rewrite Hcd1. reflexivity. }
    destruct (IH (S ich) (chipID c + 1) ruD3 Hd3 ltac:(lia))
      as (next' & ruD' & Hcf & Hn' & Hd' & Hemp' & Hcd').
    { rewrite Hcd3, drop_insert_lt by lia. exact Htk'. }
    { exact Hinc'. }
    { apply Forall_forall. intros d Hin.
      pose proof (proj1 (Forall_forall _ _) Hlt d Hin) as Hf1.
      pose proof (proj1 (Forall_forall _ _) Hfa d Hin) as Hf2. cbn in Hf1, Hf2. lia. }
    { intros d Hin. apply Henc. right. exact Hin. }
    { intros k Hk Hno. apply Hemp; [lia|]. intros d Hin.
      apply elem_of_cons in Hin. destruct Hin as [->|Hin]; [lia|]. apply Hno. exact Hin. }
    exists next', ruD'. replace (Z.of_nat ich + 1) with (Z.of_nat (S ich)) by lia.
    split; [exact Hcf|]. split; [lia|]. split; [exact Hd'|]. split; [exact Hemp'|].
    rewrite Hcd', Hcd3. rewrite drop_insert_lt by lia.
    assert (Hx : <[ich := chip_clear c]> (chipsData ruD) !! ich = Some (chip_clear c)).
    { apply list_lookup_insert_eq. apply lookup_lt_Some in Hich. exact Hich. }
    rewrite (take_S_r _ _ _ Hx), take_insert_ge by lia.
    rewrite <- app_assoc. cbn [fmap list_fmap app].
    replace (S ich + length fs)%nat with (ich + S (length fs))%nat by lia. reflexivity.
Qed.

(** X22: the conversion loop of [digits2raw] for one RU, on fired chips
    whose IDs go up and lie below [nchTot], gives every chip of the RU one
    record. The loop over the [n] fired chips and the final
    [convertEmptyChips] both return; every cable buffer then holds what it
    held before, followed by the records of the chips of this cable in chip
    order (the coder's words for the sorted pixels of a fired chip, the
    empty-chip flag for any other); the fired entries of [chipsData] are
    cleared and the others untouched; and the cable of every chip has the
    HW ID of one of its chips registered. *)
Theorem convertRU_one_record_per_chip {MAP : Mapping} {CODER : Coder}
        (bcv : Z) (n : nat) (nchTot : Z) (ri : RUInfo.t) (ruD : RUDecodeData) :
  let fired := take n (chipsData ruD) in
  let ruType := RUInfo.ruType ri in
  ruInfo ruD = Some ri ->
  (n <= length (chipsData ruD))%nat ->
  idsIncreasing fired ->
  Forall (fun c => 0 <= chipID c < nchTot) fired ->
  0 <= nchTot <= 0xffff ->
  (forall k, 0 <= k < nchTot -> 0 <= cableSW (getChipOnRUInfo ruType k) < MaxCablesPerRU) ->
  MaxCablesPerRU <= Z.of_nat (length (cableHWID ruD)) ->
  exists next ruD1 ruD2,
    convertFired n 0 bcv 0 ruD = Some (next, ruD1)
    /\ convertEmptyChips bcv next nchTot ruD1 = Some ruD2
    /\ length (cableData ruD2) = length (cableData ruD)
    /\ (forall j c0, cableData ruD !! j = Some c0 ->
          cableData ruD2 !! j
          = Some (PL.add c0 (cableRecords bcv ruType fired nchTot (Z.of_nat j))))
    /\ chipsData ruD2 = (chip_clear <$> fired) ++ drop n (chipsData ruD)
    /\ cablesRegistered ruType (cableHWID ruD2) nchTot.
Proof.
  intros fired ruType Hri Hn Hinc Hfa Hn16 Hcab Hmax.
  assert (Hlen : length fired = n) by (unfold fired; rewrite length_take; lia).
  destruct (convertFired_done (chipRecord bcv ruType fired) bcv nchTot ri ruD Hri
              ltac:(lia) Hcab Hmax fired 0%nat 0 ruD (chipsDone_init _ _ _) ltac:(lia))
    as (next & ruD1 & Hcf & Hnx & Hd1 & Hemp & Hcd1).
  - rewrite drop_0, Hlen. reflexivity.
  - exact Hinc.
  - exact Hfa.
  - intros c Hc. unfold chipRecord. rewrite (firedChip_found _ _ Hinc Hc). reflexivity.
  - intros k Hk Hno. unfold chipRecord. rewrite (firedChip_absent _ _ Hno). reflexivity.
  - rewrite Hlen in Hcf. change (Z.of_nat 0) with 0 in Hcf.
    assert (Hri1 : ruInfo ruD1 = Some ri) by (destruct Hd1 as (-> & _); exact Hri).
    destruct (convertEmptyChips_loop_done (chipRecord bcv ruType fired) bcv ri ruD
                (Z.to_nat (nchTot - next)) next ruD1 Hd1 ltac:(lia))
      as (ruD2 & He & Hd2 & Hcd2); [|exact Hmax|].
    { intros k Hk. split; [apply Hcab; lia|]. apply Hemp. lia. }
    replace (next + Z.of_nat (Z.to_nat (nchTot - next))) with nchTot in Hd2 by lia.
    exists next, ruD1, ruD2. split; [exact Hcf|]. split.
    { unfold convertEmptyChips. rewrite Hri1. exact He. }
    destruct Hd2 as (_ & Hl & _ & Hc & Hr).
    split; [exact Hl|]. split; [|split; [|exact Hr]].
    + intros j c0 Hj. rewrite Hc, Hj. reflexivity.
    + rewrite Hcd2, Hcd1, Hlen. cbn [take app]. rewrite Nat.add_0_l. reflexivity.
Qed.

Lemma convertRU_one_record_per_chip_witness :
  exists next ruD1 ruD2,
    convertFired 2 0 42 0 ruTwoFired = Some (next, ruD1)
    /\ convertEmptyChips 42 next 5 ruD1 = Some ruD2
    /\ pl_buf <$> take 5 (cableData ruD2)
       = [addEmptyChip 0 42;
          encodeChip (mkChip 1 (mkIR 0 0) 0 [mkPix 3 5]) 1 42;
          addEmptyChip 2 42;
          encodeChip (mkChip 3 (mkIR 0 0) 0 [mkPix 2 4; mkPix 2 9; mkPix 7 1]) 3 42;
          addEmptyChip 4 42]
    /\ take 2 (chipsData ruD2) = [mkChip 1 (mkIR 0 0) 0 []; mkChip 3 (mkIR 0 0) 0 []].
Proof.
  destruct (convertRU_one_record_per_chip 42 2 5 (ruInfoOf 0) ruTwoFired)
    as (next & ruD1 & ruD2 & H1 & H2 & H3 & H4 & H5 & _).
  - reflexivity.
  - vm_compute. lia.
  - intros [|[|i]] [|[|j]] a b Ha Hb Hij; try lia;
      try (apply Some_eq_inv in Ha; apply Some_eq_inv in Hb; subst a b; cbn; lia);
      try discriminate Ha; discriminate Hb.
  - repeat constructor; cbn; lia.
  - lia.
  - intros k Hk. cbn. unfold MaxCablesPerRU. lia.
  - vm_compute. discriminate.
  - exists next, ruD1, ruD2. split; [exact H1|]. split; [exact H2|]. split.
    + assert (Hj : forall j, (j < 5)%nat ->
                cableData ruD2 !! j
                = Some (PL.add PL.empty
                          (cableRecords 42 0 (take 2 (chipsData ruTwoFired)) 5 (Z.of_nat j)))).
      { intros j Hj. apply H4.
        do 5 (destruct j as [|j]; [reflexivity|]). lia. }
      apply list_eq. intros i. rewrite list_lookup_fmap.
      destruct (decide (i < 5)%nat) as [Hi|Hi].
      * rewrite lookup_take_lt by exact Hi. rewrite (Hj i Hi).
        do 5 (destruct i as [|i]; [reflexivity|]). lia.
      * rewrite lookup_take_ge by lia.
        do 5 (destruct i as [|i]; [lia|]). reflexivity.
    + rewrite H5. reflexivity.
Defined.

(** ** What the encoder writes over several pages, the decoder reads back *)

Lemma decodeRUPages_rest {MAP : Mapping} (fuel : nat) (wsz : Z) (mem : list Z) (rdhOff : Z)
      (ri : RUInfo.t) (ruD : RUDecodeData) :
  let rdh := readRDH mem rdhOff in
  let raw := rdhOff + headerSize rdh in
  GBT.isDataHeader mem raw = true ->
  exists ruD0,
    cableData ruD0 = cableData ruD
    /\ decodeRUPages (S fuel) wsz mem rdhOff ri ruD
       = decodePageRest fuel wsz mem rdhOff ri
           (Z.to_nat (Z.quot (memorySize rdh - headerSize rdh) wsz - 2)) (raw + wsz) ruD0.
Proof.
  intros rdh raw Hh. cbn [decodeRUPages]. fold rdh. fold raw. rewrite Hh. cbn [negb].
  eexists. split; [|reflexivity]. reflexivity.
Qed.

Lemma decodePageRest_app {MAP : Mapping} (fuel : nat) (a b : nat) (wsz : Z) (mem : list Z)
      (rdhOff raw : Z) (ri : RUInfo.t) (ruD ruD1 : RUDecodeData) :
  0 < wsz ->
  decodeDataWords a wsz mem raw ri ruD = Some (raw + Z.of_nat a * wsz, ruD1) ->
  decodePageRest fuel wsz mem rdhOff ri (a + b) raw ruD
  = decodePageRest fuel wsz mem rdhOff ri b (raw + Z.of_nat a * wsz) ruD1.
Proof.
  intros Hw H. unfold decodePageRest.
  rewrite (decodeDataWords_app a b wsz mem raw ri ruD ruD1 Hw H). reflexivity.
Qed.

Lemma byteAt_word (buf w mem : list Z) (k : nat) :
  (buf ++ w) `prefix_of` mem -> (k < length w)%nat ->
  byteAt mem (Z.of_nat (length buf) + Z.of_nat k) = default 0 (w !! k).
Proof.
  intros Hp Hk. rewrite (byteAt_prefix (buf ++ w) mem) by (try exact Hp; rewrite length_app; lia).
  apply byteAt_app. exact Hk.
Qed.

Lemma readRDH_at (pre rest mem : list Z) (h : RDH) :
  (pre ++ writeRDH h ++ rest) `prefix_of` mem ->
  readRDH mem (Z.of_nat (length pre)) = rdhStored h.
Proof.
  intros [r ->]. rewrite <- !app_assoc. rewrite readRDH_skip. apply readRDH_writeRDH.
Qed.

Lemma state_at (buf w mem : list Z) (f : Z) :
  (buf ++ take 16 w) `prefix_of` mem -> length w = 16%nat -> w !! 8%nat = Some f ->
  byteAt mem (Z.of_nat (length buf) + 8) = f.
Proof.
  intros Hm Hl Hf. change 8 with (Z.of_nat 8).
  rewrite (byteAt_word buf (take 16 w) mem 8 Hm) by (rewrite length_take, Hl; lia).
  rewrite lookup_take_lt by lia. rewrite Hf. reflexivity.
Qed.

Lemma flag_at (buf w mem : list Z) (f : Z) :
  (buf ++ take 16 w) `prefix_of` mem -> length w = 16%nat -> w !! 9%nat = Some f ->
  byteAt mem (Z.of_nat (length buf) + 9) = f.
Proof.
  intros Hm Hl Hf. change 9 with (Z.of_nat 9).
  rewrite (byteAt_word buf (take 16 w) mem 9 Hm) by (rewrite length_take, Hl; lia).
  rewrite lookup_take_lt by lia. rewrite Hf. reflexivity.
Qed.

Lemma fillPages_step {MAP : Mapping} (fuel : nat) (nCab wsz maxW : Z) (impose : bool)
      (ri : RUInfo.t) (hwid : list Z) (st : FillLoop) :
  fillPages (S fuel) nCab wsz maxW impose ri hwid st
  = (st1 ← fillCables (Z.to_nat nCab) 0 wsz maxW ri hwid st;
     let st2 := if negb (fl_needed st1 =? 0) && (maxW <=? fl_inPacket st1)
                then openPage wsz maxW impose st1 else st1 in
     if fl_needed st2 =? 0 then Some st2 else fillPages fuel nCab wsz maxW impose ri hwid st2).
Proof. reflexivity. Qed.

Lemma pageOpen_pass {MAP : Mapping} (nCab : Z) (impose : bool) (ri : RUInfo.t)
      (hwid : list Z) (st st1 : FillLoop) (pOff : Z) :
  fillCables (Z.to_nat nCab) 0 GBTPaddedWordLength maxWordsPerPage ri hwid st = Some st1 ->
  Forall cableReadOK (fl_cables st) ->
  fl_needed st = remWords (lanes (fl_link st)) (fl_cables st) 0 (Z.to_nat nCab) ->
  fl_inPacket st < maxWordsPerPage ->
  pageOpen impose st pOff ->
  pageOpen impose st1 pOff
  /\ fl_needed st1 = remWords (lanes (fl_link st1)) (fl_cables st1) 0 (Z.to_nat nCab)
  /\ fl_inPacket st1 <= maxWordsPerPage
  /\ fl_needed st1 <= fl_needed st
  /\ fl_needed st1 + fl_inPacket st1 = fl_needed st + fl_inPacket st
  /\ lanes (fl_link st1) = lanes (fl_link st)
  /\ fl_pages st1 = fl_pages st.
Proof.
  intros E Hok Hneed Hin Hp.
  destruct (fillCables_pass _ _ _ _ _ _ _ _ E ltac:(lia) (cableReadOK_ptr _ Hok))
    as (W & HW & Hn1 & Hi1 & Hp1 & Hr1 & Hl1 & _ & _ & _ & _ & Hrem & Hmax & _).
  destruct (fillCables_size _ _ _ _ _ _ _ _ E ltac:(unfold GBTPaddedWordLength; lia))
    as [_ Hsz].
  pose proof (fillCables_grows _ _ _ _ _ _ _ _ E) as (_ & Hpre & _).
  pose proof (remWords_nonneg (lanes (fl_link st)) (fl_cables st1) 0 (Z.to_nat nCab)) as Hnn.
  assert (Hneed1 : fl_needed st1
                   = remWords (lanes (fl_link st1)) (fl_cables st1) 0 (Z.to_nat nCab))
    by (rewrite Hl1; lia).
  destruct Hp as (P1 & P2 & P3 & P4 & P5 & P6 & P7 & P8 & P9 & P10 & P11).
  split; [|repeat split; (assumption || lia)].
  unfold pageOpen. rewrite Hr1.
  replace (fl_needed st1 + fl_inPacket st1) with (fl_needed st + fl_inPacket st) by lia.
  replace (pageCnt (fl_rdh st) * maxWordsPerPage + fl_needed st1 + fl_inPacket st1)
    with (pageCnt (fl_rdh st) * maxWordsPerPage + fl_needed st + fl_inPacket st) by lia.
  do 7 (split; [assumption|]). split; [lia|]. split; [lia|]. split.
  - rewrite Hsz, P10. rewrite Hn1, Hi1. ring.
  - intros mem Hm. apply P11. etransitivity; eassumption.
Qed.

Lemma isRDHHeuristic_headerSize (h : RDH) : isRDHHeuristic h = true -> headerSize h = sizeofRDH.
Proof.
  unfold isRDHHeuristic. intros H.
  destruct (Z.eqb_spec (headerSize h) sizeofRDH); [assumption|discriminate].
Qed.

Lemma trunc_trunc (n v : Z) : 0 <= n -> trunc n (trunc n v) = trunc n v.
Proof. intros Hn. apply trunc_small; [exact Hn|]. apply trunc_range. exact Hn. Qed.

Lemma pageMemorySize_padded (needed : Z) :
  0 <= needed -> sizeofRDH + (needed + 2) * GBTPaddedWordLength < 2 ^ 16 ->
  pageMemorySize needed GBTPaddedWordLength
  = sizeofRDH + (Z.min needed maxWordsPerPage + 2) * GBTPaddedWordLength.
Proof.
  unfold pageMemorySize, sizeofRDH, GBTPaddedWordLength, MaxGBTPacketBytes, maxWordsPerPage.
  intros H0 Hb. rewrite trunc_small by lia.
  destruct (Z.ltb_spec (8 * 1024) (64 + (needed + 2) * 16)); lia.
Qed.

Lemma pageOpen_openPage (impose : bool) (st : FillLoop) (pOff : Z) :
  pageOpen impose st pOff -> fl_inPacket st = maxWordsPerPage -> 0 < fl_needed st ->
  let st2 := openPage GBTPaddedWordLength maxWordsPerPage impose st in
  pageOpen impose st2 (pOff + MaxGBTPacketBytes)
  /\ offsetToNext (fl_rdh st) = MaxGBTPacketBytes
  /\ isSameRUandTrigger (fl_rdh st) (fl_rdh st2) = true
  /\ pl_buf (data (fl_link st2))
     = ((pl_buf (data (fl_link st)) ++ take 16 (GBT.trailer 0 0 0)) ++ writeRDH (fl_rdh st2))
       ++ take 16 (GBT.header (pageCnt (fl_rdh st2)) (lanes (fl_link st)))
  /\ PL.getSize (data (fl_link st)) + GBTPaddedWordLength = pOff + MaxGBTPacketBytes
  /\ fl_cables st2 = fl_cables st /\ fl_needed st2 = fl_needed st
  /\ lanes (fl_link st2) = lanes (fl_link st)
  /\ fl_pages st2 = fl_pages st ++ [fl_rdh st2].
Proof.
  intros (P1 & P2 & P3 & P4 & P5 & P6 & P7 & P8 & P9 & P10 & P11) Hfull Hneed st2.
  pose proof (isRDHHeuristic_headerSize _ P2) as Hhs.
  set (h := fl_rdh st) in *.
  set (h' := fl_rdh st2).
  assert (Hpc : pageCnt h' = pageCnt h + 1).
  { subst h' st2. cbn [fl_rdh openPage pageCnt set_offsetToNext set_memorySize set_page].
    apply trunc_small; [lia|]. fold h.
    unfold sizeofRDH, maxWordsPerPage, GBTPaddedWordLength in *. lia. }
  assert (Hpm : pageMemorySize (fl_needed st) GBTPaddedWordLength
                = sizeofRDH + (Z.min (fl_needed st) maxWordsPerPage + 2) * GBTPaddedWordLength).
  { apply pageMemorySize_padded; [lia|].
    unfold sizeofRDH, maxWordsPerPage, GBTPaddedWordLength in *. nia. }
  assert (Hms : memorySize h'
                = sizeofRDH + (Z.min (fl_needed st) maxWordsPerPage + 2) * GBTPaddedWordLength).
  { subst h' st2. cbn [fl_rdh openPage memorySize set_offsetToNext set_memorySize].
    rewrite Hpm. apply trunc_small; [lia|].
    unfold sizeofRDH, maxWordsPerPage, GBTPaddedWordLength. lia. }
  assert (Hon : offsetToNext h' = if impose then MaxGBTPacketBytes else memorySize h').
  { subst h' st2. cbn [fl_rdh openPage offsetToNext memorySize set_offsetToNext set_memorySize].
    destruct impose; [reflexivity|]. apply trunc_trunc. lia. }
  assert (Hs' : rdhStored h' = h').
  { subst h' st2. cbn [fl_rdh openPage]. fold h.
    unfold rdhStored, set_offsetToNext, set_memorySize, set_page.
    cbn [version headerSize blockLength feeId priority zero0 offsetToNext memorySize linkID
         packetCounter cruID zero1 triggerOrbit heartbeatOrbit triggerBC zero41 heartbeatBC
         zero42 triggerType word5 detectorField par stop pageCnt zero6].
    f_equal; first [apply trunc_trunc; lia | rdh_field P1]. }
  assert (Hhs' : headerSize h' = sizeofRDH) by exact Hhs.
  assert (Hbuf : pl_buf (data (fl_link st2))
                 = ((pl_buf (data (fl_link st)) ++ take 16 (GBT.trailer 0 0 0)) ++ writeRDH h')
                   ++ take 16 (GBT.header (pageCnt h') (lanes (fl_link st)))).
  { transitivity (((pl_buf (data (fl_link st)) ++ take 16 (GBT.trailer 0 0 0))
                    ++ take (Z.to_nat (headerSize h')) (writeRDH h'))
                   ++ take 16 (GBT.header (pageCnt h') (lanes (fl_link st)))); [reflexivity|].
    rewrite Hhs'. rewrite (take_ge (writeRDH h')) by (rewrite length_writeRDH; reflexivity).
    reflexivity. }
  assert (Hsz : PL.getSize (data (fl_link st)) + GBTPaddedWordLength = pOff + MaxGBTPacketBytes).
  { rewrite P10, Hfull.
    unfold sizeofRDH, maxWordsPerPage, GBTPaddedWordLength, MaxGBTPacketBytes. lia. }
  split; [|split; [|split; [|split; [exact Hbuf|split; [exact Hsz|repeat split]]]]].
  - unfold pageOpen. fold h'.
    change (fl_needed st2) with (fl_needed st). change (fl_inPacket st2) with 0.
    split; [exact Hs'|]. split; [exact P2|]. split; [exact P3|]. split; [lia|].
    split; [rewrite Hpc; unfold sizeofRDH, maxWordsPerPage, GBTPaddedWordLength in *; lia|].
    split; [rewrite Hms, Z.add_0_r; reflexivity|]. split; [exact Hon|].
    split; [lia|]. split; [lia|]. split.
    + unfold PL.getSize in *. rewrite Hbuf, !length_app, length_writeRDH.
      rewrite !length_take, length_GBT_trailer, length_GBT_header.
      unfold sizeofRDH, maxWordsPerPage, GBTPaddedWordLength, MaxGBTPacketBytes in *. lia.
    + intros mem Hm. rewrite Hbuf, <- app_assoc in Hm.
      replace (pOff + MaxGBTPacketBytes)
        with (Z.of_nat (length (pl_buf (data (fl_link st)) ++ take 16 (GBT.trailer 0 0 0)))).
      * rewrite (readRDH_at _ _ _ _ Hm). exact Hs'.
      * rewrite length_app, length_take, length_GBT_trailer. unfold PL.getSize in Hsz.
        unfold GBTPaddedWordLength in Hsz. lia.
  - rewrite P7. destruct impose; [reflexivity|]. rewrite P6.
    unfold sizeofRDH, maxWordsPerPage, GBTPaddedWordLength, MaxGBTPacketBytes in *. lia.
  - unfold isSameRUandTrigger. rewrite Hpc.
    change (feeId h') with (feeId h). change (triggerOrbit h') with (triggerOrbit h).
    change (triggerBC h') with (triggerBC h).
    change (heartbeatOrbit h') with (heartbeatOrbit h).
    change (heartbeatBC h') with (heartbeatBC h).
    change (triggerType h') with (triggerType h).
    rewrite !Z.eqb_refl, Z.land_diag. cbn [negb orb].
    destruct (Z.eqb_spec (pageCnt h + 1) 0) as [|_]; [lia|].
    destruct (Z.eqb_spec (triggerType h) 0) as [E|_]; [contradiction|reflexivity].
Qed.

Lemma decodePageRest_last {MAP : Mapping} (fuel : nat) (wsz : Z) (mem : list Z)
      (rdhOff raw : Z) (ri : RUInfo.t) (ruD : RUDecodeData) :
  let rdh := readRDH mem rdhOff in
  GBT.isDataTrailer mem raw = true ->
  GBT.getPacketState mem raw = trunc 8 (Z.shiftl 1 GBT.PacketDone) ->
  offsetToNext rdh <> 0 ->
  isSameRUandTrigger rdh (readRDH mem (rdhOff + offsetToNext rdh)) = false ->
  exists ruD',
    decodePageRest fuel wsz mem rdhOff ri 0 raw ruD
    = Some (rdhOff + offsetToNext rdh, ruD', false)
    /\ cableData ruD' = cableData ruD.
Proof.
  intros rdh Ht Hps Ho Hs. unfold decodePageRest. fold rdh.
  cbn [decodeDataWords mbind option_bind]. rewrite Ht. cbn [negb].
  destruct (Z.eqb_spec (offsetToNext rdh) 0) as [|_]; [contradiction|].
  rewrite Hs. cbn [negb]. rewrite Hps, incPacketState_done. cbn [mbind option_bind].
  eexists. split; reflexivity.
Qed.

Lemma decodePageRest_next {MAP : Mapping} (fuel : nat) (wsz : Z) (mem : list Z)
      (rdhOff raw : Z) (ri : RUInfo.t) (ruD : RUDecodeData) :
  let rdh := readRDH mem rdhOff in
  let next := rdhOff + offsetToNext rdh in
  let rdhN := readRDH mem next in
  GBT.isDataTrailer mem raw = true -> offsetToNext rdh <> 0 ->
  isSameRUandTrigger rdh rdhN = true ->
  GBT.isDataHeader mem (next + headerSize rdhN) = true ->
  exists ruD0,
    cableData ruD0 = cableData ruD
    /\ decodePageRest (S fuel) wsz mem rdhOff ri 0 raw ruD
       = decodePageRest fuel wsz mem next ri
           (Z.to_nat (Z.quot (memorySize rdhN - headerSize rdhN) wsz - 2))
           (next + headerSize rdhN + wsz) ruD0.
Proof.
  intros rdh next rdhN Ht Ho Hs Hh.
  unfold decodePageRest at 1. fold rdh. fold next. fold rdhN.
  cbn [decodeDataWords mbind option_bind]. rewrite Ht. cbn [negb].
  destruct (Z.eqb_spec (offsetToNext rdh) 0) as [|_]; [contradiction|].
  rewrite Hs. cbn [negb].
  match goal with |- context [decodeRUPages _ _ _ _ _ ?d] => set (ruD1 := d) end.
  destruct (decodeRUPages_rest fuel wsz mem next ri ruD1 Hh) as (ruD0 & Hc & ->).
  exists ruD0. split; [|reflexivity]. rewrite Hc. subst ruD1.
  destruct (negb (pageCnt rdhN =? pageCnt rdh + 1)); reflexivity.
Qed.

Lemma cablesMirror_same (lns : Z) (enc dec0 dec dec' : list PayLoadCont) :
  dec' = dec -> cablesMirror lns enc dec0 dec -> cablesMirror lns enc dec0 dec'.
Proof. intros -> H. exact H. Qed.

Lemma fillPages_pages_decoded {MAP : Mapping} (nCab : Z) (impose : bool) (ri : RUInfo.t)
      (hwid : list Z) (fuel : nat) :
  forall (st st' : FillLoop) (pOff : Z),
  fillPages fuel nCab GBTPaddedWordLength maxWordsPerPage impose ri hwid st = Some st' ->
  0 <= nCab -> cableFlagsOK ri (lanes (fl_link st)) hwid nCab ->
  Forall cableReadOK (fl_cables st) ->
  fl_needed st = remWords (lanes (fl_link st)) (fl_cables st) 0 (Z.to_nat nCab) ->
  fl_inPacket st < maxWordsPerPage ->
  pageOpen impose st pOff ->
  last (fl_pages st) = Some (fl_rdh st) ->
  exists np : nat,
    length (fl_pages st') = (length (fl_pages st) + np)%nat
    /\ last (fl_pages st') = Some (fl_rdh st')
    /\ Forall cableReadOK (fl_cables st')
    /\ forall (mem : list Z) (ruD : RUDecodeData) (dec0 : list PayLoadCont) (dfuel : nat),
         (pl_buf (data (fl_link st'))
          ++ take 16 (GBT.trailer (lanes (fl_link st')) 0 (Z.shiftl 1 GBT.PacketDone)))
           `prefix_of` mem ->
         cablesMirror (lanes (fl_link st)) (fl_cables st) dec0 (cableData ruD) ->
         isSameRUandTrigger
           (fl_rdh st')
           (readRDH mem (pOff + MaxGBTPacketBytes * Z.of_nat np + offsetToNext (fl_rdh st')))
         = false ->
         (np <= dfuel)%nat ->
         exists ruD',
           decodePageRest dfuel GBTPaddedWordLength mem pOff ri
             (Z.to_nat (Z.min (fl_needed st) (maxWordsPerPage - fl_inPacket st)))
             (PL.getSize (data (fl_link st))) ruD
           = Some (pOff + MaxGBTPacketBytes * Z.of_nat np + offsetToNext (fl_rdh st'),
                   ruD', false)
           /\ cablesMirror (lanes (fl_link st)) (fl_cables st') dec0 (cableData ruD').
Proof.
  induction fuel as [|fuel IH]; intros st st' pOff H HnC Hflags Hok Hneed Hin Hp Hlast;
    [discriminate|].
  rewrite fillPages_step in H.
  destruct (fillCables (Z.to_nat nCab) 0 GBTPaddedWordLength maxWordsPerPage ri hwid st)
    as [st1|] eqn:E1; [|discriminate].
  cbn [mbind option_bind] in H. cbv zeta in H.
  destruct (pageOpen_pass nCab impose ri hwid st st1 pOff E1 Hok Hneed Hin Hp)
    as (Hp1 & Hneed1 & Hin1 & Hle1 & Hsum1 & Hl1 & Hpg1).
  destruct (fillCables_size _ _ _ _ _ _ _ _ E1 ltac:(unfold GBTPaddedWordLength; lia))
    as [_ Hsz1].
  destruct (fillCables_frame _ _ _ _ _ _ _ _ E1) as (Hr1 & _ & _).
  destruct (fillCables_decoded _ _ _ _ nCab _ _ _ _ E1 ltac:(lia) ltac:(lia)
              ltac:(unfold GBTPaddedWordLength; lia) Hflags Hok) as [Hok1 Hdec1].
  pose proof (remWords_nonneg (lanes (fl_link st1)) (fl_cables st1) 0 (Z.to_nat nCab)) as Hnn1.
  pose proof Hp as (_ & _ & _ & _ & _ & P6 & P7 & P8 & _ & P10 & P11).
  pose proof Hp1 as (_ & _ & _ & _ & _ & _ & _ & _ & _ & Q10 & Q11).
  (* the words of this pass, on the decoder's side *)
  assert (Hwords : forall mem ruD dec0 dfuel (b : nat),
             pl_buf (data (fl_link st1)) `prefix_of` mem ->
             cablesMirror (lanes (fl_link st)) (fl_cables st) dec0 (cableData ruD) ->
             Z.of_nat b = Z.min (fl_needed st1) (maxWordsPerPage - fl_inPacket st1) ->
             exists ruD1,
               decodePageRest dfuel GBTPaddedWordLength mem pOff ri
                 (Z.to_nat (Z.min (fl_needed st) (maxWordsPerPage - fl_inPacket st)))
                 (PL.getSize (data (fl_link st))) ruD
               = decodePageRest dfuel GBTPaddedWordLength mem pOff ri b
                   (PL.getSize (data (fl_link st1))) ruD1
               /\ cablesMirror (lanes (fl_link st)) (fl_cables st1) dec0 (cableData ruD1)).
  { intros mem ruD dec0 dfuel b Hm Hmir Hb.
    destruct (Hdec1 mem ruD dec0 Hm Hmir) as (ruD1 & D1 & M1).
    exists ruD1. split; [|exact M1].
    replace (Z.to_nat (Z.min (fl_needed st) (maxWordsPerPage - fl_inPacket st)))
      with (Z.to_nat (fl_needed st - fl_needed st1) + b)%nat by lia.
    rewrite (decodePageRest_app dfuel _ b GBTPaddedWordLength mem pOff _ ri ruD ruD1
               ltac:(unfold GBTPaddedWordLength; lia)).
    2: { rewrite D1. repeat f_equal. rewrite Hsz1, Z2Nat.id by lia. reflexivity. }
    rewrite Z2Nat.id by lia. rewrite <- Hsz1. reflexivity. }
  destruct (negb (fl_needed st1 =? 0) && (maxWordsPerPage <=? fl_inPacket st1)) eqn:Enew.
  - (* a new page *)
    apply andb_prop in Enew. destruct Enew as [Enz Efull].
    destruct (Z.eqb_spec (fl_needed st1) 0) as [|Hnz]; [discriminate|].
    apply Z.leb_le in Efull.
    destruct (pageOpen_openPage impose st1 pOff Hp1 ltac:(lia) ltac:(lia))
      as (Hp2 & Hoff & Hsame & Hbuf2 & Hsz2 & Hc2 & Hn2 & Hl2 & Hpg2).
    set (st2 := openPage GBTPaddedWordLength maxWordsPerPage impose st1) in *.
    rewrite Hn2 in H.
    destruct (Z.eqb_spec (fl_needed st1) 0) as [|_]; [contradiction|].
    pose proof (fillPages_grows _ _ _ _ _ _ _ _ _ H) as (_ & Hpre2 & _).
    destruct (IH st2 st' (pOff + MaxGBTPacketBytes) H HnC) as (np & Hlen & Hlast' & Hok' & Hdec).
    { rewrite Hl2, Hl1. exact Hflags. }
    { rewrite Hc2. exact Hok1. }
    { rewrite Hn2, Hc2, Hl2. exact Hneed1. }
    { change (fl_inPacket st2) with 0. unfold maxWordsPerPage. lia. }
    { exact Hp2. }
    { rewrite Hpg2. apply last_snoc. }
    exists (S np). split; [rewrite Hlen, Hpg2, length_app, Hpg1; cbn [length]; lia|].
    split; [exact Hlast'|]. split; [exact Hok'|].
    intros mem ruD dec0 dfuel Hm Hmir Hnot Hfuel.
    destruct dfuel as [|dfuel]; [lia|].
    assert (Hm2 : pl_buf (data (fl_link st2)) `prefix_of` mem).
    { etransitivity; [exact Hpre2|]. etransitivity; [|exact Hm]. apply prefix_app_r. reflexivity. }
    assert (Hm1t : (pl_buf (data (fl_link st1)) ++ take 16 (GBT.trailer 0 0 0)) `prefix_of` mem).
    { etransitivity; [|exact Hm2]. rewrite Hbuf2, <- app_assoc. apply prefix_app_r. reflexivity. }
    assert (Hm1 : pl_buf (data (fl_link st1)) `prefix_of` mem).
    { etransitivity; [|exact Hm1t]. apply prefix_app_r. reflexivity. }
    destruct (Hwords mem ruD dec0 (S dfuel) 0%nat Hm1 Hmir ltac:(lia)) as (ruD1 & -> & M1).
    pose proof (Q11 mem Hm1) as Hrd.
    pose proof Hp2 as (_ & R2 & _ & _ & _ & R6 & _ & _ & _ & R10 & R11).
    pose proof (R11 mem Hm2) as Hrd2.
    pose proof (isRDHHeuristic_headerSize _ R2) as Hhs2.
    destruct (decodePageRest_next dfuel GBTPaddedWordLength mem pOff
                (PL.getSize (data (fl_link st1))) ri ruD1) as (ruD0 & Hc0 & ->).
    { unfold GBT.isDataTrailer, PL.getSize.
      rewrite (flag_at _ _ mem GBT.FlagDataTrailer Hm1t (length_GBT_trailer _ _ _) eq_refl).
      reflexivity. }
    { rewrite Hrd, Hoff. discriminate. }
    { rewrite Hrd, Hoff, Hrd2. exact Hsame. }
    { rewrite Hrd, Hoff, Hrd2, Hhs2. unfold GBT.isDataHeader.
      replace (pOff + MaxGBTPacketBytes + sizeofRDH)
        with (Z.of_nat (length ((pl_buf (data (fl_link st1)) ++ take 16 (GBT.trailer 0 0 0))
                                ++ writeRDH (fl_rdh st2)))).
      - rewrite (flag_at _ (GBT.header (pageCnt (fl_rdh st2)) (lanes (fl_link st1))) mem
                         GBT.FlagDataHeader); [reflexivity| |apply length_GBT_header|reflexivity].
        rewrite <- Hbuf2. exact Hm2.
      - rewrite !length_app, length_take, length_GBT_trailer, length_writeRDH.
        unfold PL.getSize, GBTPaddedWordLength, sizeofRDH in *. lia. }
    rewrite Hrd, Hoff, Hrd2, Hhs2, R6.
    change (fl_inPacket st2) with 0 in *. rewrite Z.add_0_r.
    replace (Z.quot (sizeofRDH + (Z.min (fl_needed st2) maxWordsPerPage + 2)
                                 * GBTPaddedWordLength - sizeofRDH) GBTPaddedWordLength - 2)
      with (Z.min (fl_needed st2) (maxWordsPerPage - 0)).
    2: { replace (sizeofRDH + (Z.min (fl_needed st2) maxWordsPerPage + 2) * GBTPaddedWordLength
                  - sizeofRDH)
           with ((Z.min (fl_needed st2) maxWordsPerPage + 2) * GBTPaddedWordLength) by lia.
         rewrite Z.quot_mul by (unfold GBTPaddedWordLength; lia). lia. }
    replace (pOff + MaxGBTPacketBytes + sizeofRDH + GBTPaddedWordLength)
      with (PL.getSize (data (fl_link st2))) by (rewrite R10; lia).
    destruct (Hdec mem ruD0 dec0 dfuel Hm) as (ruD' & D & M).
    { rewrite Hl2, Hl1, Hc2. apply (cablesMirror_same _ _ _ _ _ Hc0). exact M1. }
    { replace (pOff + MaxGBTPacketBytes + MaxGBTPacketBytes * Z.of_nat np)
        with (pOff + MaxGBTPacketBytes * Z.of_nat (S np)) by lia. exact Hnot. }
    { lia. }
    exists ruD'. split.
    + replace (pOff + MaxGBTPacketBytes * Z.of_nat (S np))
        with (pOff + MaxGBTPacketBytes + MaxGBTPacketBytes * Z.of_nat np) by lia.
      exact D.
    + rewrite Hl2, Hl1 in M. exact M.
  - (* the page in progress goes on, or the data are written *)
    destruct (Z.eqb_spec (fl_needed st1) 0) as [Ez|Enz].
    + apply Some_eq_inv in H. subst st'. exists 0%nat.
      split; [rewrite Hpg1; lia|]. split; [rewrite Hpg1, Hr1; exact Hlast|].
      split; [exact Hok1|].
      intros mem ruD dec0 dfuel Hm Hmir Hnot _.
      assert (Hm1 : pl_buf (data (fl_link st1)) `prefix_of` mem).
      { etransitivity; [|exact Hm]. apply prefix_app_r. reflexivity. }
      destruct (Hwords mem ruD dec0 dfuel 0%nat Hm1 Hmir ltac:(lia)) as (ruD1 & -> & M1).
      pose proof (Q11 mem Hm1) as Hrd.
      replace (pOff + MaxGBTPacketBytes * Z.of_nat 0) with pOff in * by lia.
      pose proof Hp1 as (_ & _ & _ & _ & _ & S6 & S7 & _).
      destruct (decodePageRest_last dfuel GBTPaddedWordLength mem pOff
                  (PL.getSize (data (fl_link st1))) ri ruD1) as (ruD' & D & Hc').
      { unfold GBT.isDataTrailer, PL.getSize.
        rewrite (flag_at _ _ mem GBT.FlagDataTrailer Hm (length_GBT_trailer _ _ _) eq_refl).
        reflexivity. }
      { unfold GBT.getPacketState, PL.getSize.
        apply (state_at _ _ mem _ Hm (length_GBT_trailer _ _ _) eq_refl). }
      { rewrite Hrd, S7. destruct impose; [discriminate|]. rewrite S6.
        unfold sizeofRDH, maxWordsPerPage, GBTPaddedWordLength. lia. }
      { rewrite Hrd. exact Hnot. }
      exists ruD'. rewrite Hrd in D. split; [exact D|].
      apply (cablesMirror_same _ _ _ _ _ Hc'). exact M1.
    + cbn [negb andb] in Enew. apply Z.leb_gt in Enew.
      destruct (IH st1 st' pOff H HnC) as (np & Hlen & Hlast' & Hok' & Hdec).
      { rewrite Hl1. exact Hflags. }
      { exact Hok1. }
      { exact Hneed1. }
      { exact Enew. }
      { exact Hp1. }
      { rewrite Hpg1, Hr1. exact Hlast. }
      exists np. split; [rewrite Hlen, Hpg1; reflexivity|]. split; [exact Hlast'|].
      split; [exact Hok'|].
      intros mem ruD dec0 dfuel Hm Hmir Hnot Hfuel.
      pose proof (fillPages_grows _ _ _ _ _ _ _ _ _ H) as (_ & Hpre2 & _).
      assert (Hm1 : pl_buf (data (fl_link st1)) `prefix_of` mem).
      { etransitivity; [exact Hpre2|]. etransitivity; [|exact Hm].
        apply prefix_app_r. reflexivity. }
      destruct (Hwords mem ruD dec0 dfuel
                  (Z.to_nat (Z.min (fl_needed st1) (maxWordsPerPage - fl_inPacket st1)))
                  Hm1 Hmir ltac:(lia)) as (ruD1 & -> & M1).
      rewrite Hl1 in Hdec.
      destruct (Hdec mem ruD1 dec0 dfuel Hm M1 Hnot Hfuel) as (ruD' & D & M).
      exists ruD'. split; [exact D|exact M].
Qed.

(** X23: what [fillRULinks] writes for a link over any number of pages,
    [decodeRUData] reads back. Take a reader with 16-byte GBT words, a
    link with the cable buffers of its lanes unread, so few words that the
    16-bit [memorySize] of the first header does not wrap, a header that
    passes [isRDHHeuristic] with its fields in range and a trigger type
    that is not 0, and a mapping whose GBT flag of every active cable is
    not the trailer flag and leads back to the index of the cable. Then the
    last page written has the header [fl_rdh st], every page before it
    takes 8192 bytes of the link buffer, and [decodeRUData], given a unit
    of fuel per page and started at the first page on any memory that
    begins with the link buffer and in which the header found after the
    last page does not continue the trigger, does not abort, stops
    [offsetToNext] bytes after the last header, and has appended to the
    slot of every active cable the bytes of that cable, padded with zeros
    to a multiple of 9; the slots of the other cables are unchanged. *)
Theorem fillLink_pages_decoded {MAP : Mapping} (fuel : nat) (rd : RawPixelReader)
        (ri : RUInfo.t) (hwid : list Z) (il : Z) (rdh : RDH) (link : RULink)
        (cables : list PayLoadCont) (st : FillLoop) :
  let N := wordsNeeded (Z.to_nat (RUInfo.nCables ri)) link cables in
  let off := PL.getSize (data link) in
  let np := length (fl_pages st) in
  let hl := fl_rdh st in
  let endp := off + MaxGBTPacketBytes * (Z.of_nat np - 1) + offsetToNext hl in
  fillLink fuel rd ri hwid il rdh link cables = Some st ->
  mGBTWordSize rd = GBTPaddedWordLength ->
  rdhStored rdh = rdh -> isRDHHeuristic rdh = true -> triggerType rdh <> 0 ->
  0 <= RUInfo.nCables ri ->
  cableFlagsOK ri (lanes link) hwid (RUInfo.nCables ri) ->
  Forall cableReadOK cables ->
  (forall (i : nat) c, cables !! i = Some c ->
     Z.land (lanes link) (Z.shiftl 1 (Z.of_nat i)) <> 0 -> pl_ptr c = 0) ->
  sizeofRDH + (N + 2) * GBTPaddedWordLength < 2 ^ 16 ->
  last (fl_pages st) = Some hl
  /\ forall (mem : list Z) (ruD : RUDecodeData) (dfuel : nat),
       pl_buf (data (fl_link st)) `prefix_of` mem ->
       ruInfo ruD = Some ri ->
       isSameRUandTrigger hl (readRDH mem endp) = false ->
       (np <= dfuel)%nat ->
       exists ruD',
         decodeRUData dfuel GBTPaddedWordLength mem off ruD = Some (endp, ruD', false)
         /\ length (cableData ruD') = length (cableData ruD)
         /\ forall (j : nat) e d0,
              cables !! j = Some e -> cableData ruD !! j = Some d0 ->
              Z.of_nat j < RUInfo.nCables ri ->
              cableData ruD' !! j
              = Some (if Z.land (lanes link) (Z.shiftl 1 (Z.of_nat j)) =? 0 then d0
                      else PL.add d0 (pad9 (pl_buf e))).
Proof.
  intros N off np hl endp H Hwsz Hst Hh Htt HnC Hflags Hok Hptr HN.
  pose proof (isRDHHeuristic_headerSize _ Hh) as Hhs.
  pose proof (wordsNeeded_nonneg (Z.to_nat (RUInfo.nCables ri)) link cables Hptr) as HN0.
  fold N in HN0.
  unfold fillLink in H. fold N in H. rewrite Hwsz, Hhs in H.
  change (Z.quot (MaxGBTPacketBytes - sizeofRDH) GBTPaddedWordLength - 2)
    with maxWordsPerPage in H.
  set (h0 := set_feeId_link (RUSW2FEEId (RUInfo.idSW ri) il) il rdh) in H.
  set (h := set_offsetToNext _ (set_memorySize _ (set_page 0 0 h0))) in H.
  match type of H with
  | (mbind _ (fillPages _ _ _ _ _ _ _ ?s)) = _ => set (st0 := s) in H
  end.
  destruct (fillPages _ _ _ _ _ _ _ st0) as [st1|] eqn:E1; [|discriminate].
  cbn [mbind option_bind] in H. apply Some_eq_inv in H.
  assert (Hpgs : fl_pages st = fl_pages st1) by (rewrite <- H; reflexivity).
  assert (Hrdh : fl_rdh st = fl_rdh st1) by (rewrite <- H; reflexivity).
  assert (Hbuf : pl_buf (data (fl_link st))
                 = pl_buf (data (fl_link st1))
                   ++ take 16 (GBT.trailer (lanes (fl_link st1)) 0 (Z.shiftl 1 GBT.PacketDone)))
    by (rewrite <- H; reflexivity).
  clear H. subst np hl endp. rewrite Hpgs, Hrdh. clear Hpgs Hrdh.
  (* the header of the first page *)
  assert (Hpms : pageMemorySize N GBTPaddedWordLength
                 = sizeofRDH + (Z.min N maxWordsPerPage + 2) * GBTPaddedWordLength)
    by (apply pageMemorySize_padded; assumption).
  assert (Hms : memorySize h
                = sizeofRDH + (Z.min N maxWordsPerPage + 2) * GBTPaddedWordLength).
  { subst h. cbn [memorySize set_offsetToNext set_memorySize]. rewrite Hpms.
    apply trunc_small; [lia|].
    unfold sizeofRDH, maxWordsPerPage, GBTPaddedWordLength. lia. }
  assert (Hon : offsetToNext h = if mImposeMaxPage rd then MaxGBTPacketBytes else memorySize h).
  { subst h. cbn [offsetToNext memorySize set_offsetToNext set_memorySize].
    destruct (mImposeMaxPage rd); [reflexivity|]. apply trunc_trunc. lia. }
  assert (Hs0 : rdhStored h0 = h0).
  { subst h0. unfold rdhStored, set_feeId_link.
    cbn [version headerSize blockLength feeId priority zero0 offsetToNext memorySize linkID
         packetCounter cruID zero1 triggerOrbit heartbeatOrbit triggerBC zero41 heartbeatBC
         zero42 triggerType word5 detectorField par stop pageCnt zero6].
    f_equal; first [apply trunc_trunc; lia | rdh_field Hst]. }
  assert (Hsh : rdhStored h = h).
  { subst h. unfold rdhStored, set_offsetToNext, set_memorySize, set_page.
    cbn [version headerSize blockLength feeId priority zero0 offsetToNext memorySize linkID
         packetCounter cruID zero1 triggerOrbit heartbeatOrbit triggerBC zero41 heartbeatBC
         zero42 triggerType word5 detectorField par stop pageCnt zero6].
    f_equal; first [apply trunc_trunc; lia | rdh_field Hs0]. }
  assert (Hheur : isRDHHeuristic h = true) by exact Hh.
  assert (Hhsh : headerSize h = sizeofRDH) by exact Hhs.
  assert (Hbuf0 : pl_buf (data (fl_link st0))
                  = (pl_buf (data link) ++ writeRDH h)
                    ++ take 16 (GBT.header 0 (lanes link))).
  { transitivity ((pl_buf (data link) ++ take (Z.to_nat (headerSize h)) (writeRDH h))
                  ++ take 16 (GBT.header 0 (lanes link))); [reflexivity|].
    rewrite Hhsh. rewrite (take_ge (writeRDH h)) by (rewrite length_writeRDH; reflexivity).
    reflexivity. }
  assert (Hsz0 : PL.getSize (data (fl_link st0)) = off + sizeofRDH + GBTPaddedWordLength).
  { unfold PL.getSize. rewrite Hbuf0, !length_app, length_writeRDH, length_take,
      length_GBT_header. subst off. unfold PL.getSize, sizeofRDH, GBTPaddedWordLength. lia. }
  assert (Hl0 : lanes (fl_link st0) = lanes link) by reflexivity.
  assert (Hc0 : fl_cables st0 = cables) by reflexivity.
  assert (Hn0 : fl_needed st0 = N) by reflexivity.
  assert (Hi0 : fl_inPacket st0 = 0) by reflexivity.
  assert (Hr0 : fl_rdh st0 = h) by reflexivity.
  assert (Hp0 : fl_pages st0 = [h]) by reflexivity.
  assert (Hneed0 : fl_needed st0
                   = remWords (lanes (fl_link st0)) (fl_cables st0) 0
                              (Z.to_nat (RUInfo.nCables ri))).
  { rewrite Hn0, Hl0, Hc0. apply wordsNeeded_remWords. exact Hptr. }
  assert (Hopen : pageOpen (mImposeMaxPage rd) st0 off).
  { unfold pageOpen. rewrite Hr0, Hn0, Hi0, Hsz0.
    split; [exact Hsh|]. split; [exact Hheur|]. split; [exact Htt|].
    change (pageCnt h) with 0.
    split; [lia|]. split; [rewrite Z.mul_0_l, Z.add_0_l, Z.add_0_r; exact HN|].
    split; [rewrite Z.add_0_r; exact Hms|]. split; [exact Hon|].
    split; [lia|]. split; [lia|]. split; [unfold GBTPaddedWordLength; lia|].
    intros mem Hm. rewrite Hbuf0, <- app_assoc in Hm. subst off. unfold PL.getSize.
    rewrite (readRDH_at _ _ _ _ Hm). exact Hsh. }
  clearbody st0 h.
  pose proof (cableReadOK_ptr _ Hok) as Hptr0.
  destruct (fillPages_drain _ _ _ _ _ _ _ _ _ E1 ltac:(rewrite Hc0; exact Hptr0) Hneed0)
    as (Hn1 & Hrem & Hbufs & Hl1).
  destruct (fillPages_pages_decoded _ _ _ _ _ st0 st1 off E1 HnC
              ltac:(rewrite Hl0; exact Hflags) ltac:(rewrite Hc0; exact Hok) Hneed0
              ltac:(rewrite Hi0; reflexivity) Hopen ltac:(rewrite Hp0, Hr0; reflexivity))
    as (np' & Hlen & Hlast & Hok1 & Hdec).
  split; [exact Hlast|].
  rewrite Hlen, Hp0. cbn [length].
  replace (Z.of_nat (1 + np') - 1) with (Z.of_nat np') by lia.
  intros mem ruD dfuel Hm Hri Hnot Hfuel.
  destruct dfuel as [|dfuel]; [lia|].
  rewrite Hbuf in Hm.
  pose proof (fillPages_grows _ _ _ _ _ _ _ _ _ E1) as (_ & Hpre1 & _).
  assert (Hm0 : pl_buf (data (fl_link st0)) `prefix_of` mem).
  { etransitivity; [exact Hpre1|]. etransitivity; [|exact Hm]. apply prefix_app_r. reflexivity. }
  pose proof Hopen as (_ & _ & _ & _ & _ & _ & _ & _ & _ & _ & P11).
  pose proof (P11 mem Hm0) as F1. rewrite Hr0 in F1.
  unfold decodeRUData. rewrite F1, Hheur. cbn [negb]. rewrite Hri. cbn [mbind option_bind].
  match goal with |- context [decodeRUPages _ _ _ _ _ ?d] => set (ruDa := d) end.
  destruct (decodeRUPages_rest dfuel GBTPaddedWordLength mem off ri ruDa) as (ruD0 & Hcd0 & ->).
  { rewrite F1, Hhsh. unfold GBT.isDataHeader.
    replace (off + sizeofRDH) with (Z.of_nat (length (pl_buf (data link) ++ writeRDH h)))
      by (rewrite length_app, length_writeRDH; subst off; unfold PL.getSize, sizeofRDH; lia).
    rewrite (flag_at _ (GBT.header 0 (lanes link)) mem GBT.FlagDataHeader);
      [reflexivity| |apply length_GBT_header|reflexivity].
    rewrite <- Hbuf0. exact Hm0. }
  rewrite F1, Hhsh, Hms.
  replace (Z.quot (sizeofRDH + (Z.min N maxWordsPerPage + 2) * GBTPaddedWordLength - sizeofRDH)
                  GBTPaddedWordLength - 2)
    with (Z.min (fl_needed st0) (maxWordsPerPage - fl_inPacket st0)).
  2: { rewrite Hn0, Hi0.
       replace (sizeofRDH + (Z.min N maxWordsPerPage + 2) * GBTPaddedWordLength - sizeofRDH)
         with ((Z.min N maxWordsPerPage + 2) * GBTPaddedWordLength) by lia.
       rewrite Z.quot_mul by (unfold GBTPaddedWordLength; lia). lia. }
  rewrite <- Hsz0.
  destruct (Hdec mem ruD0 (cableData ruD) dfuel Hm) as (ruD' & D & M).
  { rewrite Hl0, Hc0, Hcd0. change (cableData ruDa) with (cableData ruD).
    split; [reflexivity|]. intros j d0 Hd0.
    destruct (cables !! j) as [e|] eqn:Ee; [|exact Hd0].
    destruct (Z.eqb_spec (Z.land (lanes link) (Z.shiftl 1 (Z.of_nat j))) 0) as [|Hact];
      [exact Hd0|].
    rewrite Hd0. f_equal. destruct d0 as [b p]. cbn [pl_buf pl_ptr].
    unfold consumed, pad9. rewrite (Hptr j e Ee Hact). cbn. rewrite app_nil_r. reflexivity. }
  { exact Hnot. }
  { lia. }
  exists ruD'. split; [exact D|].
  rewrite Hl0 in M, Hrem. destruct M as [Mlen M]. split; [exact Mlen|].
  intros j e d0 He Hd0 Hj. specialize (M j d0 Hd0).
  assert (He1 : exists e1, fl_cables st1 !! j = Some e1 /\ pl_buf e1 = pl_buf e).
  { assert (Hf : (pl_buf <$> fl_cables st1) !! j = Some (pl_buf e))
      by (rewrite Hbufs, Hc0, list_lookup_fmap, He; reflexivity).
    rewrite list_lookup_fmap in Hf. destruct (fl_cables st1 !! j) as [e1|]; [|discriminate].
    exists e1. split; [reflexivity|]. cbn in Hf. congruence. }
  destruct He1 as (e1 & He1 & Hb1). rewrite He1 in M.
  destruct (Z.eqb_spec (Z.land (lanes link) (Z.shiftl 1 (Z.of_nat j))) 0) as [|Hact];
    [exact M|].
  rewrite M. unfold PL.add. f_equal. f_equal. f_equal. rewrite <- Hb1. f_equal.
  apply (drained_consumed (lanes link) (fl_cables st1) j); [|exact Hact|exact He1|].
  - pose proof (remWords_zero _ _ _ _ Hrem j ltac:(lia)) as Hz.
    replace (0 + Z.of_nat j) with (Z.of_nat j) in Hz by lia. exact Hz.
  - eapply Forall_lookup_1; eassumption.
Qed.

Lemma unread_cableReadOK (c : PayLoadCont) : pl_ptr c = 0 -> cableReadOK c.
Proof.
  intros H. unfold cableReadOK, PL.getSize. rewrite H. split; [lia|left; reflexivity].
Qed.

Lemma fillLink_pages_decoded_witness :
  exists st ruD',
    fillLink 600 readerInit (Example.ruInfoOf 0) [0; 1; 2; 3; 4; 5; 6; 7; 8] 0
             (fillRDH readerInit) (set_lanes 0x1ff linkDefault) manyWords = Some st
    /\ length (fl_pages st) = 2%nat
    /\ decodeRUData 2 GBTPaddedWordLength (pl_buf (data (fl_link st))) 0 Inputs.ru0
       = Some (MaxGBTPacketBytes + offsetToNext (fl_rdh st), ruD', false)
    /\ cableData ruD' !! 0%nat = Some (PL.add PL.empty (pad9 (replicate 4600 1))).
Proof.
  let o := eval vm_compute in
      (fillLink 600 readerInit (Example.ruInfoOf 0) [0; 1; 2; 3; 4; 5; 6; 7; 8] 0
                (fillRDH readerInit) (set_lanes 0x1ff linkDefault) manyWords) in
  match o with
  | Some ?s => pose (st := s)
  end.
  assert (E : fillLink 600 readerInit (Example.ruInfoOf 0) [0; 1; 2; 3; 4; 5; 6; 7; 8] 0
                       (fillRDH readerInit) (set_lanes 0x1ff linkDefault) manyWords
              = Some st) by (vm_compute; reflexivity).
  destruct (fillLink_pages_decoded 600 readerInit (Example.ruInfoOf 0)
              [0; 1; 2; 3; 4; 5; 6; 7; 8] 0
              (fillRDH readerInit) (set_lanes 0x1ff linkDefault) manyWords st E)
    as (_ & Hdec).
  - reflexivity.
  - vm_compute. reflexivity.
  - reflexivity.
  - vm_compute. discriminate.
  - vm_compute. discriminate.
  - split; [vm_compute; discriminate|].
    intros j hw Hj _ Hhw. change (RUInfo.nCables (Example.ruInfoOf 0)) with 9 in Hj.
    do 9 (destruct j as [|j];
          [apply Some_eq_inv in Hhw; subst hw; vm_compute; split; [discriminate|reflexivity]|]).
    lia.
  - apply Forall_forall. intros c Hc. apply list_elem_of_lookup in Hc. destruct Hc as [i Hi].
    apply unread_cableReadOK. eapply manyWords_unread. exact Hi.
  - intros i c Hc _. eapply manyWords_unread. exact Hc.
  - vm_compute. reflexivity.
  - destruct (Hdec (pl_buf (data (fl_link st))) Inputs.ru0 2%nat)
      as (ruD' & D & _ & Hc).
    + reflexivity.
    + reflexivity.
    + vm_compute. reflexivity.
    + vm_compute. lia.
    + exists st, ruD'. split; [exact E|]. split; [vm_compute; reflexivity|].
      split; [exact D|].
      exact (Hc 0%nat _ _ eq_refl eq_refl eq_refl).
Defined.
